(* ===== verification/_CoqProject ===== *)
-Q . S2P
Prelude.v
Spinlock.v
Uart.v
Mem.v
Kalloc.v
Vm.v
PageTable.v
AddrSpace.v
Took.v
Uvm.v
Teardown.v
Packet.v
Net.v
Dns.v
NetDemo.v
Disk.v
Fs.v
FsLayout.v
FsOps.v
FsRead.v
FsWrite.v
FsSpec.v
MkFs.v
Console.v
Sched.v
SchedInv.v
SchedStep.v
SchedSpec.v
Elf.v
Proc.v
Image.v
Reap.v
ProcSpec.v
Virtio.v
VirtioSpec.v
VirtioInit.v
NetDriver.v
NetDriverSpec.v
NetDriverOps.v
NetDriverInit.v
NetSim.v
Frame.v
Driver.v
World.v
Syscall.v
SyscallSpec.v
Trap.v
TrapSpec.v
Boot.v
BootSpec.v
BootUp.v
Shell.v
ShellSpec.v
User.v
UserSpec.v
UserTests.v
