(* ===== verification/Prelude.v ===== *)
(** * kernel-hobby: a verification library

    kernel-hobby is a small RISC-V kernel in C: Sv39 paging with copy-on-write,
    a preemptive scheduler for three harts, a logging file system on a virtio
    disk, a network stack on a virtio network card, and a user-space shell. This
    library models the C code, one definition per C function, and proves what
    makes each part, and their composition, correct.

    ** How the code is modelled

    A C function is a definition in the monad [M S A]: from a state [S] it ends
    with a result ([Done]), stops for good, as in [for (;;)] ([Halt]), or runs
    into undefined behaviour, such as an access outside of RAM or of an array
    ([Undef]). [wp m Q s] says that [m] from [s] ends with [Done] and a result
    and state that satisfy [Q]: every theorem stated with it, or with an
    equation [m s = Done r s'], includes termination and the absence of
    undefined behaviour. [wlp] is used where a function may also stop for good.
    Integers are [Z], wrapped where the C type wraps ([u8] to [u64], [i32]);
    memory is a map from addresses to bytes. Loops whose bound is not in the
    code have fuel ([loop fuel]); theorems say how much is enough.

    The state of a component is a record. Components that share state meet
    through classes: [HasDev] (locks and serial port inside a state), [HasMachine]
    (physical memory), [BlockDev] and [Nic] (the drivers), [Images] (what the
    scheduler needs of a process's memory), [Statics] (linker addresses). The
    laws of an interface ([HasDevLaws], [BlockDevLaws], [NicLaws], ...) are what
    its clients' theorems assume and its implementation's theorems discharge.

    ** The parts

    - Prelude: the monad, its program logic, integers, bytes, tactics.
    - Spinlock (src/spinlock.c): [acquire], [release], [push_off], [pop_off] of one
      hart; and all harts interleaved, with mutual exclusion.
    - Uart (src/uart.c): output, with everything transmitted in the trace [tx].
    - Mem, Kalloc (src/kalloc.c): memory, and the page allocator with reference
      counts. Its contract is the abstract map from live pages to counts.
    - Vm, PageTable, AddrSpace, Uvm, Teardown (src/vm.c): the operations on page
      tables; a representation of a table by the map [T] from paths to pages;
      each operation as a step on translations, reference counts and memory:
      mapping, unmapping, copy-on-write sharing and its fault, freeing.
    - Packet, Net, Dns (src/net.c from line 93): checksums and packets as pure
      functions; ARP, UDP, DNS, ICMP and TCP over the interface [Nic].
    - NetDriver, NetDriverSpec, NetDriverOps, NetDriverInit, NetSim (src/net.c to
      line 271): the virtio network driver, as a queue in and a queue out against
      any device that takes the steps [nstep]; it implements [NicLaws].
    - Disk: the contract of the block device. Fs, FsLayout, FsOps, FsRead, FsWrite,
      FsSpec (src/fs.c, src/fsformat.h): the file system, against the abstract
      list of files, with crashes at any point. MkFs (src/tools/mkfs.c): the
      image builder, and that its images mount.
    - Virtio, VirtioSpec, VirtioInit (src/virtio.c): the virtio disk driver,
      against any device with [VirtioBlkLaws]; it implements [BlockDevLaws].
    - Console (src/console.c): the input buffer, equivalent to a queue.
    - Sched, SchedInv, SchedStep, SchedSpec (src/proc.c, src/trap.c): scheduler,
      sleep and wake-up, fork, exit and wait on any number of harts, as a
      transition system ([exec] is one step of one hart, from one point where
      others can interfere to the next), with an invariant of all reachable
      states.
    - Elf (src/elf.c): the program loader. Proc, ProcSpec, Image (src/proc.c): the
      memory of processes; page faults; the memory of the first process.
    - Frame, Syscall, SyscallSpec (src/user.c, src/trap.c): the dispatch of
      system calls and exceptions, reading user memory through its page table;
      from a trap to the return and the files on the disk.
    - Trap, TrapSpec (src/trap.c, src/plic.c, the receiving half of src/uart.c):
      enabling, the timer, the interrupt controller (an interface [PlicDev] with
      laws [PlicLaws]) and the interrupt branch of [kerneltrap]; serving an
      interrupt is an event of Sched.v.
    - Driver, World: the drivers behind the interfaces of their clients, and the
      state of the machine with both devices and their drivers.
    - Boot, BootSpec, BootUp (src/main.c, entry.S): [kmain] and [hart_main] on the
      whole state, part by part and as a whole.
    - Shell, ShellSpec (src/shell.c): the kernel shell (not linked into the
      kernel), against a line editor and a grammar of commands.
    - User, UserSpec, UserTests (src/user): the user programs as interaction
      trees over their system calls and their accesses to memory from the
      kernel. A string argument is what the kernel reads through the pointer;
      a read never stores more than was asked for.

    A definition carries the name of its C function; the pieces a C function
    was cut into carry names of their own and quote the line they stand for.

    ** What the theorems show

    - Contracts: the allocator, the file system calls, a disk transfer, the
      network queues and the file system calls seen from user memory implement
      their abstract specifications ([allocator_refines], [fs_calls_refine],
      [virtio_disk_rw_transfers], [nic_queues], [file_syscall]).
    - Crash safety ([fs_crash_atomic]) and mounting ([mkfs_mounts]).
    - Isolation of address spaces ([proc_pagetable_maps], [cow_share_shares],
      [cow_fault_copies], [vm_free_range_drops], [heap_fault_maps]).
    - Concurrency: [mutual_exclusion], [sched_processes], [no_lost_wakeup],
      [wait_reaps], [lock_released]; [interrupts_are_events].
    - Initialisation establishes the invariants ([kinit_frees_ram],
      [kvminit_identity], [virtio_disk_init_ready], [net_init_ready],
      [user_image_built]), and so does booting as a whole ([kernel_boots]): its
      last state is one from which the theorems on the scheduler, the file system
      and the address spaces go on.
    - The shells and the user programs, whatever the kernel answers:
      [user_shell_refines], [shell_edits_and_runs], [uthread_takes_turns]; and
      the test programs on a kernel that keeps its promises, [user_tests_pass].
    - Round trips of packets and names, the console as a queue, the loader.
    - What the code does not guarantee: see the theorems named in the findings of
      the manifest, e.g. [udp_rx_overread], [yield_turns_interrupts_on].

    ** Bounds and fuel

    A hart gives [pt_lock] up within 161 of its steps (four for each of the eight
    slots, one for each of the 128 characters of the console, and one). Polling
    the disk needs one round more than the device's latency, and the driver's
    loop has no bound of its own; the network loops carry the code's own bounds.
    An access of the kernel to user memory faults at most twice (absent, then
    read-only), so [touch] allows three. The receiver is emptied in one round for
    each character and one more. The test programs end within 300 moves.

    ** What is idealised

    The scheduler's state keeps the lock words it needs ([pt_lock]) beside those
    of the machine; a section under another lock is one step of its hart. When
    the kernel boots, the harts enter [kmain] one after another, the first one to
    the end, and the theorem is for a machine without a network card; that the
    card comes up is [net_init_ready]. The contexts of uthread.c are the points
    of the code they resume.

    ** Not modelled

    Assembly (kernelvec.S, swtch.S, initcode.S, the stacks of entry.S): its effect
    is in the steps of Sched.v; host scripts and build files; the hart's memory
    model (the harts see one memory, fences do nothing); the TLB, except for
    counting the flushes. *)
From Stdlib Require Export ZArith Lia List.
From stdpp Require Export base gmap list strings.

#[global] Set Default Goal Selector "!".
#[global] Open Scope Z_scope.

(** ** Machine-width integers *)

Definition u8 (x : Z) : Z := x mod 2 ^ 8.
Definition u16 (x : Z) : Z := x mod 2 ^ 16.
Definition u32 (x : Z) : Z := x mod 2 ^ 32.
Definition u64 (x : Z) : Z := x mod 2 ^ 64.
(** A conversion to [int]: two's complement on 32 bits. *)
Definition i32 (x : Z) : Z := (x + 2 ^ 31) mod 2 ^ 32 - 2 ^ 31.

(** ** C strings: an array of bytes read up to its terminator *)

(** The characters before the first NUL; [None] when the array holds no NUL
    and the C code would read past its end. *)
Fixpoint c_string (l : list Z) : option (list Z) :=
  match l with
  | [] => None
  | c :: l => if c =? 0 then Some [] else (c ::.) <$> c_string l
  end.

Fixpoint of_string (s : string) : list Z :=
  match s with
  | EmptyString => []
  | String a s => Z.of_N (Ascii.N_of_ascii a) :: of_string s
  end.

(** ** Little-endian byte sequences *)

Fixpoint le_bytes (n : nat) (v : Z) : list Z :=
  match n with
  | O => []
  | S n => v mod 256 :: le_bytes n (v / 256)
  end.

Fixpoint le_val (l : list Z) : Z :=
  match l with
  | [] => 0
  | b :: l => b + 256 * le_val l
  end.

Definition is_byte (b : Z) : Prop := 0 ≤ b < 256.

(** The slice [l[off .. off+n)]. *)
Definition slice {A} (off n : nat) (l : list A) : list A := take n (drop off l).

(** ** Byte arrays: an access outside the array is undefined ([None]) *)

(** [copy(b, l, n)] *)
Fixpoint put_front (l b : list Z) : option (list Z) :=
  match l, b with
  | [], _ => Some b
  | x :: l, _ :: b => (x ::.) <$> put_front l b
  | _ :: _, [] => None
  end.

(** [copy(b + off, l, n)]: the bytes [l] over those from [off] on. *)
Fixpoint overwrite (off : nat) (l b : list Z) : option (list Z) :=
  match off, b with
  | O, _ => put_front l b
  | S off, y :: b => (y ::.) <$> overwrite off l b
  | S _, [] => None
  end.

(** [b[off .. off+n)], undefined when it leaves the buffer. *)
Definition region (off n : nat) (b : list Z) : option (list Z) :=
  if (off + n <=? length b)%nat then Some (slice off n b) else None.

(** ** The effect monad *)

(** A call returns a value and a state, or never returns ([Halt]: the code
    spins for ever), or has undefined behaviour (an access outside an object). *)
Inductive outcome (S A : Type) : Type :=
| Done (a : A) (s : S)
| Halt (s : S)
| Undef.
Arguments Done {S A} a s.
Arguments Halt {S A} s.
Arguments Undef {S A}.

Lemma done_inj {S A : Type} (a b : A) (s t : S) : Done a s = Done b t → a = b ∧ s = t.
Proof. by intros [= -> ->]. Qed.

Definition M (S A : Type) : Type := S → outcome S A.

#[export] Instance M_ret (S : Type) : MRet (M S) := λ A a s, Done a s.
#[export] Instance M_bind (S : Type) : MBind (M S) := λ A B f m s,
  match m s with
  | Done a s' => f a s'
  | Halt s' => Halt s'
  | Undef => Undef
  end.

Definition get {S : Type} : M S S := λ s, Done s s.
Definition modify {S : Type} (f : S → S) : M S unit := λ s, Done tt (f s).
Definition gets {S A : Type} (f : S → A) : M S A := λ s, Done (f s) s.
Definition undef {S A : Type} : M S A := λ _, Undef.
Definition halt {S A : Type} : M S A := λ s, Halt s.
(** Undefined unless the condition holds: the bounds the C code relies on. *)
Definition assertb {S : Type} (b : bool) : M S unit := λ s, if b then Done tt s else Undef.
Definition of_option {S A : Type} (o : option A) : M S A := λ s,
  match o with Some a => Done a s | None => Undef end.
Definition when {S : Type} (b : bool) (m : M S unit) : M S unit := if b then m else mret tt.

(** Run a computation on a component of the state. *)
Definition zoom {S T A : Type} (g : S → T) (p : T → S → S) (m : M T A) : M S A := λ s,
  match m (g s) with
  | Done a t => Done a (p t s)
  | Halt t => Halt (p t s)
  | Undef => Undef
  end.

(** [for (x = i; ...; x++)] run [n] times. *)
Fixpoint for_n {S : Type} (n : nat) (i : Z) (body : Z → M S unit) : M S unit :=
  match n with
  | O => mret tt
  | S n => body i;; for_n n (i + 1) body
  end.

(** A loop whose body says whether to go on with a new loop state or to leave
    with a result; running out of fuel counts as not terminating. *)
Fixpoint loop {S X A : Type} (fuel : nat) (body : X → M S (X + A)) (x : X) : M S A :=
  match fuel with
  | O => halt
  | S fuel => r ← body x; match r with inl x' => loop fuel body x' | inr a => mret a end
  end.

(** ** Weakest preconditions (total correctness: returns, no undefined behaviour) *)

Definition wp {S A : Type} (m : M S A) (Q : A → S → Prop) (s : S) : Prop :=
  match m s with
  | Done a s' => Q a s'
  | _ => False
  end.

Section wp.
Context {S : Type}.

Lemma wp_ret {A} (a : A) (Q : A → S → Prop) s : Q a s → wp (mret a) Q s.
Proof. done. Qed.

Lemma wp_bind {A B} (m : M S A) (f : A → M S B) Q s :
  wp m (λ a, wp (f a) Q) s → wp (m ≫= f) Q s.
Proof. unfold wp, mbind, M_bind. by destruct (m s). Qed.

Lemma wp_bind_inv {A B} (m : M S A) (f : A → M S B) Q s :
  wp (m ≫= f) Q s → wp m (λ a, wp (f a) Q) s.
Proof. unfold wp, mbind, M_bind. by destruct (m s). Qed.

(** Running a sequence whose first part is known. *)
Lemma bind_done {A B} (m : M S A) (f : A → M S B) a s s' : m s = Done a s' → (m ≫= f) s = f a s'.
Proof. intros E. unfold mbind, M_bind. by rewrite E. Qed.

Lemma bind_undef {A B} (m : M S A) (f : A → M S B) s : m s = Undef → (m ≫= f) s = Undef.
Proof. intros E. unfold mbind, M_bind. by rewrite E. Qed.

Lemma wp_mono {A} (m : M S A) (P Q : A → S → Prop) s :
  wp m P s → (∀ a s', P a s' → Q a s') → wp m Q s.
Proof. unfold wp. destruct (m s); naive_solver. Qed.

Lemma wp_get Q (s : S) : Q s s → wp get Q s.
Proof. done. Qed.

Lemma wp_gets {A} (f : S → A) Q s : Q (f s) s → wp (gets f) Q s.
Proof. done. Qed.

Lemma wp_modify (f : S → S) Q s : Q tt (f s) → wp (modify f) Q s.
Proof. done. Qed.

Lemma wp_assertb b Q (s : S) : b = true → Q tt s → wp (assertb b) Q s.
Proof. by intros ->. Qed.

Lemma wp_of_option {A} (o : option A) a Q (s : S) : o = Some a → Q a s → wp (of_option o) Q s.
Proof. by intros ->. Qed.

Lemma wp_when b (m : M S unit) Q s :
  (b = true → wp m Q s) → (b = false → Q tt s) → wp (when b m) Q s.
Proof. destruct b; naive_solver. Qed.

Lemma wp_done {A} (m : M S A) Q s a s' : m s = Done a s' → Q a s' → wp m Q s.
Proof. unfold wp. by intros ->. Qed.

Lemma wp_run {A} (m : M S A) Q s : wp m Q s → ∃ a s', m s = Done a s' ∧ Q a s'.
Proof. unfold wp. destruct (m s); naive_solver. Qed.

Lemma wp_eq {A} (m : M S A) s a s' : wp m (λ b t, b = a ∧ t = s') s ↔ m s = Done a s'.
Proof. unfold wp. destruct (m s); naive_solver. Qed.

(** A counted loop keeps an invariant indexed by the loop variable. *)
Lemma wp_for_n (I : Z → S → Prop) n i (body : Z → M S unit) Q s :
  I i s →
  (∀ j t, i ≤ j < i + Z.of_nat n → I j t → wp (body j) (λ _, I (j + 1)) t) →
  (∀ t, I (i + Z.of_nat n) t → Q tt t) →
  wp (for_n n i body) Q s.
Proof.
  revert i s. induction n as [|n IH]; intros i s HI Hbody HQ; cbn [for_n].
  - apply wp_ret, HQ. by replace (i + Z.of_nat 0) with i by lia.
  - apply wp_bind. eapply wp_mono; [apply Hbody; [lia|done]|].
    intros [] t Ht. apply IH; [done| |].
    + intros j u Hj Hu. apply Hbody; [lia|done].
    + intros u Hu. apply HQ. by replace (i + Z.of_nat (Datatypes.S n)) with (i + 1 + Z.of_nat n) by lia.
Qed.

Lemma loop_S {X A} fuel (body : X → M S (X + A)) x :
  loop (Datatypes.S fuel) body x =
  (body x ≫= λ r, match r with inl x' => loop fuel body x' | inr a => mret a end).
Proof. done. Qed.

(** A general loop: an invariant, and a measure below the fuel that decreases. *)
Lemma wp_loop {X A} (I : X → S → Prop) (m : X → nat) fuel (body : X → M S (X + A)) Q x s :
  (∀ x s, I x s →
     wp (body x) (λ r s', match r with inl x' => I x' s' ∧ (m x' < m x)%nat | inr a => Q a s' end) s) →
  I x s → (m x < fuel)%nat → wp (loop fuel body x) Q s.
Proof.
  intros Hbody. revert x s. induction fuel as [|fuel IH]; intros x s HI Hm; [lia|].
  cbn [loop]. apply wp_bind. eapply wp_mono; [by apply Hbody|].
  intros [x'|a] s'; [|done]. intros [HI' Hm']. apply IH; [done|lia].
Qed.
End wp.

Lemma wp_zoom {S T A} (g : S → T) (p : T → S → S) (m : M T A) Q s :
  wp m (λ a t, Q a (p t s)) (g s) → wp (zoom g p m) Q s.
Proof. unfold wp, zoom. by destruct (m (g s)). Qed.

(** Partial correctness: what holds if the computation returns. *)
Definition wlp {S A : Type} (m : M S A) (Q : A → S → Prop) (s : S) : Prop :=
  match m s with
  | Done a s' => Q a s'
  | _ => True
  end.

Section wlp.
Context {S : Type}.

Lemma wlp_run {A} (m : M S A) Q s a s' : wlp m Q s → m s = Done a s' → Q a s'.
Proof. unfold wlp. intros H E. by rewrite E in H. Qed.
Lemma wlp_ret {A} (a : A) (Q : A → S → Prop) s : Q a s → wlp (mret a) Q s.
Proof. done. Qed.
Lemma wlp_bind {A B} (m : M S A) (f : A → M S B) Q s : wlp m (λ a, wlp (f a) Q) s → wlp (m ≫= f) Q s.
Proof. unfold wlp, mbind, M_bind. by destruct (m s). Qed.
Lemma wlp_mono {A} (m : M S A) (P Q : A → S → Prop) s : wlp m P s → (∀ a s', P a s' → Q a s') → wlp m Q s.
Proof. unfold wlp. destruct (m s); naive_solver. Qed.
Lemma wlp_gets {A} (f : S → A) Q s : Q (f s) s → wlp (gets f) Q s.
Proof. done. Qed.
Lemma wlp_modify (f : S → S) Q s : Q tt (f s) → wlp (modify f) Q s.
Proof. done. Qed.
Lemma wlp_halt {A} (Q : A → S → Prop) s : wlp halt Q s.
Proof. done. Qed.
Lemma wlp_assertb b Q (s : S) : (b = true → Q tt s) → wlp (assertb b) Q s.
Proof. unfold wlp, assertb. destruct b; auto. Qed.
Lemma wlp_of_option {A} (o : option A) Q (s : S) : (∀ a, o = Some a → Q a s) → wlp (of_option o) Q s.
Proof. unfold wlp, of_option. destruct o; auto. Qed.
Lemma wlp_seq_ret {A} (m n : M S unit) (a : A) (P : S → Prop) s :
  wlp (m;; n) (λ _ t, P t) s → wlp (m;; n;; mret a) (λ _ t, P t) s.
Proof. unfold wlp, mbind, M_bind. destruct (m s) as [[] t| |]; [|done|done]. by destruct (n t). Qed.
Lemma wlp_zoom {T A} (g : S → T) (p : T → S → S) (m : M T A) Q s : (∀ a t, Q a (p t s)) → wlp (zoom g p m) Q s.
Proof. unfold wlp, zoom. destruct (m (g s)); auto. Qed.
End wlp.

Ltac wlp_step :=
  lazymatch goal with
  | |- wlp (mret _) _ _ => apply wlp_ret
  | |- wlp (_ ≫= _) _ _ => apply wlp_bind
  | |- wlp (gets _) _ _ => apply wlp_gets
  | |- wlp (modify _) _ _ => apply wlp_modify
  | |- wlp halt _ _ => apply wlp_halt
  | |- wlp (assertb _) _ _ => apply wlp_assertb; intros ?
  | |- wlp (of_option _) _ _ => apply wlp_of_option; intros ? ?
  | |- wlp (zoom _ _ _) _ _ => apply wlp_zoom; intros ? ?
  end; cbv beta.
Ltac wlp_steps := repeat wlp_step.

(** [wp_step] takes one monadic step; [wp_steps] as many as it can. *)
Ltac wp_step :=
  lazymatch goal with
  | |- wp (mret _) _ _ => apply wp_ret
  | |- wp (_ ≫= _) _ _ => apply wp_bind
  | |- wp get _ _ => apply wp_get
  | |- wp (gets _) _ _ => apply wp_gets
  | |- wp (modify _) _ _ => apply wp_modify
  | |- wp (zoom _ _ _) _ _ => apply wp_zoom
  | |- wp (assertb _) _ _ => apply wp_assertb; [try done|]
  end; cbv beta.
Ltac wp_steps := repeat wp_step.

(** ** Arithmetic automation *)

(** Exposes the machine-integer wrap-arounds to [lia]. *)
Ltac wrap_lia :=
  unfold u8, u16, u32, u64, i32, is_byte in *;
  change (2 ^ 8) with 256 in *; change (2 ^ 16) with 65536 in *;
  change (2 ^ 31) with 2147483648 in *; change (2 ^ 32) with 4294967296 in *;
  change (2 ^ 64) with 18446744073709551616 in *;
  Z.to_euclidean_division_equations; lia.

(** Turns boolean comparisons in the context and the goal into propositions. *)
Ltac bsimp :=
  repeat match goal with
  | H : (_ && _)%bool = true |- _ => apply andb_true_iff in H as [? ?]
  | H : (_ || _)%bool = false |- _ => apply orb_false_iff in H as [? ?]
  | H : negb _ = true |- _ => apply negb_true_iff in H
  | H : negb _ = false |- _ => apply negb_false_iff in H
  | H : (_ =? _) = true |- _ => apply Z.eqb_eq in H
  | H : (_ =? _) = false |- _ => apply Z.eqb_neq in H
  | H : (_ <? _) = true |- _ => apply Z.ltb_lt in H
  | H : (_ <? _) = false |- _ => apply Z.ltb_ge in H
  | H : (_ <=? _) = true |- _ => apply Z.leb_le in H
  | H : (_ <=? _) = false |- _ => apply Z.leb_gt in H
  | |- (_ && _)%bool = true => apply andb_true_iff; split
  | |- negb _ = true => apply negb_true_iff
  | |- (_ =? _) = true => apply Z.eqb_eq
  | |- (_ =? _) = false => apply Z.eqb_neq
  | |- (_ <? _) = true => apply Z.ltb_lt
  | |- (_ <? _) = false => apply Z.ltb_ge
  | |- (_ <=? _) = true => apply Z.leb_le
  | |- (_ <=? _) = false => apply Z.leb_gt
  end.

Create HintDb kernel discriminated.
Create Rewrite HintDb klen.

Lemma u64_small x : 0 ≤ x < 2 ^ 64 → u64 x = x.
Proof. apply Z.mod_small. Qed.
Lemma u32_small x : 0 ≤ x < 2 ^ 32 → u32 x = x.
Proof. apply Z.mod_small. Qed.
Lemma u16_small x : 0 ≤ x < 2 ^ 16 → u16 x = x.
Proof. apply Z.mod_small. Qed.
Lemma u8_small x : 0 ≤ x < 2 ^ 8 → u8 x = x.
Proof. apply Z.mod_small. Qed.
Lemma i32_small x : - 2 ^ 31 ≤ x < 2 ^ 31 → i32 x = x.
Proof. intros. wrap_lia. Qed.
Lemma u8_byte x : is_byte (u8 x).
Proof. wrap_lia. Qed.

(** ** Lemmas on little-endian sequences *)

Lemma length_le_bytes n v : length (le_bytes n v) = n.
Proof. revert v. induction n as [|n IH]; intros; simpl; [done|]. by rewrite IH. Qed.

Lemma le_bytes_byte n v : Forall is_byte (le_bytes n v).
Proof. revert v. induction n as [|n IH]; intros; simpl; constructor; [wrap_lia|done]. Qed.

Lemma le_val_bytes n v : 0 ≤ v < 256 ^ Z.of_nat n → le_val (le_bytes n v) = v.
Proof.
  revert v. induction n as [|n IH]; intros v Hv; [simpl in *; lia|].
  cbn [le_bytes le_val]. rewrite Nat2Z.inj_succ, Z.pow_succ_r in Hv by lia.
  rewrite IH by (Z.to_euclidean_division_equations; nia). wrap_lia.
Qed.

Lemma le_bytes_val l : Forall is_byte l → le_bytes (length l) (le_val l) = l.
Proof.
  induction 1 as [|b l Hb _ IH]; [done|]. cbn [length le_bytes le_val].
  replace ((b + 256 * le_val l) mod 256) with b by wrap_lia.
  replace ((b + 256 * le_val l) / 256) with (le_val l) by wrap_lia. by rewrite IH.
Qed.

Lemma le_val_bound l : Forall is_byte l → 0 ≤ le_val l < 256 ^ Z.of_nat (length l).
Proof.
  induction 1 as [|b l Hb _ IH]; [simpl; lia|]. cbn [length le_val].
  rewrite Nat2Z.inj_succ, Z.pow_succ_r by lia. unfold is_byte in Hb. nia.
Qed.

(** ** Lemmas on lists *)

Lemma length_slice {A} off n (l : list A) :
  (off + n ≤ length l)%nat → length (slice off n l) = n.
Proof. intros. unfold slice. rewrite length_take, length_drop. lia. Qed.

Lemma slice_app_l {A} off n (l k : list A) :
  (off + n ≤ length l)%nat → slice off n (l ++ k) = slice off n l.
Proof.
  intros. unfold slice. rewrite drop_app_le by lia.
  rewrite take_app_le; [done|]. rewrite length_drop. lia.
Qed.

Lemma slice_app_r {A} off n (l k : list A) :
  (length l ≤ off)%nat → slice off n (l ++ k) = slice (off - length l) n k.
Proof. intros. unfold slice. by rewrite drop_app_ge by lia. Qed.

Lemma slice_all {A} n (l : list A) : n = length l → slice 0 n l = l.
Proof. intros ->. unfold slice. by rewrite drop_0, take_ge by lia. Qed.

Lemma c_string_app l k : Forall (λ c, c ≠ 0) l → c_string (l ++ 0 :: k) = Some l.
Proof.
  induction 1 as [|c l Hc _ IH]; [done|]. simpl. rewrite IH.
  by rewrite (proj2 (Z.eqb_neq c 0)).
Qed.

Lemma Forall_insert' {A} (P : A → Prop) (l : list A) i x :
  Forall P l → P x → Forall P (<[i := x]> l).
Proof. intros. by apply Forall_insert. Qed.

Lemma overwrite_skip h k m l b :
  m = (length h + k)%nat → overwrite m l (h ++ b) = (h ++.) <$> overwrite k l b.
Proof.
  intros ->. induction h as [|x h IH]; simpl.
  - by destruct (overwrite k l b).
  - rewrite IH. by destruct (overwrite k l b).
Qed.

Lemma put_front_app l b : (length l ≤ length b)%nat → put_front l b = Some (l ++ drop (length l) b).
Proof.
  revert b. induction l as [|x l IH]; intros [|y b] Hl; simpl in *; try done; try lia.
  by rewrite IH by lia.
Qed.

Lemma put_front_short l b : (length b < length l)%nat → put_front l b = None.
Proof.
  revert b. induction l as [|x l IH]; intros [|y b] Hl; simpl in *; try done; try lia.
  by rewrite IH by lia.
Qed.

Lemma region_mid pre mid post n m :
  length pre = n → length mid = m → region n m (pre ++ mid ++ post) = Some mid.
Proof.
  intros <- <-. unfold region. rewrite (proj2 (Nat.leb_le _ _)) by (rewrite !length_app; lia).
  f_equal. unfold slice. rewrite drop_app_length. apply take_app_length.
Qed.

Lemma region_front mid post m : length mid = m → region 0 m (mid ++ post) = Some mid.
Proof. intros. by apply (region_mid []). Qed.

Lemma overwrite_app pre l b :
  (length l ≤ length b)%nat → overwrite (length pre) l (pre ++ b) = Some (pre ++ l ++ drop (length l) b).
Proof.
  intros Hl. rewrite (overwrite_skip pre 0) by lia. cbn [overwrite]. by rewrite put_front_app.
Qed.

Lemma overwrite_at n pre l b :
  n = length pre → (length l ≤ length b)%nat → overwrite n l (pre ++ b) = Some (pre ++ l ++ drop (length l) b).
Proof. intros ->. apply overwrite_app. Qed.

Lemma Forall2_in {A B} (P Q : A → B → Prop) l k :
  Forall2 P l k → (∀ x y, x ∈ l → P x y → Q x y) → Forall2 Q l k.
Proof.
  induction 1 as [|x y l k Hp _ IH]; intros HQ; constructor.
  - apply HQ; [left|done].
  - apply IH. intros; apply HQ; [by right|done].
Qed.

Section filter_ne.
Context {A : Type} `{EqDecision A}.

Lemma filter_ne_notin (x : A) (l : list A) : x ∉ l → filter (.≠ x) l = l.
Proof.
  induction l as [|y l IH]; [done|]. rewrite not_elem_of_cons. intros [Hne Hl].
  rewrite filter_cons_True by done. by rewrite IH.
Qed.

Lemma length_filter_ne (x : A) (l : list A) : NoDup l → x ∈ l → length l = S (length (filter (.≠ x) l)).
Proof.
  induction 1 as [|y l Hy Hnd IH]; [by intros ?%elem_of_nil|].
  destruct (decide (y = x)) as [->|Hne].
  - intros _. by rewrite filter_cons_False, filter_ne_notin by naive_solver.
  - rewrite elem_of_cons. intros [->|Hin]; [done|].
    rewrite filter_cons_True by done. simpl. by rewrite <- IH.
Qed.
End filter_ne.

#[export] Hint Resolve u8_byte le_bytes_byte Forall_insert' : kernel.
#[export] Hint Rewrite @length_insert @length_app length_le_bytes @length_replicate @length_take
  @length_drop : klen.
