(* ===== verification/Spinlock.v ===== *)
(** * Spinlocks and the per-hart interrupt nesting (src/spinlock.c)

    The lock state is a record of four lock words; each hart has its nesting
    count, the interrupt enable it had before the outermost [push_off], and its
    [sstatus.SIE] bit. The sequential part gives [acquire] and [release] as
    monadic operations of the running hart, the concurrent part interleaves the
    same steps for every hart. *)
From S2P Require Import Prelude.

Definition NCPU : nat := 4.

(** [struct cpu] *)
Record cpu := Cpu { noff : Z; intena : bool }.

(** The locks of the kernel: [kmem_lock] (kalloc.c), [uart_lock] (uart.c),
    [pt_lock] (proc.c) and [pr_lock] (main.c). *)
Inductive lock_id := kmem_lock | uart_lock | pt_lock | pr_lock.

#[export] Instance lock_id_eq_dec : EqDecision lock_id.
Proof. solve_decision. Defined.

(** [struct spinlock], one word per lock: 0 free, 1 taken. *)
Record lock_words := LockWords { w_kmem : Z; w_uart : Z; w_pt : Z; w_pr : Z }.

Definition word_of (lk : lock_id) (w : lock_words) : Z :=
  match lk with
  | kmem_lock => w_kmem w | uart_lock => w_uart w | pt_lock => w_pt w | pr_lock => w_pr w
  end.

Definition set_word (lk : lock_id) (v : Z) (w : lock_words) : lock_words :=
  match lk with
  | kmem_lock => LockWords v (w_uart w) (w_pt w) (w_pr w)
  | uart_lock => LockWords (w_kmem w) v (w_pt w) (w_pr w)
  | pt_lock => LockWords (w_kmem w) (w_uart w) v (w_pr w)
  | pr_lock => LockWords (w_kmem w) (w_uart w) (w_pt w) v
  end.

(** The running hart ([tp]), the array [cpus], every hart's SIE bit, the locks. *)
Record spin := Spin { tp : nat; cpus : list cpu; sie : list bool; words : lock_words }.

Definition with_words (w : lock_words) (sp : spin) : spin := Spin (tp sp) (cpus sp) (sie sp) w.
Definition with_cpu (h : nat) (c : cpu) (sp : spin) : spin :=
  Spin (tp sp) (<[h := c]> (cpus sp)) (sie sp) (words sp).
Definition with_sie (h : nat) (b : bool) (sp : spin) : spin :=
  Spin (tp sp) (cpus sp) (<[h := b]> (sie sp)) (words sp).

(** [intr_get], [intr_off], [intr_on] on hart [h] (csr.h). *)
Definition intr_get (h : nat) (sp : spin) : option bool := sie sp !! h.
Definition intr_off (h : nat) (sp : spin) : spin := with_sie h false sp.
Definition intr_on (h : nat) (sp : spin) : spin := with_sie h true sp.

(** [mycpu]: indexing [cpus] outside its bounds is undefined. *)
Definition mycpu (h : nat) (sp : spin) : option cpu := cpus sp !! h.

Definition push_off (h : nat) (sp : spin) : option spin :=
  old ← intr_get h sp;
  let sp := intr_off h sp in
  c ← mycpu h sp;
  let c := if noff c =? 0 then Cpu (noff c) old else c in
  Some (with_cpu h (Cpu (noff c + 1) (intena c)) sp).

Definition pop_off (h : nat) (sp : spin) : option spin :=
  c ← mycpu h sp;
  let c := Cpu (noff c - 1) (intena c) in
  let sp := with_cpu h c sp in
  Some (if (noff c =? 0) && intena c then intr_on h sp else sp).

Definition initlock (lk : lock_id) (sp : spin) : spin := with_words (set_word lk 0 (words sp)) sp.

(** [__sync_lock_test_and_set(&lk->locked, 1)]: the old word, 1 stored. *)
Definition test_and_set (lk : lock_id) (sp : spin) : Z * spin :=
  (word_of lk (words sp), with_words (set_word lk 1 (words sp)) sp).

(** [__sync_lock_release(&lk->locked)] *)
Definition lock_release (lk : lock_id) (sp : spin) : spin :=
  with_words (set_word lk 0 (words sp)) sp.

(** The device state every component shares: lock state and UART output. *)
Record dev := Dev { dspin : spin; tx : list Z }.

(** States that contain the device state. *)
Class HasDev (S : Type) := {
  dev_of : S → dev;
  set_dev : dev → S → S;
}.
Class HasDevLaws (S : Type) `{HasDev S} := {
  dev_of_set d s : dev_of (set_dev d s) = d;
  set_dev_set d d' s : set_dev d (set_dev d' s) = set_dev d s;
  set_dev_of s : set_dev (dev_of s) s = s;
}.

#[export] Instance dev_has_dev : HasDev dev := {| dev_of := id; set_dev := λ d _, d |}.
#[export] Instance dev_has_dev_laws : HasDevLaws dev.
Proof. by split. Qed.

Section ops.
Context {S : Type} `{HasDev S}.

Definition spin_of (s : S) : spin := dspin (dev_of s).
Definition set_spin (sp : spin) (s : S) : S := set_dev (Dev sp (tx (dev_of s))) s.

(** [acquire]: interrupts off, then test-and-set until the old word is 0. On
    its own hart a taken lock is never released: the loop spins for ever. *)
Definition acquire (lk : lock_id) : M S unit :=
  h ← gets (λ s, tp (spin_of s));
  sp ← gets (λ s, push_off h (spin_of s));
  sp ← of_option sp;
  let '(old, sp) := test_and_set lk sp in
  modify (set_spin sp);;
  if old =? 0 then mret tt else halt.

Definition release (lk : lock_id) : M S unit :=
  modify (λ s, set_spin (lock_release lk (spin_of s)) s);;
  h ← gets (λ s, tp (spin_of s));
  sp ← gets (λ s, pop_off h (spin_of s));
  sp ← of_option sp;
  modify (set_spin sp).
End ops.

(** ** Sequential specification *)

(** The running hart is one of the harts; its nesting count is not negative
    and interrupts are off while it is positive. *)
Definition spin_ok (sp : spin) : Prop :=
  ∃ c b, cpus sp !! tp sp = Some c ∧ sie sp !! tp sp = Some b ∧
    0 ≤ noff c ∧ (0 < noff c → b = false).

Definition lock_free (lk : lock_id) (sp : spin) : Prop := word_of lk (words sp) = 0.

(** What a balanced critical section leaves behind: the saved interrupt bit of
    an outermost [push_off]. *)
Definition passed (sp : spin) : spin :=
  match cpus sp !! tp sp, sie sp !! tp sp with
  | Some c, Some b => if noff c =? 0 then with_cpu (tp sp) (Cpu (noff c) b) sp else sp
  | _, _ => sp
  end.

(** The state inside the critical section of [lk]. *)
Definition entered (lk : lock_id) (sp : spin) : spin :=
  match cpus (passed sp) !! tp sp with
  | Some c =>
      with_words (set_word lk 1 (words sp))
        (with_cpu (tp sp) (Cpu (noff c + 1) (intena c)) (with_sie (tp sp) false sp))
  | None => sp
  end.

(** Lock states that differ only by such left-overs. *)
#[export] Instance spin_equiv : Equiv spin := λ sp sp', passed sp = passed sp'.

(** ** Concurrent semantics: every hart, one atomic step at a time *)

(** Where a hart is in [acquire]/[release]: running (holding [held]), in the
    test-and-set loop, or between the store of 0 and [pop_off]. *)
Inductive hart_pc := Running | Waiting (lk : lock_id) | Releasing.

Record hart := Hart { held : list lock_id; pc : hart_pc }.
Record world := World { wspin : spin; harts : list hart }.

Definition set_hart (h : nat) (t : hart) (sp : spin) (w : world) : world :=
  World sp (<[h := t]> (harts w)).

Inductive step : world → world → Prop :=
| step_push h l lk sp w :
    harts w !! h = Some (Hart l Running) → push_off h (wspin w) = Some sp →
    step w (set_hart h (Hart l (Waiting lk)) sp w)
| step_take h l lk sp w :
    harts w !! h = Some (Hart l (Waiting lk)) → test_and_set lk (wspin w) = (0, sp) →
    step w (set_hart h (Hart (lk :: l) Running) sp w)
| step_spin h l lk old sp w :
    harts w !! h = Some (Hart l (Waiting lk)) → test_and_set lk (wspin w) = (old, sp) → old ≠ 0 →
    step w (set_hart h (Hart l (Waiting lk)) sp w)
| step_store h l lk w :
    harts w !! h = Some (Hart l Running) → lk ∈ l →
    step w (set_hart h (Hart (filter (.≠ lk) l) Releasing) (lock_release lk (wspin w)) w)
| step_pop h l sp w :
    harts w !! h = Some (Hart l Releasing) → pop_off h (wspin w) = Some sp →
    step w (set_hart h (Hart l Running) sp w)
| step_intr h b w :
    harts w !! h = Some (Hart [] Running) →
    step w (set_hart h (Hart [] Running) (with_sie h b (wspin w)) w).

(** All locks free, no nesting, one entry per hart. *)
Definition initial (w : world) : Prop :=
  wspin w = Spin (tp (wspin w)) (replicate NCPU (Cpu 0 false)) (replicate NCPU false)
              (LockWords 0 0 0 0) ∧
  harts w = replicate NCPU (Hart [] Running).

(** The pending [pop_off] of a hart, on top of one per held lock. *)
Definition pending (p : hart_pc) : Z := match p with Running => 0 | _ => 1 end.

Definition hart_ok (sp : spin) (h : nat) (t : hart) : Prop :=
  NoDup (held t) ∧
  ∃ c b, cpus sp !! h = Some c ∧ sie sp !! h = Some b ∧
    noff c = Z.of_nat (length (held t)) + pending (pc t) ∧ (0 < noff c → b = false).

Definition lock_ok (w : world) (lk : lock_id) : Prop :=
  (word_of lk (words (wspin w)) = 0 ∧ ∀ h t, harts w !! h = Some t → lk ∉ held t) ∨
  (word_of lk (words (wspin w)) = 1 ∧
   ∃ h t, harts w !! h = Some t ∧ lk ∈ held t ∧
     ∀ h' t', harts w !! h' = Some t' → lk ∈ held t' → h' = h).

Definition world_ok (w : world) : Prop :=
  (∀ h t, harts w !! h = Some t → hart_ok (wspin w) h t) ∧ ∀ lk, lock_ok w lk.

(** ** Lemmas on the sequential operations *)

Lemma word_set_eq lk v w : word_of lk (set_word lk v w) = v.
Proof. by destruct lk. Qed.
Lemma word_set_ne lk lk' v w : lk ≠ lk' → word_of lk (set_word lk' v w) = word_of lk w.
Proof. by destruct lk, lk'. Qed.
Lemma set_word_back lk v w : word_of lk w = 0 → set_word lk 0 (set_word lk v w) = w.
Proof. destruct lk, w; simpl; by intros ->. Qed.
#[export] Hint Rewrite word_set_eq : klen.

Lemma spin_ext sp sp' :
  tp sp = tp sp' → cpus sp = cpus sp' → sie sp = sie sp' → words sp = words sp' → sp = sp'.
Proof. destruct sp, sp'; simpl; congruence. Qed.

Section seq.
Context (sp : spin) (Hok : spin_ok sp).

Lemma passed_cpu :
  ∃ c b, cpus (passed sp) !! tp sp = Some c ∧ sie sp !! tp sp = Some b ∧ 0 ≤ noff c ∧
    (0 < noff c → b = false) ∧ (noff c = 0 → intena c = b) ∧
    passed sp = with_cpu (tp sp) c sp.
Proof.
  destruct Hok as (c & b & Hc & Hb & Hn & Hoff). unfold passed. rewrite Hc, Hb.
  destruct (Z.eqb_spec (noff c) 0).
  - exists (Cpu (noff c) b), b. simpl.
    rewrite list_lookup_insert_eq by (by eapply lookup_lt_Some).
    repeat split; auto.
  - exists c, b. repeat split; auto; [lia|].
    apply spin_ext; simpl; [done| |done|done]. by rewrite list_insert_id.
Qed.

Lemma words_passed : words (passed sp) = words sp.
Proof. unfold passed. by repeat case_match. Qed.
Lemma tp_passed : tp (passed sp) = tp sp.
Proof. unfold passed. by repeat case_match. Qed.
Lemma sie_passed : sie (passed sp) = sie sp.
Proof. unfold passed. by repeat case_match. Qed.

Lemma passed_ok : spin_ok (passed sp).
Proof.
  destruct passed_cpu as (c & b & Hc & Hb & Hn & Hoff & _ & Heq).
  exists c, b. by rewrite tp_passed, sie_passed.
Qed.

Lemma passed_idem : passed (passed sp) = passed sp.
Proof.
  destruct passed_cpu as (c & b & Hc & Hb & Hn & Hoff & Hi & Heq).
  unfold passed at 1. rewrite tp_passed, sie_passed, Hc, Hb.
  destruct (Z.eqb_spec (noff c) 0) as [E|E]; [|done].
  apply spin_ext; simpl; [done| |done|done].
  apply list_insert_id. rewrite Hc, <- (Hi E). by destruct c.
Qed.

Lemma entered_ok lk : spin_ok (entered lk sp).
Proof.
  destruct passed_cpu as (c & b & Hc & Hb & Hn & Hoff & Hi & Heq).
  unfold entered. rewrite Hc. exists (Cpu (noff c + 1) (intena c)), false. simpl.
  assert (tp sp < length (cpus sp))%nat.
  { rewrite Heq in Hc. simpl in Hc. apply lookup_lt_Some in Hc. by rewrite length_insert in Hc. }
  rewrite !list_lookup_insert_eq; [repeat split; auto; lia|by eapply lookup_lt_Some|done].
Qed.

Lemma entered_free lk lk' :
  lk' ≠ lk → lock_free lk' sp → lock_free lk' (entered lk sp).
Proof.
  unfold lock_free, entered. intros. case_match; [|done]. simpl. by rewrite word_set_ne.
Qed.

Lemma passed_entered lk : passed (entered lk sp) = entered lk sp.
Proof.
  destruct passed_cpu as (c & b & Hc & Hb & Hn & Hoff & Hi & Heq).
  unfold passed at 1. case_match; [|done]. case_match; [|done].
  enough ((noff c0 =? 0) = false) as -> by done. apply Z.eqb_neq.
  revert H. unfold entered. rewrite Hc. simpl.
  assert (tp sp < length (cpus sp))%nat.
  { rewrite Heq in Hc. simpl in Hc. apply lookup_lt_Some in Hc. by rewrite length_insert in Hc. }
  rewrite list_lookup_insert_eq by done. intros [= <-]. simpl. lia.
Qed.
End seq.

Lemma passed_free lk sp : lock_free lk sp → lock_free lk (passed sp).
Proof. unfold lock_free. by rewrite words_passed. Qed.

Lemma entered_passed lk sp : spin_ok sp → entered lk (passed sp) = entered lk sp.
Proof.
  intros Hok. destruct (passed_cpu sp Hok) as (c & b & Hc & Hb & Hn & Hoff & Hi & Heq).
  unfold entered. rewrite passed_idem, tp_passed, Hc, words_passed by done.
  apply spin_ext; simpl; try by rewrite ?tp_passed, ?sie_passed.
  rewrite Heq. simpl. by rewrite list_insert_insert_eq.
Qed.

#[export] Hint Resolve passed_ok entered_ok passed_free entered_free : kernel.

Section rules.
Context {S : Type} `{HasDevLaws S}.

Lemma spin_of_set sp (s : S) : spin_of (set_spin sp s) = sp.
Proof. unfold spin_of, set_spin. by rewrite dev_of_set. Qed.
Lemma tx_of_set sp (s : S) : tx (dev_of (set_spin sp s)) = tx (dev_of s).
Proof. unfold set_spin. by rewrite dev_of_set. Qed.
Lemma set_spin_set sp sp' (s : S) : set_spin sp (set_spin sp' s) = set_spin sp s.
Proof. unfold set_spin. by rewrite dev_of_set, set_dev_set. Qed.

(** A free lock is taken at once. *)
Lemma wp_acquire lk Q (s : S) :
  spin_ok (spin_of s) → lock_free lk (spin_of s) →
  Q tt (set_spin (entered lk (spin_of s)) s) → wp (acquire lk) Q s.
Proof.
  intros Hok Hfree HQ. destruct (passed_cpu _ Hok) as (c & b & Hc & Hb & Hn & Hoff & Hi & Heq).
  unfold acquire. wp_steps.
  destruct Hok as (c0 & b0 & Hc0 & Hb0 & _ & _).
  eapply wp_of_option.
  { unfold push_off, intr_get, intr_off, mycpu. simpl. rewrite Hb0. simpl. rewrite Hc0. simpl. done. }
  unfold test_and_set, lock_free in *. simpl. rewrite Hfree. simpl. wp_steps.
  replace (with_words _ _) with (entered lk (spin_of s)); [done|].
  unfold entered. rewrite Hc. revert Hc. unfold passed. rewrite Hc0, Hb0.
  destruct (noff c0 =? 0); simpl; [|rewrite Hc0; by intros [= <-]].
  rewrite list_lookup_insert_eq by (by eapply lookup_lt_Some). by intros [= <-].
Qed.

(** Releasing the lock that was entered restores the interrupt state. *)
Lemma wp_release lk sp Q (s : S) :
  spin_ok sp → lock_free lk sp → spin_of s = entered lk sp →
  Q tt (set_spin (passed sp) s) → wp (release lk) Q s.
Proof.
  intros Hok Hfree Hs HQ. destruct (passed_cpu _ Hok) as (c & b & Hc & Hb & Hn & Hoff & Hi & Heq).
  unfold release. wp_steps. rewrite spin_of_set, Hs.
  assert (tp sp < length (cpus sp))%nat.
  { rewrite Heq in Hc. simpl in Hc. apply lookup_lt_Some in Hc. by rewrite length_insert in Hc. }
  unfold entered. rewrite Hc. eapply wp_of_option.
  { unfold pop_off, mycpu. simpl. rewrite list_lookup_insert_eq by done. simpl. done. }
  wp_steps. rewrite set_spin_set. 
  match goal with |- Q tt (set_spin ?x s) => enough (x = passed sp) as -> by done end.
  rewrite Heq.
  unfold lock_free in Hfree. replace (noff c + 1 - 1) with (noff c) by lia.
  destruct (Z.eqb_spec (noff c) 0) as [E|E]; [rewrite (Hi E); destruct b|]; simpl;
    apply spin_ext; simpl; try done; try by apply set_word_back.
  - rewrite list_insert_insert_eq. f_equal. rewrite <- (Hi E). by destruct c.
  - by rewrite list_insert_insert_eq, list_insert_id.
  - rewrite list_insert_insert_eq. f_equal. rewrite <- (Hi E). by destruct c.
  - by rewrite list_insert_id.
  - rewrite list_insert_insert_eq. f_equal. by destruct c.
  - rewrite list_insert_id; [done|]. rewrite Hb. by rewrite Hoff by lia.
Qed.
End rules.

(** ** Equivalence of lock states *)

#[export] Instance spin_equiv_equivalence : Equivalence (≡@{spin}).
Proof. split; unfold equiv, spin_equiv; congruence. Qed.

Lemma ok_passed_iff sp : spin_ok (passed sp) ↔ spin_ok sp.
Proof.
  split; [|apply passed_ok]. unfold passed.
  destruct (cpus sp !! tp sp) as [c|] eqn:Hc; [|done].
  destruct (sie sp !! tp sp) as [b|] eqn:Hb; [|done].
  destruct (Z.eqb_spec (noff c) 0); [|done].
  intros (c' & b' & Hc' & Hb' & Hn & Hoff). simpl in *.
  rewrite list_lookup_insert_eq in Hc' by (by eapply lookup_lt_Some).
  injection Hc' as <-. simpl in *. exists c, b. repeat split; auto; lia.
Qed.

#[export] Instance spin_ok_proper : Proper ((≡) ==> iff) spin_ok.
Proof. intros sp sp' Heq. unfold equiv, spin_equiv in Heq. by rewrite <- (ok_passed_iff sp), Heq, ok_passed_iff. Qed.

#[export] Instance lock_free_proper lk : Proper ((≡) ==> iff) (lock_free lk).
Proof.
  intros sp sp' Heq. unfold equiv, spin_equiv in Heq. unfold lock_free.
  by rewrite <- (words_passed sp), Heq, words_passed.
Qed.

Lemma passed_equiv sp : spin_ok sp → passed sp ≡ sp.
Proof. intros. by apply passed_idem. Qed.

(** ** Lemmas on the concurrent semantics *)

Lemma push_off_spec h sp sp' :
  push_off h sp = Some sp' → ∃ c b i, cpus sp !! h = Some c ∧ sie sp !! h = Some b ∧
    sp' = Spin (tp sp) (<[h := Cpu (noff c + 1) i]> (cpus sp)) (<[h := false]> (sie sp)) (words sp).
Proof.
  unfold push_off, intr_get, intr_off, mycpu. simpl.
  destruct (sie sp !! h) as [b|] eqn:Hb; [|done]. simpl.
  destruct (cpus sp !! h) as [c|] eqn:Hc; [|done]. simpl. intros [= <-].
  exists c, b, (if noff c =? 0 then b else intena c).
  split; [done|]. split; [done|]. by destruct (noff c =? 0).
Qed.

Lemma pop_off_spec h sp sp' :
  pop_off h sp = Some sp' → ∃ c, cpus sp !! h = Some c ∧
    words sp' = words sp ∧ cpus sp' = <[h := Cpu (noff c - 1) (intena c)]> (cpus sp) ∧
    (sie sp' = sie sp ∨ noff c - 1 = 0 ∧ sie sp' = <[h := true]> (sie sp)).
Proof.
  unfold pop_off, mycpu. destruct (cpus sp !! h) as [c|] eqn:Hc; [|done]. simpl.
  intros [= <-]. exists c. cbn [noff intena]. destruct (Z.eqb_spec (noff c - 1) 0) as [E|E]; simpl.
  - destruct (intena c); simpl; repeat split; auto.
  - repeat split; auto.
Qed.

Section preservation.
Context (w : world) (Hw : world_ok w).

Lemma hart_ok_other h sp t :
  (∀ h', h' ≠ h → cpus sp !! h' = cpus (wspin w) !! h' ∧ sie sp !! h' = sie (wspin w) !! h') →
  hart_ok sp h t →
  ∀ h' t', harts (set_hart h t sp w) !! h' = Some t' → hart_ok sp h' t'.
Proof.
  intros Hother Ht h' t' Hlook. simpl in Hlook. destruct (decide (h' = h)) as [->|Hne].
  - apply list_lookup_insert_Some in Hlook as [(_ & -> & _)|[? _]]; done.
  - rewrite list_lookup_insert_ne in Hlook by done.
    destruct (Hother _ Hne) as [E1 E2].
    destruct (proj1 Hw _ _ Hlook) as (Hnd & c & b & Hc & Hb & HH).
    split; [done|]. exists c, b. by rewrite E1, E2.
Qed.

(** A step that leaves the lock words and the held locks alone keeps [lock_ok]. *)
Lemma lock_ok_same h t0 t sp lk :
  harts w !! h = Some t0 → (lk ∈ held t ↔ lk ∈ held t0) →
  word_of lk (words sp) = word_of lk (words (wspin w)) →
  lock_ok (set_hart h t sp w) lk.
Proof.
  intros Hh Hheld Hword. unfold lock_ok. simpl. rewrite Hword.
  assert (h < length (harts w))%nat by (by eapply lookup_lt_Some).
  destruct (proj2 Hw lk) as [[Hz Hno]|(Hz & h0 & t1 & Hh0 & Hin & Huniq)]; [left|right];
    (split; [done|]).
  - intros h' t'. rewrite list_lookup_insert_Some.
    intros [(-> & <- & _)|[_ Hl]]; [rewrite Hheld|]; by eapply Hno.
  - destruct (decide (h0 = h)) as [->|Hne].
    + exists h, t. rewrite list_lookup_insert_eq by done. assert (t1 = t0) as -> by congruence.
      split; [done|]. split; [by apply Hheld|].
      intros h' t'. rewrite list_lookup_insert_Some. intros [(-> & _ & _)|[_ Hl]]; [done|].
      by apply Huniq.
    + exists h0, t1. rewrite list_lookup_insert_ne by done. split; [done|]. split; [done|].
      intros h' t'. rewrite list_lookup_insert_Some. intros [(<- & <- & _)|[_ Hl]]; [|by apply Huniq].
      rewrite Hheld. intros Hin'. by eapply Huniq.
Qed.
End preservation.

Lemma world_ok_push w h l lk sp :
  world_ok w → harts w !! h = Some (Hart l Running) → push_off h (wspin w) = Some sp →
  world_ok (set_hart h (Hart l (Waiting lk)) sp w).
Proof.
  intros Hw Hh Hp. destruct (push_off_spec _ _ _ Hp) as (c & b & i & Hc & Hb & ->).
  split; [|intros lk'; by eapply lock_ok_same].
  apply hart_ok_other; [done| |].
  - intros h' Hne. simpl. by rewrite !list_lookup_insert_ne by done.
  - destruct (proj1 Hw _ _ Hh) as (Hnd & c' & b' & Hc' & Hb' & Hn & Hoff).
    assert (c' = c) as -> by congruence.
    split; [done|]. simpl in *. exists (Cpu (noff c + 1) i), false.
    rewrite !list_lookup_insert_eq by (by eapply lookup_lt_Some). simpl. repeat split; auto; lia.
Qed.

Lemma world_ok_take w h l lk sp :
  world_ok w → harts w !! h = Some (Hart l (Waiting lk)) → test_and_set lk (wspin w) = (0, sp) →
  world_ok (set_hart h (Hart (lk :: l) Running) sp w).
Proof.
  intros Hw Hh [= Hz <-].
  destruct (proj2 Hw lk) as [[_ Hno]|(Hz1 & _)]; [|lia].
  assert (h < length (harts w))%nat by (by eapply lookup_lt_Some).
  split.
  - apply hart_ok_other; [done|done|].
    destruct (proj1 Hw _ _ Hh) as (Hnd & c & b & Hc & Hb & Hn & Hoff).
    split; [constructor; [by eapply Hno in Hh|done]|]. exists c, b. simpl in *.
    repeat split; auto; lia.
  - intros lk'. destruct (decide (lk' = lk)) as [->|Hne].
    + right. simpl. rewrite word_set_eq. split; [done|]. exists h, (Hart (lk :: l) Running).
      rewrite list_lookup_insert_eq by done. split; [done|]. split; [by left|].
      intros h' t'. rewrite list_lookup_insert_Some. intros [(-> & _ & _)|[_ Hl]]; [done|].
      intros Hin. by destruct (Hno _ _ Hl).
    + eapply lock_ok_same; [done|done| |simpl; by rewrite word_set_ne].
      simpl. rewrite elem_of_cons. naive_solver.
Qed.

Lemma world_ok_spin w h l lk old sp :
  world_ok w → harts w !! h = Some (Hart l (Waiting lk)) →
  test_and_set lk (wspin w) = (old, sp) → old ≠ 0 →
  world_ok (set_hart h (Hart l (Waiting lk)) sp w).
Proof.
  intros Hw Hh [= Hz <-] Hne. split.
  - apply hart_ok_other; [done|done|]. by destruct (proj1 Hw _ _ Hh).
  - intros lk'. eapply lock_ok_same; [done|done|done|]. simpl.
    destruct (decide (lk' = lk)) as [->|]; [|by rewrite word_set_ne].
    rewrite word_set_eq. destruct (proj2 Hw lk) as [[? _]|[-> _]]; [congruence|done].
Qed.

Lemma world_ok_store w h l lk :
  world_ok w → harts w !! h = Some (Hart l Running) → lk ∈ l →
  world_ok (set_hart h (Hart (filter (.≠ lk) l) Releasing) (lock_release lk (wspin w)) w).
Proof.
  intros Hw Hh Hin. assert (h < length (harts w))%nat by (by eapply lookup_lt_Some).
  destruct (proj1 Hw _ _ Hh) as (Hnd & c & b & Hc & Hb & Hn & Hoff). simpl in *.
  split.
  - apply hart_ok_other; [done|done|]. split; [by apply NoDup_filter|].
    exists c, b. simpl. repeat split; auto.
    enough (length l = Datatypes.S (length (filter (.≠ lk) l))) by lia.
    by apply length_filter_ne.
  - intros lk'. destruct (decide (lk' = lk)) as [->|Hne].
    + left. simpl. rewrite word_set_eq. split; [done|]. intros h' t'.
      rewrite list_lookup_insert_Some. intros [(-> & <- & _)|[Hne Hl]].
      * simpl. rewrite list_elem_of_filter. naive_solver.
      * intros Hin'. destruct (proj2 Hw lk) as [[_ Hno]|(_ & h0 & t0 & _ & _ & Hu)].
        { by eapply Hno. }
        apply Hne. by rewrite (Hu _ _ Hl Hin'), (Hu _ _ Hh Hin).
    + eapply lock_ok_same; [done|done| |simpl; by rewrite word_set_ne].
      simpl. rewrite list_elem_of_filter. naive_solver.
Qed.

Lemma world_ok_pop w h l sp :
  world_ok w → harts w !! h = Some (Hart l Releasing) → pop_off h (wspin w) = Some sp →
  world_ok (set_hart h (Hart l Running) sp w).
Proof.
  intros Hw Hh Hp. destruct (pop_off_spec _ _ _ Hp) as (c & Hc & Hwords & Hcpus & Hsie).
  split; [|intros lk; eapply lock_ok_same; [done|done|done|by rewrite Hwords]].
  apply hart_ok_other; [done| |].
  - intros h' Hne. simpl. rewrite Hcpus. split; [by rewrite list_lookup_insert_ne|].
    destruct Hsie as [->|[_ ->]]; [done|]. by rewrite list_lookup_insert_ne.
  - destruct (proj1 Hw _ _ Hh) as (Hnd & c' & b & Hc' & Hb & Hn & Hoff).
    assert (c' = c) as -> by congruence.
    assert (h < length (cpus (wspin w)) ∧ h < length (sie (wspin w)))%nat as [Hlc Hls]
      by (split; by eapply lookup_lt_Some).
    split; [done|]. simpl in *. exists (Cpu (noff c - 1) (intena c)).
    destruct Hsie as [Hsie|[Hz Hsie]]; rewrite Hsie, Hcpus.
    + exists b. rewrite list_lookup_insert_eq by done. simpl. repeat split; auto; [lia|].
      intros. apply Hoff. lia.
    + exists true. rewrite !list_lookup_insert_eq by done. simpl. repeat split; auto; lia.
Qed.

Lemma world_ok_step w w' : world_ok w → step w w' → world_ok w'.
Proof.
  intros Hw Hs. destruct Hs as [? ? ? ? ?|? ? ? ? ?|? ? ? ? ? ?|? ? ? ?|? ? ? ?|h b w Hh].
  - by eapply world_ok_push.
  - by eapply world_ok_take.
  - by eapply world_ok_spin.
  - by eapply world_ok_store.
  - by eapply world_ok_pop.
  - split; [|intros lk; by eapply lock_ok_same].
    apply hart_ok_other; [done| |].
    + intros h' Hne. simpl. by rewrite list_lookup_insert_ne.
    + destruct (proj1 Hw _ _ Hh) as (Hnd & c & b' & Hc & Hb & Hn & Hoff).
      split; [done|]. exists c, b. simpl in *.
      rewrite list_lookup_insert_eq by (by eapply lookup_lt_Some). repeat split; auto; lia.
Qed.

Lemma world_ok_initial w : initial w → world_ok w.
Proof.
  intros [Hsp Hh]. split.
  - intros h t Ht. rewrite Hh in Ht. apply lookup_replicate in Ht as [-> Hlt].
    rewrite Hsp. split; [constructor|]. exists (Cpu 0 false), false. cbn [cpus sie].
    split_and!; try done; by apply lookup_replicate_2.
  - intros lk. left. rewrite Hsp. split; [by destruct lk|].
    intros h t Ht. rewrite Hh in Ht. apply lookup_replicate in Ht as [-> _]. simpl.
    apply not_elem_of_nil.
Qed.

Lemma world_ok_reachable w w' : initial w → rtc step w w' → world_ok w'.
Proof.
  intros Hi Hr. apply world_ok_initial in Hi. induction Hr; [done|].
  eauto using world_ok_step.
Qed.

(** ** Theorems *)

(** C15: mutual exclusion. However the harts interleave their test-and-sets,
    stores, interrupt-nesting steps and interrupt enables, a lock is held by
    at most one hart, its word is 1 exactly while somebody holds it, and a
    holder runs with interrupts off (so no interrupt handler of the same hart
    can spin on a lock the hart holds). *)
Theorem mutual_exclusion w w' lk h t :
  initial w → rtc step w w' → harts w' !! h = Some t → lk ∈ held t →
  word_of lk (words (wspin w')) = 1 ∧
  sie (wspin w') !! h = Some false ∧
  ∀ h' t', harts w' !! h' = Some t' → lk ∈ held t' → h' = h.
Proof.
  intros Hi Hr Hh Hin. destruct (world_ok_reachable _ _ Hi Hr) as [Hharts Hlocks].
  destruct (Hlocks lk) as [[_ Hno]|(Hone & h0 & t0 & Hh0 & Hin0 & Hu)]; [by destruct (Hno _ _ Hh)|].
  destruct (Hharts _ _ Hh) as (_ & c & b & Hc & Hb & Hn & Hoff).
  split; [done|]. split.
  - rewrite Hb, Hoff; [done|]. rewrite Hn. unfold pending.
    destruct (held t); [by apply elem_of_nil in Hin|]. destruct (pc t); simpl length; lia.
  - intros h' t' Hh' Hin'. by rewrite (Hu _ _ Hh' Hin'), (Hu _ _ Hh Hin).
Qed.

(** The state after hart 1 took [kmem_lock], and a path to it. *)
Definition demo_start : world :=
  World (Spin 0 (replicate NCPU (Cpu 0 false)) (replicate NCPU false) (LockWords 0 0 0 0))
    (replicate NCPU (Hart [] Running)).
Definition demo_pushed : world :=
  set_hart 1 (Hart [] (Waiting kmem_lock))
    (Spin 0 (<[1%nat := Cpu 1 false]> (replicate NCPU (Cpu 0 false))) (replicate NCPU false)
       (LockWords 0 0 0 0)) demo_start.
Definition demo_taken : world :=
  set_hart 1 (Hart [kmem_lock] Running)
    (with_words (LockWords 1 0 0 0) (wspin demo_pushed)) demo_pushed.

Lemma demo_steps : rtc step demo_start demo_taken.
Proof.
  eapply rtc_l.
  - apply (step_push 1 [] kmem_lock); reflexivity.
  - eapply rtc_l; [|apply rtc_refl]. by apply (step_take 1 [] kmem_lock).
Qed.

Lemma mutual_exclusion_witness :
  word_of kmem_lock (words (wspin demo_taken)) = 1 ∧
  sie (wspin demo_taken) !! 1%nat = Some false ∧
  ∀ h' t', harts demo_taken !! h' = Some t' → kmem_lock ∈ held t' → h' = 1%nat.
Proof.
  apply (mutual_exclusion demo_start demo_taken kmem_lock 1%nat (Hart [kmem_lock] Running)).
  - by split.
  - exact demo_steps.
  - reflexivity.
  - by left.
Defined.

(** No deadlock on a forgotten lock, and interrupts come back. In every
    reachable state a hart waiting for a lock nobody holds can take it, a
    holder can always release, and the last [pop_off] of a nest turns
    interrupts back on exactly when they were on before its first [push_off]
    (a sequential [acquire] and [release] of a free lock leave the lock words,
    the nesting count and the interrupt enable as they were). *)
Theorem lock_progress w w' lk h t :
  initial w → rtc step w w' → harts w' !! h = Some t →
  (pc t = Waiting lk → (∀ h' t', harts w' !! h' = Some t' → lk ∉ held t') →
     ∃ w'', step w' w'' ∧ harts w'' !! h = Some (Hart (lk :: held t) Running)) ∧
  (pc t = Running → lk ∈ held t →
     ∃ w1 w2, step w' w1 ∧ step w1 w2 ∧ harts w2 !! h = Some (Hart (filter (.≠ lk) (held t)) Running) ∧
       word_of lk (words (wspin w2)) = 0) ∧
  ∀ sp, spin_ok sp → lock_free lk sp →
    acquire lk (Dev sp []) = Done tt (Dev (entered lk sp) []) ∧
    release lk (Dev (entered lk sp) []) = Done tt (Dev (passed sp) []) ∧
    passed sp ≡ sp ∧ words (passed sp) = words sp ∧ sie (passed sp) = sie sp.
Proof.
  intros Hi Hr Hh. pose proof (world_ok_reachable _ _ Hi Hr) as [Hharts Hlocks].
  assert (h < length (harts w'))%nat by (by eapply lookup_lt_Some).
  split; [|split].
  - intros Hw Hno. destruct t as [l p]. simpl in *. subst p.
    destruct (Hlocks lk) as [[Hz _]|(_ & h0 & t0 & Hh0 & Hin0 & _)]; [|by destruct (Hno _ _ Hh0)].
    eexists. split; [eapply step_take; [done|]; unfold test_and_set; by rewrite Hz|].
    simpl. by apply list_lookup_insert_eq.
  - intros Hp Hin. destruct t as [l p]. simpl in *. subst p.
    destruct (Hharts _ _ Hh) as (_ & c & b & Hc & _).
    do 2 eexists. split; [by eapply step_store|]. split.
    + eapply step_pop; [simpl; by apply list_lookup_insert_eq|].
      unfold pop_off, mycpu. simpl. rewrite Hc. simpl. reflexivity.
    + simpl. rewrite list_lookup_insert_eq by (by rewrite length_insert). split; [done|].
      case_match; simpl; by rewrite word_set_eq.
  - intros sp Hok Hfree. split_and!.
    + apply wp_eq, wp_acquire; [done|done|]. done.
    + apply wp_eq, (wp_release lk sp); [done|done|done|]. done.
    + by apply passed_equiv.
    + apply words_passed.
    + apply sie_passed.
Qed.

Lemma lock_progress_witness :
  ∃ w1 w2, step demo_taken w1 ∧ step w1 w2 ∧ harts w2 !! 1%nat = Some (Hart [] Running) ∧
    word_of kmem_lock (words (wspin w2)) = 0.
Proof.
  refine (proj1 (proj2 (lock_progress demo_start demo_taken kmem_lock 1%nat
    (Hart [kmem_lock] Running) _ demo_steps _)) _ _).
  - by split.
  - reflexivity.
  - reflexivity.
  - by left.
Defined.
