(* ===== verification/Uart.v ===== *)
(** * The UART output functions (src/uart.c)

    Every character stored into the transmit register is appended to the [tx]
    trace of the device state; the wait for an idle transmitter is the
    device's and leaves no trace. The formatted output functions hold
    [uart_lock] while they transmit. *)
From S2P Require Import Prelude Spinlock.

Section ops.
Context {S : Type} `{HasDev S}.

Definition add_tx (l : list Z) (s : S) : S := set_dev (Dev (spin_of s) (tx (dev_of s) ++ l)) s.

(** [uart[UART_THR] = (unsigned char)c] once the transmitter is idle. *)
Definition putc_raw (c : Z) : M S unit := modify (add_tx [u8 c]).

Definition uart_init : M S unit := modify (λ s, set_spin (initlock uart_lock (spin_of s)) s).

Definition uart_putc (c : Z) : M S unit :=
  acquire uart_lock;; putc_raw c;; release uart_lock.

(** [for (i = 0; i < n; i++) uart_putc(buf[i])] *)
Fixpoint putc_each (l : list Z) : M S unit :=
  match l with
  | [] => mret tt
  | c :: l => uart_putc c;; putc_each l
  end.

(** The loop of [uart_puts] over the characters before the terminator. *)
Fixpoint puts_loop (l : list Z) : M S unit :=
  match l with
  | [] => mret tt
  | c :: l => when (c =? 10) (putc_raw 13);; putc_raw c;; puts_loop l
  end.

(** [uart_puts] on the characters of a C string (without its terminator). *)
Definition uart_puts (l : list Z) : M S unit :=
  acquire uart_lock;; puts_loop l;; release uart_lock.

(** [uart_puts] on a string literal. *)
Definition uart_str (s : string) : M S unit := uart_puts (of_string s).

(** [uart_puts] on a string literal that ends in a newline. *)
Definition uart_line (s : string) : M S unit := uart_puts (of_string s ++ [10]).

(** [while (n > 0) { buf[i++] = '0' + n % 10; n /= 10; }] with [char buf[21]]:
    the digits from the last to the first. *)
Definition dec_body (x : Z * list Z) : M S ((Z * list Z) + list Z) :=
  let '(n, buf) := x in
  if 0 <? n then
    assertb (Z.of_nat (length buf) <? 21);;
    mret (inl (n / 10, buf ++ [u8 (48 + n mod 10)]))
  else mret (inr buf).

Fixpoint putc_all (l : list Z) : M S unit :=
  match l with
  | [] => mret tt
  | c :: l => putc_raw c;; putc_all l
  end.

(** The fuel is the array bound plus one: a 64-bit number has at most 20 digits. *)
Definition uart_dec (n : Z) : M S unit :=
  acquire uart_lock;;
  if n =? 0 then putc_raw 48;; release uart_lock
  else buf ← loop 22 dec_body (n, []); putc_all (rev buf);; release uart_lock.

(** [for (shift = 60; shift >= 0; shift -= 4)], [k] more rounds. *)
Fixpoint hex_loop (k : nat) (n : Z) : M S unit :=
  match k with
  | O => mret tt
  | Datatypes.S k =>
      let d := Z.land (Z.shiftr n (4 * Z.of_nat k)) 15 in
      putc_raw (if d <? 10 then 48 + d else 97 + d - 10);; hex_loop k n
  end.

Definition uart_hex (n : Z) : M S unit :=
  acquire uart_lock;; putc_raw 48;; putc_raw 120;; hex_loop 16 n;; release uart_lock.
End ops.

(** ** Specification *)

(** A newline goes out as CR LF. *)
Definition crlf (l : list Z) : list Z := l ≫= λ c, if c =? 10 then [13; 10] else [u8 c].

(** The value a decimal (hexadecimal) numeral denotes. *)
Definition dec_value (l : list Z) : Z := fold_left (λ v c, 10 * v + (c - 48)) l 0.
Definition hex_digit (c : Z) : Z := if c <? 58 then c - 48 else c - 87.
Definition hex_value (l : list Z) : Z := fold_left (λ v c, 16 * v + hex_digit c) l 0.

(** The digits [uart_dec] transmits. *)
Fixpoint dec_digits (fuel : nat) (n : Z) : list Z :=
  match fuel with
  | O => []
  | S fuel => if 0 <? n then dec_digits fuel (n / 10) ++ [48 + n mod 10] else []
  end.
Definition dec_out (n : Z) : list Z := if n =? 0 then [48] else dec_digits 21 n.

Fixpoint hex_digits (k : nat) (n : Z) : list Z :=
  match k with
  | O => []
  | S k => (let d := (n / 16 ^ Z.of_nat k) mod 16 in if d <? 10 then 48 + d else 87 + d) :: hex_digits k n
  end.

(** The device may be written to: a valid hart with [uart_lock] free. *)
Definition dev_ready (d : dev) : Prop := spin_ok (dspin d) ∧ lock_free uart_lock (dspin d).

(** Devices that agree on the output and, up to left-overs, on the locks. *)
#[export] Instance dev_equiv : Equiv dev := λ d d', dspin d ≡ dspin d' ∧ tx d = tx d'.

(** The device after a message: the output [l] appended. *)
Definition said (l : list Z) (d : dev) : dev := Dev (passed (dspin d)) (tx d ++ l).

(** ** Lemmas *)

#[export] Instance dev_equiv_equivalence : Equivalence (≡@{dev}).
Proof.
  split; unfold equiv, dev_equiv.
  - by intros d.
  - intros d d' [-> ->]. done.
  - intros d d' d'' [-> ->] [-> ->]. done.
Qed.

#[export] Instance dev_ready_proper : Proper ((≡) ==> iff) dev_ready.
Proof. intros d d' [Hs _]. unfold dev_ready. by rewrite Hs. Qed.

Lemma said_ready l d : dev_ready d → dev_ready (said l d).
Proof. intros []. split; simpl; eauto with kernel. Qed.

Lemma said_free lk l d : lock_free lk (dspin d) → lock_free lk (dspin (said l d)).
Proof. simpl. eauto with kernel. Qed.

Lemma said_said l l' d : spin_ok (dspin d) → said l' (said l d) = said (l ++ l') d.
Proof. intros. unfold said. simpl. by rewrite passed_idem, app_assoc. Qed.

Lemma said_equiv l d : spin_ok (dspin d) → said l d ≡ Dev (dspin d) (tx d ++ l).
Proof. intros. split; [by apply passed_equiv|done]. Qed.

Lemma said_spin l d : spin_ok (dspin d) → dspin (said l d) ≡ dspin d.
Proof. intros. by apply (said_equiv l d). Qed.

#[export] Hint Resolve said_ready said_free : kernel.

Section out.
Context {S : Type} `{HasDevLaws S}.
Implicit Types s : S.

Lemma dev_eta s : set_dev (Dev (spin_of s) (tx (dev_of s))) s = s.
Proof. unfold spin_of. destruct (dev_of s) as [a b] eqn:E. simpl. rewrite <- E. apply set_dev_of. Qed.

Lemma add_tx_nil s : add_tx [] s = s.
Proof. unfold add_tx. rewrite app_nil_r. apply dev_eta. Qed.
Lemma add_tx_app l l' s : add_tx l' (add_tx l s) = add_tx (l ++ l') s.
Proof. unfold add_tx, spin_of. by rewrite dev_of_set, set_dev_set, app_assoc. Qed.
Lemma spin_of_add_tx l s : spin_of (add_tx l s) = spin_of s.
Proof. unfold add_tx, spin_of. by rewrite dev_of_set. Qed.

(** A message transmitted with the lock held. *)
Lemma wp_message l (body : M S unit) Q s :
  dev_ready (dev_of s) →
  (∀ R t, R tt (add_tx l t) → wp body R t) →
  Q tt (set_dev (said l (dev_of s)) s) →
  wp (acquire uart_lock;; body;; release uart_lock) Q s.
Proof.
  intros [Hok Hfree] Hbody HQ. wp_steps. apply wp_acquire; [done|done|]. wp_steps.
  apply Hbody. apply (wp_release uart_lock (spin_of s)); [done|done| |].
  { by rewrite spin_of_add_tx, spin_of_set. }
  unfold set_spin, add_tx, spin_of. by rewrite !dev_of_set, !set_dev_set.
Qed.

Lemma wp_putc_raw c Q s : Q tt (add_tx [u8 c] s) → wp (putc_raw c) Q s.
Proof. done. Qed.

Lemma wp_puts_loop l Q s : Q tt (add_tx (crlf l) s) → wp (puts_loop l) Q s.
Proof.
  revert s. induction l as [|c l IH]; intros s HQ; cbn [puts_loop].
  - apply wp_ret. by rewrite add_tx_nil in HQ.
  - apply wp_bind. revert HQ. cbn [crlf mbind list_bind].
    destruct (Z.eqb_spec c 10) as [->|Hc]; intros HQ.
    + apply wp_putc_raw. wp_steps. apply wp_putc_raw, IH. by rewrite !add_tx_app.
    + apply wp_ret. wp_steps. apply wp_putc_raw, IH. by rewrite !add_tx_app.
Qed.

Lemma wp_puts l Q s :
  dev_ready (dev_of s) → Q tt (set_dev (said (crlf l) (dev_of s)) s) → wp (uart_puts l) Q s.
Proof. intros. apply (wp_message (crlf l)); [done| |done]. intros. by apply wp_puts_loop. Qed.

Lemma wp_str m Q s :
  dev_ready (dev_of s) → Q tt (set_dev (said (crlf (of_string m)) (dev_of s)) s) →
  wp (uart_str m) Q s.
Proof. apply wp_puts. Qed.

Lemma wp_putc c Q s :
  dev_ready (dev_of s) → Q tt (set_dev (said [u8 c] (dev_of s)) s) → wp (uart_putc c) Q s.
Proof. intros. apply (wp_message [u8 c]); [done| |done]. intros. by apply wp_putc_raw. Qed.

Lemma wp_putc_all l Q s : Q tt (add_tx (u8 <$> l) s) → wp (putc_all l) Q s.
Proof.
  revert s. induction l as [|c l IH]; intros s HQ; cbn [putc_all].
  - by rewrite add_tx_nil in HQ.
  - wp_steps. apply wp_putc_raw, IH. by rewrite add_tx_app.
Qed.

Lemma wp_dec_loop fuel n buf Q s :
  0 ≤ n < 10 ^ Z.of_nat fuel → (length buf + fuel ≤ 21)%nat →
  Q (buf ++ rev (dec_digits fuel n)) s → wp (loop (Datatypes.S fuel) dec_body (n, buf)) Q s.
Proof.
  revert n buf. induction fuel as [|fuel IH]; intros n buf Hn Hlen HQ.
  - simpl in Hn. assert (n = 0) as -> by lia. simpl in *. by rewrite app_nil_r in HQ.
  - rewrite loop_S. wp_steps. unfold dec_body at 1.
    cbn [dec_digits] in HQ. destruct (Z.ltb_spec 0 n).
    + wp_steps; [bsimp; lia|]. wp_steps. apply IH.
      * rewrite Nat2Z.inj_succ, Z.pow_succ_r in Hn by lia. Z.to_euclidean_division_equations. nia.
      * rewrite length_app. simpl. lia.
      * rewrite rev_app_distr in HQ. simpl in HQ.
        replace (u8 (48 + n mod 10)) with (48 + n mod 10) by wrap_lia. by rewrite <- app_assoc.
    + wp_steps. simpl in HQ. by rewrite app_nil_r in HQ.
Qed.

Lemma dec_digits_byte fuel n : Forall (λ c, 48 ≤ c < 58) (dec_digits fuel n).
Proof.
  revert n. induction fuel as [|fuel IH]; intros n; simpl; [constructor|].
  destruct (0 <? n); [|constructor]. apply Forall_app. split; [done|].
  repeat constructor; wrap_lia.
Qed.

Lemma u8_digits l : Forall (λ c, 48 ≤ c < 58) l → u8 <$> l = l.
Proof. induction 1 as [|c l Hc _ IH]; [done|]. rewrite fmap_cons, IH. f_equal. wrap_lia. Qed.

Lemma wp_dec n Q s :
  0 ≤ n < 2 ^ 64 → dev_ready (dev_of s) →
  Q tt (set_dev (said (dec_out n) (dev_of s)) s) → wp (uart_dec n) Q s.
Proof.
  intros Hn Hr HQ. unfold uart_dec, dec_out in *. destruct (n =? 0).
  - by apply (wp_message [48]).
  - eapply (wp_message (dec_digits 21 n) (loop 22 dec_body (n, []) ≫= λ buf, putc_all (rev buf)))
      in HQ; [|done|].
    + revert HQ. unfold wp, mbind, M_bind. destruct (acquire uart_lock s); [|done|done].
      by destruct (loop _ _ _).
    + intros R t HR. wp_steps. apply wp_dec_loop; [lia|simpl; lia|].
      rewrite app_nil_l, rev_involutive. apply wp_putc_all. by rewrite u8_digits by apply dec_digits_byte.
Qed.

Lemma wp_hex_loop k n Q s : 0 ≤ n → Q tt (add_tx (hex_digits k n) s) → wp (hex_loop k n) Q s.
Proof.
  intros Hn. revert s. induction k as [|k IH]; intros s HQ; cbn [hex_loop].
  - by rewrite add_tx_nil in HQ.
  - wp_steps. apply wp_putc_raw, IH. rewrite add_tx_app. cbn [hex_digits] in HQ.
    set (d := (n / 16 ^ Z.of_nat k) mod 16) in *.
    assert (Z.land (Z.shiftr n (4 * Z.of_nat k)) 15 = d) as ->.
    { change 15 with (Z.ones 4). rewrite Z.land_ones, Z.shiftr_div_pow2, Z.pow_mul_r by lia. done. }
    assert (0 ≤ d < 16) by (apply Z.mod_pos_bound; lia).
    replace (u8 (if d <? 10 then 48 + d else 97 + d - 10)) with (if d <? 10 then 48 + d else 87 + d);
      [done|]. destruct (d <? 10); wrap_lia.
Qed.

Lemma wp_hex n Q s :
  0 ≤ n → dev_ready (dev_of s) →
  Q tt (set_dev (said (48 :: 120 :: hex_digits 16 n) (dev_of s)) s) → wp (uart_hex n) Q s.
Proof.
  intros Hn Hr HQ. eapply (wp_message _ (putc_raw 48;; putc_raw 120;; hex_loop 16 n)) in HQ; [|done|].
  - revert HQ. unfold uart_hex, wp, mbind, M_bind. destruct (acquire uart_lock s); [|done|done].
    done.
  - intros R t HR. wp_steps. apply wp_putc_raw. wp_steps. apply wp_putc_raw.
    apply wp_hex_loop; [done|]. by rewrite !add_tx_app.
Qed.
End out.

(** ** The numerals denote the number *)

Lemma dec_value_snoc l c : dec_value (l ++ [c]) = 10 * dec_value l + (c - 48).
Proof. unfold dec_value. by rewrite fold_left_app. Qed.

Lemma dec_value_digits fuel n :
  0 ≤ n < 10 ^ Z.of_nat fuel → dec_value (dec_digits fuel n) = n.
Proof.
  revert n. induction fuel as [|fuel IH]; intros n Hn; [unfold dec_value; simpl in *; lia|]. cbn [dec_digits].
  destruct (Z.ltb_spec 0 n) as [H0|H0]; [|unfold dec_value; simpl; lia].
  rewrite dec_value_snoc, IH; [wrap_lia|].
  rewrite Nat2Z.inj_succ, Z.pow_succ_r in Hn by lia. Z.to_euclidean_division_equations. nia.
Qed.

Lemma dec_digits_head fuel n c l : dec_digits fuel n = c :: l → 0 < n → n < 10 ^ Z.of_nat fuel → c ≠ 48.
Proof.
  revert n c l. induction fuel as [|fuel IH]; intros n c l Heq H0 Hn; [done|].
  cbn [dec_digits] in Heq. rewrite (proj2 (Z.ltb_lt _ _) H0) in Heq.
  rewrite Nat2Z.inj_succ, Z.pow_succ_r in Hn by lia.
  destruct (decide (n / 10 = 0)) as [E|E].
  - rewrite E in Heq. destruct fuel; simpl in Heq; injection Heq as <- _; wrap_lia.
  - destruct (dec_digits fuel (n / 10)) as [|c' l'] eqn:E'.
    + apply (f_equal dec_value) in E'. rewrite dec_value_digits in E'; [by destruct E|].
      Z.to_euclidean_division_equations. nia.
    + injection Heq as -> _. apply (IH _ _ _ E'); Z.to_euclidean_division_equations; nia.
Qed.

Lemma hex_value_acc k n v :
  0 ≤ n → fold_left (λ v c, 16 * v + hex_digit c) (hex_digits k n) v = v * 16 ^ Z.of_nat k + n mod 16 ^ Z.of_nat k.
Proof.
  intros Hn. revert v. induction k as [|k IH]; intros v.
  { simpl. rewrite Z.mod_1_r. lia. }
  cbn [hex_digits fold_left]. rewrite IH.
  set (d := (n / 16 ^ Z.of_nat k) mod 16). assert (0 ≤ d < 16) by (apply Z.mod_pos_bound; lia).
  assert (hex_digit (if d <? 10 then 48 + d else 87 + d) = d) as ->.
  { unfold hex_digit. destruct (Z.ltb_spec d 10).
    - rewrite (proj2 (Z.ltb_lt _ _)) by lia. lia.
    - rewrite (proj2 (Z.ltb_ge _ _)) by lia. lia. }
  rewrite Nat2Z.inj_succ, Z.pow_succ_r by lia. subst d.
  rewrite (Z.mul_comm 16 (16 ^ _)), Z.rem_mul_r by lia. ring.
Qed.

(** ** Theorems *)

(** The numerals the kernel prints. For every 64-bit number [uart_dec]
    returns (its loop ends within the buffer [buf[21]]), having transmitted a
    non-empty string of decimal digits, without leading zero, whose value is
    the number; [uart_hex] transmits [0x] and sixteen hexadecimal digits of
    that value; both leave the locks free and as they were. *)
Theorem uart_numerals n (d : dev) :
  0 ≤ n < 2 ^ 64 → dev_ready d →
  (∃ d', uart_dec n d = Done tt d' ∧ dspin d' ≡ dspin d ∧ dev_ready d' ∧
     ∃ l, tx d' = tx d ++ l ∧ dec_value l = n ∧ Forall (λ c, 48 ≤ c < 58) l ∧
       (0 < n → ∃ c k, l = c :: k ∧ c ≠ 48) ∧ (n = 0 → l = [48])) ∧
  (∃ d', uart_hex n d = Done tt d' ∧ dspin d' ≡ dspin d ∧ dev_ready d' ∧
     ∃ l, tx d' = tx d ++ [48; 120] ++ l ∧ length l = 16%nat ∧ hex_value l = n).
Proof.
  intros Hn Hr. pose proof Hr as [Hok _]. split.
  - exists (said (dec_out n) d). split; [by apply wp_eq, wp_dec|].
    split; [by apply said_spin|]. split; [by apply said_ready|]. exists (dec_out n).
    split; [done|]. unfold dec_out. destruct (Z.eqb_spec n 0) as [->|H0].
    { split_and!; [done|by repeat constructor|lia|done]. }
    assert (0 ≤ n < 10 ^ Z.of_nat 21) by (change (10 ^ Z.of_nat 21) with (10 ^ 21); lia).
    split_and!; [by apply dec_value_digits|apply dec_digits_byte| |lia].
    intros _. destruct (dec_digits 21 n) as [|c k] eqn:E.
    + apply (f_equal dec_value) in E. rewrite dec_value_digits in E by done. unfold dec_value in E. simpl in E. lia.
    + exists c, k. split; [done|]. apply (dec_digits_head _ _ _ _ E); lia.
  - exists (said (48 :: 120 :: hex_digits 16 n) d). split; [apply wp_eq, wp_hex; [lia|done|done]|].
    split; [by apply said_spin|]. split; [by apply said_ready|]. exists (hex_digits 16 n).
    split; [done|]. split; [done|]. unfold hex_value. rewrite hex_value_acc by lia.
    change (16 ^ Z.of_nat 16) with (2 ^ 64). rewrite Z.mod_small; lia.
Qed.

(** A device with one hart running and nothing printed yet. *)
Definition demo_dev : dev :=
  Dev (Spin 0 (replicate NCPU (Cpu 0 false)) (replicate NCPU true) (LockWords 0 0 0 0)) [].

Lemma demo_dev_ready : dev_ready demo_dev.
Proof. split; [exists (Cpu 0 false), true; repeat split; simpl; lia|done]. Qed.

Lemma uart_numerals_witness :
  dec_value [52; 48; 57; 54] = 4096 ∧ ∃ d', uart_dec 4096 demo_dev = Done tt d' ∧ dspin d' ≡ dspin demo_dev.
Proof.
  split; [reflexivity|].
  destruct (proj1 (uart_numerals 4096 demo_dev ltac:(lia) demo_dev_ready)) as (d' & H & H' & _).
  exists d'. split; [exact H|exact H'].
Defined.
