(* ===== verification/Mem.v ===== *)
(** * Physical memory as bytes, and the machine state of the memory subsystem

    The kernel is identity mapped, so a pointer is a physical address. Memory
    is a finite map from addresses to bytes; multi-byte accesses are little
    endian. [machine] is the state kalloc.c and vm.c work on. *)
From S2P Require Import Prelude Spinlock Uart.

(** QEMU virt RAM, and the page size (kalloc.c, vm.c). *)
Definition PGSIZE : Z := 4096.
Definition RAMBASE : Z := 0x80000000.
Definition PHYSTOP : Z := 0x88000000.
Definition NPAGES : Z := (PHYSTOP - RAMBASE) / PGSIZE.

(** ** Byte-level loads and stores *)

Definition ld8 (m : gmap Z Z) (a : Z) : Z := u8 (default 0 (m !! a)).

Fixpoint read_bytes (n : nat) (m : gmap Z Z) (a : Z) : list Z :=
  match n with
  | O => []
  | S n => ld8 m a :: read_bytes n m (a + 1)
  end.

Fixpoint write_bytes (m : gmap Z Z) (a : Z) (l : list Z) : gmap Z Z :=
  match l with
  | [] => m
  | b :: l => write_bytes (<[a := b]> m) (a + 1) l
  end.

Definition ld64 (m : gmap Z Z) (a : Z) : Z := le_val (read_bytes 8 m a).
Definition st64 (m : gmap Z Z) (a v : Z) : gmap Z Z := write_bytes m a (le_bytes 8 v).

(** [while (n-- > 0) *d++ = (char)c] *)
Fixpoint memset_loop (n : nat) (d c : Z) (m : gmap Z Z) : gmap Z Z :=
  match n with
  | O => m
  | S n => memset_loop n (d + 1) c (<[d := u8 c]> m)
  end.

(** [while (n-- > 0) *d++ = *s++] *)
Fixpoint memcopy_loop (n : nat) (d s : Z) (m : gmap Z Z) : gmap Z Z :=
  match n with
  | O => m
  | S n => memcopy_loop n (d + 1) (s + 1) (<[d := ld8 m s]> m)
  end.

(** ** The machine state *)

(** The statics of kalloc.c: head of the free list, its length, and the
    reference count of every physical page (absent: 0). *)
Record kmem := Kmem { freelist : Z; freecnt : Z; refcnt : gmap Z Z }.

(** The statics of vm.c and the hart's [satp]; [fences] counts [sfence.vma]. *)
Record machine := Machine {
  mdev : dev;
  mem : gmap Z Z;
  km : kmem;
  kernel_pagetable : Z;
  satp : Z;
  fences : Z;
}.

#[export] Instance machine_has_dev : HasDev machine := {|
  dev_of := mdev;
  set_dev d s := Machine d (mem s) (km s) (kernel_pagetable s) (satp s) (fences s);
|}.
#[export] Instance machine_has_dev_laws : HasDevLaws machine.
Proof. by split; intros; try destruct s. Qed.

Definition with_mem (m : gmap Z Z) (s : machine) : machine :=
  Machine (mdev s) m (km s) (kernel_pagetable s) (satp s) (fences s).
Definition with_km (k : kmem) (s : machine) : machine :=
  Machine (mdev s) (mem s) k (kernel_pagetable s) (satp s) (fences s).
Definition with_kpt (p : Z) (s : machine) : machine :=
  Machine (mdev s) (mem s) (km s) p (satp s) (fences s).
Definition with_satp (v : Z) (s : machine) : machine :=
  Machine (mdev s) (mem s) (km s) (kernel_pagetable s) v (fences s).

(** An access is defined only inside RAM. *)
Definition in_ram (a n : Z) : bool := (RAMBASE <=? a) && (a + n <=? PHYSTOP).

Definition load64 (a : Z) : M machine Z := assertb (in_ram a 8);; gets (λ s, ld64 (mem s) a).
Definition store64 (a v : Z) : M machine unit :=
  assertb (in_ram a 8);; modify (λ s, with_mem (st64 (mem s) a (u64 v)) s).
Definition memset (d c n : Z) : M machine unit :=
  assertb (in_ram d n);; modify (λ s, with_mem (memset_loop (Z.to_nat n) d c (mem s)) s).
Definition memcopy (d src n : Z) : M machine unit :=
  assertb (in_ram d n && in_ram src n);;
  modify (λ s, with_mem (memcopy_loop (Z.to_nat n) d src (mem s)) s).
Definition zero (d n : Z) : M machine unit := memset d 0 n.
Definition sfence_vma : M machine unit :=
  modify (λ s, Machine (mdev s) (mem s) (km s) (kernel_pagetable s) (satp s) (fences s + 1)).
Definition w_satp (v : Z) : M machine unit := modify (with_satp v).

(** ** Lemmas on bytes *)

Lemma ld8_byte m a : is_byte (ld8 m a).
Proof. apply u8_byte. Qed.

Lemma length_read_bytes n m a : length (read_bytes n m a) = n.
Proof. revert a. induction n as [|n IH]; intros; simpl; [done|]. by rewrite IH. Qed.

Lemma read_bytes_byte n m a : Forall is_byte (read_bytes n m a).
Proof. revert a. induction n as [|n IH]; intros; simpl; constructor; [apply ld8_byte|done]. Qed.

#[export] Hint Resolve ld8_byte read_bytes_byte : kernel.
#[export] Hint Rewrite length_read_bytes : klen.

Lemma ld64_bound m a : 0 ≤ ld64 m a < 2 ^ 64.
Proof.
  pose proof (le_val_bound _ (read_bytes_byte 8 m a)) as H. by rewrite length_read_bytes in H.
Qed.

Lemma ld8_insert_eq m a b : is_byte b → ld8 (<[a := b]> m) a = b.
Proof. intros. unfold ld8. rewrite lookup_insert_eq. simpl. by apply u8_small. Qed.
Lemma ld8_insert_ne m a b x : x ≠ a → ld8 (<[a := b]> m) x = ld8 m x.
Proof. intros. unfold ld8. by rewrite lookup_insert_ne. Qed.

Lemma ld8_write_ne m a l x : x < a ∨ a + Z.of_nat (length l) ≤ x → ld8 (write_bytes m a l) x = ld8 m x.
Proof.
  revert m a. induction l as [|b l IH]; intros m a Hx; [done|]. simpl length in Hx.
  cbn [write_bytes]. rewrite IH by lia. apply ld8_insert_ne. lia.
Qed.

Lemma ld8_write_in m a l i b :
  Forall is_byte l → l !! i = Some b → ld8 (write_bytes m a l) (a + Z.of_nat i) = b.
Proof.
  intros Hl. revert m a i. induction Hl as [|c l Hc _ IH]; intros m a i Hi; [done|].
  cbn [write_bytes]. destruct i as [|i].
  - injection Hi as <-. rewrite Z.add_0_r, ld8_write_ne by lia. by apply ld8_insert_eq.
  - replace (a + Z.of_nat (S i)) with (a + 1 + Z.of_nat i) by lia. by apply IH.
Qed.

Lemma read_bytes_ext n m m' a :
  (∀ x, a ≤ x < a + Z.of_nat n → ld8 m x = ld8 m' x) → read_bytes n m a = read_bytes n m' a.
Proof.
  revert a. induction n as [|n IH]; intros a Hx; [done|]. simpl. rewrite (Hx a) by lia. f_equal.
  apply IH. intros. apply Hx. lia.
Qed.

Lemma lookup_read_bytes n m a i :
  (i < n)%nat → read_bytes n m a !! i = Some (ld8 m (a + Z.of_nat i)).
Proof.
  revert a i. induction n as [|n IH]; intros a i Hi; [lia|]. destruct i as [|i]; simpl.
  - do 2 f_equal. lia.
  - rewrite IH by lia. do 2 f_equal. lia.
Qed.

Lemma read_write_eq m a l : Forall is_byte l → read_bytes (length l) (write_bytes m a l) a = l.
Proof.
  intros Hl. apply list_eq. intros i. destruct (l !! i) as [b|] eqn:Hi.
  - rewrite lookup_read_bytes by (by eapply lookup_lt_Some). f_equal. by eapply ld8_write_in.
  - apply lookup_ge_None_2. rewrite length_read_bytes. by apply lookup_ge_None_1.
Qed.

Lemma read_write_ne n m a l x :
  x + Z.of_nat n ≤ a ∨ a + Z.of_nat (length l) ≤ x →
  read_bytes n (write_bytes m a l) x = read_bytes n m x.
Proof. intros Hx. apply read_bytes_ext. intros y Hy. apply ld8_write_ne. lia. Qed.

Lemma ld64_ext m m' a : (∀ x, a ≤ x < a + 8 → ld8 m x = ld8 m' x) → ld64 m a = ld64 m' a.
Proof. intros Hx. unfold ld64. f_equal. by apply read_bytes_ext. Qed.

Lemma ld64_st64_eq m a v : 0 ≤ v < 2 ^ 64 → ld64 (st64 m a v) a = v.
Proof.
  intros Hv. unfold ld64, st64. pose proof (read_write_eq m a _ (le_bytes_byte 8 v)) as H.
  rewrite length_le_bytes in H. rewrite H. by apply le_val_bytes.
Qed.

Lemma ld64_st64_ne m a v x : x + 8 ≤ a ∨ a + 8 ≤ x → ld64 (st64 m a v) x = ld64 m x.
Proof. intros. unfold ld64, st64. rewrite read_write_ne; [done|]. rewrite length_le_bytes. lia. Qed.

Lemma ld8_st64_ne m a v x : x < a ∨ a + 8 ≤ x → ld8 (st64 m a v) x = ld8 m x.
Proof. intros. unfold st64. rewrite ld8_write_ne; [done|]. rewrite length_le_bytes. lia. Qed.

Lemma memset_write n d c m : memset_loop n d c m = write_bytes m d (replicate n (u8 c)).
Proof. revert d m. induction n as [|n IH]; intros; simpl; [done|]. by rewrite IH. Qed.

Lemma ld8_memset_in n d c m x : d ≤ x < d + Z.of_nat n → ld8 (memset_loop n d c m) x = u8 c.
Proof.
  intros Hx. rewrite memset_write. replace x with (d + Z.of_nat (Z.to_nat (x - d))) by lia.
  apply ld8_write_in; [apply Forall_replicate; eauto with kernel|]. apply lookup_replicate_2. lia.
Qed.

Lemma ld8_memset_ne n d c m x : x < d ∨ d + Z.of_nat n ≤ x → ld8 (memset_loop n d c m) x = ld8 m x.
Proof. intros. rewrite memset_write, ld8_write_ne; [done|]. rewrite length_replicate. lia. Qed.

Lemma memcopy_write n d s m :
  d + Z.of_nat n ≤ s ∨ s + Z.of_nat n ≤ d →
  memcopy_loop n d s m = write_bytes m d (read_bytes n m s).
Proof.
  revert d s m. induction n as [|n IH]; intros d s m Hd; simpl; [done|].
  rewrite IH by lia. f_equal. apply read_bytes_ext. intros. apply ld8_insert_ne. lia.
Qed.

Lemma ld8_memcopy_in n d s m x :
  d + Z.of_nat n ≤ s ∨ s + Z.of_nat n ≤ d → d ≤ x < d + Z.of_nat n →
  ld8 (memcopy_loop n d s m) x = ld8 m (s + (x - d)).
Proof.
  intros Hd Hx. rewrite memcopy_write by done.
  replace x with (d + Z.of_nat (Z.to_nat (x - d))) at 1 by lia.
  apply ld8_write_in; [eauto with kernel|]. rewrite lookup_read_bytes by lia. do 2 f_equal. lia.
Qed.

Lemma ld8_memcopy_ne n d s m x :
  d + Z.of_nat n ≤ s ∨ s + Z.of_nat n ≤ d → x < d ∨ d + Z.of_nat n ≤ x →
  ld8 (memcopy_loop n d s m) x = ld8 m x.
Proof. intros Hd Hx. rewrite memcopy_write, ld8_write_ne; [done| |done]. rewrite length_read_bytes. lia. Qed.

(** ** Rules for the monadic accesses *)

Lemma wp_load64 a Q s : in_ram a 8 = true → Q (ld64 (mem s) a) s → wp (load64 a) Q s.
Proof. intros. unfold load64. by wp_steps. Qed.
Lemma wp_store64 a v Q s :
  in_ram a 8 = true → Q tt (with_mem (st64 (mem s) a (u64 v)) s) → wp (store64 a v) Q s.
Proof. intros. unfold store64. by wp_steps. Qed.
Lemma wp_memset d c n Q s :
  in_ram d n = true → Q tt (with_mem (memset_loop (Z.to_nat n) d c (mem s)) s) →
  wp (memset d c n) Q s.
Proof. intros. unfold memset. by wp_steps. Qed.
Lemma wp_memcopy d src n Q s :
  in_ram d n = true → in_ram src n = true →
  Q tt (with_mem (memcopy_loop (Z.to_nat n) d src (mem s)) s) → wp (memcopy d src n) Q s.
Proof. intros. unfold memcopy. wp_steps; [by bsimp|]. by wp_steps. Qed.

Lemma in_ram_iff a n : in_ram a n = true ↔ RAMBASE ≤ a ∧ a + n ≤ PHYSTOP.
Proof. unfold in_ram. rewrite andb_true_iff, !Z.leb_le. done. Qed.
