(* ===== verification/Kalloc.v ===== *)
(** * The physical page allocator (src/kalloc.c)

    Free pages are chained through their first eight bytes; every page has a
    reference count, so that address spaces can share it. The concrete
    operations are followed by the allocator's invariant, its abstract
    specification (which pages are live, with which count) and the lemmas that
    relate the two. *)
From S2P Require Import Prelude Spinlock Uart Mem.

(** [PGROUNDUP(a)] on 64-bit words. *)
Definition PGROUNDUP (a : Z) : Z := Z.land (u64 (u64 (a + PGSIZE) - 1)) (u64 (Z.lnot (PGSIZE - 1))).

(** [(int)(((uint64)pa - RAMBASE) >> 12)] *)
Definition refidx (pa : Z) : Z := i32 (Z.shiftr (u64 (pa - RAMBASE)) 12).

(** [refcnt[i]], an index outside the array being undefined. *)
Definition refcnt_in (i : Z) : bool := (0 <=? i) && (i <? NPAGES).
Definition rc_get (i : Z) (k : kmem) : Z := default 0 (refcnt k !! i).
Definition rc_set (i v : Z) (k : kmem) : kmem :=
  Kmem (freelist k) (freecnt k) (<[i := u8 v]> (refcnt k)).

Definition get_refcnt (i : Z) : M machine Z :=
  assertb (refcnt_in i);; gets (λ s, rc_get i (km s)).
Definition set_refcnt (i v : Z) : M machine unit :=
  assertb (refcnt_in i);; modify (λ s, with_km (rc_set i v (km s)) s).

Definition set_freelist (p : Z) : M machine unit :=
  modify (λ s, with_km (Kmem p (freecnt (km s)) (refcnt (km s))) s).
Definition add_freecnt (d : Z) : M machine unit :=
  modify (λ s, with_km (Kmem (freelist (km s)) (u64 (freecnt (km s) + d)) (refcnt (km s))) s).

Definition kfree (pa : Z) : M machine unit :=
  acquire kmem_lock;;
  let i := refidx pa in
  c ← get_refcnt i;
  if 1 <? c then set_refcnt i (c - 1);; release kmem_lock
  else
    set_refcnt i 0;;
    head ← gets (λ s, freelist (km s));
    store64 pa head;;
    set_freelist pa;;
    add_freecnt 1;;
    release kmem_lock.

Definition kref_inc (pa : Z) : M machine unit :=
  acquire kmem_lock;;
  c ← get_refcnt (refidx pa);
  set_refcnt (refidx pa) (c + 1);;
  release kmem_lock.

(** The body of the loop of [kinit]: one page, if it ends below [PHYSTOP]. *)
Definition kinit_body (p : Z) : M machine (Z + unit) :=
  if u64 (p + PGSIZE) <=? PHYSTOP then
    set_refcnt (refidx p) 1;; kfree p;; mret (inl (u64 (p + PGSIZE)))
  else mret (inr tt).

(** The linker symbol [end] is an argument; one round per page of RAM, and one
    to leave, are enough. *)
Definition kinit_fuel : nat := Z.to_nat 32770.
Definition kinit (kend : Z) : M machine unit :=
  modify (λ s, set_spin (initlock kmem_lock (spin_of s)) s);;
  loop kinit_fuel kinit_body (PGROUNDUP kend).

Definition kalloc : M machine Z :=
  acquire kmem_lock;;
  r ← gets (λ s, freelist (km s));
  when (negb (r =? 0)) (
    next ← load64 r;
    set_freelist next;;
    add_freecnt (-1);;
    set_refcnt (refidx r) 1);;
  release kmem_lock;;
  mret r.

Definition kfreecount : M machine Z := gets (λ s, freecnt (km s)).

(** ** Invariant *)

Definition page_aligned (p : Z) : Prop := p mod PGSIZE = 0.

(** The index of a page and the pages of RAM. *)
Definition pidx (p : Z) : Z := (p - RAMBASE) / PGSIZE.
Definition ram_page (p : Z) : Prop := page_aligned p ∧ RAMBASE ≤ p ∧ p + PGSIZE ≤ PHYSTOP.

(** The reference count of a page. *)
Definition rc (s : machine) (p : Z) : Z := rc_get (pidx p) (km s).

(** The list of pages chained from [p] through the memory. *)
Fixpoint chain (m : gmap Z Z) (p : Z) (l : list Z) : Prop :=
  match l with
  | [] => p = 0
  | q :: l => p = q ∧ chain m (ld64 m q) l
  end.

(** All locks usable by the running hart. *)
Definition ready (s : machine) : Prop :=
  spin_ok (spin_of s) ∧ lock_free kmem_lock (spin_of s) ∧ lock_free uart_lock (spin_of s).

(** The pages the allocator manages: those of a region, in the running kernel
    the pages between the end of its image and the end of RAM. *)
Definition managed (rg : Z * Z) (p : Z) : Prop := ram_page p ∧ rg.1 ≤ p < rg.2.
Definition live (rg : Z * Z) (s : machine) (p : Z) : Prop := managed rg p ∧ 0 < rc s p.

(** [l] is the free list: its pages are exactly the managed pages with count 0. *)
Record kinv (rg : Z * Z) (s : machine) (l : list Z) : Prop := {
  kinv_chain : chain (mem s) (freelist (km s)) l;
  kinv_nodup : NoDup l;
  kinv_free : ∀ p, p ∈ l ↔ managed rg p ∧ rc s p = 0;
  kinv_cnt : freecnt (km s) = Z.of_nat (length l);
  kinv_rc : ∀ p, 0 ≤ rc s p < 256;
}.

(** ** Abstract specification: the live pages and their counts *)

Inductive request := ReqAlloc | ReqFree (p : Z) | ReqInc (p : Z).

(** [alloc_spec rg a r v a']: with live pages [a], request [r] may return [v]
    and leave the live pages [a']. Any free page may be returned. *)
Inductive alloc_spec (rg : Z * Z) (a : gmap Z Z) : request → Z → gmap Z Z → Prop :=
| spec_alloc p : managed rg p → a !! p = None → alloc_spec rg a ReqAlloc p (<[p := 1]> a)
| spec_nomem : (∀ p, managed rg p → is_Some (a !! p)) → alloc_spec rg a ReqAlloc 0 a
| spec_free p : a !! p = Some 1 → alloc_spec rg a (ReqFree p) 0 (delete p a)
| spec_drop p n : a !! p = Some n → 1 < n → alloc_spec rg a (ReqFree p) 0 (<[p := n - 1]> a)
| spec_inc p n : a !! p = Some n → n < 255 → alloc_spec rg a (ReqInc p) 0 (<[p := n + 1]> a).

(** The concrete state represents the live pages [a]. *)
Definition represents (rg : Z * Z) (s : machine) (a : gmap Z Z) : Prop :=
  ready s ∧ (∃ l, kinv rg s l) ∧
  ∀ p n, a !! p = Some n ↔ managed rg p ∧ rc s p = n ∧ 0 < n.

(** The code that serves a request. *)
Definition serve (r : request) : M machine Z :=
  match r with
  | ReqAlloc => kalloc
  | ReqFree p => kfree p;; mret 0
  | ReqInc p => kref_inc p;; mret 0
  end.

(** ** Lemmas *)

Lemma spin_of_machine (s : machine) : spin_of s = dspin (mdev s).
Proof. done. Qed.

Lemma ready_passed s : ready s → ready (set_spin (passed (spin_of s)) s).
Proof.
  intros (? & ? & ?). unfold ready. rewrite spin_of_set.
  split_and!; [by apply passed_ok|by apply passed_free|by apply passed_free].
Qed.

Lemma PGROUNDUP_spec a :
  0 ≤ a → a + PGSIZE ≤ 2 ^ 63 → PGROUNDUP a = (a + PGSIZE - 1) / PGSIZE * PGSIZE.
Proof.
  unfold PGSIZE. intros Ha Hb. unfold PGROUNDUP, PGSIZE.
  rewrite (u64_small (a + 4096)), (u64_small (a + 4096 - 1)) by lia.
  replace (u64 (Z.lnot (4096 - 1))) with (Z.shiftl (Z.ones 52) 12) by reflexivity.
  set (x := a + 4096 - 1). assert (0 ≤ x < 2 ^ 64) by lia.
  replace x with (Z.land x (Z.ones 64)) at 1 by (rewrite Z.land_ones by lia; by apply Z.mod_small).
  rewrite <- Z.land_assoc. replace (Z.land (Z.ones 64) _) with (Z.shiftl (Z.ones 52) 12) by reflexivity.
  replace (x / 4096 * 4096) with (Z.shiftl (Z.shiftr x 12) 12)
    by (rewrite Z.shiftl_mul_pow2, Z.shiftr_div_pow2 by lia; done).
  apply Z.bits_inj'. intros n Hn. rewrite Z.land_spec, !Z.shiftl_spec by done.
  destruct (Z.ltb_spec n 12).
  - rewrite !(Z.testbit_neg_r _ (n - 12)) by lia. apply andb_false_r.
  - rewrite Z.shiftr_spec by lia. replace (n - 12 + 12) with n by lia.
    destruct (Z.ltb_spec n 64).
    + rewrite Z.ones_spec_low by lia. apply andb_true_r.
    + rewrite Z.ones_spec_high by lia. rewrite andb_false_r. symmetry.
      apply Z.bits_above_log2; [lia|]. destruct (decide (x = 0)) as [->|]; [simpl; lia|].
      apply Z.log2_lt_pow2; [lia|]. pose proof (Z.pow_le_mono_r 2 64 n). lia.
Qed.

Section pages.
Implicit Types p q : Z.

Lemma refidx_pidx p : RAMBASE ≤ p < PHYSTOP → refidx p = pidx p.
Proof.
  unfold RAMBASE, PHYSTOP, refidx, pidx, PGSIZE, RAMBASE. intros Hp.
  rewrite u64_small by lia. rewrite Z.shiftr_div_pow2 by lia. apply i32_small.
  change (2 ^ 12) with 4096. Z.to_euclidean_division_equations. lia.
Qed.

Lemma refcnt_in_pidx p : ram_page p → refcnt_in (pidx p) = true.
Proof.
  unfold ram_page, refcnt_in, pidx, NPAGES, PHYSTOP, RAMBASE, PGSIZE. intros (_ & H1 & H2).
  bsimp; Z.to_euclidean_division_equations; lia.
Qed.

Lemma pidx_inj p q : page_aligned p → page_aligned q → pidx p = pidx q → p = q.
Proof.
  unfold page_aligned, pidx, RAMBASE, PGSIZE. intros. Z.to_euclidean_division_equations. lia.
Qed.

Lemma ram_page_in_ram p n : ram_page p → 0 ≤ n ≤ PGSIZE → in_ram p n = true.
Proof. unfold ram_page. intros (_ & ? & ?) ?. apply in_ram_iff. lia. Qed.

Lemma managed_ram rg p : managed rg p → ram_page p.
Proof. by intros []. Qed.

Lemma managed_aligned rg p : managed rg p → page_aligned p.
Proof. by intros [[]]. Qed.

Lemma ram_page_pos p : ram_page p → 0 < p.
Proof. unfold ram_page, RAMBASE. lia. Qed.

Lemma pages_disjoint p q : page_aligned p → page_aligned q → p ≠ q → p + PGSIZE ≤ q ∨ q + PGSIZE ≤ p.
Proof. unfold page_aligned, PGSIZE. intros. Z.to_euclidean_division_equations. lia. Qed.

Lemma rc_get_set_eq i v k : rc_get i (rc_set i v k) = u8 v.
Proof. unfold rc_get, rc_set. simpl. by rewrite lookup_insert_eq. Qed.
Lemma rc_get_set_ne i j v k : i ≠ j → rc_get i (rc_set j v k) = rc_get i k.
Proof. unfold rc_get, rc_set. simpl. intros. by rewrite lookup_insert_ne. Qed.

Lemma chain_pos m p l : Forall (λ q, q ≠ 0) l → chain m p l → p = 0 → l = [].
Proof. destruct l as [|q l]; [done|]. intros Hl [-> _] ->. by apply Forall_cons in Hl as [[] _]. Qed.

(** Memory the list does not go through may change. *)
Lemma chain_ext m m' p l :
  (∀ q, q ∈ l → ld64 m q = ld64 m' q) → chain m p l → chain m' p l.
Proof.
  revert p. induction l as [|q l IH]; intros p Hext; [done|]. intros [-> Hc].
  split; [done|]. rewrite <- Hext by (by left). apply IH; [|done]. intros. apply Hext. by right.
Qed.
End pages.

(** The invariant reads the free pages' links and the counters only. *)
Lemma kinv_ext rg s s' l :
  km s' = km s → (∀ q, q ∈ l → ld64 (mem s) q = ld64 (mem s') q) → kinv rg s l → kinv rg s' l.
Proof.
  intros Hk Hm [Hc Hnd Hf Hn Hrc]. unfold rc in *. split; rewrite ?Hk; try done.
  - by eapply chain_ext.
  - intros p. unfold rc. by rewrite Hk.
  - intros p. unfold rc. by rewrite Hk.
Qed.

Lemma kinv_head rg s l : kinv rg s l → freelist (km s) = 0 ↔ l = [].
Proof.
  intros [Hc _ Hf _ _]. split; [|by intros ->]. apply (chain_pos (mem s)); [|done].
  apply Forall_forall. intros q [Hq _]%Hf. apply managed_ram, ram_page_pos in Hq. lia.
Qed.

Lemma kinv_length_bound rg s l : kinv rg s l → Z.of_nat (length l) ≤ NPAGES.
Proof.
  intros [_ Hnd Hf _ _].
  assert (length (Z.to_nat ∘ pidx <$> l) ≤ length (seq 0 (Z.to_nat NPAGES)))%nat as Hle.
  { apply submseteq_length, NoDup_submseteq.
    - apply NoDup_fmap_2_strong; [|done]. intros p q [[Hp _] _]%Hf [[Hq _] _]%Hf Heq.
      pose proof (refcnt_in_pidx _ Hp). pose proof (refcnt_in_pidx _ Hq). unfold refcnt_in in *. bsimp.
      simpl in Heq. apply pidx_inj; [by destruct Hp|by destruct Hq|lia].
    - intros i (p & -> & [[Hp _] _]%Hf)%list_elem_of_fmap.
      pose proof (refcnt_in_pidx _ Hp). unfold refcnt_in in *. bsimp.
      apply elem_of_seq. simpl. lia. }
  rewrite length_fmap, length_seq in Hle. change (Z.to_nat NPAGES) with (Z.to_nat 32768) in Hle.
  change NPAGES with 32768. lia.
Qed.

(** The state after a successful [kalloc] of page [p], free list tail [next]. *)
Definition after_alloc (p next : Z) (s : machine) : machine :=
  set_spin (passed (spin_of s))
    (with_km (rc_set (pidx p) 1 (Kmem next (freecnt (km s) - 1) (refcnt (km s)))) s).

(** The state after the count of [p] becomes [c]. *)
Definition after_count (p c : Z) (s : machine) : machine :=
  set_spin (passed (spin_of s)) (with_km (rc_set (pidx p) c (km s)) s).

(** The state after page [p] returned to the free list. *)
Definition after_free (p : Z) (s : machine) : machine :=
  set_spin (passed (spin_of s))
    (with_km (rc_set (pidx p) 0 (Kmem p (freecnt (km s) + 1) (refcnt (km s))))
      (with_mem (st64 (mem s) p (freelist (km s))) s)).

Lemma wp_kalloc rg s l Q :
  kinv rg s l → ready s →
  (l = [] → Q 0 (set_spin (passed (spin_of s)) s)) →
  (∀ p l', l = p :: l' → Q p (after_alloc p (ld64 (mem s) p) s)) →
  wp kalloc Q s.
Proof.
  intros Hk (Hok & Hfree & _) Hnone Hsome. unfold kalloc. wp_steps.
  apply wp_acquire; [done|done|]. wp_steps. apply wp_when.
  - intros Hne. bsimp. destruct l as [|p l]; [by rewrite (kinv_head _ _ _ Hk) in Hne|].
    destruct (kinv_chain _ _ _ Hk) as [Hp Hch].
    assert (managed rg p ∧ rc s p = 0) as [Hman Hrc] by (apply (kinv_free _ _ _ Hk); by left).
    pose proof (kinv_length_bound _ _ _ Hk) as Hlen. pose proof (kinv_cnt _ _ _ Hk) as Hcnt.
    simpl length in *. change NPAGES with 32768 in Hlen.
    destruct Hman as [Hram _]. simpl. rewrite Hp.
    wp_steps. apply wp_load64; [apply ram_page_in_ram; [done|unfold PGSIZE; lia]|].
    wp_steps. unfold set_freelist, add_freecnt, set_refcnt. wp_steps.
    { rewrite refidx_pidx; [by apply refcnt_in_pidx|]. unfold ram_page in Hram. unfold PGSIZE in *. lia. }
    wp_steps. apply (wp_release kmem_lock (spin_of s)); [done|done|done|]. wp_steps.
    replace (Q p _) with (Q p (after_alloc p (ld64 (mem s) p) s)); [by eapply Hsome|].
    f_equal. unfold after_alloc. rewrite refidx_pidx by (unfold ram_page, PGSIZE in *; lia).
    simpl. rewrite u64_small by lia. done.
  - intros Heq. bsimp. simpl in Heq. wp_steps.
    apply (wp_release kmem_lock (spin_of s)); [done|done|done|]. wp_steps. simpl.
    rewrite Heq. apply Hnone. by apply (kinv_head _ _ _ Hk).
Qed.

Lemma kinv_after_alloc rg s p l : kinv rg s (p :: l) → kinv rg (after_alloc p (ld64 (mem s) p) s) l.
Proof.
  intros [[Hp Hc] Hnd Hf Hcnt Hrc]. inversion_clear Hnd as [|?? Hpl Hnd'].
  assert (managed rg p) as [[Hal _] _] by (apply Hf; by left).
  assert (∀ q, page_aligned q → q ≠ p → rc (after_alloc p (ld64 (mem s) p) s) q = rc s q) as Hother.
  { intros q Hq Hne. unfold rc, after_alloc. simpl. rewrite rc_get_set_ne; [done|].
    intros Heq. by apply Hne, pidx_inj. }
  assert (rc (after_alloc p (ld64 (mem s) p) s) p = 1) as Hone.
  { unfold rc, after_alloc. simpl. by rewrite rc_get_set_eq. }
  split; try done.
  - intros q. split.
    + intros Hq. assert (q ≠ p) by (by intros ->).
      destruct (proj1 (Hf q) ltac:(by right)) as [Hm Hz]. split; [done|].
      rewrite Hother; [done|by destruct Hm as [[]]|done].
    + intros [Hm Hz]. destruct (decide (q = p)) as [->|Hne]; [lia|].
      rewrite Hother in Hz by eauto using managed_aligned.
      assert (q ∈ p :: l) as [?|?]%elem_of_cons by (by apply Hf); done.
  - simpl. simpl in Hcnt. lia.
  - intros q. unfold rc, after_alloc. simpl. destruct (decide (pidx q = pidx p)) as [->|].
    + rewrite rc_get_set_eq. wrap_lia.
    + rewrite rc_get_set_ne by done. apply Hrc.
Qed.

(** [kfree] of a live page. *)
Lemma wp_kfree rg s l p Q :
  kinv rg s l → ready s → live rg s p →
  (1 < rc s p → Q tt (after_count p (rc s p - 1) s)) →
  (rc s p = 1 → Q tt (after_free p s)) →
  wp (kfree p) Q s.
Proof.
  intros Hk (Hok & Hfree & _) [[Hram Hge] Hlive] Hmany Hlast.
  assert (refidx p = pidx p) as Hidx
    by (apply refidx_pidx; unfold ram_page, PGSIZE in Hram; lia).
  unfold kfree, get_refcnt, set_refcnt. rewrite Hidx. wp_steps.
  apply wp_acquire; [done|done|]. pose proof (refcnt_in_pidx _ Hram). wp_steps.
  change (rc_get (pidx p) (km _)) with (rc s p). destruct (Z.ltb_spec 1 (rc s p)).
  - wp_steps.
    apply (wp_release kmem_lock (spin_of s)); [done|done|done|]. by apply Hmany.
  - wp_steps.
    apply wp_store64; [apply ram_page_in_ram; [done|unfold PGSIZE; lia]|].
    unfold set_freelist, add_freecnt. wp_steps.
    apply (wp_release kmem_lock (spin_of s)); [done|done|done|].
    pose proof (kinv_length_bound _ _ _ Hk). pose proof (kinv_cnt _ _ _ Hk).
    change NPAGES with 32768 in *.
    replace (Q tt _) with (Q tt (after_free p s)); [apply Hlast; lia|]. f_equal. unfold after_free. simpl.
    rewrite !u64_small; [done|lia|].
    destruct l as [|q l]; [rewrite (proj2 (kinv_head _ _ _ Hk)) by done; lia|].
    destruct (kinv_chain _ _ _ Hk) as [-> _].
    assert (managed rg q) as [Hq _] by (apply (kinv_free _ _ _ Hk); by left).
    unfold ram_page, RAMBASE, PHYSTOP, PGSIZE in Hq. lia.
Qed.

Lemma freelist_bound rg s l : kinv rg s l → 0 ≤ freelist (km s) < 2 ^ 64.
Proof.
  intros Hk. destruct l as [|q l]; [rewrite (proj2 (kinv_head _ _ _ Hk)) by done; lia|].
  destruct (kinv_chain _ _ _ Hk) as [-> _].
  assert (managed rg q) as [Hq _] by (apply (kinv_free _ _ _ Hk); by left).
  unfold ram_page, RAMBASE, PHYSTOP, PGSIZE in Hq. lia.
Qed.

Lemma rc_after_count_eq s p c : 0 ≤ c < 256 → rc (after_count p c s) p = c.
Proof. intros. unfold rc, after_count. simpl. rewrite rc_get_set_eq. by apply u8_small. Qed.

Lemma rc_after_count_ne s p q c :
  page_aligned p → page_aligned q → q ≠ p → rc (after_count p c s) q = rc s q.
Proof.
  intros Hp Hq Hne. unfold rc, after_count. simpl. rewrite rc_get_set_ne; [done|].
  intros ?. by apply Hne, pidx_inj.
Qed.

Lemma kinv_after_count rg s l p c :
  kinv rg s l → live rg s p → 0 < c < 256 → kinv rg (after_count p c s) l.
Proof.
  intros [Hc Hnd Hf Hcnt Hrc] [Hm Hlive] Hcb. assert (page_aligned p) by (by destruct Hm as [[]]).
  split; try done.
  - intros q. destruct (decide (q = p)) as [->|Hne].
    + rewrite rc_after_count_eq by lia. rewrite Hf. lia.
    + rewrite Hf. split; intros [Hq ?]; (split; [done|]).
      * by rewrite rc_after_count_ne by eauto using managed_aligned.
      * by rewrite rc_after_count_ne in * by eauto using managed_aligned.
  - intros q. unfold rc, after_count. simpl. destruct (decide (pidx q = pidx p)) as [->|].
    + rewrite rc_get_set_eq. wrap_lia.
    + rewrite rc_get_set_ne by done. apply Hrc.
Qed.

Lemma rc_after_free_eq s p : rc (after_free p s) p = 0.
Proof. unfold rc, after_free. simpl. by rewrite rc_get_set_eq. Qed.

Lemma rc_after_free_ne s p q :
  page_aligned p → page_aligned q → q ≠ p → rc (after_free p s) q = rc s q.
Proof.
  intros Hp Hq Hne. unfold rc, after_free. simpl. rewrite rc_get_set_ne; [done|].
  intros ?. by apply Hne, pidx_inj.
Qed.

Lemma kinv_after_free rg s l p :
  kinv rg s l → live rg s p → kinv rg (after_free p s) (p :: l).
Proof.
  intros Hk [Hm Hlive]. pose proof (freelist_bound _ _ _ Hk) as Hfb.
  destruct Hk as [Hc Hnd Hf Hcnt Hrc]. assert (page_aligned p) by (by destruct Hm as [[]]).
  assert (p ∉ l) by (rewrite Hf; lia). split.
  - split; [done|]. simpl. rewrite ld64_st64_eq by done. eapply chain_ext; [|done].
    intros q [[[Hq _] _] ?]%Hf. symmetry. apply ld64_st64_ne.
    destruct (pages_disjoint p q) as [?|?]; unfold PGSIZE in *; try done; try lia.
    intros ->. lia.
  - by constructor.
  - intros q. rewrite elem_of_cons, Hf. destruct (decide (q = p)) as [->|Hne].
    + rewrite rc_after_free_eq. naive_solver.
    + split.
      * intros [?|[Hq ?]]; [done|]. split; [done|].
        by rewrite rc_after_free_ne by eauto using managed_aligned.
      * intros [Hq ?]. right. split; [done|].
        by rewrite rc_after_free_ne in * by eauto using managed_aligned.
  - simpl. lia.
  - intros q. unfold rc, after_free. simpl. destruct (decide (pidx q = pidx p)) as [->|].
    + by rewrite rc_get_set_eq.
    + rewrite rc_get_set_ne by done. apply Hrc.
Qed.

Lemma wp_kref_inc rg s p Q :
  ready s → live rg s p → Q tt (after_count p (rc s p + 1) s) → wp (kref_inc p) Q s.
Proof.
  intros (Hok & Hfree & _) [[Hram Hge] Hlive] HQ.
  assert (refidx p = pidx p) as Hidx
    by (apply refidx_pidx; unfold ram_page, PGSIZE in Hram; lia).
  unfold kref_inc, get_refcnt, set_refcnt. rewrite Hidx. wp_steps.
  apply wp_acquire; [done|done|]. pose proof (refcnt_in_pidx _ Hram). wp_steps. by apply (wp_release kmem_lock (spin_of s)).
Qed.

Lemma ready_spin s s' : spin_of s' = passed (spin_of s) → ready s → ready s'.
Proof.
  intros Hs (? & ? & ?). unfold ready. rewrite Hs.
  split_and!; [by apply passed_ok|by apply passed_free|by apply passed_free].
Qed.

(** ** [kinit] *)

(** Marking the page after a region live enlarges the region. *)
Lemma kinv_grow lo s l p :
  kinv (lo, p) s l → ready s → ram_page p → lo ≤ p →
  kinv (lo, p + PGSIZE) (with_km (rc_set (pidx p) 1 (km s)) s) l ∧
  live (lo, p + PGSIZE) (with_km (rc_set (pidx p) 1 (km s)) s) p.
Proof.
  intros [Hc Hnd Hf Hcnt Hrc] Hready Hp Hlo. pose proof Hp as (Hal & _ & _).
  assert (∀ q, page_aligned q → rc (with_km (rc_set (pidx p) 1 (km s)) s) q =
                                if decide (q = p) then 1 else rc s q) as Heq.
  { intros q Hq. unfold rc. simpl. destruct (decide (q = p)) as [->|Hne].
    - by rewrite rc_get_set_eq.
    - rewrite rc_get_set_ne; [done|]. intros ?. by apply Hne, pidx_inj. }
  split; [split; try done|].
  - intros q. rewrite Hf. unfold managed. simpl. split; intros [[Hq Hr] Hz].
    + rewrite Heq by apply Hq. rewrite decide_False by lia. unfold PGSIZE. split; [split; [done|lia]|done].
    + rewrite Heq in Hz by apply Hq. destruct (decide (q = p)) as [->|Hne]; [done|].
      destruct Hq as (Hqa & Hq1 & Hq2). destruct (pages_disjoint p q) as [|]; try done; try lia.
      split; [split; [done|unfold PGSIZE in *; lia]|done].
  - intros q. unfold rc. simpl. destruct (decide (pidx q = pidx p)) as [->|].
    + rewrite rc_get_set_eq. wrap_lia.
    + rewrite rc_get_set_ne by done. apply Hrc.
  - split; [|rewrite Heq, decide_True by done; lia].
    split; [done|]. simpl. unfold PGSIZE. lia.
Qed.

Definition kinit_inv (lo p : Z) (sp : spin) (s : machine) : Prop :=
  ready s ∧ spin_of s ≡ sp ∧ page_aligned p ∧ lo ≤ p ≤ PHYSTOP ∧
  ∃ l, kinv (lo, p) s l ∧ Z.of_nat (length l) = (p - lo) / PGSIZE.

Lemma wp_kinit_body lo p sp s :
  RAMBASE ≤ lo → page_aligned lo → kinit_inv lo p sp s →
  wp (kinit_body p) (λ r s', match r with
    | inl p' => p' = p + PGSIZE ∧ p' ≤ PHYSTOP ∧ kinit_inv lo p' sp s'
    | inr _ => p + PGSIZE > PHYSTOP ∧ kinit_inv lo p sp s' end) s.
Proof.
  intros Hlo Hloal Hinv. pose proof Hinv as (Hready & Hsp & Hal & Hp & l & Hk & Hlen).
  assert (u64 (p + PGSIZE) = p + PGSIZE) as Hu.
  { apply u64_small. unfold RAMBASE, PHYSTOP, PGSIZE in *. lia. }
  unfold kinit_body. rewrite Hu. destruct (Z.leb_spec (p + PGSIZE) PHYSTOP).
  - assert (ram_page p) as Hram by (unfold ram_page; split_and!; [done|lia|lia]).
    assert (refidx p = pidx p) as -> by (apply refidx_pidx; unfold PGSIZE in *; lia).
    pose proof (refcnt_in_pidx _ Hram). unfold set_refcnt. wp_steps.
    destruct (kinv_grow lo s l p) as [Hk' Hlive]; [done|done|done|lia|].
    eapply wp_kfree; [exact Hk'|done|exact Hlive| |].
    + intros Hrc. exfalso. revert Hrc. unfold rc. simpl. rewrite rc_get_set_eq. wrap_lia.
    + intros _. wp_steps. split; [done|]. split; [done|].
      split; [by eapply ready_spin|]. split; [etrans; [apply passed_equiv, Hready|exact Hsp]|].
      split; [unfold page_aligned, PGSIZE in *; wrap_lia|]. split; [unfold PGSIZE in *; lia|].
      eexists. split; [by apply kinv_after_free|]. simpl length. rewrite Nat2Z.inj_succ, Hlen.
      unfold page_aligned, PGSIZE in *. Z.to_euclidean_division_equations. lia.
  - wp_steps. split; [lia|done].
Qed.

Lemma wp_kinit_loop lo p sp s n Q :
  RAMBASE ≤ lo → page_aligned lo → kinit_inv lo p sp s →
  PHYSTOP - p < PGSIZE * Z.of_nat n →
  (∀ p' s', p' + PGSIZE > PHYSTOP → kinit_inv lo p' sp s' → Q tt s') →
  wp (loop n kinit_body p) Q s.
Proof.
  intros Hlo Hloal. revert p s. induction n as [|n IH]; intros p s Hinv Hn HQ.
  { destruct Hinv as (_ & _ & _ & ? & _). unfold PGSIZE in *. lia. }
  rewrite loop_S. apply wp_bind. eapply wp_mono; [by eapply wp_kinit_body|].
  intros [p'|[]] s'; simpl.
  - intros (-> & _ & Hinv'). apply IH; [done|unfold PGSIZE in *; lia|done].
  - intros [Hp Hinv']. apply wp_ret. by eapply HQ.
Qed.

(** The statics as the loader leaves them: no free page, every count 0. *)
Definition booted (s : machine) : Prop :=
  spin_ok (spin_of s) ∧ lock_free uart_lock (spin_of s) ∧ km s = Kmem 0 0 ∅.

Lemma wp_kinit kend s :
  RAMBASE ≤ kend ≤ PHYSTOP → booted s →
  wp (kinit kend) (λ _ s', ready s' ∧ spin_of s' ≡ initlock kmem_lock (spin_of s) ∧ ∃ l, kinv (PGROUNDUP kend, PHYSTOP) s' l ∧
    Z.of_nat (length l) = (PHYSTOP - PGROUNDUP kend) / PGSIZE) s.
Proof.
  intros Hk (Hok & Hu & Hkm). unfold kinit. wp_steps.
  assert (PGROUNDUP kend = (kend + PGSIZE - 1) / PGSIZE * PGSIZE) as Hup.
  { apply PGROUNDUP_spec; unfold RAMBASE, PHYSTOP, PGSIZE in *; lia. }
  assert (page_aligned (PGROUNDUP kend) ∧ kend ≤ PGROUNDUP kend ≤ PHYSTOP) as [Hal Hb].
  { rewrite Hup. unfold page_aligned, PHYSTOP, PGSIZE in *. wrap_lia. }
  apply (wp_kinit_loop (PGROUNDUP kend) _ (initlock kmem_lock (spin_of s))); [lia|done| | |].
  - split; [|split; [by rewrite spin_of_set|split; [done|split; [lia|]]]].
    + unfold ready. rewrite spin_of_set. split_and!; [done| |].
      * done.
      * exact Hu.
    + exists []. split; [|by rewrite Z.sub_diag].
      split; simpl; rewrite ?Hkm; try done; [apply NoDup_nil_2|].
      intros p. split; [by intros ?%elem_of_nil|]. intros [[_ Hr] _]. simpl in Hr. lia.
  - unfold kinit_fuel, PHYSTOP, RAMBASE, PGSIZE in *. rewrite Z2Nat.id by lia. lia.
  - intros p' s' Hp' (Hr & Hsp & Hal' & Hb' & l & Hkinv & Hlen).
    assert (p' = PHYSTOP) as ->.
    { unfold page_aligned, PHYSTOP, PGSIZE in *. wrap_lia. }
    split; [done|]. split; [done|]. by exists l.
Qed.

(** ** Refinement of the abstract specification *)

Lemma represents_live rg s a p n :
  represents rg s a → a !! p = Some n → live rg s p ∧ rc s p = n ∧ 0 < n.
Proof. intros (_ & _ & Ha) Hp. apply Ha in Hp as (? & <- & ?). done. Qed.

Lemma represents_alloc rg s a p l :
  represents rg s a → kinv rg s (p :: l) →
  managed rg p ∧ a !! p = None ∧ represents rg (after_alloc p (ld64 (mem s) p) s) (<[p := 1]> a).
Proof.
  intros (Hr & _ & Ha) Hk.
  assert (managed rg p ∧ rc s p = 0) as [Hm Hz] by (apply (kinv_free _ _ _ Hk); by left).
  split; [done|]. split.
  { destruct (a !! p) eqn:E; [|done]. apply Ha in E. lia. }
  split; [by eapply ready_spin|]. split; [eauto using kinv_after_alloc|].
  intros q n. rewrite lookup_insert_Some. destruct (decide (p = q)) as [<-|Hne].
  - unfold rc, after_alloc. simpl. rewrite rc_get_set_eq. change (u8 1) with 1. naive_solver lia.
  - assert (managed rg q → rc (after_alloc p (ld64 (mem s) p) s) q = rc s q) as Heq.
    { intros [[Hq _] _]. unfold rc, after_alloc. simpl. rewrite rc_get_set_ne; [done|].
      intros ?. apply Hne. symmetry. apply pidx_inj; [done|by destruct Hm as [[]]|done]. }
    rewrite Ha. naive_solver.
Qed.

Lemma represents_count rg s a p c :
  represents rg s a → live rg s p → 0 < c < 256 → represents rg (after_count p c s) (<[p := c]> a).
Proof.
  intros (Hr & [l Hk] & Ha) Hlive Hc. pose proof Hlive as [[[Hal _] _] _].
  split; [by eapply ready_spin|]. split; [eauto using kinv_after_count|].
  intros q n. rewrite lookup_insert_Some. destruct (decide (p = q)) as [<-|Hne].
  - rewrite rc_after_count_eq by lia. destruct Hlive. naive_solver lia.
  - rewrite Ha. split.
    + intros [[]|[_ (Hm & ? & ?)]]; [done|]. by rewrite rc_after_count_ne by eauto using managed_aligned.
    + intros (Hm & Hrc & ?). rewrite rc_after_count_ne in Hrc by eauto using managed_aligned. auto.
Qed.

Lemma represents_free rg s a p :
  represents rg s a → live rg s p → represents rg (after_free p s) (delete p a).
Proof.
  intros (Hr & [l Hk] & Ha) Hlive. pose proof Hlive as [[[Hal _] _] _].
  split; [by eapply ready_spin|]. split; [eauto using kinv_after_free|].
  intros q n. rewrite lookup_delete_Some. destruct (decide (p = q)) as [<-|Hne].
  - rewrite rc_after_free_eq. naive_solver lia.
  - rewrite Ha. split.
    + intros [_ (Hm & ? & ?)]. by rewrite rc_after_free_ne by eauto using managed_aligned.
    + intros (Hm & Hrc & ?). rewrite rc_after_free_ne in Hrc by eauto using managed_aligned. auto.
Qed.

(** What a client must respect: only live pages are freed or shared, and a
    count stays below the width of its byte. *)
Definition permitted (a : gmap Z Z) (r : request) : Prop :=
  match r with
  | ReqAlloc => True
  | ReqFree p => is_Some (a !! p)
  | ReqInc p => ∃ n, a !! p = Some n ∧ n < 255
  end.

Lemma wp_serve rg s a r :
  represents rg s a → permitted a r →
  wp (serve r) (λ v s', ∃ a', alloc_spec rg a r v a' ∧ represents rg s' a' ∧
    ∃ l l', kinv rg s l ∧ kinv rg s' l' ∧ Z.of_nat (length l') = freecnt (km s')) s.
Proof.
  intros Hrep Hperm. pose proof Hrep as (Hr & [l Hk] & Ha).
  assert (∀ s' v a', alloc_spec rg a r v a' → represents rg s' a' →
    ∃ a', alloc_spec rg a r v a' ∧ represents rg s' a' ∧
      ∃ l l', kinv rg s l ∧ kinv rg s' l' ∧ Z.of_nat (length l') = freecnt (km s')) as Hend.
  { intros s' v a' Hspec Hrep'. pose proof Hrep' as (_ & [l' Hk'] & _). exists a'.
    split_and!; [done|done|]. exists l, l'. split_and!; [done|done|]. by rewrite (kinv_cnt _ _ _ Hk'). }
  destruct r as [|p|p]; simpl in *.
  - eapply wp_kalloc; [done|done| |].
    + intros ->. eapply Hend; [apply spec_nomem|].
      * intros p Hm. destruct (a !! p) eqn:E; [done|]. exfalso.
        assert (rc s p ≠ 0) as Hne by (intros Hz; by apply (elem_of_nil p), (kinv_free _ _ _ Hk)).
        assert (0 < rc s p) by (pose proof (kinv_rc _ _ _ Hk p); lia).
        rewrite (proj2 (Ha p (rc s p))) in E; done.
      * split; [by apply ready_passed|]. split; [exists []; by apply (kinv_ext rg s)|done].
    + intros p l' ->. destruct (represents_alloc rg s a p l' Hrep Hk) as (Hm & Hnone & Hrep').
      eapply Hend; [by apply spec_alloc|done].
  - destruct Hperm as [n Hn]. destruct (represents_live _ _ _ _ _ Hrep Hn) as (Hlive & Hrc & Hpos).
    wp_steps. eapply wp_kfree; [done|done|done| |]; rewrite Hrc; intros Hc; wp_steps.
    + eapply Hend; [by apply (spec_drop rg a p n)|]. apply represents_count; [done|done|].
      pose proof (kinv_rc _ _ _ Hk p). lia.
    + subst n. rewrite Hc in Hn. eapply Hend; [by apply spec_free|by apply represents_free].
  - destruct Hperm as (n & Hn & Hlt). destruct (represents_live _ _ _ _ _ Hrep Hn) as (Hlive & Hrc & Hpos).
    wp_steps. eapply wp_kref_inc; [done|done|]. rewrite Hrc. wp_steps.
    eapply Hend; [by apply (spec_inc rg a p n)|]. apply represents_count; [done|done|lia].
Qed.

(** ** Conservation of pages *)

(** All pages of a page-aligned region, in order. *)
Definition region_pages (lo hi : Z) : list Z :=
  (λ i, lo + PGSIZE * Z.of_nat i) <$> seq 0 (Z.to_nat ((hi - lo) / PGSIZE)).

Lemma elem_of_region_pages lo hi p :
  page_aligned lo → page_aligned hi → RAMBASE ≤ lo → hi ≤ PHYSTOP →
  p ∈ region_pages lo hi ↔ managed (lo, hi) p.
Proof.
  unfold page_aligned, PGSIZE. intros Hlo Hhi Hb1 Hb2. unfold region_pages, PGSIZE.
  rewrite list_elem_of_fmap. unfold managed, ram_page, page_aligned, PGSIZE. simpl. split.
  - intros (i & -> & Hi%elem_of_seq). Z.to_euclidean_division_equations. lia.
  - intros [(Hal & H1 & H2) Hr]. exists (Z.to_nat ((p - lo) / 4096)). rewrite elem_of_seq.
    Z.to_euclidean_division_equations. lia.
Qed.

Lemma region_pages_nodup lo hi : NoDup (region_pages lo hi).
Proof.
  apply NoDup_fmap_2_strong; [|apply NoDup_seq]. unfold PGSIZE. intros i j _ _ ?. lia.
Qed.

Lemma live_free_partition lo hi s a l :
  page_aligned lo → page_aligned hi → RAMBASE ≤ lo → hi ≤ PHYSTOP →
  represents (lo, hi) s a → kinv (lo, hi) s l →
  region_pages lo hi ≡ₚ l ++ (map_to_list a).*1.
Proof.
  intros Hlo Hhi H1 H2 (_ & _ & Ha) Hk.
  assert (∀ p, p ∈ (map_to_list a).*1 ↔ is_Some (a !! p)) as Hdom.
  { intros p. rewrite list_elem_of_fmap. split.
    - intros ([q n] & -> & Hq%elem_of_map_to_list). by exists n.
    - intros [n Hn]. exists (p, n). by rewrite elem_of_map_to_list. }
  apply NoDup_Permutation.
  - apply region_pages_nodup.
  - apply NoDup_app. split; [apply (kinv_nodup _ _ _ Hk)|]. split; [|apply NoDup_fst_map_to_list].
    intros p [_ Hz]%(kinv_free _ _ _ Hk) [n Hn]%Hdom. apply Ha in Hn. lia.
  - intros p. rewrite elem_of_region_pages, elem_of_app, (kinv_free _ _ _ Hk), Hdom by done. split.
    + intros Hm. destruct (decide (rc s p = 0)); [by left|right]. exists (rc s p). apply Ha.
      pose proof (kinv_rc _ _ _ Hk p). split_and!; [done|done|lia].
    + intros [[]|[n Hn]]; [done|]. by apply Ha in Hn as [].
Qed.

(** ** Theorems *)

(** C5: the allocator implements its abstract specification. From a state that
    represents the live pages [a], every permitted request returns without
    undefined behaviour and without spinning, as the specification allows:
    [kalloc] returns 0 only when every managed page is live and otherwise a
    page that was free, with count 1; [kfree] drops one reference and frees
    the page exactly when it was the last; [kref_inc] adds one. Afterwards the
    locks are as they were, and the free counter plus the number of live pages
    is the number of pages of the region: no page is lost or handed out
    twice. *)
Theorem allocator_refines lo hi s a r :
  page_aligned lo → page_aligned hi → RAMBASE ≤ lo ≤ hi → hi ≤ PHYSTOP →
  represents (lo, hi) s a → permitted a r →
  ∃ v s' a', serve r s = Done v s' ∧ alloc_spec (lo, hi) a r v a' ∧ represents (lo, hi) s' a' ∧
    kfreecount s' = Done (freecnt (km s')) s' ∧
    freecnt (km s') + Z.of_nat (size a') = (hi - lo) / PGSIZE.
Proof.
  intros Hlo Hhi H1 H2 Hrep Hperm.
  destruct (wp_run _ _ _ (wp_serve _ _ _ _ Hrep Hperm)) as (v & s' & Hrun & a' & Hspec & Hrep' & _ & l' & _ & Hk' & Hcnt).
  exists v, s', a'. split_and!; try done.
  pose proof (live_free_partition lo hi s' a' l' Hlo Hhi ltac:(lia) H2 Hrep' Hk') as Hp%Permutation_length.
  rewrite length_app, length_fmap, length_map_to_list in Hp. unfold region_pages in Hp.
  rewrite length_fmap, length_seq in Hp. rewrite <- Hcnt.
  rewrite <- Nat2Z.inj_add, <- Hp, Z2Nat.id; [done|]. unfold PGSIZE. Z.to_euclidean_division_equations. lia.
Qed.

(** A machine with the memory of a fresh boot. *)
Definition demo_boot : machine := Machine demo_dev ∅ (Kmem 0 0 ∅) 0 0 0.
(** The state [kinit] leaves when the last two pages of RAM are free. *)
Definition demo_two : machine :=
  match kinit (PHYSTOP - 2 * PGSIZE) demo_boot with Done _ s => s | _ => demo_boot end.

Lemma demo_two_represents : represents (PHYSTOP - 2 * PGSIZE, PHYSTOP) demo_two ∅.
Proof.
  pose proof (wp_kinit (PHYSTOP - 2 * PGSIZE) demo_boot) as H.
  assert (booted demo_boot) as Hb by (split_and!; [by apply demo_dev_ready|done|done]).
  destruct (wp_run _ _ _ (H ltac:(unfold RAMBASE, PHYSTOP, PGSIZE; lia) Hb)) as (u & s' & Hrun & Hr & _ & l & Hk & Hlen).
  unfold demo_two. rewrite Hrun. change (PGROUNDUP (PHYSTOP - 2 * PGSIZE)) with (PHYSTOP - 2 * PGSIZE) in *.
  split; [done|]. split; [by exists l|]. intros p n. rewrite lookup_empty. split; [done|].
  intros (Hm & Hrc & Hn). exfalso.
  assert (l ≡ₚ region_pages (PHYSTOP - 2 * PGSIZE) PHYSTOP) as Hperm.
  { apply submseteq_length_Permutation.
    - apply NoDup_submseteq; [apply (kinv_nodup _ _ _ Hk)|].
      intros q [Hq _]%(kinv_free _ _ _ Hk). by apply elem_of_region_pages.
    - change (length (region_pages (PHYSTOP - 2 * PGSIZE) PHYSTOP)) with 2%nat.
      change ((PHYSTOP - (PHYSTOP - 2 * PGSIZE)) / PGSIZE) with 2 in Hlen. lia. }
  apply elem_of_region_pages in Hm; [|done..]. rewrite <- Hperm in Hm.
  apply (kinv_free _ _ _ Hk) in Hm. lia.
Qed.

Lemma allocator_refines_witness :
  ∃ v s' a', kalloc demo_two = Done v s' ∧ alloc_spec (PHYSTOP - 2 * PGSIZE, PHYSTOP) ∅ ReqAlloc v a' ∧
    freecnt (km s') + Z.of_nat (size a') = 2.
Proof.
  destruct (allocator_refines (PHYSTOP - 2 * PGSIZE) PHYSTOP demo_two ∅ ReqAlloc) as (v & s' & a' & H1 & H2 & _ & _ & H5).
  - reflexivity.
  - reflexivity.
  - unfold RAMBASE, PHYSTOP, PGSIZE. lia.
  - reflexivity.
  - exact demo_two_represents.
  - exact I.
  - exists v, s', a'. split; [exact H1|]. split; [exact H2|exact H5].
Defined.

(** C31: the allocator boots. For every kernel end in RAM, [kinit] returns (the
    fuel of one round per page of RAM is enough), and then every whole page
    between the end of the kernel and the end of RAM is free, chained once in
    the free list and counted: no page of the kernel image is ever given out. *)
Theorem kinit_frees_ram kend s :
  RAMBASE ≤ kend ≤ PHYSTOP → booted s →
  ∃ s', kinit kend s = Done tt s' ∧ represents (PGROUNDUP kend, PHYSTOP) s' ∅ ∧
    freecnt (km s') = (PHYSTOP - PGROUNDUP kend) / PGSIZE ∧
    (∀ p, managed (PGROUNDUP kend, PHYSTOP) p → kend ≤ p) ∧
    ∃ l, chain (mem s') (freelist (km s')) l ∧ NoDup l ∧
      ∀ p, p ∈ l ↔ ram_page p ∧ PGROUNDUP kend ≤ p.
Proof.
  intros Hk Hb. destruct (wp_run _ _ _ (wp_kinit kend s Hk Hb)) as (u & s' & Hrun & Hr & _ & l & Hkinv & Hlen).
  destruct u. exists s'.
  assert (PGROUNDUP kend = (kend + PGSIZE - 1) / PGSIZE * PGSIZE) as Hup.
  { apply PGROUNDUP_spec; unfold RAMBASE, PHYSTOP, PGSIZE in *; lia. }
  assert (page_aligned (PGROUNDUP kend) ∧ kend ≤ PGROUNDUP kend ≤ PHYSTOP) as [Hal Hge].
  { rewrite Hup. unfold page_aligned, PHYSTOP, PGSIZE in *. wrap_lia. }
  assert (l ≡ₚ region_pages (PGROUNDUP kend) PHYSTOP) as Hperm.
  { apply submseteq_length_Permutation.
    - apply NoDup_submseteq; [apply (kinv_nodup _ _ _ Hkinv)|].
      intros q [Hq _]%(kinv_free _ _ _ Hkinv). apply elem_of_region_pages; [done|done|lia|lia|done].
    - unfold region_pages. rewrite length_fmap, length_seq. lia. }
  assert (∀ p, p ∈ l ↔ managed (PGROUNDUP kend, PHYSTOP) p) as Hall.
  { intros p. rewrite Hperm. apply elem_of_region_pages; [done|done|lia|done]. }
  split; [done|]. split_and!.
  - split; [done|]. split; [by exists l|]. intros p n. rewrite lookup_empty. split; [done|].
    intros (Hm & Hrc & Hn). apply Hall, (kinv_free _ _ _ Hkinv) in Hm. lia.
  - by rewrite (kinv_cnt _ _ _ Hkinv), Hlen.
  - intros p [_ Hp]. simpl in Hp. lia.
  - exists l. split; [apply (kinv_chain _ _ _ Hkinv)|]. split; [apply (kinv_nodup _ _ _ Hkinv)|].
    intros p. rewrite Hall. unfold managed, ram_page, page_aligned, PGSIZE. simpl. lia.
Qed.

Lemma kinit_frees_ram_witness :
  ∃ s', kinit (PHYSTOP - 2 * PGSIZE - 100) demo_boot = Done tt s' ∧ freecnt (km s') = 2.
Proof.
  destruct (kinit_frees_ram (PHYSTOP - 2 * PGSIZE - 100) demo_boot) as (s' & H1 & _ & H3 & _).
  - unfold RAMBASE, PHYSTOP, PGSIZE. lia.
  - split; [exact (proj1 demo_dev_ready)|]. split; reflexivity.
  - exists s'. split; [exact H1|exact H3].
Defined.
