(* ===== verification/Vm.v ===== *)
(** * Sv39 page tables (src/vm.c, src/vm.h)

    The operations on page tables in physical memory: the software walk, the
    mapping and unmapping loops, the kernel map, copy-on-write sharing and its
    write fault. The linker symbol [etext] is an argument. *)
From S2P Require Import Prelude Spinlock Uart Mem Kalloc.

(** ** Constants (vm.h, vm.c) *)

Definition PTE_V : Z := 1.
Definition PTE_R : Z := 2.
Definition PTE_W : Z := 4.
Definition PTE_X : Z := 8.
Definition PTE_U : Z := 16.
Definition PTE_COW : Z := 256.

Definition USERVA : Z := 0x1000.
Definition USERSTACK : Z := 0x4000.
Definition USERSTACKTOP : Z := USERSTACK + 4096.
Definition HEAPBASE : Z := 0x10000.
Definition MMAPBASE : Z := 0x100000.

Definition UART0 : Z := 0x10000000.
Definition PLIC : Z := 0x0c000000.
Definition KERNBASE : Z := 0x80200000.

Definition PA2PTE (pa : Z) : Z := u64 (Z.shiftl (Z.shiftr pa 12) 10).
Definition PTE2PA (pte : Z) : Z := u64 (Z.shiftl (Z.shiftr pte 10) 12).
Definition PXSHIFT (level : Z) : Z := 12 + 9 * level.
Definition PX (level va : Z) : Z := Z.land (Z.shiftr va (PXSHIFT level)) 0x1FF.
Definition PGROUNDDOWN (a : Z) : Z := Z.land a (u64 (Z.lnot (PGSIZE - 1))).
Definition MAKE_SATP (pt : Z) : Z := Z.lor (u64 (Z.shiftl 8 60)) (Z.shiftr pt 12).
Definition PTE_FLAGS (pte : Z) : Z := Z.land pte 0x3FF.

(** [*pte & flag] as a condition. *)
Definition has (pte flag : Z) : bool := negb (Z.land pte flag =? 0).

(** ** The walk *)

(** One round of the loop of [walk]: from the table to the next level's. [None]
    is the [return 0] of the C code. *)
Definition walk_level (va level : Z) (alloc : bool) (pagetable : Z) : M machine (option Z) :=
  let slot := pagetable + 8 * PX level va in
  pte ← load64 slot;
  if has pte PTE_V then mret (Some (PTE2PA pte))
  else if negb alloc then mret None
  else
    p ← kalloc;
    if p =? 0 then mret None
    else memset p 0 PGSIZE;; store64 slot (Z.lor (PA2PTE p) PTE_V);; mret (Some p).

(** The address of the last-level entry of [va], 0 if there is none. *)
Definition walk (pagetable va : Z) (alloc : bool) : M machine Z :=
  t1 ← walk_level va 2 alloc pagetable;
  match t1 with
  | None => mret 0
  | Some t1 =>
      t0 ← walk_level va 1 alloc t1;
      match t0 with
      | None => mret 0
      | Some t0 => mret (t0 + 8 * PX 0 va)
      end
  end.

(** ** Mapping *)

(** One round of the loop of [mappages] at [(a, pa)]. *)
Definition mappages_body (pt last perm : Z) (x : Z * Z) : M machine ((Z * Z) + Z) :=
  let '(a, pa) := x in
  slot ← walk pt a true;
  if slot =? 0 then mret (inr (-1))
  else
    pte ← load64 slot;
    if has pte PTE_V then uart_line "[vm] remap!";; mret (inr (-1))
    else
      store64 slot (Z.lor (Z.lor (PA2PTE pa) perm) PTE_V);;
      if a =? last then mret (inr 0)
      else mret (inl (u64 (a + PGSIZE), u64 (pa + PGSIZE))).

(** One round per page of the range (and a spare one) is enough fuel. *)
Definition mappages (pt va size pa perm : Z) : M machine Z :=
  let a := PGROUNDDOWN va in
  let last := PGROUNDDOWN (u64 (va + size - 1)) in
  loop (Z.to_nat (size / PGSIZE) + 2) (mappages_body pt last perm) (a, pa).

Definition kvmmap (kpt va pa sz perm : Z) : M machine unit :=
  r ← mappages kpt va sz pa perm;
  if negb (r =? 0) then uart_line "[vm] kvmmap failed";; halt else mret tt.

Definition map_kernel (etext pt : Z) : M machine unit :=
  kvmmap pt UART0 UART0 PGSIZE (Z.lor PTE_R PTE_W);;
  kvmmap pt 0x10001000 0x10001000 0x8000 (Z.lor PTE_R PTE_W);;
  kvmmap pt PLIC PLIC 0x400000 (Z.lor PTE_R PTE_W);;
  kvmmap pt KERNBASE KERNBASE (etext - KERNBASE) (Z.lor PTE_R PTE_X);;
  kvmmap pt etext etext (PHYSTOP - etext) (Z.lor PTE_R PTE_W).

Definition kvminit (etext : Z) : M machine unit :=
  p ← kalloc;
  modify (with_kpt p);;
  memset p 0 PGSIZE;;
  map_kernel etext p.

Definition kernel_pt : M machine Z := gets kernel_pagetable.
Definition satp_for (pt : Z) : Z := MAKE_SATP pt.
Definition switch_satp (pt : Z) : M machine unit := w_satp (MAKE_SATP pt);; sfence_vma.

Definition kvminithart : M machine unit :=
  sfence_vma;;
  pt ← kernel_pt;
  w_satp (MAKE_SATP pt);;
  sfence_vma.

Definition kvm_map (va pa sz perm : Z) : M machine unit :=
  pt ← kernel_pt; kvmmap pt va pa sz perm;; sfence_vma.

Definition proc_pagetable (etext ucode_pa ustack_pa : Z) : M machine Z :=
  pt ← kalloc;
  if pt =? 0 then mret 0
  else
    memset pt 0 PGSIZE;;
    map_kernel etext pt;;
    r1 ← mappages pt USERVA PGSIZE ucode_pa (Z.lor (Z.lor PTE_R PTE_X) PTE_U);
    r2 ← mappages pt USERSTACK PGSIZE ustack_pa (Z.lor (Z.lor PTE_R PTE_W) PTE_U);
    mret pt.

Definition uvm_map (pt va pa perm : Z) : M machine Z :=
  r ← mappages pt va PGSIZE pa perm;
  if negb (r =? 0) then mret (-1)
  else sfence_vma;; mret 0.

Definition remap_user_code (pt newcode_pa : Z) : M machine unit :=
  slot ← walk pt USERVA false;
  if slot =? 0 then uart_line "[vm] remap_user_code: no pte"
  else
    store64 slot (Z.lor (Z.lor (Z.lor (Z.lor (PA2PTE newcode_pa) PTE_R) PTE_X) PTE_U) PTE_V);;
    sfence_vma.

(** ** Unmapping *)

Definition vm_free_body (pt end_ a : Z) : M machine (Z + unit) :=
  if a <? end_ then
    slot ← walk pt a false;
    pte ← (if slot =? 0 then mret 0 else load64 slot);
    when (has pte PTE_V) (kfree (PTE2PA pte);; store64 slot 0);;
    mret (inl (u64 (a + PGSIZE)))
  else mret (inr tt).

Definition vm_free_range (pt start end_ : Z) : M machine unit :=
  loop (Z.to_nat ((end_ - start) / PGSIZE) + 2) (vm_free_body pt end_) start.

(** [freewalk], [depth] bounding the recursion (three levels of tables). *)
Fixpoint freewalk (depth : nat) (pt : Z) : M machine unit :=
  match depth with
  | O => halt
  | S depth =>
      for_n 512 0 (λ i,
        pte ← load64 (pt + 8 * i);
        when (has pte PTE_V && (Z.land pte (Z.lor (Z.lor PTE_R PTE_W) PTE_X) =? 0))
          (freewalk depth (PTE2PA pte);; store64 (pt + 8 * i) 0));;
      kfree pt
  end.

Definition free_pagetable (pt : Z) : M machine unit := freewalk 3 pt.

(** ** Copy on write *)

(** One round of [uvm_cow_share] at [a]. *)
Definition cow_share_body (parent child end_ a : Z) : M machine (Z + Z) :=
  if a <? end_ then
    slot ← walk parent a false;
    pte ← (if slot =? 0 then mret 0 else load64 slot);
    if (slot =? 0) || negb (has pte PTE_V) then mret (inl (u64 (a + PGSIZE)))
    else
      let pa := PTE2PA pte in
      let flags := PTE_FLAGS pte in
      let flags' := if has flags PTE_W then Z.lor (Z.land flags (u64 (Z.lnot PTE_W))) PTE_COW else flags in
      when (has flags PTE_W) (store64 slot (Z.lor (PA2PTE pa) flags'));;
      r ← mappages child a PGSIZE pa flags';
      if negb (r =? 0) then mret (inr (-1))
      else kref_inc pa;; mret (inl (u64 (a + PGSIZE)))
  else sfence_vma;; mret (inr 0).

Definition uvm_cow_share (parent child start end_ : Z) : M machine Z :=
  loop (Z.to_nat ((end_ - start) / PGSIZE) + 2) (cow_share_body parent child end_) start.

Definition uvm_cow_fault (pt va : Z) : M machine Z :=
  let a := PGROUNDDOWN va in
  slot ← walk pt a false;
  pte ← (if slot =? 0 then mret 0 else load64 slot);
  if (slot =? 0) || negb (has pte PTE_V) || negb (has pte PTE_COW) then mret 0
  else
    let old := PTE2PA pte in
    fresh ← kalloc;
    if fresh =? 0 then mret 0
    else
      memcopy fresh old PGSIZE;;
      let flags := Z.lor (Z.land (PTE_FLAGS pte) (u64 (Z.lnot PTE_COW))) PTE_W in
      store64 slot (Z.lor (PA2PTE fresh) flags);;
      sfence_vma;;
      kfree old;;
      mret 1.
