(* ===== verification/PageTable.v ===== *)
(** * The representation of Sv39 page tables, and the walk

    A page table in memory is described by the map [T] from the paths of table
    indices to the pages that hold the tables: the root at [[]], the tables of
    the middle level at [[i]], those of the last level at [[i; j]]. The walk of
    vm.c finds the last-level entry of an address, allocating missing tables
    without disturbing any other entry. *)
From S2P Require Import Prelude Spinlock Uart Mem Kalloc Vm.

(** ** Page table entries as numbers *)

(** The entry for page [pa] with the ten low bits [f]. *)
Definition mk_pte (pa f : Z) : Z := pa / PGSIZE * 1024 + f.

(** Physical pages an entry can name, and flag words. *)
Definition pte_page (pa : Z) : Prop := page_aligned pa ∧ 0 ≤ pa < 2 ^ 56.
Definition flag_word (f : Z) : Prop := 0 ≤ f < 1024.

Lemma land_low x b n : 0 ≤ n → 0 ≤ b < 2 ^ n → Z.land x b = Z.land (x mod 2 ^ n) b.
Proof.
  intros Hn Hb. rewrite <- (Z.land_ones x n), <- Z.land_assoc, (Z.land_comm (Z.ones n)) by done.
  by rewrite Z.land_ones, (Z.mod_small b) by done.
Qed.

Lemma lor_low x f n : 0 ≤ n → 0 ≤ f < 2 ^ n → Z.lor (x * 2 ^ n) f = x * 2 ^ n + f.
Proof.
  intros Hn Hf. symmetry. apply Z.add_nocarry_lor. rewrite (land_low _ f n), Z_mod_mult by done.
  apply Z.land_0_l.
Qed.

Lemma lor_bound f g n : 0 ≤ n → 0 ≤ f < 2 ^ n → 0 ≤ g < 2 ^ n → 0 ≤ Z.lor f g < 2 ^ n.
Proof.
  intros Hn Hf Hg. split; [apply Z.lor_nonneg; lia|].
  destruct (decide (Z.lor f g = 0)) as [->|Hne]; [lia|].
  assert (0 < Z.lor f g) by (assert (0 ≤ Z.lor f g) by (apply Z.lor_nonneg; lia); lia).
  apply Z.log2_lt_pow2; [done|]. rewrite Z.log2_lor by lia.
  assert (n = 0 ∨ 0 < n) as [->|Hn'] by lia.
  { assert (f = 0) as -> by lia. assert (g = 0) as -> by lia. done. }
  apply Z.max_lub_lt.
  - destruct (decide (f = 0)) as [->|]; [simpl; lia|]. apply Z.log2_lt_pow2; lia.
  - destruct (decide (g = 0)) as [->|]; [simpl; lia|]. apply Z.log2_lt_pow2; lia.
Qed.

Lemma land_bound f g n : 0 ≤ f < 2 ^ n → 0 ≤ n → 0 ≤ Z.land f g < 2 ^ n.
Proof.
  intros Hf Hn. split; [apply Z.land_nonneg; lia|].
  destruct (decide (Z.land f g = 0)) as [->|Hne]; [lia|].
  assert (0 ≤ Z.land f g) by (apply Z.land_nonneg; lia).
  rewrite <- (Z.mod_small f (2 ^ n)), <- Z.land_ones, <- Z.land_assoc, (Z.land_comm (Z.ones n)), Z.land_assoc,
    Z.land_ones by done. apply Z.mod_pos_bound. lia.
Qed.

Section pte.
Context (pa f : Z) (Hpa : pte_page pa) (Hf : flag_word f).

Lemma mk_pte_bound : 0 ≤ mk_pte pa f < 2 ^ 64.
Proof. unfold mk_pte, pte_page, flag_word, PGSIZE in *. wrap_lia. Qed.

Lemma pa2pte : PA2PTE pa = mk_pte pa 0.
Proof.
  unfold PA2PTE, mk_pte, pte_page, PGSIZE in *.
  rewrite Z.shiftr_div_pow2, Z.shiftl_mul_pow2 by lia.
  change (2 ^ 12) with 4096. change (2 ^ 10) with 1024. rewrite u64_small; [lia|].
  Z.to_euclidean_division_equations. lia.
Qed.

Lemma lor_pa2pte : Z.lor (PA2PTE pa) f = mk_pte pa f.
Proof.
  rewrite pa2pte. unfold mk_pte. rewrite Z.add_0_r. by apply (lor_low _ _ 10).
Qed.

Lemma pte2pa : PTE2PA (mk_pte pa f) = pa.
Proof.
  unfold PTE2PA, mk_pte, pte_page, page_aligned, flag_word, PGSIZE in *.
  rewrite Z.shiftr_div_pow2, Z.shiftl_mul_pow2 by lia.
  change (2 ^ 12) with 4096. change (2 ^ 10) with 1024. rewrite u64_small;
    Z.to_euclidean_division_equations; lia.
Qed.

Lemma land_mk_pte b : 0 ≤ b < 1024 → Z.land (mk_pte pa f) b = Z.land f b.
Proof.
  intros Hb. rewrite (land_low _ b 10) by lia. f_equal. unfold mk_pte, flag_word in *.
  change (2 ^ 10) with 1024. Z.to_euclidean_division_equations. lia.
Qed.

Lemma lor_mk_pte g : 0 ≤ g < 1024 → Z.lor (mk_pte pa f) g = mk_pte pa (Z.lor f g).
Proof.
  intros Hg. unfold mk_pte. rewrite <- !(lor_low _ _ 10), Z.lor_assoc; [done|lia| |lia|exact Hf].
  by apply lor_bound.
Qed.

Lemma has_mk_pte b : 0 ≤ b < 1024 → has (mk_pte pa f) b = has f b.
Proof. intros. unfold has. by rewrite land_mk_pte. Qed.

Lemma pte_flags_mk : PTE_FLAGS (mk_pte pa f) = f.
Proof.
  unfold PTE_FLAGS. rewrite land_mk_pte by lia. change 0x3FF with (Z.ones 10).
  rewrite Z.land_ones by lia. apply Z.mod_small. exact Hf.
Qed.
End pte.

(** An entry read from memory splits into page and flags. *)
Lemma pte_split v : 0 ≤ v < 2 ^ 54 → ∃ pa f, v = mk_pte pa f ∧ pte_page pa ∧ flag_word f.
Proof.
  intros Hv. exists (v / 1024 * 4096), (v mod 1024). unfold mk_pte, pte_page, page_aligned, flag_word, PGSIZE.
  Z.to_euclidean_division_equations. lia.
Qed.

Lemma ram_pte_page p : ram_page p → pte_page p.
Proof. unfold ram_page, pte_page, RAMBASE, PHYSTOP, PGSIZE. intros (? & ? & ?). split; [done|lia]. Qed.

(** ** Indices of an address *)

Lemma PX_spec level va : 0 ≤ level → 0 ≤ va → PX level va = va / 2 ^ PXSHIFT level mod 512.
Proof.
  intros. unfold PX. change 0x1FF with (Z.ones 9).
  rewrite Z.land_ones, Z.shiftr_div_pow2 by (unfold PXSHIFT; lia). done.
Qed.

Lemma PX_idx level va : 0 ≤ PX level va < 512.
Proof. unfold PX. change 0x1FF with (Z.ones 9). rewrite Z.land_ones by lia. apply Z.mod_pos_bound. lia. Qed.

(** The virtual page number Sv39 translates. *)
Definition vpn (va : Z) : Z := va / PGSIZE mod 2 ^ 27.

(** The path of tables to the last-level table of [va]. *)
Definition vpath (va : Z) : list Z := [PX 2 va; PX 1 va].

Lemma vpn_PX va : 0 ≤ va → vpn va = PX 2 va * 2 ^ 18 + PX 1 va * 2 ^ 9 + PX 0 va.
Proof.
  intros Hva. rewrite !PX_spec by lia. unfold vpn, PXSHIFT, PGSIZE.
  change (2 ^ (12 + 9 * 2)) with (4096 * 262144). change (2 ^ (12 + 9 * 1)) with (4096 * 512).
  change (2 ^ (12 + 9 * 0)) with 4096. rewrite <- !Z.div_div by lia.
  generalize (va / 4096). intros x. change (2 ^ 27) with 134217728. change (2 ^ 18) with 262144.
  change (2 ^ 9) with 512. Z.to_euclidean_division_equations. lia.
Qed.

Lemma vpn_inj va va' :
  0 ≤ va → 0 ≤ va' → vpath va = vpath va' → PX 0 va = PX 0 va' → vpn va = vpn va'.
Proof. intros ?? [= H2 H1] H0. rewrite !vpn_PX by done. congruence. Qed.

Lemma vpn_PX_inv va va' :
  0 ≤ va → 0 ≤ va' → vpn va = vpn va' → vpath va = vpath va' ∧ PX 0 va = PX 0 va'.
Proof.
  intros Ha Hb. rewrite !vpn_PX by done. unfold vpath.
  pose proof (PX_idx 2 va). pose proof (PX_idx 1 va). pose proof (PX_idx 0 va).
  pose proof (PX_idx 2 va'). pose proof (PX_idx 1 va'). pose proof (PX_idx 0 va').
  intros. assert (PX 2 va = PX 2 va' ∧ PX 1 va = PX 1 va' ∧ PX 0 va = PX 0 va') as (-> & -> & ->) by lia.
  done.
Qed.

Lemma PGROUNDDOWN_spec a : 0 ≤ a < 2 ^ 64 → PGROUNDDOWN a = a / PGSIZE * PGSIZE.
Proof.
  intros Ha. unfold PGROUNDDOWN, PGSIZE.
  replace (u64 (Z.lnot (4096 - 1))) with (Z.shiftl (Z.ones 52) 12) by reflexivity.
  replace (a / 4096 * 4096) with (Z.shiftl (Z.shiftr a 12) 12)
    by (rewrite Z.shiftl_mul_pow2, Z.shiftr_div_pow2 by lia; done).
  apply Z.bits_inj'. intros n Hn. rewrite Z.land_spec, !Z.shiftl_spec by done.
  destruct (Z.ltb_spec n 12).
  - rewrite !(Z.testbit_neg_r _ (n - 12)) by lia. apply andb_false_r.
  - rewrite Z.shiftr_spec by lia. replace (n - 12 + 12) with n by lia.
    destruct (Z.ltb_spec n 64).
    + rewrite Z.ones_spec_low by lia. apply andb_true_r.
    + rewrite Z.ones_spec_high by lia. rewrite andb_false_r. symmetry.
      apply Z.bits_above_log2; [lia|]. destruct (decide (a = 0)) as [->|]; [simpl; lia|].
      apply Z.log2_lt_pow2; [lia|]. pose proof (Z.pow_le_mono_r 2 64 n). lia.
Qed.

(** ** Tables in memory *)

(** Entry [i] of the table in page [p]. *)
Definition pte_at (m : gmap Z Z) (p i : Z) : Z := ld64 m (p + 8 * i).

(** The pages that hold the tables. *)
Definition node (T : gmap (list Z) Z) (p : Z) : Prop := ∃ k, T !! k = Some p.

(** The entries of the inner tables agree with [T]. *)
Record pt_rep (m : gmap Z Z) (T : gmap (list Z) Z) : Prop := {
  rep_page k p : T !! k = Some p → ram_page p;
  rep_inj k k' p : T !! k = Some p → T !! k' = Some p → k = k';
  rep_parent k i q : T !! (k ++ [i]) = Some q → is_Some (T !! k) ∧ (length k < 2)%nat ∧ 0 ≤ i < 512;
  rep_inner k p i : T !! k = Some p → (length k < 2)%nat → 0 ≤ i < 512 →
    match T !! (k ++ [i]) with
    | Some q => pte_at m p i = mk_pte q PTE_V
    | None => has (pte_at m p i) PTE_V = false
    end;
}.

(** The last-level entry of [va], 0 where there is no last-level table. *)
Definition leaf (m : gmap Z Z) (T : gmap (list Z) Z) (va : Z) : Z :=
  match T !! vpath va with Some p => pte_at m p (PX 0 va) | None => 0 end.

(** The translation of the hardware: three entries read from memory, from the
    root on; [None] where an entry is not valid. *)
Definition sv39 (m : gmap Z Z) (root va : Z) : option Z :=
  let e2 := pte_at m root (PX 2 va) in
  if has e2 PTE_V then
    let e1 := pte_at m (PTE2PA e2) (PX 1 va) in
    if has e1 PTE_V then
      let e0 := pte_at m (PTE2PA e1) (PX 0 va) in
      if has e0 PTE_V then Some e0 else None
    else None
  else None.

Lemma has_V_1 : has PTE_V PTE_V = true. Proof. done. Qed.
Lemma has_0 b : has 0 b = false. Proof. unfold has. by rewrite Z.land_0_l. Qed.

(** Under the representation, the hardware sees the leaves. *)
Lemma sv39_leaf m T root va :
  pt_rep m T → T !! [] = Some root →
  sv39 m root va = if has (leaf m T va) PTE_V then Some (leaf m T va) else None.
Proof.
  intros Hrep Hroot. unfold sv39, leaf, vpath.
  pose proof (PX_idx 2 va) as I2. pose proof (PX_idx 1 va) as I1.
  pose proof (rep_inner _ _ Hrep [] root _ Hroot ltac:(simpl; lia) I2) as H2. simpl in H2.
  destruct (T !! [PX 2 va]) as [p1|] eqn:E1.
  - rewrite H2. assert (pte_page p1) by (by eapply ram_pte_page, rep_page).
    rewrite has_mk_pte, has_V_1, pte2pa by done.
    pose proof (rep_inner _ _ Hrep [PX 2 va] p1 _ E1 ltac:(simpl; lia) I1) as H1. simpl in H1.
    destruct (T !! [PX 2 va; PX 1 va]) as [p0|] eqn:E0.
    + rewrite H1. assert (pte_page p0) by (by eapply ram_pte_page, rep_page).
      by rewrite has_mk_pte, has_V_1, pte2pa by done.
    + by rewrite H1, has_0.
  - rewrite H2. destruct (T !! [PX 2 va; PX 1 va]) as [p0|] eqn:E0; [|by rewrite has_0].
    change [PX 2 va; PX 1 va] with ([PX 2 va] ++ [PX 1 va]) in E0.
    apply (rep_parent _ _ Hrep) in E0 as [[? ?] _]. congruence.
Qed.

(** ** Memory lemmas for entries *)

Lemma pte_at_st64 m p q i j v :
  page_aligned p → page_aligned q → 0 ≤ i < 512 → 0 ≤ j < 512 → 0 ≤ v < 2 ^ 64 →
  pte_at (st64 m (p + 8 * i) v) q j = if decide (p = q ∧ i = j) then v else pte_at m q j.
Proof.
  intros Hp Hq Hi Hj Hv. unfold pte_at. destruct (decide (p = q ∧ i = j)) as [[-> ->]|Hne].
  - by apply ld64_st64_eq.
  - apply ld64_st64_ne. destruct (decide (p = q)) as [->|Hpq].
    + assert (i ≠ j) by naive_solver. lia.
    + destruct (pages_disjoint p q); unfold PGSIZE in *; try done; lia.
Qed.

Lemma pte_at_zeroed m p q j :
  page_aligned p → page_aligned q → 0 ≤ j < 512 →
  pte_at (memset_loop (Z.to_nat PGSIZE) p 0 m) q j = if decide (p = q) then 0 else pte_at m q j.
Proof.
  intros Hp Hq Hj. unfold pte_at, ld64. destruct (decide (p = q)) as [->|Hne].
  - enough (read_bytes 8 (memset_loop (Z.to_nat PGSIZE) q 0 m) (q + 8 * j) = replicate 8 0) as -> by done.
    apply list_eq. intros i. destruct (decide (i < 8)%nat).
    + rewrite lookup_read_bytes, lookup_replicate_2 by done. f_equal.
      apply ld8_memset_in. unfold PGSIZE in *. lia.
    + rewrite !(lookup_ge_None_2 _ i); [done|rewrite length_replicate; lia|rewrite length_read_bytes; lia].
  - f_equal. apply read_bytes_ext. intros x Hx. apply ld8_memset_ne.
    destruct (pages_disjoint p q); unfold PGSIZE in *; try done; lia.
Qed.

(** [x] lies in page [p]. *)
Definition in_page (p x : Z) : Prop := p ≤ x < p + PGSIZE.

Lemma pte_at_ext m m' p i :
  0 ≤ i < 512 → (∀ x, in_page p x → ld8 m x = ld8 m' x) → pte_at m p i = pte_at m' p i.
Proof. intros Hi Hx. apply ld64_ext. intros. apply Hx. unfold in_page, PGSIZE. lia. Qed.

Lemma in_page_ne p q x : page_aligned p → page_aligned q → p ≠ q → in_page p x → ¬ in_page q x.
Proof. intros. destruct (pages_disjoint p q); try done; unfold in_page in *; lia. Qed.

Lemma pt_rep_ext m m' T :
  (∀ p x, node T p → in_page p x → ld8 m x = ld8 m' x) → pt_rep m T → pt_rep m' T.
Proof.
  intros Hext [H1 H2 H3 H4]. split; [done|done|done|]. intros k p i Hk Hlen Hi.
  rewrite <- (pte_at_ext m m'); [by apply H4|done|]. intros. apply (Hext p); [by exists k|done].
Qed.

Lemma leaf_ext m m' T va :
  (∀ p x, node T p → in_page p x → ld8 m x = ld8 m' x) → leaf m T va = leaf m' T va.
Proof.
  intros Hext. unfold leaf. destruct (T !! vpath va) as [p|] eqn:E; [|done].
  apply pte_at_ext; [apply PX_idx|]. intros. apply (Hext p); [by exists (vpath va)|done].
Qed.

(** ** Address spaces and the steps of the page table operations *)

(** [T] describes a table rooted at [root] whose pages are live and its own. *)
Record aspace (rg : Z * Z) (s : machine) (root : Z) (T : gmap (list Z) Z) : Prop := {
  as_root : T !! [] = Some root;
  as_rep : pt_rep (mem s) T;
  as_live p : node T p → managed rg p ∧ rc s p = 1;
}.

Record vok (rg : Z * Z) (s : machine) (l : list Z) (root : Z) (T : gmap (list Z) Z) : Prop := {
  vok_k : kinv rg s l;
  vok_ready : ready s;
  vok_as : aspace rg s root T;
}.

(** The parts of the machine an operation leaves alone: the locks (up to
    left-overs), the output already sent, the registers. *)
Definition same_hw (s s' : machine) : Prop :=
  dspin (mdev s') ≡ dspin (mdev s) ∧ tx (mdev s) `prefix_of` tx (mdev s') ∧
  kernel_pagetable s' = kernel_pagetable s ∧ satp s' = satp s.

(** [vstep rg A f s l T s' l' T']: an operation on the table of [T] led to [T'].
    Tables only grew, along the paths [A], with pages from the free list; the
    entry [v] of [va] became [f va v]; memory outside the tables and the counts
    of all other pages did not change. *)
Record vstep (rg : Z * Z) (root : Z) (A : list Z → Prop) (f : Z → Z → Z)
    (s : machine) (l : list Z) (T : gmap (list Z) Z)
    (s' : machine) (l' : list Z) (T' : gmap (list Z) Z) : Prop := {
  vs_ok : vok rg s' l' root T';
  vs_sub : T ⊆ T';
  vs_new k : is_Some (T' !! k) → is_Some (T !! k) ∨ A k;
  vs_count : (length l' + size T' = length l + size T)%nat;
  vs_leaf va : 0 ≤ va → leaf (mem s') T' va = f va (leaf (mem s) T va);
  vs_frame x : (∀ p, node T' p → ¬ in_page p x) → ld8 (mem s') x = ld8 (mem s) x;
  vs_rc q : page_aligned q → (node T' q → node T q) → rc s' q = rc s q;
  vs_fresh p : node T' p → node T p ∨ rc s p = 0;
  vs_hw : same_hw s s';
}.

Definition keep (va v : Z) : Z := v.

#[export] Instance same_hw_preorder : PreOrder same_hw.
Proof.
  split; [by intros s|]. intros s s' s'' (H1 & H2 & H3 & H4) (K1 & K2 & K3 & K4).
  unfold same_hw. rewrite K1, K3, K4. split_and!; [done|by etrans|done|done].
Qed.

Lemma node_sub T T' p : T ⊆ T' → node T p → node T' p.
Proof. intros Hs [k Hk]. exists k. by eapply lookup_weaken. Qed.

Lemma vstep_refl rg root A s l T : vok rg s l root T → vstep rg root A keep s l T s l T.
Proof. split; try done; eauto. Qed.

Lemma vstep_weaken rg root (A A' : list Z → Prop) f g s l T s' l' T' :
  vstep rg root A f s l T s' l' T' → (∀ k, A k → A' k) → (∀ va v, 0 ≤ va → f va v = g va v) →
  vstep rg root A' g s l T s' l' T'.
Proof.
  intros [] HA Hf. split; try done.
  - intros k [|]%vs_new0; auto.
  - intros va Hva. by rewrite vs_leaf0, Hf.
Qed.

Lemma vstep_trans rg root A f g s l T s1 l1 T1 s2 l2 T2 :
  vstep rg root A f s l T s1 l1 T1 → vstep rg root A g s1 l1 T1 s2 l2 T2 →
  vstep rg root A (λ va v, g va (f va v)) s l T s2 l2 T2.
Proof.
  intros H1 H2. split.
  - apply (vs_ok _ _ _ _ _ _ _ _ _ _ H2).
  - etrans; [apply (vs_sub _ _ _ _ _ _ _ _ _ _ H1)|apply (vs_sub _ _ _ _ _ _ _ _ _ _ H2)].
  - intros k [Hk|]%(vs_new _ _ _ _ _ _ _ _ _ _ H2); [|by right].
    by apply (vs_new _ _ _ _ _ _ _ _ _ _ H1).
  - rewrite (vs_count _ _ _ _ _ _ _ _ _ _ H2). apply (vs_count _ _ _ _ _ _ _ _ _ _ H1).
  - intros va Hva. by rewrite (vs_leaf _ _ _ _ _ _ _ _ _ _ H2), (vs_leaf _ _ _ _ _ _ _ _ _ _ H1).
  - intros x Hx. rewrite (vs_frame _ _ _ _ _ _ _ _ _ _ H2) by done.
    apply (vs_frame _ _ _ _ _ _ _ _ _ _ H1). intros p Hp. apply Hx.
    eapply node_sub; [apply (vs_sub _ _ _ _ _ _ _ _ _ _ H2)|done].
  - intros q Hq Hn. pose proof (vs_sub _ _ _ _ _ _ _ _ _ _ H2) as S2.
    pose proof (vs_sub _ _ _ _ _ _ _ _ _ _ H1) as S1.
    rewrite (vs_rc _ _ _ _ _ _ _ _ _ _ H2), (vs_rc _ _ _ _ _ _ _ _ _ _ H1); eauto using node_sub.
  - intros p Hp2. destruct (vs_ok _ _ _ _ _ _ _ _ _ _ H1) as [_ _ [_ _ Hlive1]].
    destruct (vs_ok _ _ _ _ _ _ _ _ _ _ H2) as [_ _ [_ _ Hlive2]].
    destruct (vs_fresh _ _ _ _ _ _ _ _ _ _ H2 p Hp2) as [Hp|Hz];
      [by apply (vs_fresh _ _ _ _ _ _ _ _ _ _ H1)|right].
    rewrite <- (vs_rc _ _ _ _ _ _ _ _ _ _ H1 p); [done|by eapply managed_aligned, Hlive2|].
    intros Hn%Hlive1. lia.
  - etrans; [apply (vs_hw _ _ _ _ _ _ _ _ _ _ H1)|apply (vs_hw _ _ _ _ _ _ _ _ _ _ H2)].
Qed.

(** ** The walk *)

Lemma slot_in_ram p i : ram_page p → 0 ≤ i < 512 → in_ram (p + 8 * i) 8 = true.
Proof. unfold ram_page, PGSIZE. intros (_ & ? & ?) ?. apply in_ram_iff. lia. Qed.

Lemma node_ram rg s root T k p : aspace rg s root T → T !! k = Some p → ram_page p.
Proof. intros [_ Hrep _]. apply (rep_page _ _ Hrep). Qed.

(** A new table: page [q] of the free list, zeroed and linked at entry [i] of
    the table [p] at path [k]. *)
Section link.
Context (rg : Z * Z) (s : machine) (l : list Z) (root : Z) (T : gmap (list Z) Z).
Context (k : list Z) (p q i : Z).
Context (Hok : vok rg s (q :: l) root T) (Hk : T !! k = Some p) (Hlen : (length k < 2)%nat).
Context (Hi : 0 ≤ i < 512) (Hnone : T !! (k ++ [i]) = None).

Definition linked : machine :=
  let s1 := after_alloc q (ld64 (mem s) q) s in
  with_mem (st64 (memset_loop (Z.to_nat PGSIZE) q 0 (mem s)) (p + 8 * i) (mk_pte q PTE_V)) s1.

Lemma link_pages : ram_page p ∧ ram_page q ∧ p ≠ q ∧ rc s q = 0 ∧ managed rg q ∧ ¬ node T q.
Proof.
  destruct Hok as [Hkin _ Has]. pose proof (node_ram _ _ _ _ _ _ Has Hk) as Hp.
  assert (managed rg q ∧ rc s q = 0) as [Hm Hz] by (apply (kinv_free _ _ _ Hkin); by left).
  assert (¬ node T q) by (intros [_ ?]%(as_live _ _ _ _ Has); lia).
  split_and!; try done; [by eapply managed_ram|]. intros ->. by destruct H; exists k.
Qed.

Lemma link_mem p' j :
  page_aligned p' → 0 ≤ j < 512 →
  pte_at (mem linked) p' j =
    if decide (p = p' ∧ i = j) then mk_pte q PTE_V else if decide (q = p') then 0 else pte_at (mem s) p' j.
Proof.
  destruct link_pages as (Hp & Hq & _). intros Hp' Hj. unfold linked. cbn [mem with_mem].
  rewrite (pte_at_st64 _ p p' i j); [|apply Hp|exact Hp'|exact Hi|exact Hj|].
  - destruct (decide (p = p' ∧ i = j)); [done|]. apply pte_at_zeroed; [apply Hq|exact Hp'|exact Hj].
  - apply mk_pte_bound; [by apply ram_pte_page|done].
Qed.

Lemma link_ld8 x : ¬ in_page p x → ¬ in_page q x → ld8 (mem linked) x = ld8 (mem s) x.
Proof.
  unfold in_page, linked. cbn [mem with_mem]. intros Hp Hq.
  rewrite ld8_st64_ne by (unfold PGSIZE in *; lia). apply ld8_memset_ne. unfold PGSIZE in *. lia.
Qed.

Lemma link_rep : pt_rep (mem linked) (<[k ++ [i] := q]> T).
Proof.
  destruct link_pages as (Hp & Hq & Hpq & _ & _ & Hfresh). destruct Hok as [_ _ [_ Hrep _]].
  pose proof Hrep as [Hpage Hinj Hpar Hin].
  assert (k ≠ k ++ [i]) as Hkk by (intros E%(f_equal length); rewrite length_app in E; simpl in E; lia).
  split.
  - intros k' p'. rewrite lookup_insert_Some. naive_solver.
  - intros k1 k2 p'. rewrite !lookup_insert_Some.
    intros [[<- <-]|[? H1]] [[<- E]|[? H2]]; [done| | |by eapply Hinj].
    + destruct Hfresh. by exists k2.
    + subst. destruct Hfresh. by exists k1.
  - intros k' j q'. rewrite lookup_insert_Some. intros [[E _]|[_ H]].
    + apply app_inj_tail in E as [<- <-]. rewrite lookup_insert_ne by done. by rewrite Hk.
    + apply Hpar in H as [Hs ?]. split; [|done]. rewrite lookup_insert_is_Some. destruct (decide (k ++ [i] = k')); auto.
  - intros k' p' j. rewrite lookup_insert_Some. intros [[<- <-]|[Hne Hk']] Hl Hj.
    + rewrite link_mem by (apply Hq || done).
      rewrite decide_False by naive_solver. rewrite decide_True by done.
      rewrite lookup_insert_ne.
      * destruct (T !! ((k ++ [i]) ++ [j])) eqn:E; [|apply has_0]. apply Hpar in E as [[? ?] _]. congruence.
      * intros E%(f_equal length). rewrite !length_app in E. simpl in E. lia.
    + pose proof (Hpage _ _ Hk') as Hp'. rewrite link_mem by (apply Hp' || done).
      destruct (decide (p = p' ∧ i = j)) as [[<- <-]|Hd].
      * assert (k' = k) as -> by (by eapply Hinj). by rewrite lookup_insert_eq.
      * rewrite decide_False by (intros ->; destruct Hfresh; by exists k').
        rewrite lookup_insert_ne; [by apply Hin|].
        intros [-> ->]%app_inj_tail. apply Hd. split; congruence.
Qed.

Lemma link_leaf va : leaf (mem linked) (<[k ++ [i] := q]> T) va = leaf (mem s) T va.
Proof.
  destruct link_pages as (Hp & Hq & Hpq & _ & _ & Hfresh). destruct Hok as [_ _ [_ Hrep _]].
  pose proof (PX_idx 0 va) as I0. unfold leaf. destruct (decide (k ++ [i] = vpath va)) as [<-|Hne].
  - rewrite lookup_insert_eq, Hnone. rewrite link_mem by (apply Hq || done).
    rewrite decide_False by naive_solver. by rewrite decide_True.
  - rewrite lookup_insert_ne by done. destruct (T !! vpath va) as [p0|] eqn:E; [|done].
    rewrite link_mem by (apply (rep_page _ _ Hrep _ _ E) || done).
    rewrite !decide_False; [done|intros ->; destruct Hfresh; by exists (vpath va)|].
    intros [-> _]. assert (k = vpath va) as -> by (by eapply rep_inj). simpl in Hlen. lia.
Qed.

Lemma link_kinv : kinv rg linked l.
Proof.
  destruct link_pages as (Hp & Hq & Hpq & Hz & Hm & Hfresh). destruct Hok as [Hkin _ Has].
  apply (kinv_ext rg (after_alloc q (ld64 (mem s) q) s)); [done| |by apply kinv_after_alloc].
  intros q' Hq'. symmetry. apply ld64_ext. intros x Hx.
  assert (managed rg q' ∧ rc s q' = 0) as [Hm' Hz'] by (apply (kinv_free _ _ _ Hkin); by right).
  assert (in_page q' x) as Hin by (unfold in_page, PGSIZE; lia).
  apply link_ld8; (eapply in_page_ne; [by eapply managed_aligned| | |exact Hin]).
  - apply Hp.
  - intros ->. assert (rc s p = 1) by (by apply (as_live _ _ _ _ Has); exists k). lia.
  - apply Hq.
  - intros ->. pose proof (kinv_nodup _ _ _ Hkin) as [? _]%NoDup_cons. done.
Qed.

Lemma link_rc p' : page_aligned p' → rc linked p' = if decide (p' = q) then 1 else rc s p'.
Proof.
  destruct link_pages as (Hp & Hq & _). intros Hp'. unfold rc, linked, after_alloc. simpl.
  destruct (decide (p' = q)) as [->|Hne].
  - by rewrite rc_get_set_eq.
  - rewrite rc_get_set_ne; [done|]. intros ?. apply Hne, pidx_inj; [done|apply Hq|done].
Qed.

Lemma link_same_hw : same_hw s linked.
Proof.
  destruct Hok as [_ [Hs _] _]. unfold same_hw, linked, after_alloc. simpl.
  split_and!; try done. by apply passed_equiv.
Qed.

Lemma link_vstep : vstep rg root (.= k ++ [i]) keep s (q :: l) T linked l (<[k ++ [i] := q]> T).
Proof.
  destruct link_pages as (Hp & Hq & Hpq & Hz & Hm & Hfresh).
  pose proof Hok as [Hkin Hready Has].
  assert (∀ p', node (<[k ++ [i] := q]> T) p' ↔ p' = q ∨ node T p') as Hnode.
  { intros p'. unfold node. split.
    - intros [k' [[_ <-]|[_ ?]]%lookup_insert_Some]; eauto.
    - intros [->|[k' Hk']]; [exists (k ++ [i]); by rewrite lookup_insert_eq|].
      exists k'. rewrite lookup_insert_ne; [done|]. intros <-. congruence. }
  split.
  - split; [apply link_kinv|by eapply ready_spin|]. split.
    + rewrite lookup_insert_ne by (by destruct k). apply (as_root _ _ _ _ Has).
    + apply link_rep.
    + intros p' [->|Hn]%Hnode; rewrite link_rc.
      * by rewrite decide_True.
      * by eapply managed_aligned.
      * destruct (as_live _ _ _ _ Has p' Hn). by rewrite decide_False by (by intros ->).
      * by eapply managed_aligned, as_live.
  - by apply insert_subseteq.
  - intros k'. rewrite lookup_insert_is_Some. intros [<-|[_ ?]]; [by right|by left].
  - rewrite map_size_insert_None by done. simpl. lia.
  - intros va _. apply link_leaf.
  - intros x Hx. apply link_ld8; apply Hx, Hnode; [right; by exists k|by left].
  - intros p' Hp' Hn. rewrite link_rc by done. rewrite decide_False; [done|].
    intros ->. apply Hfresh, Hn, Hnode. by left.
  - intros p' [->|?]%Hnode; [by right|by left].
  - apply link_same_hw.
Qed.
End link.

(** The state of an exhausted allocation: only the lock left-overs differ. *)
Definition touched (s : machine) : machine := set_spin (passed (spin_of s)) s.

Lemma vok_touched rg s l root T : vok rg s l root T → vok rg (touched s) l root T.
Proof. intros [Hk Hr [H1 H2 H3]]. split; [by apply (kinv_ext rg s)|by apply ready_passed|by split]. Qed.

Lemma vstep_touched rg root A s l T :
  vok rg s l root T → vstep rg root A keep s l T (touched s) l T.
Proof.
  intros Hok. split; try done; [by apply vok_touched|by left|by left|].
  destruct Hok as [_ [Hs _] _]. unfold same_hw, touched. simpl. split; [by apply passed_equiv|done].
Qed.

Lemma wp_load_pte rg s l root T k p i Q :
  vok rg s l root T → T !! k = Some p → 0 ≤ i < 512 →
  Q (pte_at (mem s) p i) s → wp (load64 (p + 8 * i)) Q s.
Proof.
  intros [_ _ Has] Hk Hi HQ. apply wp_load64; [|done].
  apply slot_in_ram; [by eapply node_ram|done].
Qed.

Section walk.
Context (rg : Z * Z) (s : machine) (l : list Z) (root : Z) (T : gmap (list Z) Z).
Context (Hok : vok rg s l root T).

(** Without allocation a round reads the tree. *)
Lemma wp_walk_level_ro k p va level Q :
  T !! k = Some p → (length k < 2)%nat →
  Q (T !! (k ++ [PX level va])) s → wp (walk_level va level false p) Q s.
Proof.
  intros Hk Hlen HQ. pose proof (PX_idx level va) as Hi. pose proof Hok as [_ _ Has].
  unfold walk_level. wp_steps. eapply wp_load_pte; [done..|]. wp_steps.
  pose proof (rep_inner _ _ (as_rep _ _ _ _ Has) k p _ Hk Hlen Hi) as Hin.
  destruct (T !! (k ++ [PX level va])) as [q|] eqn:E.
  - rewrite Hin. assert (pte_page q) by (by eapply ram_pte_page, node_ram).
    rewrite has_mk_pte, has_V_1, pte2pa by done. by wp_steps.
  - rewrite Hin. simpl. by wp_steps.
Qed.

(** With allocation a round finds the next table, or links a fresh one, or
    there is no free page. *)
Lemma wp_walk_level k p va level (Q : option Z → machine → Prop) :
  T !! k = Some p → (length k < 2)%nat →
  (l = [] → T !! (k ++ [PX level va]) = None → Q None (touched s)) →
  (∀ q s' l' T', T' !! (k ++ [PX level va]) = Some q →
     vstep rg root (.= k ++ [PX level va]) keep s l T s' l' T' → Q (Some q) s') →
  wp (walk_level va level true p) Q s.
Proof.
  intros Hk Hlen Hnone Hsome. pose proof (PX_idx level va) as Hi. pose proof Hok as [Hkin Hready Has].
  unfold walk_level. wp_steps. eapply wp_load_pte; [done..|]. wp_steps.
  pose proof (rep_inner _ _ (as_rep _ _ _ _ Has) k p _ Hk Hlen Hi) as Hin.
  destruct (T !! (k ++ [PX level va])) as [q|] eqn:E.
  - rewrite Hin. assert (pte_page q) by (by eapply ram_pte_page, node_ram).
    rewrite has_mk_pte, has_V_1, pte2pa by done. wp_steps. eapply Hsome; [done|by apply vstep_refl].
  - rewrite Hin. simpl. wp_steps. eapply wp_kalloc; [done|done| |].
    + intros Hl. simpl. wp_steps. by apply Hnone.
    + intros q l' Hl. subst l. destruct (link_pages _ _ _ _ _ _ _ _ Hok Hk Hlen) as (Hp & Hq & _).
      pose proof (ram_page_pos _ Hq). destruct (Z.eqb_spec q 0); [lia|].
      wp_steps. apply wp_memset; [apply ram_page_in_ram; [done|unfold PGSIZE; lia]|].
      wp_steps. apply wp_store64; [by apply slot_in_ram|]. wp_steps.
      assert (pte_page q) by (by apply ram_pte_page). rewrite lor_pa2pte by done.
      rewrite u64_small by (by apply mk_pte_bound).
      apply (Hsome q (linked s p q (PX level va)) l' (<[k ++ [PX level va] := q]> T)).
      * by rewrite lookup_insert_eq.
      * by apply link_vstep.
Qed.
End walk.

(** The read-only walk returns the address of the leaf, 0 without a table. *)
Lemma wp_walk_ro rg s l root T va Q :
  vok rg s l root T →
  Q (match T !! vpath va with Some p => p + 8 * PX 0 va | None => 0 end) s →
  wp (walk root va false) Q s.
Proof.
  intros Hok HQ. pose proof Hok as [_ _ [Hroot Hrep _]]. unfold walk. wp_steps.
  eapply (wp_walk_level_ro _ _ _ _ _ Hok []); [done|simpl; lia|]. simpl.
  unfold vpath in HQ. destruct (T !! [PX 2 va]) as [p1|] eqn:E1.
  - wp_steps. eapply (wp_walk_level_ro _ _ _ _ _ Hok [PX 2 va]); [done|simpl; lia|]. simpl.
    by destruct (T !! [PX 2 va; PX 1 va]); wp_steps.
  - wp_steps. destruct (T !! [PX 2 va; PX 1 va]) as [p0|] eqn:E0; [|done].
    change [PX 2 va; PX 1 va] with ([PX 2 va] ++ [PX 1 va]) in E0.
    apply (rep_parent _ _ Hrep) in E0 as [[? ?] _]. congruence.
Qed.

(** The paths the walk of [va] may add. *)
Definition walk_paths (va : Z) (k : list Z) : Prop := k = [PX 2 va] ∨ k = vpath va.

(** The allocating walk returns the leaf's address, or 0 when the free list ran out. *)
Lemma wp_walk rg s l root T va (Q : Z → machine → Prop) :
  vok rg s l root T →
  (∀ s' T', vstep rg root (walk_paths va) keep s l T s' [] T' →
     (T' !! [PX 2 va] = None ∨ T' !! vpath va = None) → Q 0 s') →
  (∀ p s' l' T', T' !! vpath va = Some p → vstep rg root (walk_paths va) keep s l T s' l' T' →
     Q (p + 8 * PX 0 va) s') →
  wp (walk root va true) Q s.
Proof.
  intros Hok Hfail Hsucc. pose proof Hok as [_ _ [Hroot Hrep _]]. unfold walk. wp_steps.
  eapply (wp_walk_level _ _ _ _ _ Hok []); [done|simpl; lia| |]; simpl.
  - intros -> Hnone. wp_steps. apply (Hfail (touched s) T); [by apply vstep_touched|by left].
  - intros p1 s1 l1 T1 Hp1 H1. wp_steps.
    apply (vstep_weaken _ _ _ (walk_paths va) _ keep) in H1; [|intros k ->; by left|done].
    eapply (wp_walk_level _ _ _ _ _ (vs_ok _ _ _ _ _ _ _ _ _ _ H1) [PX 2 va]); [done|simpl; lia| |]; simpl.
    + intros -> Hnone. wp_steps. apply (Hfail (touched s1) T1); [|by right].
      eapply (vstep_trans _ _ _ keep keep); [done|]. apply vstep_touched. by destruct H1.
    + intros p0 s2 l2 T2 Hp0 H2. wp_steps. apply (Hsucc p0 s2 l2 T2); [done|].
      apply (vstep_weaken _ _ _ (walk_paths va) _ keep) in H2; [|intros k ->; by right|done].
      by eapply (vstep_trans _ _ _ keep keep).
Qed.

(** Storing a last-level entry. *)
Definition upd (a v : Z) (va old : Z) : Z := if decide (vpn va = vpn a) then v else old.

Definition with_leaf (p va v : Z) (s : machine) : machine :=
  with_mem (st64 (mem s) (p + 8 * PX 0 va) v) s.

Lemma vstep_leaf rg root A s l T va p v :
  vok rg s l root T → 0 ≤ va → T !! vpath va = Some p → 0 ≤ v < 2 ^ 64 →
  vstep rg root A (upd va v) s l T (with_leaf p va v s) l T.
Proof.
  intros Hok Hva Hp Hv. pose proof Hok as [Hkin Hready [Hroot Hrep Hlive]].
  pose proof (rep_page _ _ Hrep _ _ Hp) as Hram. pose proof (PX_idx 0 va) as I0.
  assert (∀ x, ¬ in_page p x → ld8 (mem (with_leaf p va v s)) x = ld8 (mem s) x) as Hframe.
  { intros x Hx. apply ld8_st64_ne. unfold in_page, PGSIZE in Hx. lia. }
  split; try done; try by left.
  - split; [|done|split; [done| |done]].
    + apply (kinv_ext rg s); [done| |done]. intros q Hq. apply ld64_ext. intros x Hx.
      assert (managed rg q ∧ rc s q = 0) as [Hm Hz] by (by apply (kinv_free _ _ _ Hkin)).
      symmetry. apply Hframe. eapply (in_page_ne q); [by eapply managed_aligned|apply Hram| |].
      * intros ->. assert (rc s p = 1) by (apply Hlive; by exists (vpath va)). lia.
      * unfold in_page, PGSIZE. lia.
    + destruct Hrep as [H1 H2 H3 H4]. split; [done..|]. intros k q i Hk Hlen Hi.
      unfold with_leaf. cbn [mem with_mem]. rewrite pte_at_st64; try done.
      * rewrite decide_False; [by apply H4|]. intros [<- _].
        assert (k = vpath va) as -> by (by eapply H2). simpl in Hlen. lia.
      * apply Hram.
      * apply (H1 _ _ Hk).
  - intros va' Hva'. unfold leaf, upd. destruct (T !! vpath va') as [p'|] eqn:E'.
    + unfold with_leaf. cbn [mem with_mem].
      rewrite pte_at_st64; try done; [|apply Hram|apply (rep_page _ _ Hrep _ _ E')|apply PX_idx].
      destruct (decide (vpn va' = vpn va)) as [Heq|Hne].
      * apply vpn_PX_inv in Heq as [Hp1 ->]; [|done..]. rewrite decide_True; [done|].
        rewrite Hp1 in E'. split; congruence.
      * rewrite decide_False; [done|]. intros [-> Heq]. apply Hne, vpn_inj; [done..| |done].
        by eapply rep_inj.
    + rewrite decide_False; [done|]. intros [Hp1 _]%vpn_PX_inv; [|done..]. congruence.
  - intros x Hx. apply Hframe, Hx. by exists (vpath va).
Qed.
