(* ===== verification/AddrSpace.v ===== *)
(** * Mapping, unmapping and sharing: the effect on translations

    Each operation of vm.c as a step ([vstep]) that says what happened to every
    last-level entry, to the memory outside the tables and to the reference
    counts. *)
From S2P Require Import Prelude Spinlock Uart Mem Kalloc Vm PageTable.

(** ** Enough pages for the tables *)

(** All tables have their paths in [P], and the free pages could complete [P]. *)
Definition supply (P : list (list Z)) (l : list Z) (T : gmap (list Z) Z) : Prop :=
  (∀ k, is_Some (T !! k) → k ∈ P) ∧ (length P ≤ length l + size T)%nat.

Lemma supply_vstep rg root A f s l T s' l' T' P :
  vstep rg root A f s l T s' l' T' → (∀ k, A k → k ∈ P) → supply P l T → supply P l' T'.
Proof.
  intros Hv HA [Hin Hlen]. split.
  - intros k [|]%(vs_new _ _ _ _ _ _ _ _ _ _ Hv); auto.
  - by rewrite (vs_count _ _ _ _ _ _ _ _ _ _ Hv).
Qed.

Lemma supply_exhausted P T k : supply P [] T → k ∈ P → is_Some (T !! k).
Proof.
  intros [Hin Hlen] Hk. simpl in Hlen. destruct (T !! k) eqn:E; [done|exfalso].
  assert (k :: (map_to_list T).*1 ⊆+ P) as Hsub%submseteq_length.
  { apply NoDup_submseteq.
    - constructor; [|apply NoDup_fst_map_to_list].
      intros ([k' p] & -> & Hp%elem_of_map_to_list)%list_elem_of_fmap. simpl in E. congruence.
    - intros k' [->|([k'' p] & -> & Hp%elem_of_map_to_list)%list_elem_of_fmap]%elem_of_cons; [done|].
      apply Hin. by exists p. }
  simpl in Hsub. rewrite length_fmap, length_map_to_list in Hsub. lia.
Qed.

(** ** Steps that print or store *)

Lemma vok_set_dev rg s l root T d :
  vok rg s l root T → d ≡ mdev s ∨ (∃ m, d = said m (mdev s)) → vok rg (set_dev d s) l root T.
Proof.
  intros [Hk Hr [H1 H2 H3]] Hd.
  assert (dspin d ≡ spin_of s) as Hs.
  { destruct Hd as [[Hd _]|[m ->]]; [done|]. simpl. apply passed_equiv, Hr. }
  split; [by apply (kinv_ext rg s)| |by split]. unfold ready, spin_of. simpl. by rewrite Hs.
Qed.

Lemma vstep_said rg root A s l T m :
  vok rg s l root T → vstep rg root A keep s l T (set_dev (said m (mdev s)) s) l T.
Proof.
  intros Hok. split; try done; try by left.
  - apply vok_set_dev; [done|]. right. by exists m.
  - unfold same_hw. simpl. split_and!; try done; [|by apply prefix_app_r].
    destruct Hok as [_ [Hs _] _]. by apply passed_equiv.
Qed.

Lemma ready_dev s : ready s → dev_ready (mdev s).
Proof. by intros (? & _ & ?). Qed.

(** The same machine after some output. *)
Definition heard (k k' : machine) : Prop := ∃ l, k' = set_dev (said l (mdev k)) k.

Lemma heard_ready k k' : ready k → heard k k' → ready k'.
Proof. intros (? & ? & ?) [l ->]. split_and!; cbn; auto using passed_ok, passed_free. Qed.
(** Without the allocator's lock. *)
Lemma heard_dev k k' : dev_ready (mdev k) → heard k k' → dev_ready (mdev k').
Proof. intros Hr [l ->]. by apply said_ready. Qed.
Lemma heard_more k k' k'' : dev_ready (mdev k) → heard k k' → heard k' k'' → heard k k''.
Proof. intros [? _] [l ->] [l' ->]. exists (l ++ l'). cbn. by rewrite said_said. Qed.
Lemma wp_first_puts k l (Q : unit → machine → Prop) :
  dev_ready (mdev k) → (∀ k', heard k k' → Q tt k') → wp (uart_puts l) Q k.
Proof. intros Hr HQ. apply wp_puts; [done|]. apply HQ. by eexists. Qed.
Lemma wp_heard_puts k k' l (Q : unit → machine → Prop) :
  dev_ready (mdev k) → heard k k' → (∀ k'', heard k k'' → Q tt k'') → wp (uart_puts l) Q k'.
Proof.
  intros Hr Hh HQ. apply wp_puts; [by eapply heard_dev|]. apply HQ. eapply heard_more; [done|exact Hh|by eexists].
Qed.
Lemma wp_heard_dec k k' n (Q : unit → machine → Prop) :
  0 ≤ n < 2 ^ 64 → dev_ready (mdev k) → heard k k' → (∀ k'', heard k k'' → Q tt k'') → wp (uart_dec n) Q k'.
Proof.
  intros Hn Hr Hh HQ. apply wp_dec; [done|by eapply heard_dev|]. apply HQ. eapply heard_more; [done|exact Hh|by eexists].
Qed.

Lemma heard_spin k k' : spin_ok (spin_of k) → heard k k' → spin_of k' ≡ spin_of k.
Proof. intros Hok [l ->]. by apply passed_equiv. Qed.
Lemma heard_mem k k' : heard k k' → mem k' = mem k ∧ km k' = km k.
Proof. by intros [l ->]. Qed.
Lemma heard_said k l : heard k (set_dev (said l (dev_of k)) k).
Proof. by exists l. Qed.
Lemma heard_trans k k' k'' : ready k → heard k k' → heard k' k'' → heard k k''.
Proof. intros (? & _) [l ->] [l' ->]. exists (l ++ l'). cbn. by rewrite said_said. Qed.
#[export] Hint Resolve heard_said heard_ready : kernel.

Lemma wp_line rg s l root T A m (Q : unit → machine → Prop) :
  vok rg s l root T → (∀ s', vstep rg root A keep s l T s' l T → Q tt s') → wp (uart_line m) Q s.
Proof.
  intros Hok HQ. apply wp_puts; [apply ready_dev, Hok|]. apply HQ. by apply vstep_said.
Qed.

(** ** [mappages] *)

(** The entries of [n] pages from [a] on become the pages from [pa] on. *)
Definition upds (a n pa f : Z) (va old : Z) : Z :=
  let i := vpn va - a / PGSIZE in
  if decide (0 ≤ i < n) then mk_pte (pa + PGSIZE * i) f else old.

(** The flags of a mapping made with permission [perm]. *)
Definition perm_flags (perm : Z) : Z := Z.lor perm PTE_V.

Lemma perm_flags_word perm : flag_word perm → flag_word (perm_flags perm).
Proof. intros. apply (lor_bound _ _ 10); [lia|done|unfold PTE_V; lia]. Qed.

Lemma perm_flags_V perm : has (perm_flags perm) PTE_V = true.
Proof.
  unfold has, perm_flags. rewrite Z.land_comm, Z.land_lor_distr_r. bsimp.
  intros [_ E]%Z.lor_eq_0_iff. discriminate E.
Qed.

Section mappages.
Context (rg : Z * Z) (root perm : Z) (Hperm : flag_word perm).
Let f := perm_flags perm.

(** One page: mapped, or already mapped, or no page for a table. *)
Lemma wp_mappages_body s l T last a pa (Q : (Z * Z) + Z → machine → Prop) :
  vok rg s l root T → 0 ≤ a → pte_page pa →
  (∀ s' T', vstep rg root (walk_paths a) keep s l T s' [] T' →
     (T' !! [PX 2 a] = None ∨ T' !! vpath a = None) → Q (inr (-1)) s') →
  (∀ s' l' T', has (leaf (mem s) T a) PTE_V = true →
     vstep rg root (walk_paths a) keep s l T s' l' T' → Q (inr (-1)) s') →
  (∀ s' l' T', has (leaf (mem s) T a) PTE_V = false →
     vstep rg root (walk_paths a) (upd a (mk_pte pa f)) s l T s' l' T' →
     Q (if a =? last then inr 0 else inl (u64 (a + PGSIZE), u64 (pa + PGSIZE))) s') →
  wp (mappages_body root last perm (a, pa)) Q s.
Proof.
  intros Hok Ha Hpa Hoom Hremap Hdone. unfold mappages_body. wp_steps.
  eapply wp_walk; [done| |].
  { intros s' T' Hv Hmiss. simpl. wp_steps. by eapply Hoom. }
  intros p s1 l1 T1 Hp Hv. pose proof (vs_ok _ _ _ _ _ _ _ _ _ _ Hv) as Hok1.
  pose proof (PX_idx 0 a) as I0. pose proof (node_ram _ _ _ _ _ _ (vok_as _ _ _ _ _ Hok1) Hp) as Hram.
  pose proof (ram_page_pos _ Hram). destruct (Z.eqb_spec (p + 8 * PX 0 a) 0) as [E0|_]; [lia|].
  wp_steps. eapply wp_load_pte; [done..|]. wp_steps.
  assert (pte_at (mem s1) p (PX 0 a) = leaf (mem s) T a) as Hleaf.
  { pose proof (vs_leaf _ _ _ _ _ _ _ _ _ _ Hv a Ha) as E. unfold leaf at 1 in E. by rewrite Hp in E. }
  rewrite Hleaf. destruct (has (leaf (mem s) T a) PTE_V) eqn:HV.
  - wp_steps. eapply wp_line; [done|]. intros s2 Hv2. wp_steps. eapply Hremap; [done|].
    by eapply (vstep_trans _ _ _ keep keep).
  - wp_steps. apply wp_store64; [by apply slot_in_ram|].
    assert (Z.lor (Z.lor (PA2PTE pa) perm) PTE_V = mk_pte pa f) as ->.
    { rewrite lor_pa2pte, lor_mk_pte by done. done. }
    assert (0 ≤ mk_pte pa f < 2 ^ 64) by (apply mk_pte_bound; [done|by apply perm_flags_word]).
    rewrite (u64_small (mk_pte pa f)) by done.
    eapply (vstep_leaf _ _ (walk_paths a)) in Hp as Hv2; [|done..].
    assert (vstep rg root (walk_paths a) (upd a (mk_pte pa f)) s l T
      (with_leaf p a (mk_pte pa f) s1) l1 T1) as Hv3 by (by eapply (vstep_trans _ _ _ keep)).
    specialize (Hdone _ _ _ eq_refl Hv3). by destruct (a =? last); wp_steps.
Qed.

(** A range that is unmapped and for whose tables there are enough pages. *)
Lemma wp_mappages_loop P n fuel s l T a pa (Q : Z → machine → Prop) :
  vok rg s l root T → supply P l T → page_aligned a → 0 ≤ a → 0 < n →
  a + PGSIZE * n ≤ 2 ^ 38 → pte_page pa → pa + PGSIZE * n ≤ 2 ^ 56 → n ≤ Z.of_nat fuel →
  (∀ i, 0 ≤ i < n → has (leaf (mem s) T (a + PGSIZE * i)) PTE_V = false ∧
     ∀ k, walk_paths (a + PGSIZE * i) k → k ∈ P) →
  (∀ s' l' T', vstep rg root (.∈ P) (upds a n pa f) s l T s' l' T' → Q 0 s') →
  wp (loop fuel (mappages_body root (a + PGSIZE * (n - 1)) perm) (a, pa)) Q s.
Proof.
  revert n s l T a pa Q. induction fuel as [|fuel IH]; intros n s l T a pa Q Hok Hsup Hal Ha Hn Hbnd Hpa Hpab Hfuel Hrange HQ; [lia|].
  rewrite loop_S. wp_steps. destruct (Hrange 0 ltac:(lia)) as [Hun HA]. rewrite Z.mul_0_r, Z.add_0_r in Hun, HA.
  apply wp_mappages_body with (l := l) (T := T); [done|done|done| | |].
  - intros s' T' Hv Hmiss. exfalso.
    pose proof (supply_vstep _ _ _ _ _ _ _ _ _ _ _ Hv HA Hsup) as Hsup'.
    destruct (supply_exhausted _ _ [PX 2 a] Hsup') as [? ?]; [apply HA; by left|].
    destruct (supply_exhausted _ _ (vpath a) Hsup') as [? ?]; [apply HA; by right|].
    destruct Hmiss; congruence.
  - intros s' l' T' HV _. congruence.
  - intros s' l' T' _ Hv. apply (vstep_weaken _ _ _ (.∈ P) _ (upd a (mk_pte pa f))) in Hv; [|done|done].
    assert (a / PGSIZE * PGSIZE = a) as Hdiv by (unfold page_aligned, PGSIZE in *; Z.to_euclidean_division_equations; lia).
    assert (vpn a = a / PGSIZE) as Hvpn.
    { unfold vpn. apply Z.mod_small. unfold PGSIZE in *. Z.to_euclidean_division_equations. lia. }
    destruct (Z.eqb_spec a (a + PGSIZE * (n - 1))) as [E|E].
    + wp_steps. apply (HQ s' l' T'). eapply vstep_weaken; [exact Hv|done|]. intros va v Hva.
      unfold upd, upds. rewrite Hvpn. assert (n = 1) by (unfold PGSIZE in *; lia).
      destruct (decide _) as [Eq|]; destruct (decide _); try lia.
      rewrite Eq. f_equal. lia.
    + wp_steps. assert (0 < n - 1) by (unfold PGSIZE in *; lia).
      rewrite !u64_small by (unfold pte_page, PGSIZE in *; lia).
      replace (a + PGSIZE * (n - 1)) with (a + PGSIZE + PGSIZE * (n - 1 - 1)) by lia.
      apply (IH (n - 1) s' l' T').
      * apply (vs_ok _ _ _ _ _ _ _ _ _ _ Hv).
      * by eapply supply_vstep.
      * unfold page_aligned, PGSIZE in *. Z.to_euclidean_division_equations. lia.
      * unfold PGSIZE in *. lia.
      * done.
      * unfold PGSIZE in *. lia.
      * unfold pte_page, page_aligned, PGSIZE in *. Z.to_euclidean_division_equations. lia.
      * unfold PGSIZE in *. lia.
      * lia.
      * intros i Hi. destruct (Hrange (i + 1) ltac:(lia)) as [Hun' HA'].
        replace (a + PGSIZE + PGSIZE * i) with (a + PGSIZE * (i + 1)) by lia. split; [|done].
        rewrite (vs_leaf _ _ _ _ _ _ _ _ _ _ Hv) by (unfold PGSIZE in *; lia).
        unfold upd. rewrite decide_False; [done|]. rewrite Hvpn. unfold vpn.
        rewrite Z.mod_small by (unfold PGSIZE in *; Z.to_euclidean_division_equations; lia).
        unfold PGSIZE in *. Z.to_euclidean_division_equations. lia.
      * intros s2 l2 T2 Hv2. apply (HQ s2 l2 T2).
        eapply vstep_weaken; [eapply vstep_trans; [exact Hv|exact Hv2]|done|].
        intros va v Hva. unfold upd, upds. rewrite Hvpn.
        assert ((a + PGSIZE) / PGSIZE = a / PGSIZE + 1) as -> by
          (unfold PGSIZE; Z.to_euclidean_division_equations; lia).
        repeat destruct (decide _); try lia; f_equal; lia.
Qed.
End mappages.

Lemma mappages_unfold root va n pa perm :
  page_aligned va → 0 ≤ va → 0 < n → va + PGSIZE * n ≤ 2 ^ 38 →
  mappages root va (PGSIZE * n) pa perm =
  loop (Z.to_nat n + 2) (mappages_body root (va + PGSIZE * (n - 1)) perm) (va, pa).
Proof.
  intros Hal Hva Hn Hb. unfold mappages.
  rewrite (Z.mul_comm PGSIZE n), Z.div_mul by done.
  rewrite u64_small by (unfold PGSIZE in *; lia).
  rewrite !PGROUNDDOWN_spec by (unfold PGSIZE in *; lia).
  do 3 f_equal; unfold page_aligned, PGSIZE in *; Z.to_euclidean_division_equations; lia.
Qed.

(** Mapping an unmapped range with enough pages for its tables. *)
Lemma wp_mappages rg root P va n pa perm s l T (Q : Z → machine → Prop) :
  flag_word perm → vok rg s l root T → supply P l T → page_aligned va → 0 ≤ va → 0 < n →
  va + PGSIZE * n ≤ 2 ^ 38 → pte_page pa → pa + PGSIZE * n ≤ 2 ^ 56 →
  (∀ i, 0 ≤ i < n → has (leaf (mem s) T (va + PGSIZE * i)) PTE_V = false ∧
     ∀ k, walk_paths (va + PGSIZE * i) k → k ∈ P) →
  (∀ s' l' T', vstep rg root (.∈ P) (upds va n pa (perm_flags perm)) s l T s' l' T' → Q 0 s') →
  wp (mappages root va (PGSIZE * n) pa perm) Q s.
Proof.
  intros. rewrite mappages_unfold by done. eapply wp_mappages_loop; try done. lia.
Qed.

(** Mapping one page: the three outcomes. *)
Lemma wp_mappages_page rg root a pa perm s l T (Q : Z → machine → Prop) :
  flag_word perm → vok rg s l root T → page_aligned a → 0 ≤ a → a + PGSIZE ≤ 2 ^ 38 → pte_page pa →
  (∀ s' T', vstep rg root (walk_paths a) keep s l T s' [] T' → Q (-1) s') →
  (∀ s' l' T', has (leaf (mem s) T a) PTE_V = true →
     vstep rg root (walk_paths a) keep s l T s' l' T' → Q (-1) s') →
  (∀ s' l' T', has (leaf (mem s) T a) PTE_V = false →
     vstep rg root (walk_paths a) (upd a (mk_pte pa (perm_flags perm))) s l T s' l' T' → Q 0 s') →
  wp (mappages root a PGSIZE pa perm) Q s.
Proof.
  intros Hperm Hok Hal Ha Hb Hpa H1 H2 H3.
  replace PGSIZE with (PGSIZE * 1) at 1 by done. rewrite mappages_unfold by (unfold PGSIZE in *; done).
  replace (a + PGSIZE * (1 - 1)) with a by lia.
  change (Z.to_nat 1 + 2)%nat with 3%nat. rewrite loop_S. wp_steps.
  eapply wp_mappages_body; [done..| | |].
  - intros. wp_steps. eauto.
  - intros. wp_steps. eauto.
  - intros. rewrite Z.eqb_refl. wp_steps. eauto.
Qed.

(** ** The kernel map *)

Definition RW : Z := 7.   (* V | R | W *)
Definition RX : Z := 11.  (* V | R | X *)
Definition URX : Z := 27. (* V | R | X | U *)
Definition URW : Z := 23. (* V | R | W | U *)

(** The regions every address space maps identically: address, pages, flags. *)
Definition kernel_regions (etext : Z) : list (Z * Z * Z) := [
  (UART0, 1, RW); (0x10001000, 8, RW); (PLIC, 0x400, RW);
  (KERNBASE, (etext - KERNBASE) / PGSIZE, RX); (etext, (PHYSTOP - etext) / PGSIZE, RW)].

Definition region_upd (r : Z * Z * Z) (va old : Z) : Z := upds r.1.1 r.1.2 r.1.1 r.2 va old.

(** The kernel's entries over [old]. *)
Definition kernel_upd (etext : Z) (va old : Z) : Z :=
  fold_left (λ v r, region_upd r va v) (kernel_regions etext) old.

(** The paths of the tables for the kernel and for low user addresses. *)
Definition kernel_paths : list (list Z) :=
  [[]; [0]; [2]; [0; 0]; [0; 96]; [0; 97]; [0; 128]] ++ ((λ i, [2; Z.of_nat i]) <$> seq 1 63).

(** The end of the kernel text: page aligned (kernel.ld) and inside RAM. *)
Definition etext_ok (etext : Z) : Prop := page_aligned etext ∧ KERNBASE < etext < PHYSTOP.

Lemma vpn_small va : 0 ≤ va < 2 ^ 38 → vpn va = va / PGSIZE.
Proof. intros. unfold vpn. apply Z.mod_small. unfold PGSIZE. Z.to_euclidean_division_equations. lia. Qed.

Lemma low_paths va k :
  0 ≤ va < 2 ^ 30 → walk_paths va k → va / 2097152 ∈ [0; 96; 97; 128] → k ∈ kernel_paths.
Proof.
  intros Hva Hk H1. unfold walk_paths, vpath in Hk.
  assert (PX 2 va = 0) as E2.
  { rewrite PX_spec by lia. change (2 ^ PXSHIFT 2) with 1073741824.
    Z.to_euclidean_division_equations. lia. }
  assert (PX 1 va = va / 2097152) as E1.
  { rewrite PX_spec by lia. change (2 ^ PXSHIFT 1) with 2097152.
    Z.to_euclidean_division_equations. lia. }
  rewrite E2, E1 in Hk. unfold kernel_paths. apply elem_of_app. left.
  rewrite !elem_of_cons in H1. rewrite elem_of_nil in H1.
  destruct H1 as [E|[E|[E|[E|[]]]]]; rewrite E in Hk; destruct Hk as [->| ->]; set_solver.
Qed.

Lemma ram_paths va k : KERNBASE ≤ va < PHYSTOP → walk_paths va k → k ∈ kernel_paths.
Proof.
  unfold KERNBASE, PHYSTOP. intros Hva Hk. unfold walk_paths, vpath in Hk.
  assert (PX 2 va = 2) as E2.
  { rewrite PX_spec by lia. change (2 ^ PXSHIFT 2) with 1073741824.
    Z.to_euclidean_division_equations. lia. }
  assert (∃ i, (1 ≤ i < 64)%nat ∧ PX 1 va = Z.of_nat i) as (i & Hi & E1).
  { rewrite PX_spec by lia. change (2 ^ PXSHIFT 1) with 2097152.
    exists (Z.to_nat (va / 2097152 mod 512)). Z.to_euclidean_division_equations. lia. }
  rewrite E2, E1 in Hk. unfold kernel_paths. apply elem_of_app. destruct Hk as [->| ->].
  - left. set_solver.
  - right. apply list_elem_of_fmap. exists i. split; [done|]. apply elem_of_seq. lia.
Qed.

Lemma wp_kvmmap rg root P va n perm fl s l T (Q : unit → machine → Prop) :
  flag_word perm → perm_flags perm = fl → vok rg s l root T → supply P l T → page_aligned va → 0 ≤ va → 0 < n →
  va + PGSIZE * n ≤ 2 ^ 38 →
  (∀ i, 0 ≤ i < n → has (leaf (mem s) T (va + PGSIZE * i)) PTE_V = false ∧
     ∀ k, walk_paths (va + PGSIZE * i) k → k ∈ P) →
  (∀ s' l' T', vstep rg root (.∈ P) (region_upd (va, n, fl)) s l T s' l' T' → Q tt s') →
  wp (kvmmap root va va (PGSIZE * n) perm) Q s.
Proof.
  intros Hperm <- Hok Hsup Hal Hva Hn Hb Hrange HQ. unfold kvmmap. wp_steps.
  eapply wp_mappages; try done.
  - split; [done|]. unfold PGSIZE in *. lia.
  - unfold PGSIZE in *. lia.
Qed.

(** An address in none of the regions keeps its entry. *)
Definition outside (r : Z * Z * Z) (va : Z) : Prop :=
  vpn va < r.1.1 / PGSIZE ∨ r.1.1 / PGSIZE + r.1.2 ≤ vpn va.

Lemma region_upd_outside r va v : outside r va → region_upd r va v = v.
Proof. unfold outside, region_upd, upds. intros. rewrite decide_False; [done|lia]. Qed.

Lemma region_upd_inside r va v :
  0 ≤ vpn va - r.1.1 / PGSIZE < r.1.2 →
  region_upd r va v = mk_pte (r.1.1 + PGSIZE * (vpn va - r.1.1 / PGSIZE)) r.2.
Proof. unfold region_upd, upds. intros. by rewrite decide_True. Qed.


(** One more region after the steps [f] on a blank table. *)
Lemma wp_kvmmap_next rg root P f va n sz perm fl s0 l0 T0 s l T (Q : unit → machine → Prop) :
  supply P l0 T0 → (∀ a, 0 ≤ a → has (leaf (mem s0) T0 a) PTE_V = false) →
  vstep rg root (.∈ P) f s0 l0 T0 s l T →
  flag_word perm → perm_flags perm = fl → sz = PGSIZE * n → page_aligned va → 0 ≤ va → 0 < n →
  va + PGSIZE * n ≤ 2 ^ 38 →
  (∀ a, va ≤ a < va + PGSIZE * n → (∀ v, f a v = v) ∧ ∀ k, walk_paths a k → k ∈ P) →
  (∀ s' l' T', vstep rg root (.∈ P) (λ a v, region_upd (va, n, fl) a (f a v)) s0 l0 T0 s' l' T' → Q tt s') →
  wp (kvmmap root va va sz perm) Q s.
Proof.
  intros Hsup Hblank Hv Hperm Hfl -> Hal Hva Hn Hb Hnew HQ.
  apply (wp_kvmmap rg root P va n perm fl s l T); try done.
  - apply (vs_ok _ _ _ _ _ _ _ _ _ _ Hv).
  - by eapply supply_vstep.
  - intros i Hi. destruct (Hnew (va + PGSIZE * i)) as [Hf HA]; [unfold PGSIZE in *; lia|].
    split; [|done]. rewrite (vs_leaf _ _ _ _ _ _ _ _ _ _ Hv), Hf by (unfold PGSIZE in *; lia).
    apply Hblank. unfold PGSIZE in *; lia.
  - intros s' l' T' Hv'. apply (HQ s' l' T'). by eapply vstep_trans.
Qed.

(** The regions do not overlap: the page number decides. *)
Ltac region_solver :=
  unfold outside, PGSIZE, KERNBASE, PHYSTOP, UART0, PLIC, page_aligned in *; cbn [fst snd] in *;
  rewrite ?vpn_small by (Z.to_euclidean_division_equations; lia); unfold PGSIZE in *; Z.to_euclidean_division_equations; lia.

Lemma wp_map_kernel rg root etext s l T (Q : unit → machine → Prop) :
  etext_ok etext → vok rg s l root T → supply kernel_paths l T →
  (∀ a, 0 ≤ a → has (leaf (mem s) T a) PTE_V = false) →
  (∀ s' l' T', vstep rg root (.∈ kernel_paths) (kernel_upd etext) s l T s' l' T' → Q tt s') →
  wp (map_kernel etext root) Q s.
Proof.
  intros [Hal Het] Hok Hsup Hblank HQ. unfold map_kernel. wp_steps.
  eapply (wp_kvmmap_next rg root kernel_paths keep UART0 1); [done|done|by apply vstep_refl|done..| |].
  { intros a Ha. split; [done|]. intros k Hk. eapply low_paths; [|done|].
    - region_solver.
    - assert (a / 2097152 = 128) as -> by region_solver. set_solver. }
  intros s1 l1 T1 H1. wp_steps.
  eapply (wp_kvmmap_next rg root kernel_paths _ 0x10001000 8); [done|done|exact H1|done..| |].
  { intros a Ha. split; [intros v; rewrite region_upd_outside; [done|region_solver]|].
    intros k Hk. eapply low_paths; [|done|].
    - region_solver.
    - assert (a / 2097152 = 128) as -> by region_solver. set_solver. }
  intros s2 l2 T2 H2. wp_steps.
  eapply (wp_kvmmap_next rg root kernel_paths _ PLIC 0x400); [done|done|exact H2|done..| |].
  { intros a Ha. split; [intros v; rewrite !region_upd_outside; [done|region_solver|region_solver]|].
    intros k Hk. eapply low_paths; [|done|].
    - region_solver.
    - assert (a / 2097152 = 96 ∨ a / 2097152 = 97) as [-> | ->] by region_solver; set_solver. }
  intros s3 l3 T3 H3. wp_steps.
  eapply (wp_kvmmap_next rg root kernel_paths _ KERNBASE ((etext - KERNBASE) / PGSIZE)); [done|done|exact H3|done|done|..].
  1-5: region_solver.
  { intros a Ha. split; [intros v; rewrite !region_upd_outside; [done|region_solver..]|].
    intros k Hk. eapply ram_paths; [|done]. region_solver. }
  intros s4 l4 T4 H4. wp_steps.
  eapply (wp_kvmmap_next rg root kernel_paths _ etext ((PHYSTOP - etext) / PGSIZE)); [done|done|exact H4|done|done|..].
  1-5: region_solver.
  { intros a Ha. split; [intros v; rewrite !region_upd_outside; [done|region_solver..]|].
    intros k Hk. eapply ram_paths; [|done]. region_solver. }
  intros s5 l5 T5 H5. wp_steps. by apply (HQ s5 l5 T5).
Qed.

(** ** A new root *)

(** Page [p] of the free list, allocated and zeroed. *)
Definition fresh_table (p : Z) (s : machine) : machine :=
  with_mem (memset_loop (Z.to_nat PGSIZE) p 0 (mem s)) (after_alloc p (ld64 (mem s) p) s).

Section new_root.
Context (rg : Z * Z) (s : machine) (p : Z) (l : list Z).
Context (Hk : kinv rg s (p :: l)) (Hready : ready s).

Lemma fresh_managed : managed rg p ∧ rc s p = 0.
Proof. apply (kinv_free _ _ _ Hk). by left. Qed.

Lemma fresh_ld8 x : ¬ in_page p x → ld8 (mem (fresh_table p s)) x = ld8 (mem s) x.
Proof.
  unfold fresh_table, in_page. cbn [mem with_mem]. intros. apply ld8_memset_ne. unfold PGSIZE in *. lia.
Qed.

Lemma fresh_rc q : page_aligned q → rc (fresh_table p s) q = if decide (q = p) then 1 else rc s q.
Proof.
  intros Hq. unfold rc, fresh_table, after_alloc. simpl. destruct (decide (q = p)) as [->|Hne].
  - by rewrite rc_get_set_eq.
  - rewrite rc_get_set_ne; [done|]. intros ?. apply Hne, pidx_inj; [done| |done].
    by eapply managed_aligned, fresh_managed.
Qed.

Lemma fresh_kinv : kinv rg (fresh_table p s) l.
Proof.
  destruct fresh_managed as [Hm Hz].
  apply (kinv_ext rg (after_alloc p (ld64 (mem s) p) s)); [done| |by apply kinv_after_alloc].
  intros q Hq. symmetry. apply ld64_ext. intros x Hx. apply fresh_ld8.
  assert (managed rg q) as Hmq by (apply (kinv_free _ _ _ Hk); by right).
  eapply (in_page_ne q p); [by eapply managed_aligned..| |unfold in_page, PGSIZE; lia].
  intros ->. by pose proof (kinv_nodup _ _ _ Hk) as [? _]%NoDup_cons.
Qed.

Lemma new_root_vstep A :
  A [] → vstep rg p A keep s (p :: l) ∅ (fresh_table p s) l {[ [] := p ]}.
Proof.
  intros HA. destruct fresh_managed as [Hm Hz]. pose proof (managed_ram _ _ Hm) as Hram.
  assert (∀ q, node {[ [] := p ]} q → q = p) as Hnode by (by intros q [k [_ <-]%lookup_singleton_Some]).
  assert (node {[ [] := p ]} p) as Hp by (exists []; by rewrite lookup_singleton_eq).
  split.
  - split; [apply fresh_kinv|by eapply ready_spin|]. split.
    + by rewrite lookup_singleton_eq.
    + split.
      * intros k q [_ <-]%lookup_singleton_Some. done.
      * by intros k k' q [<- _]%lookup_singleton_Some [<- _]%lookup_singleton_Some.
      * intros k i q [? _]%lookup_singleton_Some. by destruct k.
      * intros k q i [<- <-]%lookup_singleton_Some _ Hi. rewrite lookup_singleton_ne by done.
        unfold fresh_table. cbn [mem with_mem].
        rewrite pte_at_zeroed, decide_True by (apply Hram || done). apply has_0.
    + intros q ->%Hnode. rewrite fresh_rc, decide_True by (apply Hram || done). done.
  - apply map_empty_subseteq.
  - intros k [q [<- _]%lookup_singleton_Some]. by right.
  - rewrite map_size_empty, map_size_singleton. simpl. lia.
  - intros va _. unfold keep, leaf, vpath. by rewrite lookup_empty, lookup_singleton_ne.
  - intros x Hx. by apply fresh_ld8, Hx.
  - intros q Hq Hn. rewrite fresh_rc by done. rewrite decide_False; [done|].
    intros ->. destruct (Hn Hp) as [k Hk']. by rewrite lookup_empty in Hk'.
  - intros q ->%Hnode. by right.
  - unfold same_hw. simpl. split_and!; try done. destruct Hready as [Hs _]. by apply passed_equiv.
Qed.
End new_root.

Lemma leaf_empty m va : leaf m ∅ va = 0.
Proof. unfold leaf. by rewrite lookup_empty. Qed.

(** An allocated root, zeroed, with the kernel mapped. *)
Lemma wp_new_space rg etext s p l (Q : unit → machine → Prop) :
  etext_ok etext → kinv rg s (p :: l) → ready s → (70 ≤ length (p :: l))%nat →
  (∀ s' l' T', vstep rg p (.∈ kernel_paths) (kernel_upd etext) s (p :: l) ∅ s' l' T' → Q tt s') →
  wp (memset p 0 PGSIZE) (λ _, wp (map_kernel etext p) Q) (after_alloc p (ld64 (mem s) p) s).
Proof.
  intros Het Hk Hready Hlen HQ. destruct (fresh_managed _ _ _ _ Hk) as [Hm _].
  pose proof (managed_ram _ _ Hm) as Hram.
  apply wp_memset; [apply ram_page_in_ram; [done|unfold PGSIZE; lia]|].
  change (with_mem _ _) with (fresh_table p s).
  assert (vstep rg p (.∈ kernel_paths) keep s (p :: l) ∅ (fresh_table p s) l {[ [] := p ]}) as Hv.
  { apply new_root_vstep; [done|done|by left]. }
  eapply (wp_map_kernel rg p etext _ l {[ [] := p ]}); [done|apply (vs_ok _ _ _ _ _ _ _ _ _ _ Hv)| | |].
  - eapply supply_vstep; [exact Hv|done|]. split; [intros k [? Hc]; by rewrite lookup_empty in Hc|].
    rewrite map_size_empty. change (length kernel_paths) with 70%nat. lia.
  - intros a Ha. rewrite (vs_leaf _ _ _ _ _ _ _ _ _ _ Hv) by done. unfold keep. rewrite leaf_empty. apply has_0.
  - intros s' l' T' Hv'. apply (HQ s' l' T'). by eapply (vstep_trans _ _ _ keep).
Qed.

(** ** What the hardware sees *)

(** The page of [va] in the 39-bit address space. *)
Definition vpage (va : Z) : Z := vpn va * PGSIZE.

(** The kernel's part of every address space: devices and RAM after the text
    read-write, the text read-execute, everything at its own address. *)
Definition kernel_entry (etext va : Z) : option Z :=
  let a := vpage va in
  if decide (UART0 ≤ a < UART0 + 0x9000 ∨ PLIC ≤ a < PLIC + 0x400000 ∨ etext ≤ a < PHYSTOP)
  then Some (mk_pte a RW)
  else if decide (KERNBASE ≤ a < etext) then Some (mk_pte a RX)
  else None.

(** A process has in addition its code page and its stack page. *)
Definition space_entry (etext ucode ustack va : Z) : option Z :=
  if decide (vpage va = USERVA) then Some (mk_pte ucode URX)
  else if decide (vpage va = USERSTACK) then Some (mk_pte ustack URW)
  else kernel_entry etext va.

Definition valid_entry (v : Z) : option Z := if has v PTE_V then Some v else None.

Lemma valid_mk_pte pa f : flag_word f → has f PTE_V = true → valid_entry (mk_pte pa f) = Some (mk_pte pa f).
Proof. intros Hf HV. unfold valid_entry. by rewrite has_mk_pte, HV. Qed.

Lemma vpn_nonneg va : 0 ≤ vpn va.
Proof. unfold vpn. by apply Z.mod_pos_bound. Qed.

Lemma region_upd_valid r va v :
  page_aligned r.1.1 → flag_word r.2 → has r.2 PTE_V = true →
  valid_entry (region_upd r va v) =
    if decide (r.1.1 ≤ vpage va < r.1.1 + PGSIZE * r.1.2) then Some (mk_pte (vpage va) r.2) else valid_entry v.
Proof.
  intros Hal Hf HV. unfold vpage. destruct (decide _) as [H|H].
  - rewrite region_upd_inside by (unfold page_aligned, PGSIZE in *; Z.to_euclidean_division_equations; lia).
    rewrite valid_mk_pte by done. do 2 f_equal. unfold page_aligned, PGSIZE in *.
    Z.to_euclidean_division_equations; lia.
  - rewrite region_upd_outside; [done|].
    unfold outside, page_aligned, PGSIZE in *. Z.to_euclidean_division_equations; lia.
Qed.

Lemma kernel_upd_entry etext va :
  etext_ok etext → valid_entry (kernel_upd etext va 0) = kernel_entry etext va.
Proof.
  intros [Hal Het]. unfold kernel_upd, kernel_regions, kernel_entry. cbn [fold_left].
  rewrite !region_upd_valid by done. cbn [fst snd]. change (valid_entry 0) with (@None Z).
  unfold page_aligned, KERNBASE, PHYSTOP, UART0, PLIC, PGSIZE in *.
  assert (4096 * ((2281701376 - etext) / 4096) = 2281701376 - etext) as -> by
    (Z.to_euclidean_division_equations; lia).
  assert (4096 * ((etext - 2149580800) / 4096) = etext - 2149580800) as -> by
    (Z.to_euclidean_division_equations; lia).
  repeat (destruct (decide _)); try done; lia.
Qed.

(** Reading a table off a step that started without one. *)
Lemma vstep_sv39 rg root A f s l s' l' T' va :
  vstep rg root A f s l ∅ s' l' T' → 0 ≤ va → sv39 (mem s') root va = valid_entry (f va 0).
Proof.
  intros Hv Hva. destruct (vs_ok _ _ _ _ _ _ _ _ _ _ Hv) as [_ _ [Hroot Hrep _]].
  rewrite (sv39_leaf _ _ _ _ Hrep Hroot), (vs_leaf _ _ _ _ _ _ _ _ _ _ Hv), leaf_empty by done. done.
Qed.

(** What building an address space costs and leaves alone: it took one free
    page per table, and no other byte of memory and no other count changed. *)
Definition built (rg : Z * Z) (s s' : machine) (root : Z) : Prop :=
  ready s' ∧ ∃ l l' T, kinv rg s l ∧ kinv rg s' l' ∧ aspace rg s' root T ∧
    (length l' + size T = length l)%nat ∧
    (∀ p, node T p → managed rg p ∧ rc s p = 0 ∧ rc s' p = 1) ∧
    (∀ x, (∀ p, node T p → ¬ in_page p x) → ld8 (mem s') x = ld8 (mem s) x) ∧
    (∀ q, page_aligned q → ¬ node T q → rc s' q = rc s q).

Lemma vstep_built rg root A f s l s' l' T :
  kinv rg s l → vstep rg root A f s l ∅ s' l' T → built rg s s' root.
Proof.
  intros Hk Hv. destruct (vs_ok _ _ _ _ _ _ _ _ _ _ Hv) as [Hk' Hr' Has].
  split; [done|]. exists l, l', T. split_and!; try done.
  - rewrite (vs_count _ _ _ _ _ _ _ _ _ _ Hv), map_size_empty. lia.
  - intros p Hp. destruct (as_live _ _ _ _ Has p Hp). split_and!; try done.
    destruct (vs_fresh _ _ _ _ _ _ _ _ _ _ Hv p Hp) as [[k Hn]|]; [by rewrite lookup_empty in Hn|done].
  - apply (vs_frame _ _ _ _ _ _ _ _ _ _ Hv).
  - intros q Hq Hn. by apply (vs_rc _ _ _ _ _ _ _ _ _ _ Hv).
Qed.

Lemma built_kpt rg s s' root p : built rg (with_kpt p s) s' root → built rg s s' root.
Proof.
  intros (Hr & l & l' & T & Hk & H). split; [done|]. exists l, l', T. split; [|exact H].
  by apply (kinv_ext rg (with_kpt p s)).
Qed.

Lemma wp_kvminit rg etext s l :
  etext_ok etext → kinv rg s l → ready s → (70 ≤ length l)%nat →
  wp (kvminit etext) (λ _ s', ∃ l' T', vstep rg (kernel_pagetable s') (.∈ kernel_paths)
    (kernel_upd etext) (with_kpt (kernel_pagetable s') s) l ∅ s' l' T') s.
Proof.
  intros Het Hk Hr Hlen.
  unfold kvminit. wp_steps. eapply wp_kalloc; [done|done| |]; [intros ->; simpl in Hlen; lia|].
  intros p l' ->. wp_steps.
  apply (wp_new_space rg etext (with_kpt p s) p l'); [done|by apply (kinv_ext rg s)|done|done|].
  intros s' l2 T' Hv. exists l2, T'.
  destruct (vs_hw _ _ _ _ _ _ _ _ _ _ Hv) as (_ & _ & E & _). simpl in E. by rewrite E.
Qed.

(** C29: the kernel's address space. With 70 free pages [kvminit] returns, and
    the hardware translation of the table it built is the identity on the
    devices, the kernel text (read and execute, never writable) and the rest of
    RAM (never executable), maps nothing else, and gives user mode no access;
    building it changed no byte outside the new tables and no count of a page
    that was in use. *)
Theorem kvminit_identity rg etext s l :
  etext_ok etext → kinv rg s l → ready s → (70 ≤ length l)%nat →
  ∃ s', kvminit etext s = Done tt s' ∧ built rg s s' (kernel_pagetable s') ∧
    (∀ va, 0 ≤ va → sv39 (mem s') (kernel_pagetable s') va = kernel_entry etext va) ∧
    (∀ va e, 0 ≤ va → sv39 (mem s') (kernel_pagetable s') va = Some e →
       PTE2PA e = vpage va ∧ has e PTE_U = false ∧ (has e PTE_W && has e PTE_X = false)).
Proof.
  intros Het Hk Hr Hlen.
  cut (wp (kvminit etext) (λ _ s', ∃ l' T', vstep rg (kernel_pagetable s') (.∈ kernel_paths)
    (kernel_upd etext) (with_kpt (kernel_pagetable s') s) l ∅ s' l' T') s).
  { intros ([] & s' & Hrun & l' & T' & Hv)%wp_run. exists s'. split; [done|].
    assert (∀ va, 0 ≤ va → sv39 (mem s') (kernel_pagetable s') va = kernel_entry etext va) as Hview.
    { intros va Hva. by rewrite (vstep_sv39 _ _ _ _ _ _ _ _ _ _ Hv), kernel_upd_entry. }
    split_and!; [|exact Hview|].
    - eapply built_kpt, vstep_built; [|exact Hv]. by apply (kinv_ext rg s).
    - intros va e Hva He. rewrite Hview in He by done. unfold kernel_entry in He.
      assert (pte_page (vpage va)) as Hp.
      { unfold pte_page, page_aligned, vpage, vpn, PGSIZE. Z.to_euclidean_division_equations. lia. }
      repeat destruct (decide _); simplify_eq; by rewrite pte2pa, !has_mk_pte. }
  by apply wp_kvminit.
Qed.

(** The entries of a new process's table. *)
Definition space_upd (etext ucode ustack va old : Z) : Z :=
  upd USERSTACK (mk_pte ustack URW) va (upd USERVA (mk_pte ucode URX) va (kernel_upd etext va old)).

Lemma upds_upd a pa f va v :
  page_aligned a → 0 ≤ a < 2 ^ 38 → 0 ≤ va → upds a 1 pa f va v = upd a (mk_pte pa f) va v.
Proof.
  intros Hal Ha Hva. unfold upds, upd. rewrite <- (vpn_small a) by done.
  destruct (decide (vpn va = vpn a)) as [E|E]; destruct (decide _); try lia.
  f_equal. lia.
Qed.

Lemma kernel_upd_low etext va old :
  etext_ok etext → 0 ≤ va < 0x0c000000 → kernel_upd etext va old = old.
Proof.
  intros [Hal Het] Hva. unfold kernel_upd, kernel_regions. cbn [fold_left].
  rewrite !region_upd_outside; [done|region_solver..].
Qed.

Lemma space_upd_entry etext ucode ustack va :
  etext_ok etext → pte_page ucode → pte_page ustack → 0 ≤ va →
  valid_entry (space_upd etext ucode ustack va 0) = space_entry etext ucode ustack va.
Proof.
  intros Het Hc Hs Hva. unfold space_upd, space_entry, upd, vpage.
  change (vpn USERSTACK) with 4. change (vpn USERVA) with 1. pose proof (vpn_nonneg va).
  change USERSTACK with (4 * PGSIZE). change USERVA with (1 * PGSIZE).
  destruct (decide (vpn va = 4)) as [E|E].
  - rewrite E, decide_False, decide_True by done. by apply valid_mk_pte.
  - rewrite (decide_False (P := vpn va * PGSIZE = 4 * PGSIZE)) by (unfold PGSIZE; lia).
    destruct (decide (vpn va = 1)) as [E1|E1].
    + rewrite decide_True by (by rewrite E1). by apply valid_mk_pte.
    + rewrite decide_False by (unfold PGSIZE; lia). by apply kernel_upd_entry.
Qed.

(** One user page on top of a table that has the kernel. *)
Lemma wp_map_user rg root f s0 l0 s l T va pa perm fl (Q : Z → machine → Prop) :
  supply kernel_paths l0 ∅ → vstep rg root (.∈ kernel_paths) f s0 l0 ∅ s l T →
  flag_word perm → perm_flags perm = fl → page_aligned va → 0 ≤ va < 2097152 - PGSIZE → pte_page pa →
  (∀ a, va ≤ a < va + PGSIZE → valid_entry (f a 0) = None) →
  (∀ s' l' T', vstep rg root (.∈ kernel_paths) (λ a v, upd va (mk_pte pa fl) a (f a v)) s0 l0 ∅ s' l' T' → Q 0 s') →
  wp (mappages root va PGSIZE pa perm) Q s.
Proof.
  intros Hsup Hv Hperm <- Hal Hva Hpa Hfree HQ.
  change PGSIZE with (PGSIZE * 1) at 1.
  apply (wp_mappages rg root kernel_paths va 1 pa perm s l T); try done.
  - apply (vs_ok _ _ _ _ _ _ _ _ _ _ Hv).
  - by eapply supply_vstep.
  - lia.
  - unfold PGSIZE in *. lia.
  - destruct Hpa as [Hpal ?]. unfold page_aligned, PGSIZE in *. Z.to_euclidean_division_equations. lia.
  - intros i Hi. assert (i = 0) as -> by lia. rewrite Z.mul_0_r, Z.add_0_r. split.
    + rewrite (vs_leaf _ _ _ _ _ _ _ _ _ _ Hv), leaf_empty by lia.
      specialize (Hfree va ltac:(unfold PGSIZE; lia)). unfold valid_entry in Hfree. by destruct (has _ _).
    + intros k Hk. apply (low_paths va); [unfold PGSIZE in *; lia|done|].
      assert (va / 2097152 = 0) as -> by (apply Z.div_small; unfold PGSIZE in *; lia). set_solver.
  - intros s' l' T' Hv'. apply (HQ s' l' T'). eapply vstep_weaken; [by eapply vstep_trans|done|].
    intros a v Ha. simpl. apply upds_upd; [done|unfold PGSIZE in *; lia|done].
Qed.

(** A new address space needs at most 70 tables. *)
Lemma vstep_size rg root f s l s' l' T :
  vstep rg root (.∈ kernel_paths) f s l ∅ s' l' T → (size T ≤ 70)%nat.
Proof.
  intros Hv. change 70%nat with (length kernel_paths). rewrite <- length_map_to_list, <- (length_fmap fst).
  apply submseteq_length, NoDup_submseteq; [apply NoDup_fst_map_to_list|].
  intros k ([k' p] & -> & Hp%elem_of_map_to_list)%list_elem_of_fmap. cbn.
  destruct (vs_new _ _ _ _ _ _ _ _ _ _ Hv k') as [[x Hx]|]; [by exists p|by rewrite lookup_empty in Hx|done].
Qed.

(** [proc_pagetable] with enough pages, as steps on a blank table. *)
Lemma wp_proc_pagetable rg etext ucode ustack s l (Q : Z → machine → Prop) :
  etext_ok etext → kinv rg s l → ready s → pte_page ucode → pte_page ustack → (70 ≤ length l)%nat →
  (∀ pt s' l' T', pt ≠ 0 → vstep rg pt (.∈ kernel_paths) (space_upd etext ucode ustack) s l ∅ s' l' T' → Q pt s') →
  wp (proc_pagetable etext ucode ustack) Q s.
Proof.
  intros Het Hk Hr Hc Hs Hlen HQ. unfold proc_pagetable. wp_steps. eapply wp_kalloc; [done|done| |].
  { intros ->. simpl in Hlen. lia. }
  intros pt l' ->. destruct (fresh_managed _ _ _ _ Hk) as [Hm _].
  pose proof (ram_page_pos _ (managed_ram _ _ Hm)). destruct (Z.eqb_spec pt 0); [lia|].
  assert (supply kernel_paths (pt :: l') ∅) as Hsup.
  { split; [intros k [? E]; by rewrite lookup_empty in E|]. rewrite map_size_empty. exact (Nat.le_trans _ _ _ Hlen (Nat.le_add_r _ 0)). }
  wp_steps. eapply wp_mono.
  { eapply (wp_new_space rg etext s pt l' (λ _ s1, ∃ l1 T1,
      vstep rg pt (.∈ kernel_paths) (kernel_upd etext) s (pt :: l') ∅ s1 l1 T1)); [done..|]. eauto. }
  intros [] s0 H0. apply wp_bind. eapply wp_mono; [exact H0|]. intros [] s1 (l1 & T1 & H1). wp_steps.
  eapply (wp_map_user rg pt); [done|exact H1|done..| |].
  { intros a Ha. by rewrite kernel_upd_low by (unfold USERVA, PGSIZE in Ha; done || lia). }
  intros s2 l2 T2 H2. wp_steps. eapply (wp_map_user rg pt); [done|exact H2|done..| |].
  { intros a Ha. unfold USERSTACK, PGSIZE in Ha. unfold upd. rewrite decide_False.
    - by rewrite kernel_upd_low by (done || lia).
    - rewrite vpn_small by lia. change (vpn USERVA) with 1. unfold PGSIZE. Z.to_euclidean_division_equations. lia. }
  intros s3 l3 T3 H3. wp_steps. by apply (HQ pt s3 l3 T3).
Qed.

Lemma space_view rg etext ucode ustack s l pt s' l' T' va :
  etext_ok etext → pte_page ucode → pte_page ustack → 0 ≤ va →
  vstep rg pt (.∈ kernel_paths) (space_upd etext ucode ustack) s l ∅ s' l' T' →
  sv39 (mem s') pt va = space_entry etext ucode ustack va.
Proof. intros Het Hc Hs Hva Hv. by rewrite (vstep_sv39 _ _ _ _ _ _ _ _ _ _ Hv), space_upd_entry. Qed.

(** C12: a new address space. [proc_pagetable] returns 0 when there is no free
    page and otherwise, with 70 free pages, a table in which the hardware sees
    the kernel at its own addresses without user access, the code page
    read-execute and the stack page read-write for user mode, and nothing else;
    no byte outside the new tables and no count of a page in use changed, so
    every other address space is as it was. *)
Theorem proc_pagetable_maps rg etext ucode ustack s l :
  etext_ok etext → kinv rg s l → ready s → pte_page ucode → pte_page ustack →
  l = [] ∨ (70 ≤ length l)%nat →
  ∃ pt s', proc_pagetable etext ucode ustack s = Done pt s' ∧
    (l = [] → pt = 0 ∧ mem s' = mem s ∧ km s' = km s ∧ ready s') ∧
    (l ≠ [] → pt ≠ 0 ∧ built rg s s' pt ∧
      (∀ va, 0 ≤ va → sv39 (mem s') pt va = space_entry etext ucode ustack va) ∧
      (∀ va e, 0 ≤ va → sv39 (mem s') pt va = Some e → has e PTE_U = true →
         vpage va = USERVA ∧ PTE2PA e = ucode ∧ has e PTE_W = false ∨
         vpage va = USERSTACK ∧ PTE2PA e = ustack ∧ has e PTE_X = false)).
Proof.
  intros Het Hk Hr Hc Hs [->|Hlen].
  - assert (wp (proc_pagetable etext ucode ustack) (λ pt s', pt = 0 ∧ mem s' = mem s ∧ km s' = km s ∧ ready s') s) as Hwp.
    { unfold proc_pagetable. wp_steps. eapply wp_kalloc; [done|done| |done]. intros _. wp_steps. split_and!; try done. by apply ready_passed. }
    apply wp_run in Hwp as (pt & s' & Hrun & H). by exists pt, s'.
  - assert (wp (proc_pagetable etext ucode ustack) (λ pt s', pt ≠ 0 ∧ ∃ l' T',
      vstep rg pt (.∈ kernel_paths) (space_upd etext ucode ustack) s l ∅ s' l' T') s) as Hwp.
    { eapply wp_proc_pagetable; [done..|]. eauto. }
    apply wp_run in Hwp as (pt & s' & Hrun & Hpt & l' & T' & Hv). exists pt, s'. split; [done|].
    split; [intros ->; simpl in Hlen; lia|]. intros _.
    assert (∀ va, 0 ≤ va → sv39 (mem s') pt va = space_entry etext ucode ustack va) as Hview by (intros; by eapply space_view).
    split_and!; [done|by eapply vstep_built|exact Hview|]. intros va e Hva He HU.
    rewrite Hview in He by done. unfold space_entry, kernel_entry in He.
    repeat destruct (decide _); simplify_eq; rewrite ?has_mk_pte in HU by done;
      try discriminate HU; [left|right]; by rewrite pte2pa, has_mk_pte.
Qed.

(** A machine whose allocator manages the last [n] pages of RAM, all free. *)
Lemma demo_pages n :
  (0 < n ≤ 1000)%nat → ∃ s l, kinv (PHYSTOP - PGSIZE * Z.of_nat n, PHYSTOP) s l ∧ ready s ∧ length l = n.
Proof.
  intros Hn. set (k := PHYSTOP - PGSIZE * Z.of_nat n).
  assert (RAMBASE ≤ k ≤ PHYSTOP) as Hk by (unfold k, RAMBASE, PHYSTOP, PGSIZE; lia).
  assert (PGROUNDUP k = k) as Hup.
  { rewrite PGROUNDUP_spec by (unfold RAMBASE, PHYSTOP, PGSIZE in *; lia).
    unfold k, PHYSTOP, PGSIZE. Z.to_euclidean_division_equations. lia. }
  destruct (wp_run _ _ _ (wp_kinit k demo_boot Hk ltac:(split; [exact (proj1 demo_dev_ready)|done])))
    as (u & s & _ & Hr & _ & l & Hkin & Hlen).
  rewrite Hup in Hkin, Hlen. exists s, l. split_and!; [done|done|].
  unfold k, PHYSTOP, PGSIZE in Hlen. Z.to_euclidean_division_equations. lia.
Qed.

Lemma kvminit_identity_witness :
  ∃ s s', kvminit 0x80210000 s = Done tt s' ∧
    sv39 (mem s') (kernel_pagetable s') 0x80200123 = Some (mk_pte 0x80200000 RX).
Proof.
  destruct (demo_pages 100 ltac:(lia)) as (s & l & Hk & Hr & Hl).
  destruct (kvminit_identity (PHYSTOP - PGSIZE * Z.of_nat 100, PHYSTOP) 0x80210000 s l) as (s' & H1 & _ & H2 & _);
    [split; [reflexivity|unfold KERNBASE, PHYSTOP; lia]|exact Hk|exact Hr|lia|].
  exists s, s'. split; [exact H1|]. rewrite H2 by lia. reflexivity.
Defined.

Lemma proc_pagetable_maps_witness :
  ∃ s pt s', proc_pagetable 0x80210000 0x80300000 0x80301000 s = Done pt s' ∧
    sv39 (mem s') pt 0x1004 = Some (mk_pte 0x80300000 URX) ∧ sv39 (mem s') pt 0x2000 = None.
Proof.
  destruct (demo_pages 100 ltac:(lia)) as (s & l & Hk & Hr & Hl).
  destruct (proc_pagetable_maps (PHYSTOP - PGSIZE * Z.of_nat 100, PHYSTOP) 0x80210000 0x80300000 0x80301000 s l) as (pt & s' & H1 & _ & H2);
    [split; [reflexivity|unfold KERNBASE, PHYSTOP; lia]|exact Hk|exact Hr|split; [reflexivity|lia]|split; [reflexivity|lia]|lia|].
  destruct H2 as (_ & _ & Hview & _); [intros ->; simpl in Hl; lia|].
  exists s, pt, s'. split; [exact H1|]. rewrite !Hview by lia. split; reflexivity.
Defined.

(** ** Mapping one page into a process *)

(** C30: [uvm_map]. Mapping a page returns 0 and the hardware then translates the
    address, and no other, as asked for; or it returns -1, because the address
    was mapped already or the pages for the tables ran out, and then every
    translation is unchanged. Either way no byte outside the tables and no count
    of a page in use changed. *)
Theorem uvm_map_maps rg root a pa perm s l T :
  flag_word perm → vok rg s l root T → page_aligned a → 0 ≤ a → a + PGSIZE ≤ 2 ^ 38 → pte_page pa →
  ∃ r s' l' T', uvm_map root a pa perm s = Done r s' ∧ vok rg s' l' root T' ∧ T ⊆ T' ∧
    (r = 0 ∧ sv39 (mem s) root a = None ∧
       (∀ va, 0 ≤ va → sv39 (mem s') root va =
          if decide (vpn va = vpn a) then Some (mk_pte pa (perm_flags perm)) else sv39 (mem s) root va) ∨
     r = -1 ∧ (is_Some (sv39 (mem s) root a) ∨ l' = []) ∧
       (∀ va, 0 ≤ va → sv39 (mem s') root va = sv39 (mem s) root va)) ∧
    (∀ p, node T' p → node T p ∨ managed rg p ∧ rc s p = 0) ∧
    (∀ x, (∀ p, node T' p → ¬ in_page p x) → ld8 (mem s') x = ld8 (mem s) x) ∧
    (∀ q, page_aligned q → ¬ node T' q → rc s' q = rc s q).
Proof.
  intros Hperm Hok Hal Ha Hb Hpa.
  cut (wp (uvm_map root a pa perm) (λ r s', ∃ s1 l' T' f,
    mem s' = mem s1 ∧ km s' = km s1 ∧ spin_of s' = spin_of s1 ∧ vstep rg root (walk_paths a) f s l T s1 l' T' ∧
    (r = 0 ∧ has (leaf (mem s) T a) PTE_V = false ∧ f = upd a (mk_pte pa (perm_flags perm)) ∨
     r = -1 ∧ f = keep ∧ (has (leaf (mem s) T a) PTE_V = true ∨ l' = []))) s).
  { intros (r & s' & Hrun & s1 & l' & T' & f & Em & Ek & Esp & Hv & Hr)%wp_run. exists r, s', l', T'.
    destruct (vs_ok _ _ _ _ _ _ _ _ _ _ Hv) as [Hk1 Hr1 [A1 A2 A3]]. pose proof Hok as [_ _ [B1 B2 B3]].
    assert (aspace rg s' root T') as Has'.
    { split; [done|by rewrite Em|]. intros p Hp. unfold rc. rewrite Ek. by apply A3. }
    assert (∀ va, 0 ≤ va → sv39 (mem s') root va = valid_entry (f va (leaf (mem s) T va))) as Hview'.
    { intros va Hva. rewrite Em, (sv39_leaf _ _ _ _ A2 A1), (vs_leaf _ _ _ _ _ _ _ _ _ _ Hv) by done. done. }
    assert (∀ va, sv39 (mem s) root va = valid_entry (leaf (mem s) T va)) as Hview by (intros; by apply sv39_leaf).
    split_and!; [done| |apply (vs_sub _ _ _ _ _ _ _ _ _ _ Hv)| | | |].
    - split; [by apply (kinv_ext rg s1); try rewrite Em|by unfold ready; rewrite Esp|done].
    - destruct Hr as [(-> & HV & ->)|(-> & -> & Hwhy)]; [left|right]; (split; [done|]).
      + split; [rewrite Hview; unfold valid_entry; by rewrite HV|]. intros va Hva. rewrite Hview', Hview by done.
        unfold upd. destruct (decide (vpn va = vpn a)); [|done].
        apply valid_mk_pte; [by apply perm_flags_word|apply perm_flags_V].
      + split; [|intros va Hva; by rewrite Hview', Hview].
        destruct Hwhy as [HV|]; [left|by right]. rewrite Hview. unfold valid_entry. by rewrite HV.
    - intros p Hp. destruct (vs_fresh _ _ _ _ _ _ _ _ _ _ Hv p Hp); [by left|right]. split; [by apply A3|done].
    - intros x Hx. rewrite Em. by apply (vs_frame _ _ _ _ _ _ _ _ _ _ Hv).
    - intros q Hq Hn. unfold rc at 1. rewrite Ek. by apply (vs_rc _ _ _ _ _ _ _ _ _ _ Hv). }
  unfold uvm_map. wp_steps.
  eapply wp_mappages_page; [done..| | |].
  - intros s' T' Hv. wp_steps. exists s', [], T', keep. split_and!; try done. right. auto.
  - intros s' l' T' HV Hv. wp_steps. exists s', l', T', keep. split_and!; try done. right. auto.
  - intros s' l' T' HV Hv. unfold sfence_vma. wp_steps. eexists s', l', T', _. split_and!; try done. by left.
Qed.

(** ** A small address space *)

(** One user page, mapped read-write at [HEAPBASE]. *)
Lemma demo_space :
  ∃ rg s l root T q, vok rg s l root T ∧ live rg s q ∧ rc s q = 1 ∧ ¬ node T q ∧
    (∀ va, 0 ≤ va → leaf (mem s) T va = upd HEAPBASE (mk_pte q URW) va 0) ∧ (70 ≤ length l)%nat.
Proof.
  destruct (demo_pages 100 ltac:(lia)) as (s & l & Hk & Hr & Hl).
  destruct l as [|q [|p l]]; [simpl in Hl; lia..|]. simpl length in Hl.
  set (rg := (PHYSTOP - PGSIZE * Z.of_nat 100, PHYSTOP)) in *.
  pose proof (fresh_managed _ _ _ _ Hk) as [Hmq Hzq]. pose proof (managed_aligned _ _ Hmq) as Halq.
  set (s1 := after_alloc q (ld64 (mem s) q) s).
  pose proof (kinv_after_alloc _ _ _ _ Hk : kinv rg s1 (p :: l)) as Hk1.
  assert (ready s1) as Hr1 by (by eapply ready_spin).
  assert (rc s1 q = 1) as Hq1 by (unfold rc, s1, after_alloc; simpl; by rewrite rc_get_set_eq).
  pose proof (new_root_vstep rg s1 p l Hk1 Hr1 (λ k, k ∈ [[]; [0]; [0; 0]]) (list_elem_of_here _ _)) as H1.
  assert (supply [[]; [0]; [0; 0]] (p :: l) ∅) as Hsup.
  { split; [intros k [? E]; by rewrite lookup_empty in E|]. rewrite map_size_empty. simpl. lia. }
  assert (pte_page q) as Hpq by (by eapply ram_pte_page, managed_ram).
  destruct (wp_run (mappages p HEAPBASE (PGSIZE * 1) q 22) (λ _ s', ∃ l' T', vstep rg p (.∈ [[]; [0]; [0; 0]])
    (upds HEAPBASE 1 q URW) (fresh_table p s1) l {[ [] := p ]} s' l' T') (fresh_table p s1)) as (r & s' & _ & l' & T' & Hv).
  { eapply (wp_mappages rg p [[]; [0]; [0; 0]] HEAPBASE 1 q 22 _ l {[ [] := p ]}); try done.
    - apply (vs_ok _ _ _ _ _ _ _ _ _ _ H1).
    - by eapply supply_vstep.
    - apply managed_ram in Hmq. unfold ram_page, PHYSTOP, PGSIZE in *. lia.
    - intros i Hi. assert (i = 0) as -> by lia. split.
      + rewrite (vs_leaf _ _ _ _ _ _ _ _ _ _ H1) by (unfold HEAPBASE, PGSIZE; lia). by rewrite leaf_empty.
      + intros k [->| ->]; unfold vpath; set_solver.
    - intros s' l' T' Hv. by exists l', T'. }
  pose proof (vstep_trans _ _ _ _ _ _ _ _ _ _ _ _ _ _ H1 Hv) as H2.
  assert (¬ node T' q) as Hn.
  { intros [[? E]|E]%(vs_fresh _ _ _ _ _ _ _ _ _ _ H2); [by rewrite lookup_empty in E|lia]. }
  assert (rc s' q = 1) as Hq' by (by rewrite (vs_rc _ _ _ _ _ _ _ _ _ _ H2)).
  exists rg, s', l', p, T', q. split_and!; try done.
  - apply (vs_ok _ _ _ _ _ _ _ _ _ _ H2).
  - split; [done|lia].
  - intros va Hva. rewrite (vs_leaf _ _ _ _ _ _ _ _ _ _ H2), leaf_empty by done. unfold keep.
    by rewrite upds_upd.
  - assert (size T' ≤ 3)%nat.
    { rewrite <- length_map_to_list, <- (length_fmap fst). change 3%nat with (length [[]; [0]; [0; 0]]).
      apply submseteq_length, NoDup_submseteq; [apply NoDup_fst_map_to_list|].
      intros k ([k' r'] & -> & E%elem_of_map_to_list)%list_elem_of_fmap.
      destruct (vs_new _ _ _ _ _ _ _ _ _ _ H2 k') as [[? E']|]; [by exists r'|by rewrite lookup_empty in E'|done]. }
    pose proof (vs_count _ _ _ _ _ _ _ _ _ _ H2) as Hc. rewrite map_size_empty in Hc. simpl in Hc. lia.
Qed.

Lemma uvm_map_maps_witness :
  ∃ s root r s', uvm_map root 0x20000 0x80300000 22 s = Done r s' ∧
    (r = 0 → sv39 (mem s') root 0x20008 = Some (mk_pte 0x80300000 URW)).
Proof.
  destruct demo_space as (rg & s & l & root & T & q & Hok & _).
  destruct (uvm_map_maps rg root 0x20000 0x80300000 22 s l T) as (r & s' & l' & T' & H1 & _ & _ & H2 & _);
    [split; lia|exact Hok|reflexivity|lia|unfold PGSIZE; lia|split; [reflexivity|lia]|].
  exists s, root, r, s'. split; [exact H1|]. intros ->. destruct H2 as [(_ & _ & H2)|(H2 & _)]; [|discriminate H2].
  rewrite H2 by lia. reflexivity.
Defined.
