(* ===== verification/Took.v ===== *)
(** * Operations that only allocate

    [took] says what such an operation does to the machine: pages leave the free
    list, bytes outside of them and the counts of the others stay. *)
From S2P Require Import Prelude Spinlock Uart Mem Kalloc Vm PageTable AddrSpace.

Lemma free_page rg k l p : kinv rg k l → p ∈ l → ram_page p ∧ page_aligned p ∧ pte_page p.
Proof.
  intros Hk Hp. apply (kinv_free _ _ _ Hk) in Hp as [Hp _]. pose proof (managed_ram _ _ Hp) as Hr.
  split_and!; [done|by eapply managed_aligned|by apply ram_pte_page].
Qed.

(** From the free pages [l], [l'] are left. *)
Record took (rg : Z * Z) (l l' : list Z) (k k' : machine) : Prop := {
  tk_inv : kinv rg k' l';
  tk_ready : ready k';
  tk_sub p : p ∈ l' → p ∈ l;
  tk_mem x : (∀ p, p ∈ l → ¬ in_page p x) → ld8 (mem k') x = ld8 (mem k) x;
  tk_rc q : page_aligned q → q ∉ l → rc k' q = rc k q;
  tk_hw : same_hw k k';
}.

Section took.
Context (rg : Z * Z) (l : list Z) (k : machine).

Lemma took_refl : kinv rg k l → ready k → took rg l l k k.
Proof. intros. by split. Qed.

Lemma took_alloc p l' k' : took rg l (p :: l') k k' → took rg l l' k (after_alloc p (ld64 (mem k') p) k').
Proof.
  intros [Hk Hr Hs Hm Hc Hw]. destruct (fresh_managed _ _ _ _ Hk) as [Hp _]. split; try done.
  - by apply kinv_after_alloc.
  - by eapply ready_spin.
  - intros q Hq. apply Hs. by right.
  - intros q Hq Hnl. rewrite <- Hc by done. unfold rc, after_alloc. simpl. rewrite rc_get_set_ne; [done|].
    intros E. apply pidx_inj in E; [|done|by eapply managed_aligned]. subst. apply Hnl, Hs. by left.
  - etrans; [exact Hw|]. unfold same_hw, after_alloc. simpl. split_and!; try done. by apply passed_equiv, Hr.
Qed.

(** A page taken is written. *)
Lemma took_write p m l' k' : took rg l l' k k' → p ∈ l → p ∉ l' → page_aligned p →
  (∀ x, ¬ in_page p x → ld8 m x = ld8 (mem k') x) → took rg l l' k (with_mem m k').
Proof.
  intros [Hk Hr Hs Hm Hc Hw] Hp Hnp Hal Hx. split; try done.
  - apply (kinv_ext rg k'); [done| |done]. intros q Hq. apply ld64_ext. intros x Hxq. symmetry. apply Hx.
    assert (managed rg q) as Hmq by (by apply (kinv_free _ _ _ Hk)).
    eapply (in_page_ne q p); [by eapply managed_aligned|done|by intros ->|unfold in_page, PGSIZE; lia].
  - intros x Hout. rewrite Hx by (by apply Hout). by apply Hm.
Qed.

Lemma took_heard l' k' k'' : took rg l l' k k' → heard k' k'' → took rg l l' k k''.
Proof.
  intros [Hk Hr Hs Hm Hc Hw] Hh. destruct (heard_mem _ _ Hh) as [Em Ek]. split; try done.
  - apply (kinv_ext rg k'); [done|by rewrite Em|done].
  - by eapply heard_ready.
  - intros x. rewrite Em. apply Hm.
  - intros q. unfold rc. rewrite Ek. apply Hc.
  - etrans; [exact Hw|]. destruct Hh as [out ->]. unfold same_hw. cbn. split_and!; try done; [by apply passed_equiv, Hr|by apply prefix_app_r].
Qed.

(** A new page table: its tables are pages taken. *)
Lemma took_vstep root A f l1 k1 l2 k2 T : took rg l l1 k k1 → vstep rg root A f k1 l1 ∅ k2 l2 T →
  took rg l l2 k k2 ∧ (∀ p, node T p → p ∈ l1 ∧ p ∉ l2) ∧ (length l2 + size T = length l1)%nat ∧ (∀ p, p ∈ l2 → p ∈ l1).
Proof.
  intros [Hk Hr Hs Hm Hc Hw] Hv. destruct (vs_ok _ _ _ _ _ _ _ _ _ _ Hv) as [Hk2 Hr2 Has].
  assert (∀ p, node T p → p ∈ l1) as Hin.
  { intros p Hp. apply (kinv_free _ _ _ Hk). split; [apply (as_live _ _ _ _ Has p Hp)|].
    by destruct (vs_fresh _ _ _ _ _ _ _ _ _ _ Hv p Hp) as [[x Hx]|]. }
  assert (∀ p, node T p → p ∉ l2) as Hout.
  { intros p Hp [_ Hz]%(kinv_free _ _ _ Hk2). pose proof (as_live _ _ _ _ Has p Hp). lia. }
  assert (∀ p, p ∈ l2 → p ∈ l1) as Hsub.
  { intros p Hp. pose proof Hp as [Hmp Hz]%(kinv_free _ _ _ Hk2). apply (kinv_free _ _ _ Hk). split; [done|].
    rewrite <- Hz. symmetry. apply (vs_rc _ _ _ _ _ _ _ _ _ _ Hv); [by eapply managed_aligned|]. by intros ?%Hout. }
  split; [|split_and!; auto].
  - split; auto.
    + intros x Hx. rewrite (vs_frame _ _ _ _ _ _ _ _ _ _ Hv) by auto. by apply Hm.
    + intros q Hq Hnl. rewrite (vs_rc _ _ _ _ _ _ _ _ _ _ Hv); [by apply Hc|done|]. intros Hn. destruct Hnl. auto.
    + etrans; [exact Hw|apply (vs_hw _ _ _ _ _ _ _ _ _ _ Hv)].
  - rewrite (vs_count _ _ _ _ _ _ _ _ _ _ Hv), map_size_empty. lia.
Qed.

Lemma took_page p l' k' : took rg l (p :: l') k k' → ram_page p ∧ page_aligned p ∧ p ∈ l ∧ p ∉ l'.
Proof.
  intros [Hk Hr Hs Hm Hc Hw]. destruct (fresh_managed _ _ _ _ Hk) as [Hp _].
  split_and!; [by eapply managed_ram|by eapply managed_aligned|apply Hs; by left|]. by pose proof (kinv_nodup _ _ _ Hk) as [? _]%NoDup_cons.
Qed.
End took.

(** Allocating on the way. *)
Lemma wp_kalloc_took rg l l' k k' (Q : Z → machine → Prop) :
  took rg l l' k k' → l' ≠ [] →
  (∀ p l'', l' = p :: l'' → took rg l l'' k (after_alloc p (ld64 (mem k') p) k') → Q p (after_alloc p (ld64 (mem k') p) k')) →
  wp kalloc Q k'.
Proof.
  intros Ht Hne HQ. pose proof Ht as [Hk Hr _ _ _ _]. eapply wp_kalloc; [done|done|done|].
  intros p l'' ->. apply (HQ _ l''); [done|by apply took_alloc].
Qed.
