(* ===== verification/Uvm.v ===== *)
(** * User pages: unmapping, copy-on-write sharing, and isolation

    Steps ([ustep]) that, besides a table, change the counts of user pages and
    the contents of some of them; what such a step leaves of other address
    spaces; the functional behaviour of [uvm_map], [remap_user_code],
    [vm_free_range], [uvm_cow_share] and [uvm_cow_fault]. *)
From S2P Require Import Prelude Spinlock Uart Mem Kalloc Vm PageTable AddrSpace.

(** ** Steps on a table and its user pages *)

(** The entry of every address changed by [f], the count of every page outside
    the tables by [d], and memory only in the tables and in the pages [W]. *)
Record ustep (rg : Z * Z) (root : Z) (W : Z → Prop) (d : Z → Z) (f : Z → Z → Z)
    (s : machine) (l : list Z) (T : gmap (list Z) Z)
    (s' : machine) (l' : list Z) (T' : gmap (list Z) Z) : Prop := {
  us_ok : vok rg s' l' root T';
  us_sub : T ⊆ T';
  us_fresh p : node T' p → node T p ∨ rc s p = 0 ∨ W p;
  us_zero q : managed rg q → ¬ node T' q → rc s' q = 0 → rc s q = 0 ∨ W q;
  us_leaf va : 0 ≤ va → leaf (mem s') T' va = f va (leaf (mem s) T va);
  us_rc q : page_aligned q → ¬ node T' q → rc s' q = rc s q + d q;
  us_frame x : (∀ p, node T' p ∨ W p → ¬ in_page p x) → ld8 (mem s') x = ld8 (mem s) x;
  us_hw : same_hw s s';
}.

Lemma vstep_ustep rg root A f s l T s' l' T' :
  vstep rg root A f s l T s' l' T' → ustep rg root (λ _, False) (λ _, 0) f s l T s' l' T'.
Proof.
  intros Hv. split; try by destruct Hv.
  - intros p [|]%(vs_fresh _ _ _ _ _ _ _ _ _ _ Hv); auto.
  - intros q Hq%managed_aligned Hn. rewrite (vs_rc _ _ _ _ _ _ _ _ _ _ Hv) by done. by left.
  - intros q Hq Hn. rewrite (vs_rc _ _ _ _ _ _ _ _ _ _ Hv) by done. lia.
  - intros x Hx. apply (vs_frame _ _ _ _ _ _ _ _ _ _ Hv). intros p Hp. apply Hx. by left.
Qed.

Lemma ustep_refl rg root s l T :
  vok rg s l root T → ustep rg root (λ _, False) (λ _, 0) keep s l T s l T.
Proof. intros Hok. by apply (vstep_ustep _ _ (λ _, False)), vstep_refl. Qed.

Lemma ustep_weaken rg root (W W' : Z → Prop) d d' f f' s l T s' l' T' :
  ustep rg root W d f s l T s' l' T' → (∀ p, W p → W' p) → (∀ q, d q = d' q) →
  (∀ va, 0 ≤ va → f va (leaf (mem s) T va) = f' va (leaf (mem s) T va)) →
  ustep rg root W' d' f' s l T s' l' T'.
Proof.
  intros [] HW Hd Hf. split; try done.
  - intros p [|[|]]%us_fresh0; auto.
  - intros q Hq Hn [|]%us_zero0; auto.
  - intros va Hva. by rewrite us_leaf0, Hf.
  - intros q Hq Hn. rewrite us_rc0 by done. by rewrite Hd.
  - intros x Hx. apply us_frame0. intros p [Hp|Hp]; apply Hx; auto.
Qed.

Lemma ustep_trans rg root W1 W2 d1 d2 f1 f2 s l T s1 l1 T1 s2 l2 T2 :
  ustep rg root W1 d1 f1 s l T s1 l1 T1 → ustep rg root W2 d2 f2 s1 l1 T1 s2 l2 T2 →
  ustep rg root (λ p, W1 p ∨ W2 p) (λ q, d1 q + d2 q) (λ va v, f2 va (f1 va v)) s l T s2 l2 T2.
Proof.
  intros H1 H2. pose proof (us_sub _ _ _ _ _ _ _ _ _ _ _ H2) as S2.
  destruct (us_ok _ _ _ _ _ _ _ _ _ _ _ H1) as [_ _ Has1].
  destruct (us_ok _ _ _ _ _ _ _ _ _ _ _ H2) as [_ _ Has2].
  assert (∀ q, managed rg q → rc s1 q = 0 → rc s q = 0 ∨ W1 q) as Hzero.
  { intros q Hm Hz. apply (us_zero _ _ _ _ _ _ _ _ _ _ _ H1); [done| |done].
    intros [_ ?]%(as_live _ _ _ _ Has1). lia. }
  split.
  - apply (us_ok _ _ _ _ _ _ _ _ _ _ _ H2).
  - etrans; [apply (us_sub _ _ _ _ _ _ _ _ _ _ _ H1)|done].
  - intros p Hp. destruct (as_live _ _ _ _ Has2 p Hp) as [Hm _].
    destruct (us_fresh _ _ _ _ _ _ _ _ _ _ _ H2 p Hp) as [Hp1|[Hz|]]; [| |auto].
    + destruct (us_fresh _ _ _ _ _ _ _ _ _ _ _ H1 p Hp1) as [|[|]]; auto.
    + destruct (Hzero p Hm Hz); auto.
  - intros q Hm Hn [Hz|]%(us_zero _ _ _ _ _ _ _ _ _ _ _ H2); [|auto|done|done].
    destruct (Hzero q Hm Hz); auto.
  - intros va Hva. by rewrite (us_leaf _ _ _ _ _ _ _ _ _ _ _ H2), (us_leaf _ _ _ _ _ _ _ _ _ _ _ H1).
  - intros q Hq Hn. rewrite (us_rc _ _ _ _ _ _ _ _ _ _ _ H2), (us_rc _ _ _ _ _ _ _ _ _ _ _ H1);
      [lia|done| |done|done]. intros ?. apply Hn. by eapply node_sub.
  - intros x Hx. rewrite (us_frame _ _ _ _ _ _ _ _ _ _ _ H2); [apply (us_frame _ _ _ _ _ _ _ _ _ _ _ H1)|].
    + intros p [Hp|Hp]; apply Hx; [left; by eapply node_sub|auto].
    + intros p [Hp|Hp]; apply Hx; auto.
  - etrans; [apply (us_hw _ _ _ _ _ _ _ _ _ _ _ H1)|apply (us_hw _ _ _ _ _ _ _ _ _ _ _ H2)].
Qed.

(** ** Isolation: what a step on one table leaves of another *)

(** The tables of two address spaces share no page. *)
Definition apart (T1 T2 : gmap (list Z) Z) : Prop := ∀ p, node T1 p → ¬ node T2 p.

Section other.
Context (rg : Z * Z) (root : Z) (W : Z → Prop) (d : Z → Z) (f : Z → Z → Z).
Context (s : machine) (l : list Z) (T : gmap (list Z) Z) (s' : machine) (l' : list Z) (T' : gmap (list Z) Z).
Context (Hstep : ustep rg root W d f s l T s' l' T').
Context (root2 : Z) (T2 : gmap (list Z) Z) (Has2 : aspace rg s root2 T2) (Hap : apart T2 T).
Context (HW : ∀ p, node T2 p → ¬ W p ∧ d p = 0).

Lemma other_apart : apart T2 T'.
Proof.
  intros p Hp Hp'. destruct (as_live _ _ _ _ Has2 p Hp) as [_ Hrc].
  destruct (us_fresh _ _ _ _ _ _ _ _ _ _ _ Hstep p Hp') as [Hn|[|HWp]]; [by apply (Hap p)|lia|].
  by apply (HW p).
Qed.

Hypothesis HW_page : ∀ p, W p → page_aligned p.

Lemma other_mem p x : node T2 p → in_page p x → ld8 (mem s) x = ld8 (mem s') x.
Proof.
  intros Hp Hx. symmetry. apply (us_frame _ _ _ _ _ _ _ _ _ _ _ Hstep).
  pose proof (as_live _ _ _ _ Has2 p Hp) as [Hm _].
  destruct (us_ok _ _ _ _ _ _ _ _ _ _ _ Hstep) as [_ _ Has'].
  intros q [Hq|Hq]; (eapply in_page_ne; [by eapply managed_aligned| | |exact Hx]).
  - eapply managed_aligned, (as_live _ _ _ _ Has' q Hq).
  - intros ->. by apply (other_apart q).
  - by apply HW_page.
  - intros ->. by apply (HW q).
Qed.

Lemma other_aspace : aspace rg s' root2 T2.
Proof.
  pose proof Has2 as [H1 H2 H3]. split; [done| |].
  - eapply pt_rep_ext; [apply other_mem|done].
  - intros p Hp. destruct (H3 p Hp) as [Hm Hrc]. split; [done|].
    rewrite (us_rc _ _ _ _ _ _ _ _ _ _ _ Hstep); [destruct (HW p Hp); lia|by eapply managed_aligned|].
    by apply other_apart.
Qed.

Lemma other_leaf va : leaf (mem s') T2 va = leaf (mem s) T2 va.
Proof. symmetry. eapply leaf_ext, other_mem. Qed.
End other.

(** ** Reference counts of user pages *)

Definition only (p c q : Z) : Z := if decide (q = p) then c else 0.

Lemma user_frame rg s s' l root T p :
  aspace rg s root T → managed rg p → ¬ node T p →
  (∀ x, ¬ in_page p x → ld8 (mem s') x = ld8 (mem s) x) →
  (∀ q, node T q → rc s' q = rc s q) → kinv rg s' l → ready s' →
  vok rg s' l root T ∧ ∀ va, leaf (mem s') T va = leaf (mem s) T va.
Proof.
  intros Has Hm Hn Hmem Hrc Hk Hr.
  assert (∀ q x, node T q → in_page q x → ld8 (mem s) x = ld8 (mem s') x) as Hext.
  { intros q x Hq Hx. symmetry. apply Hmem. destruct (as_live _ _ _ _ Has q Hq) as [Hmq _].
    eapply (in_page_ne q p); [by eapply managed_aligned..| |done]. by intros ->. }
  split.
  - pose proof Has as [H1 H2 H3]. split; [done|done|]. split; [done|by eapply pt_rep_ext|].
    intros q Hq. rewrite Hrc by done. by apply H3.
  - intros va. symmetry. by apply leaf_ext.
Qed.

Section counts.
Context (rg : Z * Z) (s : machine) (l : list Z) (root : Z) (T : gmap (list Z) Z) (p : Z).
Context (Hok : vok rg s l root T) (Hlive : live rg s p) (Hn : ¬ node T p).

Lemma ustep_count c :
  0 < c < 256 → ustep rg root (λ _, False) (only p (c - rc s p)) keep s l T (after_count p c s) l T.
Proof.
  intros Hc. pose proof Hok as [Hk Hr Has]. pose proof Hlive as [Hm _].
  pose proof (managed_aligned _ _ Hm) as Hal.
  assert (∀ q, page_aligned q → rc (after_count p c s) q = rc s q + only p (c - rc s p) q) as Hrc.
  { intros q Hq. unfold only. destruct (decide (q = p)) as [->|].
    - rewrite rc_after_count_eq by lia. lia.
    - rewrite rc_after_count_ne by done. lia. }
  destruct (user_frame rg s (after_count p c s) l root T p) as [Hok' Hleaf]; try done.
  - intros q Hq. destruct (as_live _ _ _ _ Has q Hq) as [Hmq _].
    rewrite rc_after_count_ne; [done|done|by eapply managed_aligned|by intros ->].
  - by apply kinv_after_count.
  - by eapply ready_spin.
  - split; try done; auto.
    + intros q Hmq Hnq. rewrite Hrc by (by eapply managed_aligned). unfold only.
      destruct (decide (q = p)) as [->|]; lia.
    + unfold same_hw. simpl. split_and!; try done. by apply passed_equiv, Hr.
Qed.

Lemma ustep_free :
  rc s p = 1 → ustep rg root (.= p) (only p (-1)) keep s l T (after_free p s) (p :: l) T.
Proof.
  intros Hone. pose proof Hok as [Hk Hr Has]. pose proof Hlive as [Hm _].
  pose proof (managed_aligned _ _ Hm) as Hal.
  assert (∀ q, page_aligned q → rc (after_free p s) q = rc s q + only p (-1) q) as Hrc.
  { intros q Hq. unfold only. destruct (decide (q = p)) as [->|].
    - rewrite rc_after_free_eq by done. lia.
    - rewrite rc_after_free_ne by done. lia. }
  assert (∀ x, ¬ in_page p x → ld8 (mem (after_free p s)) x = ld8 (mem s) x) as Hmem.
  { intros x Hx. apply ld8_st64_ne. unfold in_page, PGSIZE in Hx. lia. }
  destruct (user_frame rg s (after_free p s) (p :: l) root T p) as [Hok' Hleaf]; try done.
  - intros q Hq. destruct (as_live _ _ _ _ Has q Hq) as [Hmq _].
    rewrite rc_after_free_ne; [done|done|by eapply managed_aligned|by intros ->].
  - by apply kinv_after_free.
  - by eapply ready_spin.
  - split; try done; auto.
    + intros q Hmq Hnq. rewrite Hrc by (by eapply managed_aligned). unfold only.
      destruct (decide (q = p)) as [->|]; [by right|]. left. lia.
    + unfold same_hw. simpl. split_and!; try done. by apply passed_equiv, Hr.
Qed.

(** One reference dropped: the page itself is written only if it was the last. *)
Lemma wp_kfree_user (Q : unit → machine → Prop) :
  (∀ s' l', ustep rg root (λ q, q = p ∧ rc s p = 1) (only p (-1)) keep s l T s' l' T → Q tt s') →
  wp (kfree p) Q s.
Proof.
  intros HQ. pose proof Hok as [Hk Hr _]. pose proof (kinv_rc _ _ _ Hk p).
  eapply wp_kfree; [done|done|done| |].
  - intros Hmany. eapply HQ, ustep_weaken; [apply (ustep_count (rc s p - 1)); lia|done| |done].
    intros q. unfold only. destruct (decide _); lia.
  - intros Hone. eapply HQ, ustep_weaken; [by apply ustep_free|done|done|done].
Qed.

Lemma wp_kref_inc_user (Q : unit → machine → Prop) :
  rc s p < 255 →
  (∀ s', ustep rg root (λ _, False) (only p 1) keep s l T s' l T → Q tt s') → wp (kref_inc p) Q s.
Proof.
  intros Hlt HQ. pose proof Hok as [Hk Hr _]. pose proof (kinv_rc _ _ _ Hk p). pose proof Hlive as [_ ?].
  eapply wp_kref_inc; [done|done|]. eapply HQ, ustep_weaken; [apply (ustep_count (rc s p + 1)); lia|done| |done].
  intros q. unfold only. destruct (decide _); lia.
Qed.
End counts.

(** A store to a last-level entry, as a step. *)
Lemma ustep_leaf rg root s l T va p v :
  vok rg s l root T → 0 ≤ va → T !! vpath va = Some p → 0 ≤ v < 2 ^ 64 →
  ustep rg root (λ _, False) (λ _, 0) (upd va v) s l T (with_leaf p va v s) l T.
Proof. intros. by apply (vstep_ustep _ _ (λ _, False)), vstep_leaf. Qed.

(** ** [vm_free_range] *)

(** The pages mapped at the [n] pages from [a] on, in order. *)
Fixpoint mapped (m : gmap Z Z) (T : gmap (list Z) Z) (a : Z) (n : nat) : list Z :=
  match n with
  | O => []
  | S n =>
      (if has (leaf m T a) PTE_V then [PTE2PA (leaf m T a)] else []) ++ mapped m T (a + PGSIZE) n
  end.

(** How often a page occurs. *)
Definition occ (q : Z) (L : list Z) : Z := Z.of_nat (length (filter (.= q) L)).

(** The valid entries of the range become 0. *)
Definition clear (a : Z) (n : nat) (va v : Z) : Z :=
  if decide (a / PGSIZE ≤ vpn va < a / PGSIZE + Z.of_nat n) then if has v PTE_V then 0 else v else v.

(** The pages that lost their last reference. *)
Definition exhausted (s : machine) (L : list Z) (q : Z) : Prop := q ∈ L ∧ rc s q = occ q L.

(** The pages of a range may be dropped: each is a user page with enough references. *)
Definition droppable (rg : Z * Z) (s : machine) (T : gmap (list Z) Z) (L : list Z) : Prop :=
  ∀ q, q ∈ L → managed rg q ∧ ¬ node T q ∧ occ q L ≤ rc s q.

Lemma occ_app q L L' : occ q (L ++ L') = occ q L + occ q L'.
Proof. unfold occ. rewrite filter_app, length_app. lia. Qed.
Lemma occ_single p q : occ q [p] = only p 1 q.
Proof.
  unfold occ, only. destruct (decide (q = p)) as [->|].
  - by rewrite filter_cons_True.
  - by rewrite filter_cons_False by done.
Qed.
Lemma occ_nonneg q L : 0 ≤ occ q L.
Proof. unfold occ. lia. Qed.
Lemma occ_pos q L : q ∈ L → 0 < occ q L.
Proof.
  intros Hq. unfold occ. assert (q ∈ filter (.= q) L) as Hin by (by apply list_elem_of_filter).
  destruct (filter (.= q) L); [by apply elem_of_nil in Hin|simpl length; lia].
Qed.
Lemma occ_notin q L : q ∉ L → occ q L = 0.
Proof.
  intros Hq. unfold occ. induction L as [|p L IH]; [done|]. rewrite not_elem_of_cons in Hq.
  rewrite filter_cons_False by naive_solver. apply IH, Hq.
Qed.

Lemma vpn_step a n : page_aligned a → 0 ≤ a → a + PGSIZE * n < 2 ^ 38 → 0 ≤ n → vpn (a + PGSIZE * n) = a / PGSIZE + n.
Proof.
  intros. rewrite vpn_small by (unfold PGSIZE in *; lia). unfold page_aligned, PGSIZE in *.
  Z.to_euclidean_division_equations. lia.
Qed.

Lemma mapped_ext m m' T a n :
  (∀ i, (i < n)%nat → leaf m T (a + PGSIZE * Z.of_nat i) = leaf m' T (a + PGSIZE * Z.of_nat i)) →
  mapped m T a n = mapped m' T a n.
Proof.
  revert a. induction n as [|n IH]; intros a Hx; [done|]. cbn [mapped].
  pose proof (Hx 0%nat ltac:(lia)) as H0. rewrite Z.mul_0_r, Z.add_0_r in H0. rewrite H0. f_equal.
  apply IH. intros i Hi. specialize (Hx (S i) ltac:(lia)). by replace (a + PGSIZE + PGSIZE * Z.of_nat i)
    with (a + PGSIZE * Z.of_nat (S i)) by lia.
Qed.

Lemma leaf_vpn m T va a : 0 ≤ va → 0 ≤ a → vpn va = vpn a → leaf m T va = leaf m T a.
Proof. intros ?? [E1 E2]%vpn_PX_inv; [|done..]. unfold leaf. by rewrite E1, E2. Qed.

Section free_range.
Context (rg : Z * Z) (root end_ : Z) (T : gmap (list Z) Z).

Lemma wp_vm_free_body s l a (Q : Z + unit → machine → Prop) :
  vok rg s l root T → page_aligned a → 0 ≤ a < end_ → end_ + PGSIZE < 2 ^ 38 →
  droppable rg s T (mapped (mem s) T a 1) →
  (∀ s' l', ustep rg root (exhausted s (mapped (mem s) T a 1)) (λ q, - occ q (mapped (mem s) T a 1))
     (clear a 1) s l T s' l' T → Q (inl (a + PGSIZE)) s') →
  wp (vm_free_body root end_ a) Q s.
Proof.
  intros Hok Hal Ha Hb Hdrop HQ. unfold vm_free_body. rewrite (proj2 (Z.ltb_lt a end_)) by lia.
  wp_steps. eapply wp_walk_ro; [done|]. rewrite u64_small by (unfold PGSIZE in *; lia).
  cbn [mapped] in *. rewrite app_nil_r in *. unfold leaf in Hdrop, HQ.
  assert (∀ va, 0 ≤ va → (a / PGSIZE ≤ vpn va < a / PGSIZE + Z.of_nat 1) ↔ vpn va = vpn a) as Hrange.
  { intros va Hva. rewrite (vpn_small a) by (unfold PGSIZE in *; lia). lia. }
  destruct (T !! vpath a) as [p|] eqn:Hp.
  - pose proof Hok as [_ _ Has]. pose proof (ram_page_pos _ (node_ram _ _ _ _ _ _ Has Hp)).
    pose proof (PX_idx 0 a). destruct (Z.eqb_spec (p + 8 * PX 0 a) 0); [lia|].
    wp_steps. eapply wp_load_pte; [done..|]. wp_steps. set (e := pte_at (mem s) p (PX 0 a)) in *.
    assert (leaf (mem s) T a = e) as Hleaf by (unfold leaf; by rewrite Hp).
    apply wp_when; intros HV; rewrite HV in *.
    + wp_steps. destruct (Hdrop (PTE2PA e) ltac:(by left)) as (Hm & Hn & Hocc).
      rewrite occ_single in Hocc. unfold only in Hocc. rewrite decide_True in Hocc by done.
      eapply wp_kfree_user; [done|split; [done|lia]|done|]. intros s1 l1 H1. wp_steps.
      apply wp_store64; [eapply slot_in_ram; [by eapply node_ram|done]|].
      eapply (HQ (with_leaf p a (u64 0) s1)), ustep_weaken; [eapply ustep_trans; [exact H1|]| | |].
      * apply ustep_leaf; [apply (us_ok _ _ _ _ _ _ _ _ _ _ _ H1)|lia|done|done].
      * intros q [[-> Hq]|[]]. split; [by left|]. rewrite occ_single. unfold only. by rewrite decide_True.
      * intros q. simpl. rewrite occ_single. unfold only. destruct (decide _); lia.
      * intros va Hva. simpl. unfold upd, clear, keep. change (u64 0) with 0.
        destruct (decide (vpn va = vpn a)) as [E|E]; destruct (decide _) as [E'|E'];
          try (rewrite Hrange in E' by done; done).
        rewrite (leaf_vpn _ _ va a), Hleaf, HV by (done || lia). done.
    + wp_steps. apply (HQ s l). eapply ustep_weaken; [by apply ustep_refl|done|done|].
      intros va Hva. unfold keep, clear. destruct (decide _) as [E|]; [|done].
      rewrite (leaf_vpn _ _ va a), Hleaf, HV; [done|done|lia|by apply Hrange].
  - wp_steps. rewrite Z.eqb_refl. wp_steps. rewrite has_0 in *. apply (HQ s l).
    eapply ustep_weaken; [by apply ustep_refl|done|done|].
    intros va Hva. unfold keep, clear. destruct (decide _) as [E|]; [|done].
    assert (leaf (mem s) T va = 0) as ->; [|done].
    rewrite (leaf_vpn _ _ va a); [unfold leaf; by rewrite Hp|done|lia|by apply Hrange].
Qed.

Lemma droppable_step s l a n s1 l1 :
  page_aligned a → 0 ≤ a → a + PGSIZE * Z.of_nat (S n) < 2 ^ 38 →
  droppable rg s T (mapped (mem s) T a (S n)) →
  ustep rg root (exhausted s (mapped (mem s) T a 1)) (λ q, - occ q (mapped (mem s) T a 1))
     (clear a 1) s l T s1 l1 T →
  mapped (mem s1) T (a + PGSIZE) n = mapped (mem s) T (a + PGSIZE) n ∧
  mapped (mem s) T a (S n) = mapped (mem s) T a 1 ++ mapped (mem s) T (a + PGSIZE) n ∧
  droppable rg s1 T (mapped (mem s) T (a + PGSIZE) n).
Proof.
  intros Hal Ha Hb Hdrop H1. split; [|split].
  - apply mapped_ext. intros i Hi. rewrite (us_leaf _ _ _ _ _ _ _ _ _ _ _ H1) by (unfold PGSIZE; lia).
    unfold clear. rewrite decide_False; [done|].
    replace (a + PGSIZE + PGSIZE * Z.of_nat i) with (a + PGSIZE * (Z.of_nat i + 1)) by lia.
    rewrite vpn_step by (unfold PGSIZE in *; done || lia). lia.
  - cbn [mapped]. by rewrite app_nil_r.
  - intros q Hq. destruct (Hdrop q) as (Hm & Hn & Hocc); [cbn [mapped]; set_solver|].
    split_and!; [done|done|]. rewrite (us_rc _ _ _ _ _ _ _ _ _ _ _ H1); [|by eapply managed_aligned|done].
    cbn [mapped] in *. rewrite app_nil_r, occ_app in *. lia.
Qed.

Lemma wp_vm_free_loop n fuel s l a (Q : unit → machine → Prop) :
  vok rg s l root T → page_aligned a → 0 ≤ a → end_ + PGSIZE < 2 ^ 38 →
  (n < fuel)%nat → a + PGSIZE * (Z.of_nat n - 1) < end_ ∨ n = 0%nat → end_ ≤ a + PGSIZE * Z.of_nat n →
  droppable rg s T (mapped (mem s) T a n) →
  (∀ s' l', ustep rg root (exhausted s (mapped (mem s) T a n)) (λ q, - occ q (mapped (mem s) T a n))
     (clear a n) s l T s' l' T → Q tt s') →
  wp (loop fuel (vm_free_body root end_) a) Q s.
Proof.
  revert fuel s l a Q. induction n as [|n IH]; intros fuel s l a Q Hok Hal Ha Hb Hf He1 He2 Hdrop HQ;
    (destruct fuel as [|fuel]; [lia|]); rewrite loop_S; wp_steps.
  - unfold vm_free_body. rewrite (proj2 (Z.ltb_ge a end_)) by lia. wp_steps.
    apply (HQ s l). eapply ustep_weaken; [by apply ustep_refl|done|done|].
    intros va Hva. unfold keep, clear. by rewrite decide_False by lia.
  - destruct He1 as [He1|]; [|done]. apply (wp_vm_free_body s l); try done; [unfold PGSIZE in *; lia| |].
    { intros q Hq. destruct (Hdrop q) as (Hm & Hn & Hocc); [cbn [mapped] in *; set_solver|].
      split_and!; [done|done|]. cbn [mapped] in *. rewrite app_nil_r, occ_app in *.
      pose proof (occ_nonneg q (mapped (mem s) T (a + PGSIZE) n)). lia. }
    intros s1 l1 H1.
    destruct (droppable_step s l a n s1 l1) as (E1 & E2 & Hdrop1); [done|done|unfold PGSIZE in *; lia|done|done|].
    apply (IH fuel s1 l1); try done.
    + apply (us_ok _ _ _ _ _ _ _ _ _ _ _ H1).
    + unfold page_aligned, PGSIZE in *. Z.to_euclidean_division_equations. lia.
    + unfold PGSIZE in *. lia.
    + lia.
    + unfold PGSIZE in *. lia.
    + unfold PGSIZE in *. lia.
    + by rewrite E1.
    + intros s2 l2 H2. rewrite E1 in H2. rewrite E2 in HQ, Hdrop.
      eapply HQ, ustep_weaken; [eapply ustep_trans; [exact H1|exact H2]| | |].
      * intros q Hq. unfold exhausted. rewrite elem_of_app, occ_app.
        assert (occ q (mapped (mem s) T a 1) + occ q (mapped (mem s) T (a + PGSIZE) n) ≤ rc s q ∧
          page_aligned q ∧ ¬ node T q) as (Hocc & Hqal & Hnq).
        { destruct (Hdrop q) as (Hm & ? & ?); [destruct Hq as [[]|[]]; set_solver|].
          rewrite occ_app in *. split_and!; [done|by eapply managed_aligned|done]. }
        pose proof (occ_nonneg q (mapped (mem s) T (a + PGSIZE) n)).
        destruct Hq as [[Hq Hr]|[Hq Hr]]; (split; [by auto|]); [lia|].
        rewrite (us_rc _ _ _ _ _ _ _ _ _ _ _ H1) in Hr by done. lia.
      * intros q. cbv beta. rewrite occ_app. lia.
      * intros va Hva. cbv beta. unfold clear.
        replace ((a + PGSIZE) / PGSIZE) with (a / PGSIZE + 1) by (unfold PGSIZE; Z.to_euclidean_division_equations; lia).
        set (v := leaf (mem s) T va). repeat destruct (decide _); try lia; try done.
Qed.
End free_range.

(** Reading a step off the hardware's view. *)
Lemma ustep_sv39 rg root W d f s l T s' l' T' va :
  vok rg s l root T → ustep rg root W d f s l T s' l' T' → 0 ≤ va →
  sv39 (mem s') root va = valid_entry (f va (leaf (mem s) T va)) ∧
  sv39 (mem s) root va = valid_entry (leaf (mem s) T va).
Proof.
  intros [_ _ [Hroot Hrep _]] Hv Hva. destruct (us_ok _ _ _ _ _ _ _ _ _ _ _ Hv) as [_ _ [Hroot' Hrep' _]].
  rewrite (sv39_leaf _ _ _ _ Hrep' Hroot'), (sv39_leaf _ _ _ _ Hrep Hroot),
    (us_leaf _ _ _ _ _ _ _ _ _ _ _ Hv) by done. done.
Qed.

(** The pages between two addresses, the last one possibly partial. *)
Definition page_count (start end_ : Z) : nat := Z.to_nat ((end_ - start + PGSIZE - 1) / PGSIZE).

(** Giving up the references [L] of a table [T], its entries changed by [f]. *)
Definition gave_up (rg : Z * Z) (root : Z) (T : gmap (list Z) Z) (L : list Z) (f : Z → Z → Z) s l s' l' : Prop :=
  ustep rg root (exhausted s L) (λ q, - occ q L) f s l T s' l' T.

Lemma gave_up_refl rg root T s l : vok rg s l root T → gave_up rg root T [] keep s l s l.
Proof. intros Hok. eapply ustep_weaken; [by apply ustep_refl|done|done|done]. Qed.

Lemma gave_up_droppable rg root T L L' f s l s' l' :
  gave_up rg root T L f s l s' l' → droppable rg s T (L ++ L') → droppable rg s' T L'.
Proof.
  intros H1 Hdrop q Hq. destruct (Hdrop q) as (Hm & Hn & Hocc); [set_solver|]. split_and!; [done|done|].
  rewrite (us_rc _ _ _ _ _ _ _ _ _ _ _ H1) by (done || by eapply managed_aligned). rewrite occ_app in Hocc. lia.
Qed.

Lemma gave_up_trans rg root T L1 L2 f1 f2 s l s1 l1 s2 l2 :
  droppable rg s T (L1 ++ L2) → gave_up rg root T L1 f1 s l s1 l1 → gave_up rg root T L2 f2 s1 l1 s2 l2 →
  gave_up rg root T (L1 ++ L2) (λ va v, f2 va (f1 va v)) s l s2 l2.
Proof.
  intros Hdrop H1 H2. eapply ustep_weaken; [eapply ustep_trans; [exact H1|exact H2]| | |done].
  - intros q Hq. unfold exhausted. rewrite elem_of_app, occ_app.
    destruct (Hdrop q) as (Hm & Hn & Hocc); [destruct Hq as [[]|[]]; set_solver|]. rewrite occ_app in Hocc.
    pose proof (occ_nonneg q L2). destruct Hq as [[Hq Hr]|[Hq Hr]]; (split; [by auto|]); [lia|].
    rewrite (us_rc _ _ _ _ _ _ _ _ _ _ _ H1) in Hr by (done || by eapply managed_aligned). lia.
  - intros q. cbv beta. rewrite occ_app. lia.
Qed.

Lemma wp_drop rg root T p s l (Q : unit → machine → Prop) :
  vok rg s l root T → droppable rg s T [p] →
  (∀ s' l', gave_up rg root T [p] keep s l s' l' → Q tt s') → wp (kfree p) Q s.
Proof.
  intros Hok Hdrop HQ. destruct (Hdrop p ltac:(by left)) as (Hm & Hn & Hocc).
  rewrite occ_single in Hocc. unfold only in Hocc. rewrite decide_True in Hocc by done.
  eapply wp_kfree_user; [done|split; [done|lia]|done|]. intros s' l' H1. eapply HQ, ustep_weaken; [exact H1| | |done].
  - intros q [-> Hq]. split; [by left|]. rewrite occ_single. unfold only. by rewrite decide_True.
  - intros q. simpl. rewrite occ_single. unfold only. destruct (decide _); lia.
Qed.

Lemma wp_vm_free_range rg root T s l start end_ (Q : unit → machine → Prop) :
  vok rg s l root T → page_aligned start → 0 ≤ start → end_ + PGSIZE < 2 ^ 38 →
  let n := page_count start end_ in
  droppable rg s T (mapped (mem s) T start n) →
  (∀ s' l', gave_up rg root T (mapped (mem s) T start n) (clear start n) s l s' l' → Q tt s') →
  wp (vm_free_range root start end_) Q s.
Proof.
  intros Hok Hal Hs Hb n Hdrop HQ. unfold vm_free_range. eapply (wp_vm_free_loop rg root end_ T n); try done;
    unfold n, page_count, PGSIZE; Z.to_euclidean_division_equations; lia.
Qed.

(** C22: unmapping a range. [vm_free_range] returns; afterwards the hardware
    finds no translation in the range and every other translation as before;
    each mapping removed gave up exactly one reference, so a page shared with
    another address space survives with its contents, and only pages that lost
    their last reference went back to the allocator. *)
Theorem vm_free_range_drops rg root T s l start end_ :
  vok rg s l root T → page_aligned start → 0 ≤ start → end_ + PGSIZE < 2 ^ 38 →
  let L := mapped (mem s) T start (page_count start end_) in
  droppable rg s T L →
  ∃ s' l', vm_free_range root start end_ s = Done tt s' ∧ vok rg s' l' root T ∧
    (∀ va, 0 ≤ va → sv39 (mem s') root va =
       if decide (start ≤ vpage va < end_) then None else sv39 (mem s) root va) ∧
    (∀ q, page_aligned q → ¬ node T q → rc s' q = rc s q - occ q L) ∧
    (∀ q, managed rg q → ¬ node T q → 0 < rc s q → (q ∈ l' ↔ exhausted s L q)) ∧
    (∀ x, (∀ p, node T p ∨ exhausted s L p → ¬ in_page p x) → ld8 (mem s') x = ld8 (mem s) x).
Proof.
  intros Hok Hal Hs Hb L Hdrop.
  cut (wp (vm_free_range root start end_) (λ _ s', ∃ l', ustep rg root (exhausted s L)
    (λ q, - occ q L) (clear start (page_count start end_)) s l T s' l' T) s).
  { intros ([] & s' & Hrun & l' & Hv)%wp_run. exists s', l'. split; [done|].
    assert (∀ q, page_aligned q → ¬ node T q → rc s' q = rc s q - occ q L) as Hrc.
    { intros q Hq Hn. rewrite (us_rc _ _ _ _ _ _ _ _ _ _ _ Hv) by done. lia. }
    pose proof (us_ok _ _ _ _ _ _ _ _ _ _ _ Hv) as Hok'. split_and!; [done| |done| |].
    - intros va Hva. destruct (ustep_sv39 _ _ _ _ _ _ _ _ _ _ _ va Hok Hv Hva) as [-> ->].
      unfold clear, vpage, page_count. pose proof (vpn_nonneg va).
      assert (start = start / PGSIZE * PGSIZE) as Hst.
      { unfold page_aligned, PGSIZE in *. Z.to_euclidean_division_equations. lia. }
      destruct (decide _) as [E|E]; destruct (decide _) as [E'|E']; try done.
      + unfold valid_entry. by destruct (has (leaf _ _ _) _) eqn:HV; rewrite ?has_0, ?HV.
      + exfalso. apply E'. unfold PGSIZE in *. Z.to_euclidean_division_equations. lia.
      + exfalso. apply E. unfold PGSIZE in *. Z.to_euclidean_division_equations. lia.
    - intros q Hm Hn Hpos. destruct Hok' as [Hk' _ _].
      rewrite (kinv_free _ _ _ Hk'), Hrc by (done || by eapply managed_aligned). unfold exhausted.
      destruct (decide (q ∈ L)) as [Hin|Hni]; [naive_solver lia|].
      rewrite occ_notin by done. naive_solver lia.
    - apply (us_frame _ _ _ _ _ _ _ _ _ _ _ Hv). }
  eapply wp_vm_free_range; [done..|]. intros s' l' Hv. by exists l'.
Qed.

(** ** [uvm_cow_fault] *)

Section user_writes.
Context (rg : Z * Z) (s : machine) (root : Z) (T : gmap (list Z) Z) (q : Z).

Lemma ustep_alloc l :
  vok rg s (q :: l) root T →
  ustep rg root (λ _, False) (only q 1) keep s (q :: l) T (after_alloc q (ld64 (mem s) q) s) l T.
Proof.
  intros Hok. pose proof Hok as [Hk Hr Has].
  assert (managed rg q ∧ rc s q = 0) as [Hm Hz] by (apply (kinv_free _ _ _ Hk); by left).
  assert (¬ node T q) as Hn by (intros [_ ?]%(as_live _ _ _ _ Has); lia).
  assert (∀ p, page_aligned p → rc (after_alloc q (ld64 (mem s) q) s) p = rc s p + only q 1 p) as Hrc.
  { intros p Hp. unfold only, rc, after_alloc. simpl. destruct (decide (p = q)) as [->|Hne].
    - rewrite rc_get_set_eq. change (rc_get (pidx q) (km s)) with (rc s q). rewrite Hz. done.
    - rewrite rc_get_set_ne; [by rewrite Z.add_0_r|]. intros ?. apply Hne, pidx_inj; [done|by eapply managed_aligned|done]. }
  destruct (user_frame rg s (after_alloc q (ld64 (mem s) q) s) l root T q) as [Hok' Hleaf]; try done.
  - intros p Hp. pose proof (as_live _ _ _ _ Has p Hp) as [Hmp _].
    rewrite Hrc by (by eapply managed_aligned). unfold only. rewrite decide_False by (by intros ->). lia.
  - by apply kinv_after_alloc.
  - by eapply ready_spin.
  - split; try done; auto.
    + intros p Hmp Hnp. rewrite Hrc by (by eapply managed_aligned). unfold only.
      pose proof (kinv_rc _ _ _ Hk p). destruct (decide (p = q)) as [->|]; lia.
    + unfold same_hw. simpl. split_and!; try done. by apply passed_equiv, Hr.
Qed.

Lemma ustep_write m l :
  vok rg s l root T → live rg s q → ¬ node T q → (∀ x, ¬ in_page q x → ld8 m x = ld8 (mem s) x) →
  ustep rg root (.= q) (λ _, 0) keep s l T (with_mem m s) l T.
Proof.
  intros Hok [Hm Hlive] Hn Hmem. pose proof Hok as [Hk Hr Has].
  destruct (user_frame rg s (with_mem m s) l root T q) as [Hok' Hleaf]; try done.
  - apply (kinv_ext rg s); [done| |done]. intros p Hp. symmetry. apply ld64_ext. intros x Hx. apply Hmem.
    assert (managed rg p ∧ rc s p = 0) as [Hmp Hz] by (by apply (kinv_free _ _ _ Hk)).
    eapply (in_page_ne p q); [by eapply managed_aligned..| |unfold in_page, PGSIZE; lia]. intros ->. lia.
  - split; try done; auto.
    intros p _ _. change (rc (with_mem m s) p) with (rc s p). lia.
Qed.

Lemma ustep_fence l :
  vok rg s l root T →
  ustep rg root (λ _, False) (λ _, 0) keep s l T
    (Machine (mdev s) (mem s) (km s) (kernel_pagetable s) (satp s) (fences s + 1)) l T.
Proof.
  intros Hok. pose proof Hok as [Hk Hr [H1 H2 H3]]. split; try done; auto.
  - split; [by apply (kinv_ext rg s)|done|by split].
  - intros p _ _. change (rc (Machine _ _ _ _ _ _) p) with (rc s p). lia.
Qed.
End user_writes.

(** The flags of the private copy. *)
Definition private (f : Z) : Z := Z.lor (Z.land f (u64 (Z.lnot PTE_COW))) PTE_W.

Lemma private_word f : flag_word f → flag_word (private f).
Proof.
  intros Hf. apply (lor_bound _ _ 10); [lia| |unfold PTE_W; lia]. apply land_bound; [done|lia].
Qed.

(** The effect of a resolved fault: page [q] holds the contents of [pa] and the
    entry of [va] names it. *)
Record cow_copied (rg : Z * Z) (root va pa f q : Z) (s : machine) (l : list Z) (T : gmap (list Z) Z)
    (s' : machine) (l' : list Z) : Prop := {
  cc_step : ustep rg root (λ p, p = q ∨ p = pa ∧ rc s pa = 1) (λ p, only q 1 p + only pa (-1) p)
    (upd va (mk_pte q (private f))) s l T s' l' T;
  cc_bytes i : 0 ≤ i < PGSIZE → ld8 (mem s') (q + i) = ld8 (mem s) (pa + i);
  cc_fresh : managed rg q ∧ rc s q = 0;
}.

Lemma wp_uvm_cow_fault rg root T s l va (Q : Z → machine → Prop) :
  let e := leaf (mem s) T va in
  vok rg s l root T → 0 ≤ va < 2 ^ 38 →
  (has e PTE_V && has e PTE_COW = false → Q 0 s) →
  (has e PTE_V && has e PTE_COW = true → ∃ pa f, e = mk_pte pa f ∧ flag_word f ∧ live rg s pa ∧ ¬ node T pa ∧
    (l = [] → Q 0 (touched s)) ∧
    (∀ q l1 s' l', l = q :: l1 → cow_copied rg root va pa f q s l T s' l' → Q 1 s')) →
  wp (uvm_cow_fault root va) Q s.
Proof.
  intros e Hok Hva Hno Hyes. unfold uvm_cow_fault.
  assert (PGROUNDDOWN va = va / PGSIZE * PGSIZE) as -> by (apply PGROUNDDOWN_spec; lia).
  set (a := va / PGSIZE * PGSIZE).
  assert (0 ≤ a < 2 ^ 38 ∧ a / PGSIZE = va / PGSIZE) as [Ha Hdiv].
  { unfold a, PGSIZE. Z.to_euclidean_division_equations. lia. }
  assert (vpn a = vpn va) as Hvpn by (by rewrite !vpn_small).
  assert (leaf (mem s) T a = e) as Hleaf by (apply leaf_vpn; [lia|lia|done]).
  wp_steps. eapply wp_walk_ro; [done|]. unfold leaf in Hleaf. 
  destruct (T !! vpath a) as [p|] eqn:Hp.
  2: { wp_steps. rewrite Z.eqb_refl. wp_steps. apply Hno. rewrite <- Hleaf. by rewrite has_0. }
  pose proof Hok as [Hk Hr Has]. pose proof (ram_page_pos _ (node_ram _ _ _ _ _ _ Has Hp)).
  pose proof (PX_idx 0 a). destruct (Z.eqb_spec (p + 8 * PX 0 a) 0); [lia|].
  wp_steps. eapply wp_load_pte; [done..|]. rewrite Hleaf. wp_steps. cbn [orb].
  destruct (has e PTE_V) eqn:HV; [|wp_steps; by apply Hno].
  destruct (has e PTE_COW) eqn:HC; [|wp_steps; by apply Hno].
  destruct (Hyes eq_refl) as (pa & f & He & Hf & Hlive & Hn & Hoom & Hok'). cbn [negb orb].
  pose proof Hlive as [Hm Hpos]. pose proof (managed_ram _ _ Hm) as Hram.
  rewrite He, pte2pa, pte_flags_mk by (done || by apply ram_pte_page).
  wp_steps. eapply wp_kalloc; [done|done| |].
  { intros ->. wp_steps. by apply Hoom. }
  intros q l1 ->. pose proof (fresh_managed _ _ _ _ Hk) as [Hmq Hzq].
  pose proof (managed_ram _ _ Hmq) as Hramq. pose proof (ram_page_pos _ Hramq).
  destruct (Z.eqb_spec q 0); [lia|].
  assert (¬ node T q) as Hnq by (intros [_ ?]%(as_live _ _ _ _ Has); lia).
  assert (q ≠ pa) as Hqpa by (intros ->; lia).
  pose proof (ustep_alloc rg s root T q l1 Hok) as S1. set (s1 := after_alloc q (ld64 (mem s) q) s) in *.
  pose proof (us_ok _ _ _ _ _ _ _ _ _ _ _ S1) as Hok1.
  wp_steps. apply wp_memcopy; [apply ram_page_in_ram; [done|unfold PGSIZE; lia]..|].
  assert (q + PGSIZE ≤ pa ∨ pa + PGSIZE ≤ q) as Hdis.
  { apply pages_disjoint; [by eapply managed_aligned..|done]. }
  set (m2 := memcopy_loop _ _ _ _).
  assert (ustep rg root (.= q) (λ _, 0) keep s1 l1 T (with_mem m2 s1) l1 T) as S2.
  { apply ustep_write; [done| |done|].
    - split; [done|]. rewrite (us_rc _ _ _ _ _ _ _ _ _ _ _ S1) by (done || by eapply managed_aligned).
      unfold only. rewrite decide_True by done. lia.
    - intros x Hx. apply ld8_memcopy_ne; unfold in_page, PGSIZE in *; lia. }
  pose proof (us_ok _ _ _ _ _ _ _ _ _ _ _ S2) as Hok2.
  wp_steps. apply wp_store64; [by eapply slot_in_ram; [by eapply node_ram|]|].
  assert (pte_page q) as Hpq by (by apply ram_pte_page). change (Z.lor (Z.land f _) PTE_W) with (private f).
  rewrite lor_pa2pte by (try apply private_word; done).
  rewrite u64_small by (apply mk_pte_bound; [done|by apply private_word]).
  assert (0 ≤ mk_pte q (private f) < 2 ^ 64) by (apply mk_pte_bound; [done|by apply private_word]).
  pose proof (ustep_leaf rg root (with_mem m2 s1) l1 T a p (mk_pte q (private f)) Hok2 ltac:(lia) Hp ltac:(done)) as S3.
  pose proof (us_ok _ _ _ _ _ _ _ _ _ _ _ S3) as Hok3. unfold sfence_vma. wp_steps.
  pose proof (ustep_fence _ _ _ _ _ Hok3) as S4. pose proof (us_ok _ _ _ _ _ _ _ _ _ _ _ S4) as Hok4.
  pose proof (ustep_trans _ _ _ _ _ _ _ _ _ _ _ _ _ _ _ _ _
    (ustep_trans _ _ _ _ _ _ _ _ _ _ _ _ _ _ _ _ _ (ustep_trans _ _ _ _ _ _ _ _ _ _ _ _ _ _ _ _ _ S1 S2) S3) S4) as S5.
  set (s4 := Machine _ _ _ _ _ _) in *.
  assert (rc s4 pa = rc s pa) as Hrc4.
  { rewrite (us_rc _ _ _ _ _ _ _ _ _ _ _ S5) by (done || by eapply managed_aligned).
    unfold only. rewrite decide_False by done. lia. }
  eapply wp_kfree_user; [exact Hok4|split; [done|lia]|done|]. intros s5 l5 S6. rewrite Hrc4 in S6. wp_steps.
  apply (Hok' q l1 s5 l5); [done|]. split.
  - eapply ustep_weaken; [eapply ustep_trans; [exact S5|exact S6]| | |].
    + intros x [[[[[]|?]|[]]|[]]|?]; auto.
    + intros x. cbv beta. lia.
    + intros va' Hva'. unfold upd, keep. by rewrite Hvpn.
  - intros i Hi. rewrite (us_frame _ _ _ _ _ _ _ _ _ _ _ S6).
    + rewrite (us_frame _ _ _ _ _ _ _ _ _ _ _ S4), (us_frame _ _ _ _ _ _ _ _ _ _ _ S3).
      * change (ld8 m2 (q + i) = ld8 (mem s) (pa + i)). unfold m2.
        rewrite ld8_memcopy_in by (unfold PGSIZE in *; lia). f_equal. lia.
      * intros x [Hx|[]]. eapply in_page_ne; [by eapply managed_aligned| | |].
        -- eapply managed_aligned, (as_live _ _ _ _ Has x Hx).
        -- by intros <-.
        -- unfold in_page, PGSIZE in *. lia.
      * intros x [Hx|[]]. eapply in_page_ne; [by eapply managed_aligned| | |].
        -- eapply managed_aligned, (as_live _ _ _ _ Has x Hx).
        -- by intros <-.
        -- unfold in_page, PGSIZE in *. lia.
    + intros x [Hx|[-> _]]; (eapply in_page_ne; [by eapply managed_aligned| | |]).
      * eapply managed_aligned, (as_live _ _ _ _ Has x Hx).
      * by intros <-.
      * unfold in_page, PGSIZE in *. lia.
      * by eapply managed_aligned.
      * done.
      * unfold in_page, PGSIZE in *. lia.
  - done.
Qed.

(** C10: a write to a copy-on-write page. [uvm_cow_fault] resolves the fault
    exactly when the page is mapped, marked copy-on-write and there is a free
    page: then the faulting page is backed by a page that was free, with the
    same contents, writable and no longer marked, every other translation of the
    address space is as before, the old page gave up one reference and keeps its
    contents if it has others; in every other address space no translation and
    no table changed. Otherwise it returns 0 and memory is unchanged. *)
Theorem cow_fault_copies rg root T s l va pa f root2 T2 :
  vok rg s l root T → 0 ≤ va < 2 ^ 38 →
  leaf (mem s) T va = mk_pte pa f → flag_word f → live rg s pa → ¬ node T pa →
  aspace rg s root2 T2 → apart T2 T → ¬ node T2 pa →
  ∃ r s', uvm_cow_fault root va s = Done r s' ∧
    if has f PTE_V && has f PTE_COW && bool_decide (l ≠ []) then
      r = 1 ∧ ∃ q l', vok rg s' l' root T ∧ managed rg q ∧ rc s q = 0 ∧ rc s' q = 1 ∧ rc s' pa = rc s pa - 1 ∧
        (∀ va', 0 ≤ va' → sv39 (mem s') root va' =
           if decide (vpn va' = vpn va) then valid_entry (mk_pte q (private f)) else sv39 (mem s) root va') ∧
        (∀ i, 0 ≤ i < PGSIZE → ld8 (mem s') (q + i) = ld8 (mem s) (pa + i)) ∧
        (∀ x, (∀ p, node T p ∨ p = q ∨ p = pa ∧ rc s pa = 1 → ¬ in_page p x) → ld8 (mem s') x = ld8 (mem s) x) ∧
        aspace rg s' root2 T2 ∧ ∀ va', 0 ≤ va' → sv39 (mem s') root2 va' = sv39 (mem s) root2 va'
    else r = 0 ∧ mem s' = mem s ∧ km s' = km s.
Proof.
  intros Hok Hva Hleaf Hf Hlive Hn Has2 Hap Hn2. apply wp_run.
  apply (wp_uvm_cow_fault rg root T s l va); [done|done| |]; rewrite Hleaf, !has_mk_pte by done; intros Hb; rewrite Hb.
  { done. }
  exists pa, f. split_and!; [done..| |].
  { by intros ->. }
  intros q l1 s' l' -> [Hv Hbytes [Hm Hz]]. split; [done|]. exists q, l'.
  pose proof Hok as [_ _ Has]. pose proof Hlive as [Hmpa Hpos].
  assert (¬ node T q) as Hnq by (intros [_ ?]%(as_live _ _ _ _ Has); lia).
  assert (q ≠ pa) as Hne by (intros ->; lia).
  assert (∀ p, node T2 p → ¬ (p = q ∨ p = pa ∧ rc s pa = 1) ∧ only q 1 p + only pa (-1) p = 0) as HW.
  { intros p Hp. destruct (as_live _ _ _ _ Has2 p Hp). unfold only.
    assert (p ≠ q) by (intros ->; lia). assert (p ≠ pa) by (by intros ->).
    rewrite !decide_False by done. split; [tauto|lia]. }
  assert (∀ p, p = q ∨ p = pa ∧ rc s pa = 1 → page_aligned p) as HWp.
  { intros p [->|[-> _]]; by eapply managed_aligned. }
  assert (aspace rg s' root2 T2) as Has2' by (by eapply other_aspace).
  split_and!; try done.
  - apply (us_ok _ _ _ _ _ _ _ _ _ _ _ Hv).
  - rewrite (us_rc _ _ _ _ _ _ _ _ _ _ _ Hv) by (done || by eapply managed_aligned). unfold only.
    rewrite decide_True, decide_False by done. lia.
  - rewrite (us_rc _ _ _ _ _ _ _ _ _ _ _ Hv) by (done || by eapply managed_aligned). unfold only.
    rewrite decide_False, decide_True by done. lia.
  - intros va' Hva'. destruct (ustep_sv39 _ _ _ _ _ _ _ _ _ _ _ va' Hok Hv Hva') as [-> ->].
    unfold upd. by destruct (decide _).
  - apply (us_frame _ _ _ _ _ _ _ _ _ _ _ Hv).
  - intros va' _. pose proof Has2 as [R2 S2 _]. destruct Has2' as [R2' S2' _].
    rewrite (sv39_leaf _ _ _ _ S2 R2), (sv39_leaf _ _ _ _ S2' R2').
    assert (leaf (mem s') T2 va' = leaf (mem s) T2 va') as ->; [|done]. by eapply other_leaf.
Qed.

(** ** [uvm_cow_share] *)

(** The flags of a shared page: a writable one becomes read-only and marked. *)
Definition cow_flags (f : Z) : Z :=
  if has f PTE_W then Z.lor (Z.land f (u64 (Z.lnot PTE_W))) PTE_COW else f.
Definition cow_entry (e : Z) : Z := mk_pte (PTE2PA e) (cow_flags (PTE_FLAGS e)).

Definition in_range (a : Z) (n : nat) (va : Z) : Prop := a / PGSIZE ≤ vpn va < a / PGSIZE + Z.of_nat n.
#[export] Instance in_range_dec a n va : Decision (in_range a n va).
Proof. unfold in_range. apply _. Defined.

(** The addresses whose page is shared. *)
Definition to_share (s : machine) (T : gmap (list Z) Z) (a : Z) (n : nat) (va : Z) : bool :=
  bool_decide (in_range a n va) && has (leaf (mem s) T va) PTE_V.

Lemma cow_flags_word f : flag_word f → flag_word (cow_flags f).
Proof.
  intros Hf. unfold cow_flags. destruct (has f PTE_W); [|done].
  apply (lor_bound _ _ 10); [lia| |unfold PTE_COW; lia]. apply land_bound; [done|lia].
Qed.

Lemma has_testbit f i : 0 ≤ i → has f (2 ^ i) = Z.testbit f i.
Proof.
  intros Hi. unfold has. destruct (Z.testbit f i) eqn:E.
  - apply negb_true_iff, Z.eqb_neq. intros H. apply (f_equal (λ x, Z.testbit x i)) in H.
    rewrite Z.land_spec, E, Z.pow2_bits_true, Z.bits_0 in H by done. done.
  - apply negb_false_iff, Z.eqb_eq, Z.bits_inj'. intros j Hj. rewrite Z.land_spec, Z.pow2_bits_eqb, Z.bits_0 by done.
    destruct (Z.eqb_spec i j) as [<-|]; [by rewrite E|apply andb_false_r].
Qed.

Lemma cow_flags_V f : flag_word f → has (cow_flags f) PTE_V = has f PTE_V.
Proof.
  intros Hf. unfold cow_flags. destruct (has f PTE_W); [|done].
  change PTE_V with (2 ^ 0). rewrite !has_testbit, Z.lor_spec, Z.land_spec by done.
  change (Z.testbit PTE_COW 0) with false. change (Z.testbit (u64 (Z.lnot PTE_W)) 0) with true.
  by rewrite andb_true_r, orb_false_r.
Qed.

Lemma perm_flags_has_V f : flag_word f → has f PTE_V = true → perm_flags f = f.
Proof.
  intros Hf HV. unfold perm_flags. change PTE_V with (2 ^ 0) in *. rewrite has_testbit in HV by done.
  apply Z.bits_inj'. intros j Hj. rewrite Z.lor_spec, Z.pow2_bits_eqb by done.
  destruct (Z.eqb_spec 0 j) as [<-|]; [by rewrite HV|apply orb_false_r].
Qed.

Section share.
Context (rg : Z * Z) (rp rch : Z) (Tp : gmap (list Z) Z) (P : list (list Z)).

(** What the loop needs for the [n] pages from [a] on. *)
Record shareable (s : machine) (l : list Z) (Tc : gmap (list Z) Z) (a : Z) (n : nat) : Prop := {
  sb_parent : vok rg s l rp Tp;
  sb_child : aspace rg s rch Tc;
  sb_apart : apart Tc Tp;
  sb_supply : supply P l Tc;
  sb_user va : 0 ≤ va → to_share s Tp a n va = true → ∃ pa f,
    leaf (mem s) Tp va = mk_pte pa f ∧ flag_word f ∧ live rg s pa ∧ ¬ node Tp pa ∧ ¬ node Tc pa ∧
    rc s pa + occ pa (mapped (mem s) Tp a n) ≤ 255;
  sb_blank va : 0 ≤ va → in_range a n va → has (leaf (mem s) Tc va) PTE_V = false;
  sb_paths va k : 0 ≤ va → in_range a n va → walk_paths va k → k ∈ P;
}.

(** The effect of sharing them. *)
Record shared (s : machine) (l : list Z) (Tc : gmap (list Z) Z) (a : Z) (n : nat)
    (s' : machine) (l' : list Z) (Tc' : gmap (list Z) Z) : Prop := {
  sh_parent : vok rg s' l' rp Tp;
  sh_child : aspace rg s' rch Tc';
  sh_apart : apart Tc' Tp;
  sh_supply : supply P l' Tc';
  sh_sub : Tc ⊆ Tc';
  sh_fresh p : node Tc' p → node Tc p ∨ rc s p = 0;
  sh_parent_leaf va : 0 ≤ va → leaf (mem s') Tp va =
    if to_share s Tp a n va then cow_entry (leaf (mem s) Tp va) else leaf (mem s) Tp va;
  sh_child_leaf va : 0 ≤ va → leaf (mem s') Tc' va =
    if to_share s Tp a n va then cow_entry (leaf (mem s) Tp va) else leaf (mem s) Tc va;
  sh_rc q : page_aligned q → ¬ node Tp q → ¬ node Tc' q → rc s' q = rc s q + occ q (mapped (mem s) Tp a n);
  sh_frame x : (∀ p, node Tp p ∨ node Tc' p → ¬ in_page p x) → ld8 (mem s') x = ld8 (mem s) x;
  sh_hw : same_hw s s';
}.

Lemma in_range_0 a va : ¬ in_range a 0 va.
Proof. unfold in_range. lia. Qed.

Lemma in_range_split a n va :
  page_aligned a → 0 ≤ a → in_range a (S n) va ↔ in_range a 1 va ∨ in_range (a + PGSIZE) n va.
Proof.
  intros. unfold in_range. replace ((a + PGSIZE) / PGSIZE) with (a / PGSIZE + 1)
    by (unfold PGSIZE; Z.to_euclidean_division_equations; lia). lia.
Qed.

Lemma in_range_1 a va : 0 ≤ a < 2 ^ 38 → in_range a 1 va ↔ vpn va = vpn a.
Proof. intros. unfold in_range. rewrite (vpn_small a) by done. lia. Qed.

Lemma to_share_0 s a va : to_share s Tp a 0 va = false.
Proof. unfold to_share. rewrite bool_decide_eq_false_2; [done|]. apply in_range_0. Qed.

(** Nothing to share. *)
Lemma shared_none s l Tc a n :
  shareable s l Tc a n → (∀ va, 0 ≤ va → to_share s Tp a n va = false) → mapped (mem s) Tp a n = [] →
  shared s l Tc a n s l Tc.
Proof.
  intros [] Hno Hnil. split; try done; auto.
  - intros va Hva. by rewrite Hno.
  - intros va Hva. by rewrite Hno.
  - intros q _ _ _. rewrite Hnil. unfold occ. simpl. lia.
Qed.

(** Parent and child after the parent's entry was rewritten. *)
Lemma share_parent_step s l Tc a p pa f :
  shareable s l Tc a 1 → 0 ≤ a < 2 ^ 38 → Tp !! vpath a = Some p → leaf (mem s) Tp a = mk_pte pa f →
  flag_word f → pte_page pa →
  let s1 := if has f PTE_W then with_leaf p a (mk_pte pa (cow_flags f)) s else s in
  ustep rg rp (λ _, False) (λ _, 0) (upd a (mk_pte pa (cow_flags f))) s l Tp s1 l Tp ∧
  vok rg s1 l rch Tc ∧ ∀ va, leaf (mem s1) Tc va = leaf (mem s) Tc va.
Proof.
  intros Hsh Ha Hp Hleaf Hf Hpa s1. pose proof Hsh as [Hok Hasc Hap _ _ _ _].
  assert (ustep rg rp (λ _, False) (λ _, 0) (upd a (mk_pte pa (cow_flags f))) s l Tp s1 l Tp) as Hv.
  { unfold s1. destruct (has f PTE_W) eqn:HW.
    - apply ustep_leaf; [done|lia|done|]. apply mk_pte_bound; [done|by apply cow_flags_word].
    - eapply ustep_weaken; [by apply ustep_refl|done|done|]. intros va Hva. unfold keep, upd.
      destruct (decide (vpn va = vpn a)); [|done].
      rewrite (leaf_vpn _ _ va a), Hleaf by (done || lia). unfold cow_flags. by rewrite HW. }
  split; [done|]. pose proof (us_ok _ _ _ _ _ _ _ _ _ _ _ Hv) as [Hk1 Hr1 _]. split.
  - split; [done|done|]. eapply other_aspace; [exact Hv|done|done|by (intros; split; [intros []|])|done].
  - intros va. eapply (other_leaf _ _ _ _ _ _ _ _ _ _ _ Hv); [exact Hasc|done|by (intros; split; [intros []|])|done].
Qed.

(** One shared page: entry rewritten, mapped in the child, counted. *)
Lemma wp_share_page s l Tc a p pa f (Q : Z + Z → machine → Prop) :
  shareable s l Tc a 1 → page_aligned a → 0 ≤ a → a + PGSIZE < 2 ^ 38 → Tp !! vpath a = Some p →
  leaf (mem s) Tp a = mk_pte pa f → flag_word f → has f PTE_V = true →
  live rg s pa → ¬ node Tp pa → ¬ node Tc pa → rc s pa < 255 →
  (∀ s' l' Tc', shared s l Tc a 1 s' l' Tc' → Q (inl (a + PGSIZE)) s') →
  wp (when (has f PTE_W) (store64 (p + 8 * PX 0 a) (Z.lor (PA2PTE pa) (cow_flags f)));;
      r ← mappages rch a PGSIZE pa (cow_flags f);
      if negb (r =? 0) then mret (inr (-1)) else kref_inc pa;; mret (inl (u64 (a + PGSIZE)))) Q s.
Proof.
  intros Hsh Hal Ha Hb Hp Hleaf Hf HV Hlive Hnp Hnc Hcnt HQ.
  pose proof Hsh as [Hok Hasc Hap Hsup Huser Hblank Hpaths].
  assert (0 ≤ a < 2 ^ 38) as Hab by (unfold PGSIZE in *; lia).
  assert (∀ va, in_range a 1 va ↔ vpn va = vpn a) as Hir by (intros; by apply in_range_1).
  pose proof Hlive as [Hm Hpos]. assert (pte_page pa) as Hpg by (by eapply ram_pte_page, managed_ram).
  pose proof (cow_flags_word f Hf) as Hcf. pose proof (mk_pte_bound pa _ Hpg Hcf) as Hbnd.
  destruct (share_parent_step s l Tc a p pa f Hsh Hab Hp Hleaf Hf Hpg) as (Hv1 & Hok1 & Hl1).
  set (s1 := if has f PTE_W then _ else s) in *.
  assert (wp (mappages rch a PGSIZE pa (cow_flags f)) (λ r s2, wp (if negb (r =? 0) then mret (inr (-1))
    else kref_inc pa;; mret (inl (u64 (a + PGSIZE)))) Q s2) s1) as Hrest.
  2: { pose proof Hok as [_ _ Has]. pose proof (node_ram _ _ _ _ _ _ Has Hp) as Hnr.
    wp_steps. apply wp_when; intros HW.
    - apply wp_store64; [by apply slot_in_ram, PX_idx|].
      rewrite lor_pa2pte, (u64_small (mk_pte pa (cow_flags f))) by done. wp_steps.
      revert Hrest. unfold s1. by rewrite HW.
    - wp_steps. revert Hrest. unfold s1. by rewrite HW. }
  eapply wp_mappages with (P := P) (n := 1) (l := l) (T := Tc); try done; try (unfold PGSIZE in *; lia).
  { apply managed_ram in Hm. unfold ram_page, PHYSTOP, PGSIZE in *. lia. }
  { intros i Hi. assert (i = 0) as -> by lia. rewrite Z.mul_0_r, Z.add_0_r. rewrite Hl1.
    split; [apply Hblank; [done|by apply Hir]|]. intros k. apply Hpaths; [done|by apply Hir]. }
  intros s2 l2 Tc2 Hv2. pose proof (vs_ok _ _ _ _ _ _ _ _ _ _ Hv2) as [Hk2 Hr2 Has2].
  rewrite perm_flags_has_V in Hv2 by (try rewrite cow_flags_V; done).
  change (negb (0 =? 0)) with false. cbv iota.
  pose proof (vstep_ustep _ _ _ _ _ _ _ _ _ _ Hv2) as Hu2.
  destruct (us_ok _ _ _ _ _ _ _ _ _ _ _ Hv1) as [_ _ Hasp1].
  assert (apart Tp Tc) as Hap' by (intros q Hq Hq'; by apply (Hap q)).
  assert (aspace rg s2 rp Tp) as Hasp2 by (eapply other_aspace; [exact Hu2|exact Hasp1|exact Hap'|by (intros; split; [intros []|])|done]).
  assert (∀ va, leaf (mem s2) Tp va = leaf (mem s1) Tp va) as Hl2.
  { intros va. eapply (other_leaf _ _ _ _ _ _ _ _ _ _ _ Hu2); [exact Hasp1|exact Hap'|by (intros; split; [intros []|])|done]. }
  assert (apart Tp Tc2) as Hap2 by (eapply other_apart; [exact Hu2|exact Hasp1|exact Hap'|by (intros; split; [intros []|])]).
  assert (∀ q, node Tc2 q → node Tc q ∨ rc s q = 0) as Hfresh.
  { intros q Hq. destruct (vs_fresh _ _ _ _ _ _ _ _ _ _ Hv2 q Hq) as [|Hz]; [by left|].
    destruct (as_live _ _ _ _ Has2 q Hq) as [Hmq _].
    rewrite (us_rc _ _ _ _ _ _ _ _ _ _ _ Hv1) in Hz; [right; lia|by eapply managed_aligned|].
    intros Hn. by apply (Hap2 q). }
  assert (¬ node Tc2 pa) as Hnc2 by (intros [|]%Hfresh; [done|lia]).
  assert (∀ q, page_aligned q → ¬ node Tp q → ¬ node Tc2 q → rc s2 q = rc s q) as Hrc2.
  { intros q Hq Hn1 Hn2. rewrite (us_rc _ _ _ _ _ _ _ _ _ _ _ Hu2), (us_rc _ _ _ _ _ _ _ _ _ _ _ Hv1); [lia|done..]. }
  assert (rc s2 pa = rc s pa) as Hrcpa by (apply Hrc2; [by eapply managed_aligned|done|done]).
  wp_steps. eapply (wp_kref_inc_user rg s2 l2 rp Tp pa); [by split|split; [done|lia]|done|lia|].
  intros s3 Hv3. wp_steps. rewrite u64_small by (unfold PGSIZE in *; lia).
  assert (∀ q, node Tc2 q → ¬ False ∧ only pa 1 q = 0) as HW3.
  { intros q Hq. split; [by intros []|]. unfold only. by rewrite decide_False by (by intros ->). }
  assert (apart Tc2 Tp) as Hap2' by (intros q Hq Hq'; by apply (Hap2 q)).
  assert (∀ va, leaf (mem s3) Tc2 va = leaf (mem s2) Tc2 va) as Hl3.
  { intros va. eapply (other_leaf _ _ _ _ _ _ _ _ _ _ _ Hv3); [exact Has2|exact Hap2'|done|done]. }
  assert (∀ va, 0 ≤ va → to_share s Tp a 1 va = bool_decide (vpn va = vpn a)) as Hts.
  { intros va Hva. unfold to_share. destruct (decide (vpn va = vpn a)) as [E|E].
    - rewrite !bool_decide_eq_true_2 by (done || by apply Hir).
      by rewrite (leaf_vpn _ _ va a), Hleaf, has_mk_pte, HV by done.
    - rewrite !bool_decide_eq_false_2; [done|done|by rewrite Hir]. }
  assert (∀ va, 0 ≤ va → vpn va = vpn a → cow_entry (leaf (mem s) Tp va) = mk_pte pa (cow_flags f)) as Hce.
  { intros va Hva E. unfold cow_entry. by rewrite (leaf_vpn _ _ va a), Hleaf, pte2pa, pte_flags_mk by done. }
  assert (mapped (mem s) Tp a 1 = [pa]) as Hmap.
  { cbn [mapped]. by rewrite Hleaf, has_mk_pte, HV, pte2pa, app_nil_r by done. }
  apply (HQ s3 l2 Tc2). split.
  - apply (us_ok _ _ _ _ _ _ _ _ _ _ _ Hv3).
  - eapply other_aspace; [exact Hv3|done|done|exact HW3|done].
  - done.
  - by eapply supply_vstep.
  - apply (vs_sub _ _ _ _ _ _ _ _ _ _ Hv2).
  - done.
  - intros va Hva. rewrite (us_leaf _ _ _ _ _ _ _ _ _ _ _ Hv3), Hl2, (us_leaf _ _ _ _ _ _ _ _ _ _ _ Hv1) by done.
    unfold keep, upd. rewrite Hts by done. destruct (decide (vpn va = vpn a)) as [E|E].
    + by rewrite bool_decide_eq_true_2, Hce by done.
    + by rewrite bool_decide_eq_false_2 by done.
  - intros va Hva. rewrite Hl3, (vs_leaf _ _ _ _ _ _ _ _ _ _ Hv2), Hl1 by done.
    rewrite upds_upd by done. unfold upd. rewrite Hts by done. destruct (decide (vpn va = vpn a)) as [E|E].
    + by rewrite bool_decide_eq_true_2, Hce by done.
    + by rewrite bool_decide_eq_false_2 by done.
  - intros q Hq Hn1 Hn2. rewrite (us_rc _ _ _ _ _ _ _ _ _ _ _ Hv3), Hrc2 by done. by rewrite Hmap, occ_single.
  - intros x Hx. rewrite (us_frame _ _ _ _ _ _ _ _ _ _ _ Hv3), (us_frame _ _ _ _ _ _ _ _ _ _ _ Hu2),
      (us_frame _ _ _ _ _ _ _ _ _ _ _ Hv1); [done|..]; intros q [Hq|[]]; auto.
  - etrans; [apply (us_hw _ _ _ _ _ _ _ _ _ _ _ Hv1)|].
    etrans; [apply (us_hw _ _ _ _ _ _ _ _ _ _ _ Hu2)|apply (us_hw _ _ _ _ _ _ _ _ _ _ _ Hv3)].
Qed.

Section share_step.
Context (s : machine) (l : list Z) (Tc : gmap (list Z) Z) (a : Z) (n : nat).
Context (Hal : page_aligned a) (Ha : 0 ≤ a) (Hb : a + PGSIZE * Z.of_nat (S n) < 2 ^ 38).
Context (s1 : machine) (l1 : list Z) (Tc1 : gmap (list Z) Z) (H1 : shared s l Tc a 1 s1 l1 Tc1).

Lemma ranges_disjoint va : in_range a 1 va → ¬ in_range (a + PGSIZE) n va.
Proof.
  unfold in_range. replace ((a + PGSIZE) / PGSIZE) with (a / PGSIZE + 1)
    by (unfold PGSIZE; Z.to_euclidean_division_equations; lia). lia.
Qed.

Lemma to_share_split va :
  0 ≤ va → to_share s Tp a (S n) va = to_share s Tp a 1 va || to_share s1 Tp (a + PGSIZE) n va ∧
    (to_share s Tp a 1 va = true → to_share s1 Tp (a + PGSIZE) n va = false) ∧
    (in_range (a + PGSIZE) n va → leaf (mem s1) Tp va = leaf (mem s) Tp va).
Proof.
  intros Hva. pose proof (sh_parent_leaf _ _ _ _ _ _ _ _ H1 va Hva) as Hl. unfold to_share in *.
  pose proof (ranges_disjoint va) as Hd. pose proof (in_range_split a n va Hal Ha) as Hs.
  destruct (decide (in_range a 1 va)) as [E1|E1]; destruct (decide (in_range (a + PGSIZE) n va)) as [E2|E2].
  - by apply Hd in E2.
  - rewrite (bool_decide_eq_true_2 (in_range a 1 va)), (bool_decide_eq_false_2 (in_range (a + PGSIZE) n va)),
      bool_decide_eq_true_2 in * by (tauto || done). simpl. rewrite orb_false_r. done.
  - rewrite (bool_decide_eq_false_2 (in_range a 1 va)), (bool_decide_eq_true_2 (in_range (a + PGSIZE) n va)),
      bool_decide_eq_true_2 in * by (tauto || done). simpl in *. by rewrite Hl.
  - rewrite (bool_decide_eq_false_2 (in_range a 1 va)), (bool_decide_eq_false_2 (in_range (a + PGSIZE) n va)),
      bool_decide_eq_false_2 in * by (tauto || done). done.
Qed.

Lemma mapped_step :
  mapped (mem s1) Tp (a + PGSIZE) n = mapped (mem s) Tp (a + PGSIZE) n ∧
  mapped (mem s) Tp a (S n) = mapped (mem s) Tp a 1 ++ mapped (mem s) Tp (a + PGSIZE) n.
Proof.
  split; [|cbn [mapped]; by rewrite app_nil_r]. apply mapped_ext. intros i Hi.
  apply to_share_split; [unfold PGSIZE; lia|]. unfold in_range.
  replace (a + PGSIZE + PGSIZE * Z.of_nat i) with (a + PGSIZE * (Z.of_nat i + 1)) by lia.
  rewrite vpn_step by (unfold PGSIZE in *; done || lia).
  replace ((a + PGSIZE) / PGSIZE) with (a / PGSIZE + 1)
    by (unfold PGSIZE; Z.to_euclidean_division_equations; lia). lia.
Qed.

Lemma shareable_rest : shareable s l Tc a (S n) → shareable s1 l1 Tc1 (a + PGSIZE) n.
Proof.
  intros [Hok Hasc Hap Hsup Huser Hblank Hpaths]. pose proof H1 as [G1 G2 G3 G4 G5 G6 G7 G8 G9 G10 G11].
  destruct mapped_step as [Em1 Em2].
  assert (∀ va, in_range (a + PGSIZE) n va → in_range a (S n) va) as Hsub.
  { intros va ?. apply in_range_split; auto. }
  split; try done.
  - intros va Hva Hts. destruct (to_share_split va Hva) as (E1 & _ & E3).
    assert (in_range (a + PGSIZE) n va) as Hir.
    { unfold to_share in Hts. apply andb_true_iff in Hts as [Hts _]. by apply bool_decide_eq_true in Hts. }
    rewrite Hts, orb_true_r in E1. destruct (Huser va Hva E1) as (pa & f & He & Hf & [Hm Hpos] & Hn1 & Hn2 & Hrc).
    assert (¬ node Tc1 pa) as Hn3 by (intros [|]%G6; [done|lia]).
    assert (rc s1 pa = rc s pa + occ pa (mapped (mem s) Tp a 1)) as Hrc1.
    { apply G9; [by eapply managed_aligned|done|done]. }
    pose proof (occ_nonneg pa (mapped (mem s) Tp a 1)). rewrite Em2, occ_app in Hrc.
    exists pa, f. rewrite E3 by done. rewrite Em1. split_and!; try done; [split; [done|lia]|lia].
  - intros va Hva Hir. rewrite G8 by done.
    assert (to_share s Tp a 1 va = false) as ->; [|by apply Hblank; auto].
    unfold to_share. rewrite bool_decide_eq_false_2; [done|]. intros Hir'. by apply (ranges_disjoint va).
  - intros va k Hva Hir. apply Hpaths; auto.
Qed.

Lemma shared_trans s2 l2 Tc2 :
  kinv rg s l → shared s1 l1 Tc1 (a + PGSIZE) n s2 l2 Tc2 → shared s l Tc a (S n) s2 l2 Tc2.
Proof.
  intros Hk [K1 K2 K3 K4 K5 K6 K7 K8 K9 K10 K11]. pose proof H1 as [G1 G2 G3 G4 G5 G6 G7 G8 G9 G10 G11].
  destruct mapped_step as [Em1 Em2].
  assert (∀ q, ¬ node Tc2 q → ¬ node Tc1 q) as Hnn by (intros q Hn Hq; apply Hn; by eapply node_sub).
  split; try done.
  - by etrans.
  - intros p Hp. destruct (K6 p Hp) as [Hp1|Hz]; [by apply G6|].
    pose proof (as_live _ _ _ _ K2 p Hp) as [Hm _].
    rewrite G9 in Hz; [|by eapply managed_aligned|by apply K3|].
    + right. pose proof (occ_nonneg p (mapped (mem s) Tp a 1)). pose proof (kinv_rc _ _ _ Hk p). lia.
    + intros [_ ?]%(as_live _ _ _ _ G2). lia.
  - intros va Hva. destruct (to_share_split va Hva) as (-> & E2 & E3). rewrite K7, G7 by done.
    destruct (to_share s Tp a 1 va); [by rewrite E2|]. done.
  - intros va Hva. destruct (to_share_split va Hva) as (-> & E2 & E3). rewrite K8, G8, G7 by done.
    destruct (to_share s Tp a 1 va); [by rewrite E2|]. done.
  - intros q Hq Hn1 Hn2. rewrite K9, G9, Em1, Em2, occ_app by auto. lia.
  - intros x Hx. rewrite K10 by done. apply G10. intros p [Hp|Hp]; apply Hx; [by left|right].
    by eapply node_sub.
  - by etrans.
Qed.
End share_step.

Lemma wp_cow_share_body s l Tc a end_ (Q : Z + Z → machine → Prop) :
  shareable s l Tc a 1 → page_aligned a → 0 ≤ a < end_ → end_ + PGSIZE < 2 ^ 38 →
  (∀ s' l' Tc', shared s l Tc a 1 s' l' Tc' → Q (inl (a + PGSIZE)) s') →
  wp (cow_share_body rp rch end_ a) Q s.
Proof.
  intros Hsh Hal Ha Hb HQ. pose proof Hsh as [Hok _ _ _ Huser _ _]. unfold cow_share_body.
  rewrite (proj2 (Z.ltb_lt a end_)) by lia.
  assert (∀ va, in_range a 1 va ↔ vpn va = vpn a) as Hir by (intros; apply in_range_1; unfold PGSIZE in *; lia).
  assert (has (leaf (mem s) Tp a) PTE_V = false → Q (inl (u64 (a + PGSIZE))) s) as Hskip.
  { intros HV. rewrite u64_small by (unfold PGSIZE in *; lia). apply (HQ s l Tc), shared_none; [done| |].
    - intros va Hva. unfold to_share. case_bool_decide as E; [|done].
      by rewrite (leaf_vpn _ _ va a), HV by (lia || by apply Hir).
    - cbn [mapped]. by rewrite HV. }
  wp_steps. eapply wp_walk_ro; [done|]. destruct (Tp !! vpath a) as [p|] eqn:Hp.
  2: { wp_steps. rewrite Z.eqb_refl. wp_steps. apply Hskip. unfold leaf. rewrite Hp. apply has_0. }
  pose proof Hok as [_ _ Has]. pose proof (ram_page_pos _ (node_ram _ _ _ _ _ _ Has Hp)).
  pose proof (PX_idx 0 a). destruct (Z.eqb_spec (p + 8 * PX 0 a) 0); [lia|].
  wp_steps. eapply wp_load_pte; [done..|]. wp_steps. cbn [orb].
  assert (leaf (mem s) Tp a = pte_at (mem s) p (PX 0 a)) as Hleaf by (unfold leaf; by rewrite Hp).
  rewrite <- Hleaf. destruct (has (leaf (mem s) Tp a) PTE_V) eqn:HV; cbn [negb]; [|wp_steps; by apply Hskip].
  destruct (Huser a) as (pa & f & He & Hf & Hlive & Hn1 & Hn2 & Hrc); [lia| |].
  { unfold to_share. rewrite bool_decide_eq_true_2 by (by apply Hir). done. }
  assert (pte_page pa) as Hpg by (eapply ram_pte_page, managed_ram, Hlive).
  rewrite He in HV |- *. rewrite has_mk_pte in HV by done. rewrite pte2pa, pte_flags_mk by done.
  cbv zeta. change (if has f PTE_W then _ else f) with (cow_flags f).
  apply (wp_share_page s l Tc a p pa f); try done; [lia|unfold PGSIZE in *; lia|].
  assert (mapped (mem s) Tp a 1 = [pa]) as Hmap.
  { cbn [mapped]. by rewrite He, has_mk_pte, HV, pte2pa, app_nil_r by done. }
  rewrite Hmap, occ_single in Hrc. unfold only in Hrc. rewrite decide_True in Hrc by done. lia.
Qed.

Lemma wp_cow_share_loop n fuel s l Tc a end_ (Q : Z → machine → Prop) :
  shareable s l Tc a n → page_aligned a → 0 ≤ a → end_ + PGSIZE < 2 ^ 38 → (n < fuel)%nat →
  a + PGSIZE * (Z.of_nat n - 1) < end_ ∨ n = 0%nat → end_ ≤ a + PGSIZE * Z.of_nat n →
  (∀ s' l' Tc', shared s l Tc a n s' l' Tc' → wp sfence_vma (λ _, Q 0) s') →
  wp (loop fuel (cow_share_body rp rch end_) a) Q s.
Proof.
  revert fuel s l Tc a Q. induction n as [|n IH]; intros fuel s l Tc a Q Hsh Hal Ha Hb Hf He1 He2 HQ;
    (destruct fuel as [|fuel]; [lia|]); rewrite loop_S; wp_steps.
  - unfold cow_share_body. rewrite (proj2 (Z.ltb_ge a end_)) by lia. wp_steps.
    eapply wp_mono; [eapply HQ, shared_none; [done|intros; apply to_share_0|done]|].
    intros [] s' Hs'. by wp_steps.
  - destruct He1 as [He1|]; [|done]. apply (wp_cow_share_body s l Tc); try done; [|unfold PGSIZE in *; lia|].
    { destruct Hsh as [H1 H2 H3 H4 H5 H6 H7]. split; try done.
      - intros va Hva Hts. destruct (H5 va Hva) as (pa & f & E1 & E2 & E3 & E4 & E5 & E6).
        + unfold to_share in *. apply andb_true_iff in Hts as [Hts ->]. apply bool_decide_eq_true in Hts.
          rewrite bool_decide_eq_true_2; [done|]. apply in_range_split; auto.
        + exists pa, f. split_and!; try done. cbn [mapped] in *. rewrite app_nil_r, occ_app in *.
          pose proof (occ_nonneg pa (mapped (mem s) Tp (a + PGSIZE) n)). lia.
      - intros va Hva Hir. apply H6; [done|]. apply in_range_split; auto.
      - intros va k Hva Hir. apply H7; [done|]. apply in_range_split; auto. }
    intros s1 l1 Tc1 Hs1. assert (a + PGSIZE * Z.of_nat (S n) < 2 ^ 38) as Hb' by (unfold PGSIZE in *; lia).
    apply (IH fuel s1 l1 Tc1).
    + by apply (shareable_rest s l Tc a n).
    + unfold page_aligned, PGSIZE in *. Z.to_euclidean_division_equations. lia.
    + unfold PGSIZE in *. lia.
    + done.
    + lia.
    + unfold PGSIZE in *. lia.
    + unfold PGSIZE in *. lia.
    + intros s2 l2 Tc2 Hs2. eapply HQ, shared_trans; try done. apply (sb_parent _ _ _ _ _ Hsh).
Qed.
End share.

Lemma cow_flags_no_W f : flag_word f → has (cow_flags f) PTE_W = false.
Proof.
  intros Hf. unfold cow_flags. destruct (has f PTE_W) eqn:HW; [|done].
  change PTE_W with (2 ^ 2). rewrite has_testbit, Z.lor_spec, Z.land_spec by done.
  change (Z.testbit PTE_COW 2) with false. change (Z.testbit (u64 (Z.lnot (2 ^ 2))) 2) with false.
  by rewrite andb_false_r.
Qed.

Lemma in_range_pages start end_ va :
  page_aligned start → 0 ≤ start → in_range start (page_count start end_) va ↔ start ≤ vpage va < end_.
Proof.
  intros. unfold in_range, page_count, vpage. pose proof (vpn_nonneg va).
  unfold page_aligned, PGSIZE in *. Z.to_euclidean_division_equations. lia.
Qed.

(** C11: sharing a range with a child ([fork]). With pages enough for the child's
    tables, [uvm_cow_share] returns 0. Every page the parent had mapped in the
    range is then mapped by both address spaces at the same address to the same
    physical page, writable in neither (a page that was writable is marked
    copy-on-write), with one more reference per sharing; outside the range both
    address spaces translate as before; and no byte outside the two sets of
    tables changed, so the contents of every user page are those of before. *)
Theorem cow_share_shares rg rp rch Tp P s l Tc start end_ :
  shareable rg rp rch Tp P s l Tc start (page_count start end_) →
  page_aligned start → 0 ≤ start → end_ + PGSIZE < 2 ^ 38 →
  ∃ s' l' Tc', uvm_cow_share rp rch start end_ s = Done 0 s' ∧
    vok rg s' l' rp Tp ∧ vok rg s' l' rch Tc' ∧ apart Tc' Tp ∧ Tc ⊆ Tc' ∧
    (∀ va e, start ≤ vpage va < end_ → 0 ≤ va → sv39 (mem s) rp va = Some e →
       sv39 (mem s') rp va = Some (cow_entry e) ∧ sv39 (mem s') rch va = Some (cow_entry e) ∧
       PTE2PA (cow_entry e) = PTE2PA e ∧ has (cow_entry e) PTE_W = false ∧
       (has e PTE_W = true → has (cow_entry e) PTE_COW = true)) ∧
    (∀ va, 0 ≤ va → ¬ (start ≤ vpage va < end_) ∨ sv39 (mem s) rp va = None →
       sv39 (mem s') rp va = sv39 (mem s) rp va ∧ sv39 (mem s') rch va = sv39 (mem s) rch va) ∧
    (∀ q, page_aligned q → ¬ node Tp q → ¬ node Tc' q →
       rc s' q = rc s q + occ q (mapped (mem s) Tp start (page_count start end_))) ∧
    (∀ x, (∀ p, node Tp p ∨ node Tc' p → ¬ in_page p x) → ld8 (mem s') x = ld8 (mem s) x).
Proof.
  intros Hsh Hal Hs Hb.
  cut (wp (uvm_cow_share rp rch start end_) (λ r s', r = 0 ∧ ∃ s1 l' Tc', mem s' = mem s1 ∧ km s' = km s1 ∧ spin_of s' = spin_of s1 ∧
    shared rg rp rch Tp P s l Tc start (page_count start end_) s1 l' Tc') s).
  { intros (r & s' & Hrun & -> & s1 & l' & Tc' & Em & Ek & Esp & Hd)%wp_run.
    pose proof Hsh as [[Hk Hr Hasp] Hasc Hap _ Huser _ _].
    pose proof Hd as [[Hk1 Hr1 Hasp1] Hasc1 Hap1 _ Hsub _ Hlp Hlc Hrc Hfr _].
    assert (∀ r T, aspace rg s1 r T → aspace rg s' r T) as Has.
    { intros r T [A1 A2 A3]. split; [done|by rewrite Em|]. intros p Hp. unfold rc. rewrite Ek. by apply A3. }
    assert (kinv rg s' l') as Hk' by (apply (kinv_ext rg s1); [done|by rewrite Em|done]).
    assert (ready s') as Hr' by (unfold ready; by rewrite Esp).
    assert (∀ va, sv39 (mem s) rp va = valid_entry (leaf (mem s) Tp va) ∧
      sv39 (mem s) rch va = valid_entry (leaf (mem s) Tc va) ∧
      sv39 (mem s') rp va = valid_entry (leaf (mem s1) Tp va) ∧
      sv39 (mem s') rch va = valid_entry (leaf (mem s1) Tc' va)) as Hview.
    { intros va. rewrite Em. unfold valid_entry.
      by rewrite (sv39_leaf _ _ _ _ (as_rep _ _ _ _ Hasp) (as_root _ _ _ _ Hasp)),
        (sv39_leaf _ _ _ _ (as_rep _ _ _ _ Hasc) (as_root _ _ _ _ Hasc)),
        (sv39_leaf _ _ _ _ (as_rep _ _ _ _ Hasp1) (as_root _ _ _ _ Hasp1)),
        (sv39_leaf _ _ _ _ (as_rep _ _ _ _ Hasc1) (as_root _ _ _ _ Hasc1)). }
    exists s', l', Tc'. split_and!; try done; [by split; auto..| | | |].
    - intros va e Hva Hva0. destruct (Hview va) as (-> & _ & -> & ->). rewrite Hlp, Hlc by done.
      unfold valid_entry at 1. destruct (has (leaf (mem s) Tp va) PTE_V) eqn:HV; [|done]. intros [= <-].
      assert (to_share s Tp start (page_count start end_) va = true) as Hts.
      { unfold to_share. rewrite bool_decide_eq_true_2 by (by apply in_range_pages). done. }
      rewrite Hts. destruct (Huser va Hva0 Hts) as (pa & f & He & Hf & [Hm _] & _).
      assert (pte_page pa) as Hpg by (by eapply ram_pte_page, managed_ram).
      rewrite He in HV |- *. rewrite has_mk_pte in HV by done.
      unfold cow_entry. rewrite pte2pa, pte_flags_mk by done.
      rewrite valid_mk_pte by (try apply cow_flags_word; try rewrite cow_flags_V; done).
      rewrite pte2pa, !has_mk_pte by (done || by apply cow_flags_word).
      split_and!; try done; [by apply cow_flags_no_W|]. intros HW. unfold cow_flags. rewrite HW.
      change PTE_COW with (2 ^ 8). rewrite has_testbit, Z.lor_spec by done. apply orb_true_r.
    - intros va Hva Hno. destruct (Hview va) as (Ep & -> & -> & ->). rewrite Hlp, Hlc by done.
      assert (to_share s Tp start (page_count start end_) va = false) as ->; [|by rewrite Ep].
      unfold to_share. case_bool_decide as E; [|done]. simpl. destruct Hno as [Hno|Hno].
      + by apply in_range_pages in E.
      + rewrite Ep in Hno. unfold valid_entry in Hno. by destruct (has _ _).
    - intros q Hq Hn1 Hn2. unfold rc at 1. rewrite Ek. by apply Hrc.
    - intros x Hx. rewrite Em. by apply Hfr. }
  unfold uvm_cow_share. eapply (wp_cow_share_loop rg rp rch Tp P (page_count start end_)); try done.
  - unfold page_count, PGSIZE. Z.to_euclidean_division_equations. lia.
  - unfold page_count, PGSIZE. Z.to_euclidean_division_equations. lia.
  - unfold page_count, PGSIZE. Z.to_euclidean_division_equations. lia.
  - intros s1 l1 Tc1 H1. unfold sfence_vma. wp_steps. split; [done|]. by exists s1, l1, Tc1.
Qed.

(** ** Witnesses on a small address space *)

Lemma demo_mapped (s : machine) (T : gmap (list Z) Z) q :
  pte_page q → (∀ va, 0 ≤ va → leaf (mem s) T va = upd HEAPBASE (mk_pte q URW) va 0) →
  mapped (mem s) T HEAPBASE 2 = [q].
Proof.
  intros Hq Hl. cbn [mapped]. rewrite !Hl by (unfold HEAPBASE, PGSIZE; lia). unfold upd.
  rewrite decide_True by done. rewrite decide_False by done. by rewrite has_mk_pte, pte2pa by done.
Qed.

Lemma mapped_one m T a q : pte_page q → leaf m T a = mk_pte q URW → mapped m T a 1 = [q].
Proof. intros Hq Hl. cbn [mapped]. rewrite Hl. by rewrite has_mk_pte, pte2pa by done. Qed.

Lemma vm_free_range_drops_witness :
  ∃ s root s', vm_free_range root HEAPBASE (HEAPBASE + 5000) s = Done tt s' ∧
    is_Some (sv39 (mem s) root HEAPBASE) ∧ sv39 (mem s') root HEAPBASE = None.
Proof.
  destruct demo_space as (rg & s & l & root & T & q & Hok & Hlive & Hone & Hn & Hleaf & _).
  pose proof (ram_pte_page _ (managed_ram _ _ (proj1 Hlive))) as Hpq.
  assert (page_count HEAPBASE (HEAPBASE + 5000) = 2%nat) as Hn2 by reflexivity.
  destruct (vm_free_range_drops rg root T s l HEAPBASE (HEAPBASE + 5000)) as (s' & l' & H1 & _ & H2 & _);
    [exact Hok|reflexivity|unfold HEAPBASE; lia|unfold HEAPBASE, PGSIZE; lia| |].
  - rewrite Hn2, (demo_mapped s T q Hpq Hleaf). intros p Hp. apply list_elem_of_singleton in Hp as ->.
    split; [exact (proj1 Hlive)|]. split; [exact Hn|]. rewrite occ_single, Hone. unfold only.
    rewrite decide_True by reflexivity. lia.
  - exists s, root, s'. split; [exact H1|]. rewrite H2 by (unfold HEAPBASE; lia). split; [|reflexivity].
    destruct Hok as [_ _ [R1 R2 _]]. rewrite (sv39_leaf _ _ _ _ R2 R1), Hleaf by (unfold HEAPBASE; lia).
    unfold upd. rewrite decide_True by reflexivity. rewrite has_mk_pte by done. by eexists.
Defined.

(** The same space with the page marked copy-on-write. *)
Lemma demo_cow :
  ∃ rg s l root T q, vok rg s l root T ∧ live rg s q ∧ ¬ node T q ∧ (70 ≤ length l)%nat ∧
    leaf (mem s) T HEAPBASE = mk_pte q (cow_flags URW).
Proof.
  destruct demo_space as (rg & s & l & root & T & q & Hok & Hlive & Hone & Hn & Hleaf & Hlen).
  pose proof (ram_pte_page _ (managed_ram _ _ (proj1 Hlive))) as Hpq.
  pose proof Hok as [_ _ Has].
  assert (is_Some (T !! vpath HEAPBASE)) as [p Hp].
  { specialize (Hleaf HEAPBASE ltac:(unfold HEAPBASE; lia)). unfold leaf, upd in Hleaf.
    rewrite decide_True in Hleaf by done. destruct (T !! vpath HEAPBASE); [done|]. unfold mk_pte, URW in Hleaf.
    destruct Hpq as [_ ?]. unfold PGSIZE in *. exfalso. Z.to_euclidean_division_equations. lia. }
  pose proof (vstep_leaf rg root (λ _, False) s l T HEAPBASE p (mk_pte q (cow_flags URW)) Hok
    ltac:(unfold HEAPBASE; lia) Hp (mk_pte_bound q (cow_flags URW) Hpq ltac:(done))) as Hv.
  exists rg, (with_leaf p HEAPBASE (mk_pte q (cow_flags URW)) s), l, root, T, q.
  split_and!; try done.
  - apply (vs_ok _ _ _ _ _ _ _ _ _ _ Hv).
  - rewrite (vs_leaf _ _ _ _ _ _ _ _ _ _ Hv) by (unfold HEAPBASE; lia). unfold upd. by rewrite decide_True.
Qed.

(** A second, empty address space next to the first. *)
Lemma second_space rg s p l root T :
  vok rg s (p :: l) root T →
  let s' := fresh_table p s in
  vok rg s' l root T ∧ vok rg s' l p {[ [] := p ]} ∧ apart {[ [] := p ]} T ∧
  (∀ va, leaf (mem s') T va = leaf (mem s) T va) ∧ (∀ va, 0 ≤ va → leaf (mem s') {[ [] := p ]} va = 0) ∧
  (∀ q, live rg s q → live rg s' q ∧ rc s' q = rc s q ∧ q ≠ p).
Proof.
  intros [Hk Hr Has] s'. pose proof (fresh_managed _ _ _ _ Hk) as [Hm Hz].
  pose proof (new_root_vstep rg s p l Hk Hr (λ _, True) I) as Hv. fold s' in Hv.
  pose proof (vstep_ustep _ _ _ _ _ _ _ _ _ _ Hv) as Hu.
  assert (∀ r, node {[ [] := p ]} r → r = p) as Hnode by (by intros r [k [_ <-]%lookup_singleton_Some]).
  assert (apart T (∅ : gmap (list Z) Z)) as Hap by (intros r _ [k E]; by rewrite lookup_empty in E).
  pose proof (vs_ok _ _ _ _ _ _ _ _ _ _ Hv) as Hok'. pose proof Hok' as [Hk' Hr' _].
  split_and!; try done.
  - split; [done|done|]. eapply other_aspace; [exact Hu|exact Has|exact Hap|by (intros; split; [intros []|])|done].
  - intros r ->%Hnode [_ ?]%(as_live _ _ _ _ Has). lia.
  - intros va. eapply (other_leaf _ _ _ _ _ _ _ _ _ _ _ Hu); [exact Has|exact Hap|by (intros; split; [intros []|])|done].
  - intros va Hva. by rewrite (vs_leaf _ _ _ _ _ _ _ _ _ _ Hv), leaf_empty.
  - intros q [Hmq Hq]. assert (q ≠ p) by (intros ->; lia).
    assert (rc s' q = rc s q) as Heq.
    { apply (vs_rc _ _ _ _ _ _ _ _ _ _ Hv); [by eapply managed_aligned|]. by intros ->%Hnode. }
    split_and!; [split; [done|lia]|done|done].
Qed.

Lemma cow_fault_copies_witness :
  ∃ s root s', uvm_cow_fault root HEAPBASE s = Done 1 s' ∧ is_Some (sv39 (mem s') root HEAPBASE).
Proof.
  destruct demo_cow as (rg & s & l & root & T & q & Hok & Hlive & Hn & Hl & Hleaf).
  destruct l as [|p l]; [simpl in Hl; lia|].
  destruct (second_space _ _ _ _ _ _ Hok) as (Hok1 & [_ _ Has2] & Hap & Hl1 & _ & Hlive1).
  destruct (Hlive1 q Hlive) as (Hlq & _ & Hqp).
  destruct (cow_fault_copies rg root T (fresh_table p s) l HEAPBASE q (cow_flags URW) p {[ [] := p ]})
    as (r & s' & H1 & H2).
  - exact Hok1.
  - unfold HEAPBASE. lia.
  - rewrite Hl1. exact Hleaf.
  - unfold flag_word. split; [apply Z.leb_le|apply Z.ltb_lt]; reflexivity.
  - exact Hlq.
  - exact Hn.
  - exact Has2.
  - exact Hap.
  - intros [k [_ E]%lookup_singleton_Some]. congruence.
  - assert (bool_decide (l ≠ []) = true) as Hb.
    { apply bool_decide_eq_true_2. intros ->. simpl in Hl. lia. }
    rewrite Hb in H2.
    change (has (cow_flags URW) PTE_V && has (cow_flags URW) PTE_COW && true) with true in H2.
    destruct H2 as (-> & x & l' & _ & _ & _ & _ & _ & Hview & _).
    exists (fresh_table p s), root, s'. split; [exact H1|].
    rewrite Hview by (unfold HEAPBASE; lia). rewrite decide_True by reflexivity.
    rewrite valid_mk_pte by done. by eexists.
Defined.

Lemma cow_share_shares_witness :
  ∃ s rp rch s' e, uvm_cow_share rp rch HEAPBASE (HEAPBASE + PGSIZE) s = Done 0 s' ∧
    sv39 (mem s') rp HEAPBASE = Some e ∧ sv39 (mem s') rch HEAPBASE = Some e ∧ has e PTE_W = false.
Proof.
  destruct demo_space as (rg & s & l & root & T & q & Hok & Hlive & Hone & Hn & Hleaf & Hl).
  pose proof (ram_pte_page _ (managed_ram _ _ (proj1 Hlive))) as Hpq.
  destruct l as [|p l]; [simpl in Hl; lia|].
  destruct (second_space _ _ _ _ _ _ Hok) as (Hok1 & [_ _ Has2] & Hap & Hl1 & Hl2 & Hlive1).
  destruct (Hlive1 q Hlive) as (Hlq & Hrcq & Hqp).
  assert (page_count HEAPBASE (HEAPBASE + PGSIZE) = 1%nat) as Hn1 by reflexivity.
  assert (sv39 (mem (fresh_table p s)) root HEAPBASE = Some (mk_pte q URW)) as Hview.
  { destruct Hok1 as [_ _ [R1 R2 _]]. rewrite (sv39_leaf _ _ _ _ R2 R1), Hl1, Hleaf by (unfold HEAPBASE; lia).
    unfold upd. rewrite decide_True by reflexivity. by rewrite has_mk_pte. }
  assert (mapped (mem (fresh_table p s)) T HEAPBASE 1 = [q]) as Hmap.
  { apply mapped_one; [exact Hpq|]. rewrite Hl1, Hleaf by (unfold HEAPBASE; lia). unfold upd.
    by rewrite decide_True by reflexivity. }
  assert (∀ va, in_range HEAPBASE 1 va → 0 ≤ va → vpn va = vpn HEAPBASE) as Hir.
  { intros va Hr _. apply in_range_1 in Hr; [exact Hr|unfold HEAPBASE; lia]. }
  destruct (cow_share_shares rg root p T [[]; [0]; [0; 0]] (fresh_table p s) l {[ [] := p ]} HEAPBASE (HEAPBASE + PGSIZE))
    as (s' & l' & Tc' & H1 & _ & _ & _ & _ & H2 & _).
  - rewrite Hn1. split.
    + exact Hok1.
    + exact Has2.
    + exact Hap.
    + split; [intros k [? [<- _]%lookup_singleton_Some]; apply list_elem_of_here|].
      rewrite map_size_singleton. simpl in Hl |- *. lia.
    + intros va Hva [Hr _]%andb_true_iff. apply bool_decide_eq_true in Hr. exists q, URW.
      rewrite Hl1, Hleaf by exact Hva. unfold upd. rewrite decide_True by (apply Hir; done).
      split_and!; [reflexivity|unfold flag_word, URW; lia|exact Hlq|exact Hn| |].
      * intros [k [_ E]%lookup_singleton_Some]. congruence.
      * rewrite Hrcq, Hone, Hmap, occ_single. unfold only. rewrite decide_True by reflexivity. lia.
    + intros va Hva _. rewrite Hl2 by exact Hva. reflexivity.
    + intros va k Hva Hr Hk. pose proof (vpn_PX_inv va HEAPBASE Hva ltac:(unfold HEAPBASE; lia) (Hir va Hr Hva)) as [E _].
      unfold vpath in E. injection E as E2 E1. destruct Hk as [->| ->]; unfold vpath; rewrite ?E2, ?E1;
        change (PX 2 HEAPBASE) with 0; change (PX 1 HEAPBASE) with 0; rewrite !elem_of_cons; auto.
  - reflexivity.
  - unfold HEAPBASE. lia.
  - unfold HEAPBASE, PGSIZE. lia.
  - exists (fresh_table p s), root, p, s', (cow_entry (mk_pte q URW)). split; [exact H1|].
    destruct (H2 HEAPBASE (mk_pte q URW)) as (E1 & E2 & _ & E3 & _);
      [change (vpage HEAPBASE) with HEAPBASE; unfold PGSIZE; lia|unfold HEAPBASE; lia|exact Hview|].
    split; [exact E1|]. split; [exact E2|exact E3].
Defined.
