(* ===== verification/Teardown.v ===== *)
(** * Freeing the pages of a page table

    [free_pagetable] walks the tables children first: it gives back exactly
    the pages that hold them, none twice, and no page they map. *)
From S2P Require Import Prelude Spinlock Uart Mem Kalloc Vm PageTable AddrSpace.

(** The pages of the tables at and below path [k]. *)
Definition sub (T : gmap (list Z) Z) (k : list Z) (q : Z) : Prop := ∃ k', T !! (k ++ k') = Some q.

(** A last-level entry that is valid is not mistaken for a table. *)
Definition perms_ok (m : gmap Z Z) (T : gmap (list Z) Z) : Prop :=
  ∀ k p i, T !! k = Some p → length k = 2%nat → 0 ≤ i < 512 →
    has (pte_at m p i) PTE_V = true → Z.land (pte_at m p i) (Z.lor (Z.lor PTE_R PTE_W) PTE_X) ≠ 0.

Section freewalk.
Context (rg : Z * Z) (T : gmap (list Z) Z).
Context (Hinj : ∀ k k' p, T !! k = Some p → T !! k' = Some p → k = k').
Context (Hpar : ∀ k i q, T !! (k ++ [i]) = Some q → is_Some (T !! k) ∧ (length k < 2)%nat ∧ 0 ≤ i < 512).

(** The tables at and below [k] are in memory and live. *)
Record intact (s : machine) (k : list Z) : Prop := {
  it_live q : sub T k q → managed rg q ∧ rc s q = 1;
  it_inner k' q i : T !! (k ++ k') = Some q → (length (k ++ k') < 2)%nat → 0 ≤ i < 512 →
    match T !! ((k ++ k') ++ [i]) with
    | Some r => pte_at (mem s) q i = mk_pte r PTE_V
    | None => has (pte_at (mem s) q i) PTE_V = false
    end;
  it_last k' q i : T !! (k ++ k') = Some q → length (k ++ k') = 2%nat → 0 ≤ i < 512 →
    has (pte_at (mem s) q i) PTE_V = true →
    Z.land (pte_at (mem s) q i) (Z.lor (Z.lor PTE_R PTE_W) PTE_X) ≠ 0;
}.

(** The pages [X] were freed; nothing else changed. *)
Record freed (X : Z → Prop) (s s' : machine) : Prop := {
  fr_ready : ready s';
  fr_kinv : ∃ l', kinv rg s' l';
  fr_gone q : X q → rc s' q = 0;
  fr_rest q : page_aligned q → ¬ X q → rc s' q = rc s q;
  fr_frame x : (∀ q, X q → ¬ in_page q x) → ld8 (mem s') x = ld8 (mem s) x;
}.

Lemma sub_child k i q : sub T (k ++ [i]) q → sub T k q.
Proof. intros [k' H]. exists ([i] ++ k'). by rewrite app_assoc. Qed.

Lemma sub_disjoint k i j q : i ≠ j → sub T (k ++ [i]) q → ¬ sub T (k ++ [j]) q.
Proof.
  intros Hij [k1 H1] [k2 H2]. pose proof (Hinj _ _ _ H1 H2) as E.
  rewrite <- !app_assoc in E. apply app_inv_head in E. simpl in E. congruence.
Qed.

Lemma sub_self k i p : T !! k = Some p → ¬ sub T (k ++ [i]) p.
Proof.
  intros Hp [k' H]. pose proof (Hinj _ _ _ Hp H) as E%(f_equal length).
  rewrite !length_app in E. simpl in E. lia.
Qed.

(** A subtree that the freed pages do not meet stays intact. *)
Lemma intact_child s s' k i (X : Z → Prop) :
  intact s k → (∀ q, sub T (k ++ [i]) q → ¬ X q) → (∀ q, X q → page_aligned q) →
  (∀ q, page_aligned q → ¬ X q → rc s' q = rc s q) →
  (∀ x, (∀ q, X q → ¬ in_page q x) → ld8 (mem s') x = ld8 (mem s) x) → intact s' (k ++ [i]).
Proof.
  intros [H1 H2 H3] Hd Hal Hrc Hfr.
  assert (∀ q, sub T (k ++ [i]) q → managed rg q ∧ rc s q = 1) as Hl by (intros q ?; by eapply H1, sub_child).
  assert (∀ q j, sub T (k ++ [i]) q → 0 ≤ j < 512 → pte_at (mem s') q j = pte_at (mem s) q j) as Hpte.
  { intros q j Hq Hj. apply pte_at_ext; [done|]. intros x Hx. apply Hfr. intros r Hr.
    destruct (Hl q Hq) as [Hm _]. eapply in_page_ne; [by eapply managed_aligned|by apply Hal| |done].
    intros ->. by apply (Hd r). }
  split.
  - intros q Hq. destruct (Hl q Hq) as [Hm Hone]. split; [done|].
    rewrite Hrc; [done|by eapply managed_aligned|by apply Hd].
  - intros k' q j Hq Hlen Hj. rewrite Hpte by (done || by exists k').
    specialize (H2 ([i] ++ k') q j). rewrite !app_assoc in H2. rewrite <- !app_assoc in *. by apply H2.
  - intros k' q j Hq Hlen Hj. rewrite Hpte by (done || by exists k').
    specialize (H3 ([i] ++ k') q j). rewrite !app_assoc in H3. rewrite <- !app_assoc in *. by apply H3.
Qed.

(** The pages below the first [i] entries of the table at [k]. *)
Definition below (k : list Z) (i : Z) (q : Z) : Prop := ∃ j, 0 ≤ j < i ∧ sub T (k ++ [j]) q.

(** The loop of [freewalk] on the table [p] at [k], after [i] rounds. *)
Record walked (s : machine) (k : list Z) (p i : Z) (s' : machine) : Prop := {
  wd_ready : ready s';
  wd_kinv : ∃ l', kinv rg s' l';
  wd_gone q : below k i q → rc s' q = 0;
  wd_rest q : page_aligned q → ¬ below k i q → rc s' q = rc s q;
  wd_frame x : (∀ q, q = p ∨ below k i q → ¬ in_page q x) → ld8 (mem s') x = ld8 (mem s) x;
  wd_ptes j : i ≤ j < 512 → pte_at (mem s') p j = pte_at (mem s) p j;
}.

Lemma below_succ k i q : 0 ≤ i → below k (i + 1) q ↔ below k i q ∨ sub T (k ++ [i]) q.
Proof.
  intros Hi. split.
  - intros (j & Hj & Hs). destruct (decide (j = i)) as [->|]; [by right|]. left. exists j. split; [lia|done].
  - intros [(j & Hj & Hs)|Hs]; [exists j; split; [lia|done]|exists i; split; [lia|done]].
Qed.

Lemma below_sub k i q : below k i q → sub T k q.
Proof. intros (j & _ & Hs). by eapply sub_child. Qed.

Lemma not_below_self k i p : T !! k = Some p → ¬ below k i p.
Proof. intros Hp (j & _ & Hs). by eapply sub_self. Qed.

Lemma walked_start s k p l : kinv rg s l → ready s → walked s k p 0 s.
Proof.
  intros Hk Hr. split; try done; [by exists l|]. intros q (j & ? & _). lia.
Qed.

(** A round without a table below. *)
Lemma walked_skip s k p i s' :
  0 ≤ i → walked s k p i s' → (∀ q, ¬ sub T (k ++ [i]) q) → walked s k p (i + 1) s'.
Proof.
  intros Hi [] Hno. assert (∀ q, below k (i + 1) q ↔ below k i q) as Hb.
  { intros q. rewrite below_succ by done. naive_solver. }
  split; try done.
  - intros q Hq%Hb. auto.
  - intros q Hq. rewrite Hb. auto.
  - intros x Hx. apply wd_frame0. intros q [|]; apply Hx; [auto|]. right. by apply Hb.
  - intros j Hj. apply wd_ptes0. lia.
Qed.

(** A round that freed the subtree below entry [i] and cleared the entry. *)
Lemma walked_child s k p i s1 s2 :
  intact s k → T !! k = Some p → 0 ≤ i < 512 → walked s k p i s1 → freed (sub T (k ++ [i])) s1 s2 →
  walked s k p (i + 1) (with_mem (st64 (mem s2) (p + 8 * i) 0) s2).
Proof.
  intros Hit Hp Hi [W1 [l1 W2] W3 W4 W5 W6] [F1 [l2 F2] F3 F4 F5].
  assert (managed rg p ∧ rc s p = 1) as [Hm Hone] by (apply Hit; exists []; by rewrite app_nil_r).
  pose proof (managed_aligned _ _ Hm) as Hal.
  assert (∀ q, sub T k q → page_aligned q) as Hsal by (intros q Hq; by eapply managed_aligned, (it_live _ _ Hit)).
  assert (¬ sub T (k ++ [i]) p) as Hns by (by apply sub_self).
  assert (rc s2 p = 1) as Hp2.
  { rewrite F4, W4 by (done || by apply not_below_self). done. }
  set (s3 := with_mem _ s2). assert (∀ x, ¬ in_page p x → ld8 (mem s3) x = ld8 (mem s2) x) as Hm3.
  { intros x Hx. apply ld8_st64_ne. unfold in_page, PGSIZE in Hx. lia. }
  split.
  - done.
  - exists l2. apply (kinv_ext rg s2); [done| |done]. intros q Hq. symmetry. apply ld64_ext. intros x Hx. apply Hm3.
    assert (managed rg q ∧ rc s2 q = 0) as [Hmq Hz] by (by apply (kinv_free _ _ _ F2)).
    eapply (in_page_ne q p); [by eapply managed_aligned|done| |unfold in_page, PGSIZE; lia]. intros ->. lia.
  - intros q [Hb|Hb]%below_succ; [|by apply F3|lia]. change (rc s3 q) with (rc s2 q).
    rewrite F4; [by apply W3|by eapply Hsal, below_sub|].
    destruct Hb as (j & Hj & Hs). eapply sub_disjoint; [|done]. lia.
  - intros q Hq Hnb. rewrite below_succ in Hnb by lia. change (rc s3 q) with (rc s2 q).
    rewrite F4, W4 by tauto. done.
  - intros x Hx. rewrite Hm3 by (apply Hx; by left). rewrite F5, W5; [done| |].
    + intros q [|Hb]; apply Hx; [by left|]. right. apply below_succ; [lia|]. by left.
    + intros q Hs. apply Hx. right. apply below_succ; [lia|]. by right.
  - intros j Hj. unfold s3. cbn [mem with_mem]. rewrite pte_at_st64 by (done || lia).
    rewrite decide_False by lia. rewrite <- W6 by lia. apply pte_at_ext; [lia|].
    intros x Hx. apply F5. intros q Hs. eapply (in_page_ne p q); [done|by eapply Hsal, sub_child| |done].
    by intros <-.
Qed.

Lemma not_sub_none k i q : T !! (k ++ [i]) = None → ¬ sub T (k ++ [i]) q.
Proof.
  intros Hn [k' H]. revert q H. induction k' as [|j k' IH] using rev_ind; intros q H.
  - rewrite app_nil_r in H. congruence.
  - rewrite app_assoc in H. apply Hpar in H as [[r Hr] _]. by eapply IH.
Qed.

Lemma sub_iff k p q : T !! k = Some p → sub T k q ↔ q = p ∨ below k 512 q.
Proof.
  intros Hp. split.
  - intros [[|i k'] H].
    + rewrite app_nil_r in H. left. congruence.
    + right. exists i. change (i :: k') with ([i] ++ k') in H. rewrite app_assoc in H.
      split; [|by exists k']. destruct (T !! (k ++ [i])) as [r|] eqn:E; [by apply Hpar in E as (_ & _ & ?)|].
      exfalso. by eapply (not_sub_none k i q); [|exists k'].
  - intros [->|Hb]; [exists []; by rewrite app_nil_r|by eapply below_sub].
Qed.

(** The last step: the table's own page. *)
Lemma walked_finish s k p s' (Q : unit → machine → Prop) :
  intact s k → T !! k = Some p → walked s k p 512 s' →
  (∀ s2, freed (sub T k) s s2 → Q tt s2) → wp (kfree p) Q s'.
Proof.
  intros Hit Hp [W1 [l1 W2] W3 W4 W5 W6] HQ.
  assert (managed rg p ∧ rc s p = 1) as [Hm Hone] by (apply Hit; exists []; by rewrite app_nil_r).
  pose proof (managed_aligned _ _ Hm) as Hal.
  assert (rc s' p = 1) as Hp1 by (rewrite W4; [done|done|by apply not_below_self]).
  eapply wp_kfree; [done|done|split; [done|lia]|lia|]. intros _. apply HQ.
  assert (∀ q, sub T k q → page_aligned q) as Hsal by (intros q Hq; by eapply managed_aligned, (it_live _ _ Hit)).
  split.
  - by eapply ready_spin.
  - eexists. apply kinv_after_free; [done|split; [done|lia]].
  - intros q Hq. destruct (decide (q = p)) as [->|Hne]; [apply rc_after_free_eq|].
    rewrite rc_after_free_ne by auto. apply W3. by apply (sub_iff k p) in Hq as [|].
  - intros q Hq Hns. rewrite (sub_iff k p) in Hns by done.
    rewrite rc_after_free_ne by tauto. apply W4; tauto.
  - intros x Hx. unfold after_free. simpl. rewrite ld8_st64_ne.
    + apply W5. intros q Hq. apply Hx. by apply (sub_iff k p).
    + assert (¬ in_page p x) as Hnp by (apply Hx, (sub_iff k p); auto). unfold in_page, PGSIZE in Hnp. lia.
Qed.

Lemma wp_freewalk depth k p s l (Q : unit → machine → Prop) :
  (length k + depth = 3)%nat → T !! k = Some p → intact s k → kinv rg s l → ready s →
  (∀ s', freed (sub T k) s s' → Q tt s') → wp (freewalk depth p) Q s.
Proof.
  revert k p s l Q. induction depth as [|depth IH]; intros k p s l Q Hlen Hp Hit Hk Hr HQ.
  { exfalso. destruct k as [|a k _] using rev_ind; [simpl in Hlen; lia|].
    apply Hpar in Hp as (_ & Hl & _). rewrite length_app in Hlen. simpl in Hlen. lia. }
  assert (managed rg p ∧ rc s p = 1) as [Hm Hone] by (apply Hit; exists []; by rewrite app_nil_r).
  pose proof (managed_ram _ _ Hm) as Hram.
  cbn [freewalk]. wp_steps. apply (wp_for_n (walked s k p)).
  - by eapply walked_start.
  - intros i s1 Hi Hw. change (0 + Z.of_nat 512) with 512 in Hi. wp_steps.
    apply wp_load64; [by apply slot_in_ram|]. wp_steps. fold (pte_at (mem s1) p i).
    rewrite (wd_ptes _ _ _ _ _ Hw) by lia. pose proof Hit as [_ Hin Hlast].
    specialize (Hin [] p i). specialize (Hlast [] p i). rewrite app_nil_r in Hin, Hlast.
    destruct (T !! (k ++ [i])) as [q|] eqn:Hq.
    + pose proof (Hpar _ _ _ Hq) as (_ & Hl & _). rewrite Hin by done.
      assert (pte_page q) as Hpq.
      { eapply ram_pte_page, managed_ram, (it_live _ _ Hit). exists [i]. done. }
      rewrite has_mk_pte, has_V_1, land_mk_pte by done. change (Z.land PTE_V _ =? 0) with true.
      rewrite pte2pa by done. apply wp_when; [intros _|done]. wp_steps.
      destruct (wd_kinv _ _ _ _ _ Hw) as [l1 Hk1].
      apply (IH (k ++ [i]) q s1 l1); [rewrite length_app; simpl; lia|done| |done|apply Hw|].
      * apply (intact_child s s1 k i (λ r, r = p ∨ below k i r)).
        -- done.
        -- intros r Hs [->|(j & Hj & Hs')]; [by apply (sub_self k i p)|].
           eapply (sub_disjoint k j i); [lia|done|done].
        -- intros r [->|Hb]; [by eapply managed_aligned|].
           by eapply managed_aligned, (it_live _ _ Hit), below_sub.
        -- intros r Hra Hnr. apply (wd_rest _ _ _ _ _ Hw); [done|]. tauto.
        -- apply (wd_frame _ _ _ _ _ Hw).
      * intros s2 Hf. wp_steps. apply wp_store64; [by apply slot_in_ram|].
        by apply (walked_child s k p i s1 s2).
    + assert ((has (pte_at (mem s) p i) PTE_V && (Z.land (pte_at (mem s) p i) (Z.lor (Z.lor PTE_R PTE_W) PTE_X) =? 0)) = false) as ->.
      { destruct (decide (length k < 2)%nat).
        - by rewrite Hin.
        - destruct (has (pte_at (mem s) p i) PTE_V) eqn:HV; [|done]. simpl. apply Z.eqb_neq.
          apply Hlast; [done|lia|done|done]. }
      apply wp_when; [done|]. intros _. apply walked_skip; [lia|done|].
      intros r. by apply not_sub_none.
  - intros s1 Hw. change (0 + Z.of_nat 512) with 512 in Hw. wp_steps.
    by apply (walked_finish s k p s1).
Qed.
End freewalk.

(** Every table entry is the leaf of some address. *)
Lemma perms_ok_leaf m T :
  pt_rep m T →
  (∀ va, 0 ≤ va → has (leaf m T va) PTE_V = true →
     Z.land (leaf m T va) (Z.lor (Z.lor PTE_R PTE_W) PTE_X) ≠ 0) → perms_ok m T.
Proof.
  intros [_ _ Hpar _] Hl k p i Hk Hlen Hi. destruct k as [|a [|b [|]]]; try done.
  destruct (Hpar [a] b p Hk) as ([q Hq] & _ & Hb). destruct (Hpar [] a q Hq) as (_ & _ & Ha).
  set (va := ((a * 512 + b) * 512 + i) * 4096).
  assert (0 ≤ va) as Hva by (unfold va; lia).
  assert (PX 2 va = a ∧ PX 1 va = b ∧ PX 0 va = i) as (E2 & E1 & E0).
  { rewrite !PX_spec by lia. change (2 ^ PXSHIFT 2) with 1073741824. change (2 ^ PXSHIFT 1) with 2097152.
    change (2 ^ PXSHIFT 0) with 4096. unfold va. Z.to_euclidean_division_equations. lia. }
  specialize (Hl va Hva). unfold leaf, vpath in Hl. rewrite E2, E1, Hk, E0 in Hl. exact Hl.
Qed.

(** The table [T] is gone: its pages are free, nothing else changed. *)
Record torn_down (rg : Z * Z) (T : gmap (list Z) Z) (s : machine) (l : list Z) (s' : machine) (l' : list Z) : Prop := {
  td_kinv : kinv rg s' l';
  td_ready : ready s';
  td_free p : p ∈ l' ↔ p ∈ l ∨ node T p;
  td_rc q : page_aligned q → ¬ node T q → rc s' q = rc s q;
  td_frame x : (∀ p, node T p → ¬ in_page p x) → ld8 (mem s') x = ld8 (mem s) x;
}.

Lemma freed_torn_down rg root T s l s' :
  vok rg s l root T → freed rg (sub T []) s s' → ∃ l', torn_down rg T s l s' l'.
Proof.
  intros [Hk Hr [Hroot Hrep Hlive]] [F1 [l' F2] F3 F4 F5]. assert (∀ q, sub T [] q ↔ node T q) as Hsub by done.
  exists l'. split; try done. intros p. rewrite (kinv_free _ _ _ F2), (kinv_free _ _ _ Hk). split.
  - intros [Hm Hz]. destruct (decide (rc s p = 0)); [by left|right].
    destruct (decide (p ∈ (map_to_list T).*2)) as [Hin|Hni].
    + apply list_elem_of_fmap in Hin as ([k q] & -> & Hq%elem_of_map_to_list). by exists k.
    + exfalso. assert (¬ node T p) as Hn.
      { intros [k Hq]. apply Hni, list_elem_of_fmap. exists (k, p). by rewrite elem_of_map_to_list. }
      rewrite F4 in Hz; [done|by eapply managed_aligned|done].
  - intros [[Hm Hz]|Hn].
    + split; [done|]. rewrite F4; [done|by eapply managed_aligned|]. intros [_ ?]%Hlive. lia.
    + split; [by apply Hlive|by apply F3].
Qed.

Lemma wp_free_pagetable rg root T s l (Q : unit → machine → Prop) :
  vok rg s l root T → perms_ok (mem s) T →
  (∀ s' l', torn_down rg T s l s' l' → Q tt s') → wp (free_pagetable root) Q s.
Proof.
  intros Hok Hperm HQ. pose proof Hok as [Hk Hr [Hroot Hrep Hlive]].
  eapply (wp_freewalk rg T (rep_inj _ _ Hrep) (rep_parent _ _ Hrep) 3 [] root s l); try done.
  - split.
    + intros q Hq. by apply Hlive.
    + intros k' q i Hq Hl Hi. by apply (rep_inner _ _ Hrep k' q i).
    + intros k' q i Hq Hl Hi. by apply (Hperm k' q i).
  - intros s' Hf. destruct (freed_torn_down _ _ _ _ _ _ Hok Hf) as [l' Ht]. by eapply HQ.
Qed.

(** C23: tearing down an address space. [free_pagetable] returns (three levels
    of recursion are enough); exactly the pages that held its tables become
    free, each once, and every other count, in particular of the pages that were
    mapped, and every byte outside the tables is unchanged. *)
Theorem free_pagetable_frees rg root T s l :
  vok rg s l root T → perms_ok (mem s) T →
  ∃ s' l', free_pagetable root s = Done tt s' ∧ kinv rg s' l' ∧ ready s' ∧
    (∀ p, p ∈ l' ↔ p ∈ l ∨ node T p) ∧
    (∀ q, page_aligned q → ¬ node T q → rc s' q = rc s q) ∧
    (∀ x, (∀ p, node T p → ¬ in_page p x) → ld8 (mem s') x = ld8 (mem s) x).
Proof.
  intros Hok Hperm.
  destruct (wp_run (free_pagetable root) (λ _ s', ∃ l', torn_down rg T s l s' l') s) as ([] & s' & Hrun & l' & []).
  { eapply wp_free_pagetable; eauto. }
  by exists s', l'.
Qed.

Lemma free_pagetable_frees_witness :
  ∃ s root s', free_pagetable root s = Done tt s' ∧ rc s root = 1 ∧ rc s' root = 0.
Proof.
  destruct demo_space as (rg & s & l & root & T & q & Hok & Hlive & Hone & Hn & Hleaf & _).
  pose proof (ram_pte_page _ (managed_ram _ _ (proj1 Hlive))) as Hpq.
  pose proof Hok as [_ _ [R1 R2 R3]].
  destruct (free_pagetable_frees rg root T s l) as (s' & l' & H1 & H2 & _ & H4 & _).
  - exact Hok.
  - apply (perms_ok_leaf _ _ R2). intros va Hva. rewrite (Hleaf va Hva). unfold upd.
    destruct (decide (vpn va = vpn HEAPBASE)); [|rewrite has_0; discriminate].
    intros _. rewrite land_mk_pte by (done || (unfold flag_word, URW; lia)). discriminate.
  - assert (node T root) as Hroot by (exists []; exact R1). destruct (R3 root Hroot) as [_ Hr].
    exists s, root, s'. split; [exact H1|]. split; [exact Hr|].
    apply (kinv_free _ _ _ H2), H4. right. exact Hroot.
Defined.
