(* ===== verification/Packet.v ===== *)
(** * Packets: byte order, checksums and the frames net.c builds (src/net.c)

    The pure part of the network stack: big-endian fields, the 16-bit ones'
    complement checksum, and the packets written field by field into a buffer
    with arbitrary old contents. Writing outside the buffer is undefined
    ([None]). A reference receiver that checks versions, lengths and checksums
    says what a packet means. *)
From S2P Require Import Prelude.

Definition BUFSZ : nat := Z.to_nat 2048.
Definition NETHDR : nat := 12.
Definition ETH_ARP : Z := 0x0806.
Definition ETH_IP : Z := 0x0800.
Definition IP_TCP : Z := 6.
Definition TH_FIN : Z := 0x01.
Definition TH_SYN : Z := 0x02.
Definition TH_PSH : Z := 0x08.
Definition TH_ACK : Z := 0x10.

Definition MY_IP : list Z := [10; 0; 2; 15].
Definition GW_IP : list Z := [10; 0; 2; 2].
Definition DNS_IP : list Z := [10; 0; 2; 3].

(** ** Comparison of addresses *)

Fixpoint eq4_loop (n : nat) (a b : list Z) : option bool :=
  match n with
  | O => Some true
  | S n =>
      match a, b with
      | x :: a, y :: b => if x =? y then eq4_loop n a b else Some false
      | _, _ => None
      end
  end.
Definition eq4 (a b : list Z) : option bool := eq4_loop 4 a b.

(** ** Byte order *)

Definition be16 (v : Z) : list Z := [u8 (Z.shiftr v 8); u8 v].
Definition be32 (v : Z) : list Z := [u8 (Z.shiftr v 24); u8 (Z.shiftr v 16); u8 (Z.shiftr v 8); u8 v].

Definition put8 (off : nat) (v : Z) (b : list Z) : option (list Z) := overwrite off [u8 v] b.
Definition put16 (off : nat) (v : Z) (b : list Z) : option (list Z) := overwrite off (be16 (u16 v)) b.
Definition put32 (off : nat) (v : Z) (b : list Z) : option (list Z) := overwrite off (be32 (u32 v)) b.

Definition get8 (off : nat) (b : list Z) : option Z := b !! off.
Definition get16 (off : nat) (b : list Z) : option Z :=
  x ← b !! off; y ← b !! S off; Some (Z.lor (Z.shiftl x 8) y).
Definition get32 (off : nat) (b : list Z) : option Z :=
  x ← b !! off; y ← b !! S off; z ← b !! S (S off); w ← b !! S (S (S off));
  Some (Z.lor (Z.lor (Z.lor (u32 (Z.shiftl x 24)) (Z.shiftl y 16)) (Z.shiftl z 8)) w).

(** ** The checksum *)

(** [for (i = 0; i + 1 < len; i += 2) sum += get16(data + i)] *)
Fixpoint sum_words (l : list Z) (sum : Z) : Z :=
  match l with
  | a :: b :: l => sum_words l (u32 (sum + Z.lor (Z.shiftl a 8) b))
  | _ => sum
  end.

(** [if (len & 1) sum += data[len - 1] << 8] *)
Definition sum_odd (l : list Z) (sum : Z) : Z :=
  match last l with
  | Some b => if Nat.odd (length l) then u32 (sum + u16 (Z.shiftl b 8)) else sum
  | None => sum
  end.

(** [while (sum >> 16) sum = (sum & 0xffff) + (sum >> 16)]: for a 32-bit sum
    three rounds are enough. *)
Fixpoint fold16 (fuel : nat) (sum : Z) : option Z :=
  if Z.shiftr sum 16 =? 0 then Some sum
  else match fuel with
  | O => None
  | S fuel => fold16 fuel (u32 (Z.land sum 0xffff + Z.shiftr sum 16))
  end.

(** The sum of [data] on top of [sum], folded. *)
Definition ones_sum (sum : Z) (data : list Z) : option Z := fold16 3 (sum_odd data (sum_words data sum)).

(** [~sum & 0xffff] *)
Definition complement (sum : Z) : Z := Z.land (Z.lnot sum) 0xffff.

Definition cksum (data : list Z) : option Z := complement <$> ones_sum 0 data.

(** The pseudo header's part of the sum (addresses, protocol, length). *)
Definition pseudo (dip : list Z) (proto len : Z) : option Z :=
  a ← get16 0 MY_IP; b ← get16 2 MY_IP; c ← get16 0 dip; d ← get16 2 dip;
  Some (u32 (u32 (u32 (a + b) + (c + d)) + (proto + len))).

(** ** Packets *)

(** The first twenty bytes: the IP header, its checksum written last. *)
Definition ip_header (iplen proto : Z) (dip : list Z) (b : list Z) : option (list Z) :=
  b ← put8 0 0x45 b; b ← put8 1 0 b;
  b ← put16 2 iplen b;
  b ← put16 4 0 b;
  b ← put16 6 0 b;
  b ← put8 8 64 b;
  b ← put8 9 proto b;
  b ← put16 10 0 b;
  b ← overwrite 12 MY_IP b;
  d ← region 0 4 dip;
  b ← overwrite 16 d b;
  h ← region 0 20 b;
  c ← cksum h;
  put16 10 c b.

(** [udp_tx] up to the call of [eth_tx]; [pkt] is the uninitialised buffer. *)
Definition udp_packet (pkt dip : list Z) (sport dport : Z) (payload : list Z) : option (list Z) :=
  let plen := length payload in
  let udplen := 8 + Z.of_nat plen in
  let iplen := 20 + udplen in
  b ← ip_header iplen 17 dip pkt;
  b ← put16 20 sport b;
  b ← put16 22 dport b;
  b ← put16 24 udplen b;
  b ← put16 26 0 b;
  b ← overwrite 28 payload b;
  seg ← region 20 (8 + plen) b;
  p ← pseudo dip 17 udplen;
  s ← ones_sum p seg;
  let c := complement s in
  b ← put16 26 (if c =? 0 then 0xffff else c) b;
  region 0 (28 + plen) b.

(** [tcp_send] up to the call of [eth_tx]. *)
Definition tcp_segment (pkt dip : list Z) (sport dport seq ack flags : Z) (data : list Z) : option (list Z) :=
  let dlen := length data in
  let tcplen := 20 + Z.of_nat dlen in
  let iplen := 20 + tcplen in
  b ← ip_header iplen IP_TCP dip pkt;
  b ← put16 20 sport b;
  b ← put16 22 dport b;
  b ← put32 24 seq b;
  b ← put32 28 ack b;
  b ← put8 32 (Z.shiftl 5 4) b;
  b ← put8 33 flags b;
  b ← put16 34 64240 b;
  b ← put16 36 0 b;
  b ← put16 38 0 b;
  b ← overwrite 40 data b;
  seg ← region 20 (20 + dlen) b;
  p ← pseudo dip IP_TCP tcplen;
  s ← ones_sum p seg;
  b ← put16 36 (complement s) b;
  region 0 (40 + dlen) b.

(** [icmp_ping] up to the call of [eth_tx]; [icmp] and [pkt] are its buffers. *)
Definition icmp_echo : list Z := (λ i, u8 (97 + Z.of_nat i mod 26)) <$> seq 0 32.
Definition icmp_request (icmp : list Z) : option (list Z) :=
  i ← put8 0 8 icmp; i ← put8 1 0 i;
  i ← put16 2 0 i;
  i ← put16 4 0xabcd i;
  i ← put16 6 1 i;
  i ← overwrite 8 icmp_echo i;
  d ← region 0 40 i;
  c ← cksum d;
  put16 2 c i.
Definition icmp_packet (icmp pkt dip : list Z) : option (list Z) :=
  i ← icmp_request icmp;
  b ← ip_header 60 1 dip pkt;
  d ← region 0 40 i;
  b ← overwrite 20 d b;
  region 0 60 b.

(** The 28 bytes of an ARP message; the operation, sender and target. *)
Definition arp_message (a : list Z) (oper : Z) (smac sip tmac tip : list Z) : option (list Z) :=
  a ← put16 0 1 a;
  a ← put16 2 ETH_IP a;
  a ← put8 4 6 a; a ← put8 5 4 a;
  a ← put16 6 oper a;
  s ← region 0 6 smac; a ← overwrite 8 s a;
  s ← region 0 4 sip; a ← overwrite 14 s a;
  s ← region 0 6 tmac; a ← overwrite 18 s a;
  s ← region 0 4 tip; overwrite 24 s a.

(** ** What a packet means: a receiver that checks everything *)

Definition valid_sum (sum : Z) (data : list Z) : bool := bool_decide (ones_sum sum data = Some 0xffff).

(** Protocol, source, destination and body of a well-formed IPv4 packet. *)
Definition ip_receive (p : list Z) : option (Z * list Z * list Z * list Z) :=
  v ← get8 0 p; len ← get16 2 p; proto ← get8 9 p;
  h ← region 0 20 p; src ← region 12 4 p; dst ← region 16 4 p;
  if (v =? 0x45) && (len =? Z.of_nat (length p)) && valid_sum 0 h then Some (proto, src, dst, drop 20 p)
  else None.

Definition udp_receive (p : list Z) : option (list Z * list Z * Z * Z * list Z) :=
  '(proto, src, dst, body) ← ip_receive p;
  sport ← get16 0 body; dport ← get16 2 body; len ← get16 4 body; c ← get16 6 body;
  ps ← pseudo dst proto len;
  if (proto =? 17) && (len =? Z.of_nat (length body)) && negb (c =? 0) && bool_decide (src = MY_IP) && valid_sum ps body
  then Some (src, dst, sport, dport, drop 8 body) else None.

Definition tcp_receive (p : list Z) : option (list Z * list Z * Z * Z * Z * Z * Z * list Z) :=
  '(proto, src, dst, body) ← ip_receive p;
  sport ← get16 0 body; dport ← get16 2 body; seq ← get32 4 body; ack ← get32 8 body;
  doff ← get8 12 body; flags ← get8 13 body;
  ps ← pseudo dst proto (Z.of_nat (length body));
  if (proto =? 6) && (doff =? 80) && bool_decide (src = MY_IP) && valid_sum ps body
  then Some (src, dst, sport, dport, seq, ack, flags, drop 20 body) else None.

Definition icmp_receive (p : list Z) : option (list Z * list Z * Z * Z * list Z) :=
  '(proto, src, dst, body) ← ip_receive p;
  type ← get8 0 body; id ← get16 4 body;
  if (proto =? 1) && valid_sum 0 body then Some (src, dst, type, id, drop 8 body) else None.

(** ** Lemmas on byte order *)

Lemma lor_bytes a b : is_byte b → Z.lor (Z.shiftl a 8) b = a * 256 + b.
Proof.
  intros Hb. rewrite Z.shiftl_mul_pow2 by lia. change (2 ^ 8) with 256. symmetry.
  apply Z.add_nocarry_lor. apply Z.bits_inj'. intros n Hn. rewrite Z.land_spec, Z.bits_0.
  change 256 with (2 ^ 8). destruct (Z.ltb_spec n 8).
  - by rewrite Z.mul_pow2_bits_low by lia.
  - assert (Z.testbit b n = false) as ->; [|apply andb_false_r].
    unfold is_byte in Hb. destruct (decide (b = 0)) as [->|]; [apply Z.bits_0|].
    apply Z.bits_above_log2; [lia|]. apply Z.log2_lt_pow2; [lia|].
    apply (Z.lt_le_trans _ (2 ^ 8)); [lia|]. apply Z.pow_le_mono_r; lia.
Qed.

Lemma be16_words v : 0 ≤ v < 65536 → u8 (Z.shiftr v 8) * 256 + u8 v = v.
Proof. intros Hv. rewrite Z.shiftr_div_pow2 by lia. wrap_lia. Qed.

Lemma be16_bytes v : Forall is_byte (be16 v).
Proof. unfold be16. repeat constructor; wrap_lia. Qed.

Lemma get16_pair a b l : is_byte b → get16 0 (a :: b :: l) = Some (a * 256 + b).
Proof. intros. unfold get16. simpl. by rewrite lor_bytes. Qed.

Lemma get16_be16 v l : 0 ≤ v < 65536 → get16 0 (be16 v ++ l) = Some v.
Proof. intros. unfold be16. simpl. rewrite get16_pair by wrap_lia. by rewrite be16_words. Qed.

Lemma get16_field v l : 0 ≤ v < 65536 → get16 0 (be16 (u16 v) ++ l) = Some v.
Proof. intros. by rewrite u16_small, get16_be16 by done. Qed.

Lemma be32_words v :
  0 ≤ v < 2 ^ 32 →
  u8 (Z.shiftr v 24) * 16777216 + u8 (Z.shiftr v 16) * 65536 + u8 (Z.shiftr v 8) * 256 + u8 v = v.
Proof.
  intros Hv. rewrite !Z.shiftr_div_pow2 by lia. change (2 ^ 24) with 16777216. change (2 ^ 16) with 65536.
  wrap_lia.
Qed.

Lemma get32_be32 v l : 0 ≤ v < 2 ^ 32 → get32 0 (be32 v ++ l) = Some v.
Proof.
  intros Hv. unfold get32, be32. simpl. f_equal.
  set (a := u8 (Z.shiftr v 24)). set (b := u8 (Z.shiftr v 16)). set (c := u8 (Z.shiftr v 8)). set (d := u8 v).
  assert (is_byte a ∧ is_byte b ∧ is_byte c ∧ is_byte d) as (Ha & Hb & Hc & Hd).
  { unfold a, b, c, d. split_and!; wrap_lia. }
  assert (Z.shiftl a 24 = Z.shiftl (Z.shiftl (Z.shiftl a 8) 8) 8) as Ea by (rewrite !Z.shiftl_shiftl by lia; done).
  assert (Z.shiftl b 16 = Z.shiftl (Z.shiftl b 8) 8) as Eb by (rewrite !Z.shiftl_shiftl by lia; done).
  assert (u32 (Z.shiftl a 24) = Z.shiftl a 24) as ->.
  { rewrite Z.shiftl_mul_pow2 by lia. apply u32_small. unfold is_byte in Ha. lia. }
  rewrite Ea, Eb, <- !Z.shiftl_lor, lor_bytes, lor_bytes, lor_bytes by done.
  pose proof (be32_words v Hv) as E. fold a b c d in E. lia.
Qed.

(** ** Lemmas on the checksum *)

Fixpoint wsum (l : list Z) : Z :=
  match l with
  | a :: b :: l => a * 256 + b + wsum l
  | [a] => a * 256
  | [] => 0
  end.

(** Induction two bytes at a time. *)
Lemma pair_ind (P : list Z → Prop) :
  P [] → (∀ a, P [a]) → (∀ a b l, P l → P (a :: b :: l)) → ∀ l, P l.
Proof.
  intros H0 H1 H2 l. enough (P l ∧ ∀ a, P (a :: l)) as [? _] by done.
  induction l as [|b l [IH1 IH2]]; [auto|]. split; auto.
Qed.

Lemma wsum_bound l : Forall is_byte l → 0 ≤ wsum l ≤ 65535 * ((Z.of_nat (length l) + 1) / 2).
Proof.
  induction l as [|a|a b l IH] using pair_ind; intros Hl.
  - cbn [wsum length]. Z.to_euclidean_division_equations. lia.
  - apply Forall_cons in Hl as [Ha _]. unfold is_byte in Ha. cbn [wsum length].
    Z.to_euclidean_division_equations. lia.
  - apply Forall_cons in Hl as [Ha [Hb Hl]%Forall_cons]. specialize (IH Hl). unfold is_byte in *.
    simpl length. cbn [wsum]. Z.to_euclidean_division_equations. lia.
Qed.

Lemma sum_odd_pair a b l s : sum_odd (a :: b :: l) s = sum_odd l s.
Proof.
  unfold sum_odd. destruct l as [|c l]; [done|].
  change (last (a :: b :: c :: l)) with (last (c :: l)). destruct (last (c :: l)); [|done].
  done.
Qed.

Lemma sum_wsum l s :
  Forall is_byte l → 0 ≤ s → s + wsum l < 2 ^ 32 → sum_odd l (sum_words l s) = s + wsum l.
Proof.
  revert s. induction l as [|a|a b l IH] using pair_ind; intros s Hl Hs Hb.
  - cbn. lia.
  - apply Forall_cons in Hl as [Ha _]. unfold is_byte in Ha. cbn [sum_words wsum] in *. unfold sum_odd. simpl.
    rewrite Z.shiftl_mul_pow2 by lia. change (2 ^ 8) with 256. rewrite u16_small by lia. apply u32_small. lia.
  - apply Forall_cons in Hl as [Ha [Hb' Hl]%Forall_cons]. pose proof (wsum_bound l Hl) as Hw.
    cbn [sum_words wsum] in *. rewrite sum_odd_pair, lor_bytes by done. unfold is_byte in *.
    rewrite u32_small by lia. rewrite IH by (done || lia). lia.
Qed.

Lemma wsum_app l k : Nat.even (length l) → wsum (l ++ k) = wsum l + wsum k.
Proof.
  induction l as [|a|a b l IH] using pair_ind; intros He; [done|done|].
  change ((a :: b :: l) ++ k) with (a :: b :: l ++ k). cbn [wsum]. rewrite IH by done. lia.
Qed.

(** The ones' complement value of a sum. *)
Definition oc (s : Z) : Z := if s =? 0 then 0 else if s mod 65535 =? 0 then 65535 else s mod 65535.

Lemma land_ffff s : Z.land s 0xffff = s mod 65536.
Proof. change 0xffff with (Z.ones 16). by rewrite Z.land_ones by lia. Qed.

Lemma oc_step s : 0 ≤ s < 2 ^ 32 → oc (s mod 65536 + s / 65536) = oc s.
Proof.
  intros Hs. unfold oc.
  assert ((s mod 65536 + s / 65536) mod 65535 = s mod 65535) as ->.
  { rewrite (Z.div_mod s 65536) at 3 by lia.
    replace (65536 * (s / 65536) + s mod 65536) with (s mod 65536 + s / 65536 + (s / 65536) * 65535) by lia.
    by rewrite Z_mod_plus_full. }
  destruct (Z.eqb_spec s 0) as [->|Hne]; [done|].
  destruct (Z.eqb_spec (s mod 65536 + s / 65536) 0) as [E|]; [|done].
  Z.to_euclidean_division_equations. lia.
Qed.

Lemma oc_small s : 0 ≤ s < 65536 → oc s = s.
Proof.
  intros Hs. unfold oc. destruct (Z.eqb_spec s 0) as [->|]; [done|].
  destruct (Z.eqb_spec (s mod 65535) 0); Z.to_euclidean_division_equations; lia.
Qed.

Lemma fold16_spec s : 0 ≤ s < 2 ^ 32 → fold16 3 s = Some (oc s).
Proof.
  assert (∀ f s, 0 ≤ s < 65536 → fold16 f s = Some (oc s)) as H0.
  { intros f t Ht. destruct f; cbn [fold16]; rewrite Z.shiftr_div_pow2, Z.div_small by lia;
      by rewrite oc_small. }
  assert (∀ f s, 0 ≤ s < 2 ^ 32 → fold16 f (s mod 65536 + s / 65536) = Some (oc (s mod 65536 + s / 65536)) →
     fold16 (S f) s = Some (oc s)) as HS.
  { intros f t Ht Hf. cbn [fold16]. rewrite Z.shiftr_div_pow2 by lia. change (2 ^ 16) with 65536.
    destruct (Z.eqb_spec (t / 65536) 0).
    - by rewrite oc_small by (Z.to_euclidean_division_equations; lia).
    - rewrite land_ffff, u32_small by (Z.to_euclidean_division_equations; lia). by rewrite Hf, oc_step. }
  intros Hs. apply HS; [done|]. set (s1 := s mod 65536 + s / 65536).
  assert (0 ≤ s1 ≤ 131070) by (unfold s1; Z.to_euclidean_division_equations; lia).
  apply HS; [lia|]. apply H0. Z.to_euclidean_division_equations. lia.
Qed.

Lemma complement_oc s : 0 ≤ s < 2 ^ 32 → complement (oc s) = 65535 - oc s ∧ 0 ≤ oc s ≤ 65535.
Proof.
  intros Hs. assert (0 ≤ oc s ≤ 65535) as Hb.
  { unfold oc. repeat case_match; Z.to_euclidean_division_equations; lia. }
  split; [|done]. unfold complement, Z.lnot. rewrite land_ffff.
  Z.to_euclidean_division_equations. lia.
Qed.

(** The sum with the complement in place is all ones. *)
Lemma oc_complement s : 0 ≤ s → s + 65535 < 2 ^ 32 → oc (s + (65535 - oc s)) = 65535.
Proof.
  intros Hs Hb. assert (0 ≤ oc s ≤ 65535) as Ho by (apply complement_oc; lia).
  assert ((s + (65535 - oc s)) mod 65535 = 0) as Hm.
  { unfold oc. destruct (Z.eqb_spec s 0) as [->|]; [done|].
    destruct (Z.eqb_spec (s mod 65535) 0); Z.to_euclidean_division_equations; lia. }
  unfold oc at 1. rewrite Hm. destruct (Z.eqb_spec (s + (65535 - oc s)) 0) as [E|]; [|done].
  assert (s = 0) as -> by lia. done.
Qed.

Lemma ones_sum_spec s l :
  Forall is_byte l → 0 ≤ s → s + wsum l < 2 ^ 32 → ones_sum s l = Some (oc (s + wsum l)).
Proof.
  intros Hl Hs Hb. unfold ones_sum. rewrite sum_wsum by done. apply fold16_spec.
  pose proof (wsum_bound l Hl). lia.
Qed.

Lemma cksum_spec l : Forall is_byte l → wsum l < 2 ^ 32 → cksum l = Some (65535 - oc (wsum l)).
Proof.
  intros Hl Hb. unfold cksum. rewrite ones_sum_spec by (done || lia). simpl. rewrite Z.add_0_l.
  pose proof (wsum_bound l Hl). f_equal. apply complement_oc. lia.
Qed.

(** ** The packets, byte by byte *)

Arguments cksum : simpl never.
Arguments ones_sum : simpl never.
Arguments u8 : simpl never.
Arguments u16 : simpl never.
Arguments u32 : simpl never.
Arguments Z.shiftr : simpl never.
Arguments Z.lor : simpl never.

(** Takes a list of known minimal length apart. *)
Tactic Notation "explode" ident(l) integer(n) "by" hyp(H) :=
  do n (destruct l as [|? l]; [simpl in H; lia|]).

(** Runs the writes to a buffer that was taken apart. *)
Ltac buffer_eval :=
  cbv [ip_header udp_packet tcp_segment icmp_packet arp_message put8 put16 put32 region slice overwrite put_front be16 be32
       mbind option_bind fmap option_fmap option_map take drop length Nat.leb Nat.add MY_IP app].

Definition ip_hdr12 (iplen proto c : Z) : list Z :=
  [u8 0x45; u8 0] ++ be16 (u16 iplen) ++ be16 (u16 0) ++ be16 (u16 0) ++ [u8 64; u8 proto] ++ be16 (u16 c).
Definition ip_hdr (iplen proto c : Z) (dip : list Z) : list Z := ip_hdr12 iplen proto c ++ MY_IP ++ dip.

Lemma my_ip_bytes : Forall is_byte MY_IP.
Proof. unfold MY_IP. repeat constructor; unfold is_byte; lia. Qed.
#[local] Hint Resolve be16_bytes my_ip_bytes : kernel.

Lemma ip_hdr_bytes iplen proto c dip : Forall is_byte dip → Forall is_byte (ip_hdr iplen proto c dip).
Proof.
  intros. unfold ip_hdr, ip_hdr12. rewrite !Forall_app. split_and!; auto with kernel;
    repeat constructor; auto with kernel.
Qed.

Lemma wsum_ip_hdr iplen proto c dip :
  0 ≤ c < 65536 → wsum (ip_hdr iplen proto c dip) = wsum (ip_hdr iplen proto 0 dip) + c.
Proof.
  intros Hc. unfold ip_hdr, ip_hdr12, be16, MY_IP. cbn [app wsum]. pose proof (be16_words c Hc).
  rewrite (u16_small c) by lia. change (u8 (Z.shiftr (u16 0) 8)) with 0. change (u8 (u16 0)) with 0. lia.
Qed.

Lemma ip_hdr_bound iplen proto c dip :
  length dip = 4%nat → Forall is_byte dip → 0 ≤ wsum (ip_hdr iplen proto c dip) ≤ 655350.
Proof.
  intros Hl Hd. pose proof (wsum_bound _ (ip_hdr_bytes iplen proto c dip Hd)) as H.
  assert (length (ip_hdr iplen proto c dip) = 20%nat) as E.
  { unfold ip_hdr. rewrite !length_app, Hl. done. }
  rewrite E in H. change ((Z.of_nat 20 + 1) / 2) with 10 in H. lia.
Qed.

Definition ip_sum (iplen proto : Z) (dip : list Z) : Z := 65535 - oc (wsum (ip_hdr iplen proto 0 dip)).

Lemma ip_header_eq iplen proto dip pkt :
  (20 ≤ length pkt)%nat → length dip = 4%nat → Forall is_byte dip →
  ip_header iplen proto dip pkt = Some (ip_hdr iplen proto (ip_sum iplen proto dip) dip ++ drop 20 pkt).
Proof.
  intros Hl Hd Hb. explode pkt 20 by Hl. do 4 (destruct dip as [|? dip]; [done|]). destruct dip; [|done].
  buffer_eval.
  match goal with |- context [cksum ?h] =>
    assert (h = ip_hdr iplen proto 0 [z19; z20; z21; z22]) as -> by done end.
  pose proof (ip_hdr_bound iplen proto 0 [z19; z20; z21; z22] eq_refl Hb).
  rewrite cksum_spec by (by apply ip_hdr_bytes || lia). done.
Qed.

Lemma length_ip_hdr iplen proto c dip : length dip = 4%nat → length (ip_hdr iplen proto c dip) = 20%nat.
Proof. intros Hd. unfold ip_hdr. by rewrite !length_app, Hd. Qed.

Definition addr_words (dip : list Z) : Z := wsum MY_IP + wsum dip.

Lemma pseudo_eq dip proto len :
  length dip = 4%nat → Forall is_byte dip → 0 ≤ proto < 256 → 0 ≤ len < 65536 →
  pseudo dip proto len = Some (addr_words dip + proto + len) ∧ 0 ≤ addr_words dip ≤ 262140.
Proof.
  intros Hd Hb Hp Hl. do 4 (destruct dip as [|? dip]; [done|]). destruct dip; [|done].
  rewrite !Forall_cons in Hb. destruct Hb as (B0 & B1 & B2 & B3 & _).
  unfold pseudo. unfold MY_IP. unfold addr_words, MY_IP. cbn [wsum].
  unfold get16. simpl. rewrite !lor_bytes by (done || (unfold is_byte; lia)). unfold is_byte in *.
  split; [|lia]. f_equal. wrap_lia.
Qed.

(** The reference receiver reads such a packet back. *)
Lemma ip_receive_hdr iplen proto dip body :
  length dip = 4%nat → Forall is_byte dip → 0 ≤ proto < 256 →
  iplen = 20 + Z.of_nat (length body) → iplen < 65536 →
  ip_receive (ip_hdr iplen proto (ip_sum iplen proto dip) dip ++ body) = Some (proto, MY_IP, dip, body).
Proof.
  intros Hd Hb Hp Hl Hm. unfold ip_receive.
  assert (region 0 20 (ip_hdr iplen proto (ip_sum iplen proto dip) dip ++ body) =
    Some (ip_hdr iplen proto (ip_sum iplen proto dip) dip)) as -> by (by apply region_front, length_ip_hdr).
  assert (region 12 4 (ip_hdr iplen proto (ip_sum iplen proto dip) dip ++ body) = Some MY_IP) as ->.
  { unfold ip_hdr. rewrite <- !app_assoc. by apply region_mid. }
  assert (region 16 4 (ip_hdr iplen proto (ip_sum iplen proto dip) dip ++ body) = Some dip) as ->.
  { unfold ip_hdr. rewrite app_assoc, <- !app_assoc, (app_assoc (ip_hdr12 _ _ _)). by apply region_mid. }
  assert (drop 20 (ip_hdr iplen proto (ip_sum iplen proto dip) dip ++ body) = body) as ->.
  { rewrite <- (length_ip_hdr iplen proto (ip_sum iplen proto dip) dip Hd). apply drop_app_length. }
  assert (length (ip_hdr iplen proto (ip_sum iplen proto dip) dip ++ body) = Z.to_nat iplen) as ->.
  { rewrite length_app, length_ip_hdr by done. lia. }
  pose proof (ip_hdr_bound iplen proto 0 dip Hd Hb) as Hw.
  pose proof (complement_oc (wsum (ip_hdr iplen proto 0 dip)) ltac:(lia)) as [_ Ho].
  assert (valid_sum 0 (ip_hdr iplen proto (ip_sum iplen proto dip) dip) = true) as Hv.
  { unfold valid_sum. apply bool_decide_eq_true_2.
    pose proof (ip_hdr_bound iplen proto (ip_sum iplen proto dip) dip Hd Hb).
    rewrite ones_sum_spec by (by apply ip_hdr_bytes || lia). f_equal. unfold ip_sum.
    rewrite wsum_ip_hdr, Z.add_0_l by lia. apply oc_complement; lia. }
  set (c := ip_sum iplen proto dip) in *.
  assert (get16 2 (ip_hdr iplen proto c dip ++ body) = Some iplen) as ->.
  { change (get16 0 (be16 (u16 iplen) ++ be16 (u16 0) ++ be16 (u16 0) ++ [u8 64; u8 proto] ++
      be16 (u16 c) ++ (MY_IP ++ dip) ++ body) = Some iplen).
    rewrite get16_be16; rewrite ?u16_small by lia; [done|lia]. }
  change (get8 0 (ip_hdr iplen proto c dip ++ body)) with (Some (u8 69)).
  change (get8 9 (ip_hdr iplen proto c dip ++ body)) with (Some (u8 proto)).
  cbn [mbind option_bind]. rewrite (u8_small proto) by lia. change (u8 69 =? 69) with true.
  by rewrite Hv, Z2Nat.id, Z.eqb_refl by lia.
Qed.

(** The next write, [k] bytes behind a header [h], in a buffer taken apart. *)
Ltac past_header h k :=
  match goal with
  | |- context [overwrite ?m ?l (h ++ ?b)] =>
      let E := fresh "E" in
      eassert (overwrite m l (h ++ b) = Some _) as E;
      [rewrite (overwrite_skip h k);
        [cbn [overwrite put_front be16 be32 fmap option_fmap option_map]; reflexivity
        |match goal with H : length h = _ |- _ => by rewrite H end]
      |rewrite E; clear E; cbn [mbind option_bind]]
  end.

Definition udp_seg (sport dport len c : Z) (payload : list Z) : list Z :=
  be16 (u16 sport) ++ be16 (u16 dport) ++ be16 (u16 len) ++ be16 (u16 c) ++ payload.

Definition udp_sum (dip : list Z) (sport dport : Z) (payload : list Z) : Z :=
  let len := 8 + Z.of_nat (length payload) in
  addr_words dip + 17 + len + wsum (udp_seg sport dport len 0 payload).

(** The checksum field: the complement, 0 being sent as all ones. *)
Definition udp_field (s : Z) : Z := if 65535 - oc s =? 0 then 65535 else 65535 - oc s.

Lemma udp_seg_bytes sport dport len c payload :
  Forall is_byte payload → Forall is_byte (udp_seg sport dport len c payload).
Proof. intros. unfold udp_seg. rewrite !Forall_app. split_and!; auto with kernel. Qed.

Lemma wsum_udp_seg sport dport len c payload :
  0 ≤ c < 65536 → wsum (udp_seg sport dport len c payload) = wsum (udp_seg sport dport len 0 payload) + c.
Proof.
  intros Hc. unfold udp_seg, be16. cbn [app wsum]. pose proof (be16_words c Hc).
  rewrite (u16_small c) by lia. change (u8 (Z.shiftr (u16 0) 8)) with 0. change (u8 (u16 0)) with 0. lia.
Qed.

Lemma udp_sum_bound dip sport dport payload :
  length dip = 4%nat → Forall is_byte dip → Forall is_byte payload → (length payload ≤ 2020)%nat →
  0 ≤ udp_sum dip sport dport payload < 2 ^ 32 - 131072 ∧ 0 ≤ addr_words dip + 17 + (8 + Z.of_nat (length payload)) ∧
  0 ≤ wsum (udp_seg sport dport (8 + Z.of_nat (length payload)) 0 payload).
Proof.
  intros Hd Hb Hp Hl. destruct (pseudo_eq dip 17 0 Hd Hb) as [_ Ha]; [lia|lia|].
  pose proof (wsum_bound _ (udp_seg_bytes sport dport (8 + Z.of_nat (length payload)) 0 payload Hp)) as Hw.
  assert (length (udp_seg sport dport (8 + Z.of_nat (length payload)) 0 payload) = 8 + length payload)%nat as E by done.
  rewrite E in Hw. unfold udp_sum. Z.to_euclidean_division_equations. lia.
Qed.

Lemma udp_packet_eq pkt dip sport dport payload :
  length pkt = BUFSZ → length dip = 4%nat → Forall is_byte dip → Forall is_byte payload →
  (length payload ≤ 2020)%nat →
  let len := 8 + Z.of_nat (length payload) in
  udp_packet pkt dip sport dport payload =
    Some (ip_hdr (20 + len) 17 (ip_sum (20 + len) 17 dip) dip ++
          udp_seg sport dport len (udp_field (udp_sum dip sport dport payload)) payload).
Proof.
  intros Hpkt Hd Hb Hp Hl len.
  assert (length pkt = 2048%nat) as Hpkt' by (rewrite Hpkt; reflexivity). clear Hpkt.
  unfold udp_packet, put16. fold len. rewrite ip_header_eq by (done || lia).
  set (h := ip_hdr _ _ _ _). assert (length h = 20%nat) as Hh by (by apply length_ip_hdr).
  assert (length (drop 20 pkt) = 2028%nat) as Hr by (rewrite length_drop; lia).
  set (r := drop 20 pkt) in *. clearbody r. explode r 8 by Hr. cbn [mbind option_bind].
  past_header h 0%nat. past_header h 2%nat. past_header h 4%nat. past_header h 6%nat.
  match goal with |- context [overwrite 28 payload (h ++ ?a)] =>
    assert (overwrite 28 payload (h ++ a) = Some (h ++ udp_seg sport dport len 0 payload ++ drop (length payload) r)) as ->
  end.
  { rewrite (overwrite_skip h 8) by (by rewrite Hh). cbn [overwrite]. rewrite put_front_app by (simpl in Hr; lia). done. }
  cbn [mbind option_bind]. set (post := drop (length payload) r).
  rewrite region_mid by done. cbn [mbind option_bind].
  destruct (udp_sum_bound dip sport dport payload Hd Hb Hp Hl) as (Hs & Hs1 & Hs2). fold len in Hs1, Hs2.
  destruct (pseudo_eq dip 17 len Hd Hb) as [-> _]; [lia|unfold len; lia|]. cbn [mbind option_bind].
  unfold udp_sum in Hs. fold len in Hs.
  rewrite ones_sum_spec by first [by apply udp_seg_bytes|lia].
  change (addr_words dip + 17 + len + wsum (udp_seg sport dport len 0 payload)) with (udp_sum dip sport dport payload).
  cbn [mbind option_bind]. destruct (complement_oc (udp_sum dip sport dport payload)) as [-> _]; [unfold udp_sum; fold len; lia|].
  change (if _ =? 0 then 0xffff else _) with (udp_field (udp_sum dip sport dport payload)).
  set (c := udp_field _).
  assert (overwrite 26 (be16 (u16 c)) (h ++ udp_seg sport dport len 0 payload ++ post) =
    Some (h ++ udp_seg sport dport len c payload ++ post)) as ->.
  { by rewrite (overwrite_skip h 6) by (by rewrite Hh). }
  cbn [mbind option_bind]. rewrite app_assoc. apply region_front. rewrite length_app, Hh. done.
Qed.

(** A payload that does not fit is written past the end of [pkt]. *)
Lemma udp_packet_overflow pkt dip sport dport payload :
  length pkt = BUFSZ → length dip = 4%nat → Forall is_byte dip → (2020 < length payload)%nat →
  udp_packet pkt dip sport dport payload = None.
Proof.
  intros Hpkt Hd Hb Hl. assert (length pkt = 2048%nat) as Hpkt' by (rewrite Hpkt; reflexivity). clear Hpkt.
  unfold udp_packet, put16. rewrite ip_header_eq by (done || lia).
  set (h := ip_hdr _ _ _ _). assert (length h = 20%nat) as Hh by (by apply length_ip_hdr).
  assert (length (drop 20 pkt) = 2028%nat) as Hr by (rewrite length_drop; lia).
  set (r := drop 20 pkt) in *. clearbody r. explode r 8 by Hr. cbn [mbind option_bind].
  past_header h 0%nat. past_header h 2%nat. past_header h 4%nat. past_header h 6%nat.
  match goal with |- context [overwrite 28 payload (h ++ ?a)] =>
    assert (overwrite 28 payload (h ++ a) = None) as ->; [|done]
  end.
  rewrite (overwrite_skip h 8) by (by rewrite Hh). cbn [overwrite]. rewrite put_front_short by (simpl in Hr; lia). done.
Qed.

Lemma get16_skip k n h b : n = (length h + k)%nat → get16 n (h ++ b) = get16 k b.
Proof.
  intros ->. unfold get16. rewrite !lookup_app_r by lia.
  by replace (length h + k - length h)%nat with k by lia;
     replace (S (length h + k) - length h)%nat with (S k) by lia.
Qed.
Lemma get32_skip k n h b : n = (length h + k)%nat → get32 n (h ++ b) = get32 k b.
Proof.
  intros ->. unfold get32. rewrite !lookup_app_r by lia.
  by replace (length h + k - length h)%nat with k by lia;
     replace (S (length h + k) - length h)%nat with (S k) by lia;
     replace (S (S (length h + k)) - length h)%nat with (S (S k)) by lia;
     replace (S (S (S (length h + k))) - length h)%nat with (S (S (S k))) by lia.
Qed.

Lemma udp_field_bound s : 0 ≤ s < 2 ^ 32 → 0 < udp_field s < 65536.
Proof.
  intros Hs. destruct (complement_oc s Hs) as [_ Ho]. unfold udp_field.
  destruct (Z.eqb_spec (65535 - oc s) 0); lia.
Qed.

Lemma oc_udp_field s : 0 ≤ s → s + 65535 < 2 ^ 32 → oc (s + udp_field s) = 65535.
Proof.
  intros Hs Hb. unfold udp_field. destruct (Z.eqb_spec (65535 - oc s) 0) as [E|].
  - assert (oc s = 65535) as Ho by lia. unfold oc in *.
    assert ((s + 65535) mod 65535 = s mod 65535) as -> by (Z.to_euclidean_division_equations; lia).
    destruct (Z.eqb_spec (s + 65535) 0); [lia|]. destruct (Z.eqb_spec s 0); [done|].
    destruct (Z.eqb_spec (s mod 65535) 0); [done|]. Z.to_euclidean_division_equations; lia.
  - by apply oc_complement.
Qed.

Definition port (p : Z) : Prop := 0 ≤ p < 65536.

(** UDP datagrams. For every payload that fits, the packet [udp_tx] builds
    is accepted by a receiver that checks the IP version, the lengths and both
    checksums (the UDP one over the pseudo header), and the receiver gets the
    addresses, the ports and the payload that were sent; the checksum field is
    never the "no checksum" value 0. A longer payload overruns the buffer. *)
Theorem udp_packet_received pkt dip sport dport payload :
  length pkt = BUFSZ → length dip = 4%nat → Forall is_byte dip → Forall is_byte payload →
  port sport → port dport →
  (if decide (length payload ≤ 2020)%nat
   then ∃ p, udp_packet pkt dip sport dport payload = Some p ∧ length p = (28 + length payload)%nat ∧
          udp_receive p = Some (MY_IP, dip, sport, dport, payload)
   else udp_packet pkt dip sport dport payload = None).
Proof.
  intros Hpkt Hd Hb Hp Hsp Hdp. destruct (decide _) as [Hl|Hl]; [|apply udp_packet_overflow; done || lia].
  set (len := 8 + Z.of_nat (length payload)).
  pose proof (udp_sum_bound dip sport dport payload Hd Hb Hp Hl) as (Hs & Hs1 & Hs2). fold len in Hs1, Hs2.
  set (sum := udp_sum dip sport dport payload) in *. pose proof (udp_field_bound sum ltac:(lia)) as Hf.
  assert (0 ≤ len < 65536) as Hlen by (unfold len; lia).
  eexists. split; [by apply udp_packet_eq|]. fold len sum. split.
  { rewrite length_app, length_ip_hdr by done. done. }
  unfold udp_receive. rewrite ip_receive_hdr; [|done|done|lia|unfold len; simpl; lia|unfold len; lia].
  set (c := udp_field sum) in *. cbn [mbind option_bind].
  assert (get16 0 (udp_seg sport dport len c payload) = Some sport) as ->.
  { unfold udp_seg. apply get16_field; (done || lia). }
  assert (get16 2 (udp_seg sport dport len c payload) = Some dport) as ->.
  { unfold udp_seg. rewrite (get16_skip 0) by done. apply get16_field; (done || lia). }
  assert (get16 4 (udp_seg sport dport len c payload) = Some len) as ->.
  { unfold udp_seg. rewrite (get16_skip 2), (get16_skip 0) by done. apply get16_field; (done || lia). }
  assert (get16 6 (udp_seg sport dport len c payload) = Some c) as ->.
  { unfold udp_seg. rewrite (get16_skip 4), (get16_skip 2), (get16_skip 0) by done.
    apply get16_field; (done || lia). }
  cbn [mbind option_bind]. destruct (pseudo_eq dip 17 len Hd Hb) as [-> _]; [lia|lia|]. cbn [mbind option_bind].
  assert (valid_sum (addr_words dip + 17 + len) (udp_seg sport dport len c payload) = true) as ->.
  { unfold valid_sum. apply bool_decide_eq_true_2. unfold sum, udp_sum in Hs. fold len in Hs.
    rewrite ones_sum_spec; [|by apply udp_seg_bytes|lia|rewrite wsum_udp_seg by lia; lia].
    f_equal. rewrite wsum_udp_seg, Z.add_assoc by lia.
    change (addr_words dip + 17 + len + wsum (udp_seg sport dport len 0 payload)) with sum.
    apply oc_udp_field; unfold sum, udp_sum; fold len; lia. }
  assert (Z.of_nat (length (udp_seg sport dport len c payload)) = len) as -> by (unfold len; simpl; lia).
  destruct (Z.eqb_spec c 0); [lia|]. by rewrite bool_decide_eq_true_2, !Z.eqb_refl by done.
Qed.

Lemma udp_packet_received_witness :
  ∃ p, udp_packet (replicate BUFSZ 7) DNS_IP 0x9999 53 [1; 2; 3] = Some p ∧
    udp_receive p = Some (MY_IP, DNS_IP, 0x9999, 53, [1; 2; 3]).
Proof.
  pose proof (udp_packet_received (replicate BUFSZ 7) DNS_IP 0x9999 53 [1; 2; 3]) as H.
  destruct H as (p & H1 & _ & H2).
  - apply length_replicate.
  - reflexivity.
  - unfold DNS_IP. repeat constructor; unfold is_byte; lia.
  - repeat constructor; unfold is_byte; lia.
  - unfold port. lia.
  - unfold port. lia.
  - exists p. split; [exact H1|exact H2].
Defined.

(** ** TCP segments *)

Definition tcp_seg (sport dport seq ack flags c : Z) (data : list Z) : list Z :=
  be16 (u16 sport) ++ be16 (u16 dport) ++ be32 (u32 seq) ++ be32 (u32 ack) ++ [u8 (Z.shiftl 5 4)] ++ [u8 flags] ++
  be16 (u16 64240) ++ be16 (u16 c) ++ be16 (u16 0) ++ data.

Definition tcp_sum (dip : list Z) (sport dport seq ack flags : Z) (data : list Z) : Z :=
  addr_words dip + 6 + (20 + Z.of_nat (length data)) + wsum (tcp_seg sport dport seq ack flags 0 data).

Lemma be32_bytes v : Forall is_byte (be32 v).
Proof. unfold be32. repeat constructor; wrap_lia. Qed.
#[local] Hint Resolve be32_bytes : kernel.

Lemma tcp_seg_bytes sport dport seq ack flags c data :
  Forall is_byte data → Forall is_byte (tcp_seg sport dport seq ack flags c data).
Proof.
  intros. unfold tcp_seg. rewrite !Forall_app. split_and!; auto with kernel; repeat constructor; auto with kernel.
Qed.

Lemma wsum_tcp_seg sport dport seq ack flags c data :
  0 ≤ c < 65536 →
  wsum (tcp_seg sport dport seq ack flags c data) = wsum (tcp_seg sport dport seq ack flags 0 data) + c.
Proof.
  intros Hc. unfold tcp_seg, be16, be32. cbn [app wsum]. pose proof (be16_words c Hc).
  rewrite (u16_small c) by lia. change (u8 (Z.shiftr (u16 0) 8)) with 0. change (u8 (u16 0)) with 0. lia.
Qed.

Lemma length_tcp_seg sport dport seq ack flags c data :
  length (tcp_seg sport dport seq ack flags c data) = (20 + length data)%nat.
Proof. done. Qed.

Lemma tcp_sum_bound dip sport dport seq ack flags data :
  length dip = 4%nat → Forall is_byte dip → Forall is_byte data → (length data ≤ 2008)%nat →
  0 ≤ tcp_sum dip sport dport seq ack flags data < 2 ^ 32 - 131072 ∧
  0 ≤ addr_words dip + 6 + (20 + Z.of_nat (length data)) ∧
  0 ≤ wsum (tcp_seg sport dport seq ack flags 0 data).
Proof.
  intros Hd Hb Hp Hl. destruct (pseudo_eq dip 17 0 Hd Hb) as [_ Ha]; [lia|lia|].
  pose proof (wsum_bound _ (tcp_seg_bytes sport dport seq ack flags 0 data Hp)) as Hw.
  rewrite length_tcp_seg in Hw. unfold tcp_sum. Z.to_euclidean_division_equations. lia.
Qed.

Lemma tcp_segment_eq pkt dip sport dport seq ack flags data :
  length pkt = BUFSZ → length dip = 4%nat → Forall is_byte dip → Forall is_byte data →
  (length data ≤ 2008)%nat →
  let len := 20 + Z.of_nat (length data) in
  tcp_segment pkt dip sport dport seq ack flags data =
    Some (ip_hdr (20 + len) 6 (ip_sum (20 + len) 6 dip) dip ++
          tcp_seg sport dport seq ack flags (65535 - oc (tcp_sum dip sport dport seq ack flags data)) data).
Proof.
  intros Hpkt Hd Hb Hp Hl len.
  assert (length pkt = 2048%nat) as Hpkt' by (rewrite Hpkt; reflexivity). clear Hpkt.
  unfold tcp_segment, put16, put32, put8. fold len. change IP_TCP with 6. rewrite ip_header_eq by (done || lia).
  set (h := ip_hdr _ _ _ _). assert (length h = 20%nat) as Hh by (by apply length_ip_hdr).
  assert (length (drop 20 pkt) = 2028%nat) as Hr by (rewrite length_drop; lia).
  set (r := drop 20 pkt) in *. clearbody r. explode r 20 by Hr. cbn [mbind option_bind].
  past_header h 0%nat. past_header h 2%nat. past_header h 4%nat. past_header h 8%nat. past_header h 12%nat.
  past_header h 13%nat. past_header h 14%nat. past_header h 16%nat. past_header h 18%nat.
  match goal with |- context [overwrite 40 data (h ++ ?a)] =>
    assert (overwrite 40 data (h ++ a) =
      Some (h ++ tcp_seg sport dport seq ack flags 0 data ++ drop (length data) r)) as ->
  end.
  { rewrite (overwrite_skip h 20) by (by rewrite Hh). cbn [overwrite]. rewrite put_front_app by (simpl in Hr; lia). done. }
  cbn [mbind option_bind]. set (post := drop (length data) r).
  rewrite region_mid by done. cbn [mbind option_bind].
  destruct (tcp_sum_bound dip sport dport seq ack flags data Hd Hb Hp Hl) as (Hs & Hs1 & Hs2). fold len in Hs1, Hs2.
  destruct (pseudo_eq dip 6 len Hd Hb) as [-> _]; [lia|unfold len; lia|]. cbn [mbind option_bind].
  unfold tcp_sum in Hs. fold len in Hs. rewrite ones_sum_spec by first [by apply tcp_seg_bytes|lia].
  change (addr_words dip + 6 + len + wsum (tcp_seg sport dport seq ack flags 0 data)) with
    (tcp_sum dip sport dport seq ack flags data) in *.
  cbn [mbind option_bind]. destruct (complement_oc (tcp_sum dip sport dport seq ack flags data)) as [-> _];
    [lia|].
  set (c := 65535 - oc _).
  assert (overwrite 36 (be16 (u16 c)) (h ++ tcp_seg sport dport seq ack flags 0 data ++ post) =
    Some (h ++ tcp_seg sport dport seq ack flags c data ++ post)) as ->.
  { by rewrite (overwrite_skip h 16) by (by rewrite Hh). }
  cbn [mbind option_bind]. rewrite app_assoc. apply region_front. rewrite length_app, Hh. done.
Qed.

Lemma tcp_segment_overflow pkt dip sport dport seq ack flags data :
  length pkt = BUFSZ → length dip = 4%nat → Forall is_byte dip → (2008 < length data)%nat →
  tcp_segment pkt dip sport dport seq ack flags data = None.
Proof.
  intros Hpkt Hd Hb Hl. assert (length pkt = 2048%nat) as Hpkt' by (rewrite Hpkt; reflexivity). clear Hpkt.
  unfold tcp_segment, put16, put32, put8. rewrite ip_header_eq by (done || lia).
  set (h := ip_hdr _ _ _ _). assert (length h = 20%nat) as Hh by (by apply length_ip_hdr).
  assert (length (drop 20 pkt) = 2028%nat) as Hr by (rewrite length_drop; lia).
  set (r := drop 20 pkt) in *. clearbody r. explode r 20 by Hr. cbn [mbind option_bind].
  past_header h 0%nat. past_header h 2%nat. past_header h 4%nat. past_header h 8%nat. past_header h 12%nat.
  past_header h 13%nat. past_header h 14%nat. past_header h 16%nat. past_header h 18%nat.
  match goal with |- context [overwrite 40 data (h ++ ?a)] =>
    assert (overwrite 40 data (h ++ a) = None) as ->; [|done]
  end.
  rewrite (overwrite_skip h 20) by (by rewrite Hh). cbn [overwrite]. rewrite put_front_short by (simpl in Hr; lia). done.
Qed.

(** C36: TCP segments. For all data that fits, the segment [tcp_send] builds is
    accepted by a receiver that checks the IP header, the data offset and the
    checksum over the pseudo header, which reads back ports, sequence and
    acknowledgement numbers (modulo 2^32), flags and data. More data overruns
    the buffer. *)
Theorem tcp_segment_received pkt dip sport dport seq ack flags data :
  length pkt = BUFSZ → length dip = 4%nat → Forall is_byte dip → Forall is_byte data →
  port sport → port dport → is_byte flags →
  (if decide (length data ≤ 2008)%nat
   then ∃ p, tcp_segment pkt dip sport dport seq ack flags data = Some p ∧ length p = (40 + length data)%nat ∧
          tcp_receive p = Some (MY_IP, dip, sport, dport, u32 seq, u32 ack, flags, data)
   else tcp_segment pkt dip sport dport seq ack flags data = None).
Proof.
  intros Hpkt Hd Hb Hp Hsp Hdp Hfl. destruct (decide _) as [Hl|Hl]; [|apply tcp_segment_overflow; done || lia].
  set (len := 20 + Z.of_nat (length data)).
  pose proof (tcp_sum_bound dip sport dport seq ack flags data Hd Hb Hp Hl) as (Hs & Hs1 & Hs2). fold len in Hs1, Hs2.
  set (sum := tcp_sum dip sport dport seq ack flags data) in *.
  destruct (complement_oc sum ltac:(lia)) as [_ Ho].
  assert (0 ≤ len < 65536) as Hlen by (unfold len; lia).
  eexists. split; [by apply tcp_segment_eq|]. fold len sum. split.
  { rewrite length_app, length_ip_hdr by done. done. }
  unfold tcp_receive. rewrite ip_receive_hdr; [|done|done|lia|unfold len; rewrite length_tcp_seg; lia|unfold len; lia].
  set (c := 65535 - oc sum) in *. cbn [mbind option_bind].
  assert (get16 0 (tcp_seg sport dport seq ack flags c data) = Some sport) as ->.
  { unfold tcp_seg. by apply get16_field. }
  assert (get16 2 (tcp_seg sport dport seq ack flags c data) = Some dport) as ->.
  { unfold tcp_seg. rewrite (get16_skip 0) by done. by apply get16_field. }
  assert (get32 4 (tcp_seg sport dport seq ack flags c data) = Some (u32 seq)) as ->.
  { unfold tcp_seg. rewrite (get32_skip 2), (get32_skip 0) by done. apply get32_be32. wrap_lia. }
  assert (get32 8 (tcp_seg sport dport seq ack flags c data) = Some (u32 ack)) as ->.
  { unfold tcp_seg. rewrite (get32_skip 6), (get32_skip 4), (get32_skip 0) by done. apply get32_be32. wrap_lia. }
  change (get8 12 (tcp_seg sport dport seq ack flags c data)) with (Some (u8 (Z.shiftl 5 4))).
  change (get8 13 (tcp_seg sport dport seq ack flags c data)) with (Some (u8 flags)).
  rewrite length_tcp_seg, Nat2Z.inj_add. change (Z.of_nat 20 + Z.of_nat (length data)) with len.
  cbn [mbind option_bind]. destruct (pseudo_eq dip 6 len Hd Hb) as [-> _]; [lia|lia|]. cbn [mbind option_bind].
  assert (valid_sum (addr_words dip + 6 + len) (tcp_seg sport dport seq ack flags c data) = true) as ->.
  { unfold valid_sum. apply bool_decide_eq_true_2. unfold sum, tcp_sum in Hs. fold len in Hs.
    rewrite ones_sum_spec; [|by apply tcp_seg_bytes|lia|rewrite wsum_tcp_seg by lia; lia].
    f_equal. rewrite wsum_tcp_seg, Z.add_assoc by lia.
    change (addr_words dip + 6 + len + wsum (tcp_seg sport dport seq ack flags 0 data)) with sum.
    apply oc_complement; unfold sum, tcp_sum; fold len; lia. }
  rewrite (u8_small flags) by exact Hfl. change (u8 (Z.shiftl 5 4)) with 80.
  by rewrite bool_decide_eq_true_2 by done.
Qed.

Lemma tcp_segment_received_witness :
  ∃ p, tcp_segment (replicate BUFSZ 7) GW_IP 5599 40000 4294967295 17 24 [104; 105] = Some p ∧
    tcp_receive p = Some (MY_IP, GW_IP, 5599, 40000, 4294967295, 17, 24, [104; 105]).
Proof.
  pose proof (tcp_segment_received (replicate BUFSZ 7) GW_IP 5599 40000 4294967295 17 24 [104; 105]) as H.
  destruct H as (p & H1 & _ & H2).
  - apply length_replicate.
  - reflexivity.
  - unfold GW_IP. repeat constructor; unfold is_byte; lia.
  - repeat constructor; unfold is_byte; lia.
  - unfold port. lia.
  - unfold port. lia.
  - unfold is_byte. lia.
  - exists p. split; [exact H1|exact H2].
Defined.

(** ** ICMP echo requests *)

(** The forty bytes of the echo request: every byte of the buffer is written. *)
Definition icmp_bytes : list Z := [8; 0; 147; 104; 171; 205; 0; 1] ++ icmp_echo.

Lemma icmp_request_eq icmp : length icmp = 40%nat → icmp_request icmp = Some icmp_bytes.
Proof.
  intros Hl. explode icmp 40 by Hl. destruct icmp; [|simpl in Hl; lia]. vm_compute. reflexivity.
Qed.

(** Echo requests. The packet [icmp_ping] builds, whatever its buffers held,
    is accepted by a receiver that checks the IP header and the ICMP checksum: an
    echo request with the identifier and payload of the code. *)
Theorem icmp_packet_received icmp pkt dip :
  length icmp = 40%nat → length pkt = BUFSZ → length dip = 4%nat → Forall is_byte dip →
  ∃ p, icmp_packet icmp pkt dip = Some p ∧ length p = 60%nat ∧
    icmp_receive p = Some (MY_IP, dip, 8, 0xabcd, icmp_echo).
Proof.
  intros Hi Hpkt Hd Hb. assert (length pkt = 2048%nat) as Hpkt' by (rewrite Hpkt; reflexivity). clear Hpkt.
  exists (ip_hdr 60 1 (ip_sum 60 1 dip) dip ++ icmp_bytes). split_and!.
  - unfold icmp_packet. rewrite icmp_request_eq by done. cbn [mbind option_bind].
    rewrite ip_header_eq by (done || lia). cbn [mbind option_bind].
    set (h := ip_hdr _ _ _ _). assert (length h = 20%nat) as Hh by (by apply length_ip_hdr).
    change (region 0 40 icmp_bytes) with (Some icmp_bytes). cbn [mbind option_bind].
    rewrite (overwrite_skip h 0) by (by rewrite Hh). cbn [overwrite].
    rewrite put_front_app by (rewrite length_drop; simpl; lia). cbn [fmap option_fmap option_map mbind option_bind].
    rewrite app_assoc. apply region_front. by rewrite length_app, Hh.
  - by rewrite length_app, length_ip_hdr.
  - unfold icmp_receive. rewrite ip_receive_hdr by (done || lia).
    cbn [mbind option_bind]. reflexivity.
Qed.

Lemma icmp_packet_received_witness :
  ∃ p, icmp_packet (replicate 40 1) (replicate BUFSZ 2) GW_IP = Some p ∧
    icmp_receive p = Some (MY_IP, GW_IP, 8, 0xabcd, icmp_echo).
Proof.
  destruct (icmp_packet_received (replicate 40 1) (replicate BUFSZ 2) GW_IP) as (p & H1 & _ & H2).
  - reflexivity.
  - apply length_replicate.
  - reflexivity.
  - unfold GW_IP. repeat constructor; unfold is_byte; lia.
  - exists p. split; [exact H1|exact H2].
Defined.
