(* ===== verification/Net.v ===== *)
(** * The network stack above the driver (src/net.c)

    ARP, UDP, DNS, ICMP and TCP, written against the interface [Nic]: sending a
    frame and polling for one. Every C function that declares a local packet
    buffer takes its uninitialised contents as an argument ([fr], [pkt], ...).
    [NicLaws] is what the stack may rely on, stated with the trace of frames
    sent and received; NetDriverOps.v discharges it for the virtio driver. *)
From S2P Require Import Prelude Spinlock Uart Packet.

(** ** The interface *)

Class Nic (S : Type) := {
  nic_ok : S → bool;
  my_mac : S → list Z;
  eth_tx : list Z → Z → list Z → M S Z;
  eth_rx : list Z → nat → M S (Z * list Z);
}.

(** The bytes of an Ethernet frame. *)
Definition eth_frame (dst src : list Z) (ethertype : Z) (payload : list Z) : list Z :=
  dst ++ src ++ be16 (u16 ethertype) ++ payload.

(** What went over the wire. *)
Inductive event := Tx (frame : list Z) | Rx (frame : list Z).

Class NicLaws (S : Type) `{HasDev S, Nic S} := {
  trace : S → list event;
  nic_good : S → Prop;
  nic_mac s : nic_good s → length (my_mac s) = 6%nat ∧ Forall is_byte (my_mac s) ∧ nic_ok s = true;
  nic_tx s dst ty payload (Q : Z → S → Prop) :
    nic_good s → length dst = 6%nat → (length payload ≤ BUFSZ)%nat →
    (∀ r s', r = 0 ∨ r = -1 → nic_good s' → my_mac s' = my_mac s → dev_of s' = dev_of s →
       trace s' = trace s ++ [Tx (eth_frame dst (my_mac s) ty payload)] → Q r s') →
    wp (eth_tx dst ty payload) Q s;
  nic_rx s buf (Q : Z * list Z → S → Prop) :
    nic_good s → length buf = BUFSZ →
    (∀ s', nic_good s' → my_mac s' = my_mac s → dev_of s' = dev_of s → trace s' = trace s → Q (0, buf) s') →
    (∀ f s', nic_good s' → my_mac s' = my_mac s → dev_of s' = dev_of s → trace s' = trace s ++ [Rx f] →
       Forall is_byte f → (length f ≤ BUFSZ)%nat →
       Q (Z.of_nat (length f), f ++ drop (length f) buf) s') →
    wp (eth_rx buf BUFSZ) Q s;
}.

Section stack.
Context {S : Type} `{HasDev S, Nic S}.

(** ** Printing *)

Definition hex_char (d : Z) : Z := if d <? 10 then 48 + d else 97 + (d - 10).

(** [print_mac]: [i] counts the bytes already printed. *)
Fixpoint print_mac_from (i : nat) (m : list Z) : M S unit :=
  match m with
  | [] => mret tt
  | b :: m =>
      when (negb (Nat.eqb i 0)) (uart_putc 58);;
      uart_putc (hex_char (Z.shiftr b 4));;
      uart_putc (hex_char (Z.land b 0xf));;
      print_mac_from (Datatypes.S i) m
  end.
Definition print_mac (m : list Z) : M S unit := print_mac_from 0 (take 6 m).

Fixpoint print_ip_from (i : nat) (ip : list Z) : M S unit :=
  match ip with
  | [] => mret tt
  | b :: ip =>
      when (negb (Nat.eqb i 0)) (uart_putc 46);;
      uart_dec b;;
      print_ip_from (Datatypes.S i) ip
  end.
Definition print_ip (ip : list Z) : M S unit := print_ip_from 0 (take 4 ip).

(** ** ARP *)

Definition bcast : list Z := replicate 6 0xff.

Definition arp_request (a target_ip : list Z) : M S unit :=
  mac ← gets my_mac;
  m ← of_option (arp_message a 1 mac MY_IP (replicate 6 0) target_ip);
  r ← eth_tx bcast ETH_ARP m;
  mret tt.

Definition arp_maybe_reply (buf fr : list Z) (len : Z) : M S unit :=
  if len <? 14 + 28 then mret tt
  else
    ty ← of_option (get16 12 fr);
    if negb (ty =? ETH_ARP) then mret tt
    else
      let a := drop 14 fr in
      oper ← of_option (get16 6 a);
      if negb (oper =? 1) then mret tt
      else
        mine ← of_option (eq4 (drop 24 a) MY_IP);
        if negb mine then mret tt
        else
          mac ← gets my_mac;
          smac ← of_option (region 8 6 a);
          sip ← of_option (region 14 4 a);
          m ← of_option (arp_message buf 2 mac MY_IP smac sip);
          r ← eth_tx smac ETH_ARP m;
          mret tt.

(** Polls allowed before the code gives up. *)
Definition SPINS : Z := 400000000.
Definition TCP_SPINS : Z := 800000000.

(** [for (spin = 0; spin < n; spin++)] around a body that continues with a new
    receive buffer or returns. *)
Definition polling {A : Type} (n : Z) (late : A) (body : list Z → M S (list Z + A)) (fr : list Z) : M S A :=
  loop (Z.to_nat n + 1) (λ '(spin, fr),
    if spin <? n then
      r ← body fr;
      match r with
      | inl fr => mret (inl (spin + 1, fr))
      | inr a => mret (inr a)
      end
    else mret (inr late)) (0, fr).

(** One round of [arp_resolve]; the result is the MAC address found. *)
Definition arp_resolve_body (buf target_ip fr : list Z) : M S (list Z + option (list Z)) :=
  '(len, fr) ← eth_rx fr BUFSZ;
  if len <=? 0 then mret (inl fr)
  else
    ty ← of_option (get16 12 fr);
    if (ty =? ETH_ARP) && (14 + 28 <=? len) then
      let a := drop 14 fr in
      oper ← of_option (get16 6 a);
      from ← (if oper =? 2 then of_option (eq4 (drop 14 a) target_ip) else mret false);
      if (from : bool) then m ← of_option (region 8 6 a); mret (inr (Some m))
      else arp_maybe_reply buf fr len;; mret (inl fr)
    else mret (inl fr).

Definition arp_resolve (a buf fr target_ip : list Z) : M S (option (list Z)) :=
  arp_request a target_ip;;
  polling SPINS None (arp_resolve_body buf target_ip) fr.

(** ** UDP *)

Definition udp_tx (pkt dst_mac dst_ip : list Z) (sport dport : Z) (payload : list Z) : M S Z :=
  p ← of_option (udp_packet pkt dst_ip sport dport payload);
  eth_tx dst_mac ETH_IP p.

(** The part of a round of [udp_rx] that looks at an IP frame: [None] to go on,
    or the payload. *)
Definition udp_accept (want_port : Z) (fr : list Z) (max : nat) : option (option (list Z)) :=
  let ip := drop 14 fr in
  v ← get8 0 ip; proto ← get8 9 ip;
  if negb (Z.shiftr v 4 =? 4) || negb (proto =? 17) then Some None
  else
    let udp := drop (Z.to_nat (Z.land v 0xf * 4)) ip in
    dport ← get16 2 udp;
    if negb (dport =? want_port) then Some None
    else
      ulen ← get16 4 udp;
      let plen := ulen - 8 in
      if plen <? 0 then Some None
      else
        let plen := if Z.of_nat max <? plen then Z.of_nat max else plen in
        Some <$> region 8 (Z.to_nat plen) udp.

Definition udp_rx_body (buf : list Z) (want_port : Z) (max : nat) (fr : list Z) : M S (list Z + option (list Z)) :=
  '(len, fr) ← eth_rx fr BUFSZ;
  if len <=? 0 then (if len <? 0 then mret (inr None) else mret (inl fr))
  else
    ty ← of_option (get16 12 fr);
    if ty =? ETH_ARP then arp_maybe_reply buf fr len;; mret (inl fr)
    else if negb (ty =? ETH_IP) || (len <? 14 + 28) then mret (inl fr)
    else
      r ← of_option (udp_accept want_port fr max);
      match r with
      | None => mret (inl fr)
      | Some p => mret (inr (Some p))
      end.

Definition udp_rx (buf fr : list Z) (want_port : Z) (max : nat) : M S (option (list Z)) :=
  polling SPINS None (udp_rx_body buf want_port max) fr.

(** ** DNS *)

(** The characters up to the next dot, and what follows it. *)
Fixpoint dns_label (name : list Z) : list Z * list Z :=
  match name with
  | [] => ([], [])
  | c :: name => if c =? 46 then ([], name) else (c :: (dns_label name).1, (dns_label name).2)
  end.

(** The loop that writes the labels of [name] at [q + p]; every round eats at
    least one character. *)
Fixpoint dns_labels (fuel : nat) (name : list Z) (p : nat) (q : list Z) : option (nat * list Z) :=
  match name with
  | [] => Some (p, q)
  | _ =>
      match fuel with
      | O => None
      | Datatypes.S fuel =>
          let '(l, rest) := dns_label name in
          q ← put8 p (Z.of_nat (length l)) q;
          q ← overwrite (Datatypes.S p) (u8 <$> l) q;
          dns_labels fuel rest (Datatypes.S p + length l) q
      end
  end.

(** The question: identifier 0x1234, recursion desired, one A record of [name]. *)
Definition dns_question (q name : list Z) : option (list Z) :=
  q ← put16 0 0x1234 q;
  q ← put16 2 0x0100 q;
  q ← put16 4 1 q;
  q ← put16 6 0 q; q ← put16 8 0 q; q ← put16 10 0 q;
  '(p, q) ← dns_labels (length name) name 12 q;
  q ← put8 p 0 q;
  q ← put16 (p + 1) 1 q;
  q ← put16 (p + 3) 1 q;
  region 0 (p + 5) q.

(** [while (off < rlen && r[off] != 0) off += r[off] + 1] *)
Fixpoint dns_skip (fuel : nat) (r : list Z) (rlen off : nat) : option nat :=
  if (off <? rlen)%nat then
    b ← get8 off r;
    if b =? 0 then Some off
    else match fuel with
    | O => None
    | Datatypes.S fuel => dns_skip fuel r rlen (off + Z.to_nat b + 1)
    end
  else Some off.

(** The loop over the answers: [Some None] is the code's -1. *)
Fixpoint dns_answers (an : nat) (r : list Z) (rlen off : nat) : option (option (list Z)) :=
  match an with
  | O => Some None
  | Datatypes.S an =>
      if negb (off + 12 <=? rlen)%nat then Some None
      else
        b ← get8 off r;
        off ← (if Z.land b 0xc0 =? 0xc0 then Some (off + 2)%nat
               else Datatypes.S <$> dns_skip rlen r rlen off);
        if (rlen <? off + 10)%nat then Some None
        else
          type ← get16 off r;
          rdlen ← get16 (off + 8) r;
          if (type =? 1) && (rdlen =? 4) then Some <$> region (off + 10) 4 r
          else dns_answers an r rlen (off + 10 + Z.to_nat rdlen)
  end.

(** The reply in the first [rlen] bytes of [r]. *)
Definition dns_parse (r : list Z) (rlen : nat) : option (option (list Z)) :=
  if (rlen <? 12)%nat then Some None
  else
    an ← get16 6 r;
    if an <? 1 then Some None
    else
      off ← dns_skip rlen r rlen 12;
      dns_answers (Z.to_nat an) r rlen (off + 1 + 4).

(** [name] without its terminator; [q], [pkt], [buf], [fr] and [r] are the
    uninitialised buffers. The result is the address found. *)
Definition dns_query (q pkt buf fr r : list Z) (dns_mac name : list Z) : M S (option (list Z)) :=
  m ← of_option (dns_question q name);
  e ← udp_tx pkt dns_mac DNS_IP 0x9999 53 m;
  if negb (e =? 0) then mret None
  else
    reply ← udp_rx buf fr 0x9999 BUFSZ;
    match reply with
    | None => mret None
    | Some p => of_option (dns_parse (p ++ drop (length p) r) (length p))
    end.

(** ** ICMP *)

Definition ping_body (buf dst_ip fr : list Z) : M S (list Z + Z) :=
  '(len, fr) ← eth_rx fr BUFSZ;
  if len <=? 0 then (if len <? 0 then mret (inr (-1)) else mret (inl fr))
  else
    ty ← of_option (get16 12 fr);
    if ty =? ETH_ARP then arp_maybe_reply buf fr len;; mret (inl fr)
    else if negb (ty =? ETH_IP) || (len <? 14 + 28) then mret (inl fr)
    else
      let ip := drop 14 fr in
      proto ← of_option (get8 9 ip);
      if negb (proto =? 1) then mret (inl fr)
      else
        v ← of_option (get8 0 ip);
        t ← of_option (get8 (Z.to_nat (Z.land v 0xf * 4)) ip);
        from ← (if t =? 0 then of_option (eq4 (drop 12 ip) dst_ip) else mret false);
        if (from : bool) then mret (inr 0) else mret (inl fr).

Definition icmp_ping (icmp pkt buf fr : list Z) (next_mac dst_ip : list Z) : M S Z :=
  p ← of_option (icmp_packet icmp pkt dst_ip);
  e ← eth_tx next_mac ETH_IP p;
  if negb (e =? 0) then mret (-1)
  else polling SPINS (-1) (ping_body buf dst_ip) fr.

(** ** TCP *)

Definition tcp_send (pkt mac dip : list Z) (sport dport seq ack flags : Z) (data : list Z) : M S Z :=
  p ← of_option (tcp_segment pkt dip sport dport seq ack flags data);
  eth_tx mac ETH_IP p.

(** What [tcp_recv] reports about a segment: the peer, the header fields and the data. *)
Record tcp_in := TcpIn {
  t_mac : list Z; t_ip : list Z; t_port : Z; t_seq : Z; t_ack : Z; t_flags : Z; t_data : list Z
}.

Definition tcp_accept (want_port : Z) (fr : list Z) (max : nat) : option (option tcp_in) :=
  let ip := drop 14 fr in
  v ← get8 0 ip; proto ← get8 9 ip;
  if negb (Z.shiftr v 4 =? 4) || negb (proto =? IP_TCP) then Some None
  else
    let ihl := Z.land v 0xf * 4 in
    let t := drop (Z.to_nat ihl) ip in
    dport ← get16 2 t;
    if negb (dport =? want_port) then Some None
    else
      mac ← region 6 6 fr; src ← region 12 4 ip; sport ← get16 0 t;
      seq ← get32 4 t; ack ← get32 8 t; flags ← get8 13 t;
      o ← get8 12 t;
      let doff := Z.shiftr o 4 * 4 in
      total ← get16 2 ip;
      let dlen := total - ihl - doff in
      let dlen := if dlen <? 0 then 0 else dlen in
      let dlen := if Z.of_nat max <? dlen then Z.of_nat max else dlen in
      data ← region (Z.to_nat doff) (Z.to_nat dlen) t;
      Some (Some (TcpIn mac src sport seq ack flags data)).

Definition tcp_recv_body (buf : list Z) (want_port : Z) (max : nat) (fr : list Z) : M S (list Z + option tcp_in) :=
  '(len, fr) ← eth_rx fr BUFSZ;
  if len <=? 0 then (if len <? 0 then mret (inr None) else mret (inl fr))
  else
    ty ← of_option (get16 12 fr);
    if ty =? ETH_ARP then arp_maybe_reply buf fr len;; mret (inl fr)
    else if negb (ty =? ETH_IP) then mret (inl fr)
    else
      r ← of_option (tcp_accept want_port fr max);
      match r with
      | None => mret (inl fr)
      | Some i => mret (inr (Some i))
      end.

Definition tcp_recv (buf fr : list Z) (want_port : Z) (max : nat) : M S (option tcp_in) :=
  polling TCP_SPINS None (tcp_recv_body buf want_port max) fr.

Definition has_flag (flags f : Z) : bool := negb (Z.land flags f =? 0).

(** The uninitialised buffers of the TCP demo's calls. *)
Record tcp_bufs := TcpBufs { b_pkt : list Z; b_arp : list Z; b_fr : list Z }.

Definition MYPORT : Z := 5599.

(** 1) Wait for a SYN. [fuel] bounds the number of segments looked at. *)
Definition wait_syn (fuel : nat) (b : tcp_bufs) : M S (option tcp_in) :=
  loop fuel (λ _,
    n ← tcp_recv (b_arp b) (b_fr b) MYPORT BUFSZ;
    match n with
    | None => mret (inr None)
    | Some i => if has_flag (t_flags i) TH_SYN then mret (inr (Some i)) else mret (inl tt)
    end) tt.

(** 3) One round of the data loop: [inr None] for "no data", or the next
    sequence and acknowledgement numbers. *)
Definition data_round (b : tcp_bufs) (peer : tcp_in) (myseq cliack : Z) : M S (unit + option (Z * Z)) :=
  n ← tcp_recv (b_arp b) (b_fr b) MYPORT BUFSZ;
  match n with
  | None => uart_line "[tcp] no data";; mret (inr None)
  | Some i =>
      if 0 <? Z.of_nat (length (t_data i)) then
        uart_str "[tcp] recv: ";;
        putc_each (t_data i);;
        l ← of_option (last (t_data i));
        when (negb (l =? 10)) (uart_putc 10);;
        let cliack := u32 (t_seq i + Z.of_nat (length (t_data i))) in
        e ← tcp_send (b_pkt b) (t_mac peer) (t_ip peer) MYPORT (t_port peer) myseq cliack
              (Z.lor TH_PSH TH_ACK) (t_data i);
        mret (inr (Some (u32 (myseq + Z.of_nat (length (t_data i))), cliack)))
      else if has_flag (t_flags i) TH_FIN then mret (inr (Some (myseq, u32 (t_seq i + 1))))
      else mret (inl tt)
  end.

(** [for (tries = 0; tries < 12; tries++)] *)
Fixpoint data_loop (tries : nat) (b : tcp_bufs) (peer : tcp_in) (myseq cliack : Z) : M S (option (Z * Z)) :=
  match tries with
  | O => mret (Some (myseq, cliack))
  | Datatypes.S tries =>
      r ← data_round b peer myseq cliack;
      match r with
      | inl _ => data_loop tries b peer myseq cliack
      | inr x => mret x
      end
  end.

Definition net_tcp_demo (fuel : nat) (b : tcp_bufs) : M S unit :=
  ok ← gets nic_ok;
  if negb ok then mret tt
  else
    uart_str "[tcp] listening on :5599 (waiting for host connect) ... ";;
    syn ← wait_syn fuel b;
    match syn with
    | None => uart_line "timeout (no connect)"
    | Some peer =>
        let cliseq := t_seq peer in
        uart_str "SYN from ";; print_ip (t_ip peer);; uart_putc 10;;
        e ← tcp_send (b_pkt b) (t_mac peer) (t_ip peer) MYPORT (t_port peer) 20000 (u32 (cliseq + 1))
              (Z.lor TH_SYN TH_ACK) [];
        x ← data_loop 12 b peer 20001 (u32 (cliseq + 1));
        match x with
        | None => mret tt
        | Some (myseq, cliack) =>
            e ← tcp_send (b_pkt b) (t_mac peer) (t_ip peer) MYPORT (t_port peer) myseq cliack
                  (Z.lor TH_FIN TH_ACK) [];
            n ← tcp_recv (b_arp b) (b_fr b) MYPORT BUFSZ;
            match n with
            | Some i =>
                when (has_flag (t_flags i) TH_FIN)
                  (e ← tcp_send (b_pkt b) (t_mac peer) (t_ip peer) MYPORT (t_port peer)
                         (u32 (myseq + 1)) (u32 (t_seq i + 1)) TH_ACK [];
                   mret tt)
            | None => mret tt
            end;;
            uart_line "[ok] tcp: accept + handshake + echo + close done"
        end
    end.

(** ** The boot-time demonstration *)

(** The uninitialised buffers of the calls of [net_demo]. *)
Record demo_bufs := DemoBufs {
  d_arp : list Z; d_fr : list Z; d_icmp : list Z; d_pkt : list Z; d_q : list Z; d_r : list Z
}.

(** 3) Resolve a name. *)
Definition net_demo_dns (b : demo_bufs) : M S unit :=
  dns ← arp_resolve (d_arp b) (d_arp b) (d_fr b) DNS_IP;
  match dns with
  | None => uart_line "[net] cannot reach DNS server"
  | Some dnsmac =>
      uart_str "[net] DNS A ";; uart_str "example.com";; uart_str " ... ";;
      ip ← dns_query (d_q b) (d_pkt b) (d_arp b) (d_fr b) (d_r b) dnsmac (of_string "example.com");
      match ip with
      | None => uart_line "timeout (no outbound DNS?)"
      | Some ip => print_ip ip;; uart_putc 10
      end
  end.

Definition net_demo (b : demo_bufs) : M S unit :=
  ok ← gets nic_ok;
  if negb ok then mret tt
  else
    uart_str "[net] ARP who-has ";;
    print_ip GW_IP;; uart_str " (gateway) ... ";;
    gw ← arp_resolve (d_arp b) (d_arp b) (d_fr b) GW_IP;
    match gw with
    | None => uart_line "timeout"
    | Some gwmac =>
        uart_str "is-at ";; print_mac gwmac;; uart_putc 10;;
        uart_str "[net] ping ";; print_ip GW_IP;; uart_str " ... ";;
        p ← icmp_ping (d_icmp b) (d_pkt b) (d_arp b) (d_fr b) gwmac GW_IP;
        (if p =? 0 then uart_line "reply" else uart_line "timeout");;
        net_demo_dns b;;
        uart_line "[ok] networking up: virtio-net + ARP + ICMP + IP/UDP"
    end.
End stack.

(** ** Frames, read by a reference parser *)

(** Operation, sender MAC, sender IP, target IP of an ARP frame. *)
Definition arp_parse (f : list Z) : option (Z * list Z * list Z * list Z) :=
  if (length f <? 42)%nat then None
  else
    ty ← get16 12 f;
    if negb (ty =? ETH_ARP) then None
    else
      op ← get16 20 f; smac ← region 22 6 f; sip ← region 28 4 f; tip ← region 38 4 f;
      Some (op, smac, sip, tip).

Definition arp_bytes (oper : Z) (smac sip tmac tip : list Z) : list Z :=
  [0; 1; 8; 0; 6; 4] ++ be16 (u16 oper) ++ smac ++ sip ++ tmac ++ tip.

(** What the stack sends for a received frame: the answer to a question about its address. *)
Definition arp_answer (mac f : list Z) : list event :=
  match arp_parse f with
  | Some (op, smac, sip, tip) =>
      if (op =? 1) && bool_decide (tip = MY_IP)
      then [Tx (eth_frame smac mac ETH_ARP (arp_bytes 2 mac MY_IP smac sip))] else []
  | None => []
  end.

(** A reply from [target]: its MAC address. *)
Definition arp_found (target f : list Z) : option (list Z) :=
  match arp_parse f with
  | Some (op, smac, sip, tip) => if (op =? 2) && bool_decide (sip = target) then Some smac else None
  | None => None
  end.

(** The trace of receiving frames and answering the ARP requests among them. *)
Definition answered (mac : list Z) (fs : list (list Z)) : list event :=
  fs ≫= λ f, Rx f :: arp_answer mac f.

Lemma answered_snoc mac fs f : answered mac (fs ++ [f]) = answered mac fs ++ Rx f :: arp_answer mac f.
Proof. unfold answered. rewrite bind_app. cbn. by rewrite app_nil_r. Qed.

Lemma arp_message_eq a oper smac sip tmac tip :
  (28 ≤ length a)%nat → length smac = 6%nat → length sip = 4%nat → length tmac = 6%nat → length tip = 4%nat →
  length a = 28%nat →
  arp_message a oper smac sip tmac tip = Some (arp_bytes oper smac sip tmac tip).
Proof.
  intros Hl H1 H2 H3 H4 Ha. explode a 28 by Hl. destruct a; [|simpl in Ha; lia]. clear Hl Ha.
  do 6 (destruct smac as [|? smac]; [done|]). destruct smac; [|done].
  do 4 (destruct sip as [|? sip]; [done|]). destruct sip; [|done].
  do 6 (destruct tmac as [|? tmac]; [done|]). destruct tmac; [|done].
  do 4 (destruct tip as [|? tip]; [done|]). destruct tip; [|done].
  buffer_eval. reflexivity.
Qed.

Lemma region_app off n f b : (off + n ≤ length f)%nat → region off n (f ++ b) = region off n f.
Proof.
  intros Hl. unfold region. rewrite !(proj2 (Nat.leb_le _ _)) by (rewrite ?length_app; lia).
  by rewrite slice_app_l.
Qed.

Lemma region_drop k off n b : region off n (drop k b) = region (k + off) n b ∨ (length b < k)%nat.
Proof.
  destruct (decide (length b < k)%nat); [by right|left]. unfold region. rewrite length_drop.
  destruct (Nat.leb_spec (off + n) (length b - k)); destruct (Nat.leb_spec (k + off + n) (length b)); try lia; [|done].
  unfold slice. by rewrite drop_drop, Nat.add_comm.
Qed.

Lemma get16_app off f b : (off + 2 ≤ length f)%nat → get16 off (f ++ b) = get16 off f.
Proof. intros Hl. unfold get16. by rewrite !lookup_app_l by lia. Qed.
Lemma get16_drop k off b : get16 off (drop k b) = get16 (k + off) b.
Proof. unfold get16. rewrite !lookup_drop. by rewrite Nat.add_succ_r. Qed.

Lemma region_length off n b l : region off n b = Some l → length l = n.
Proof.
  unfold region. destruct (Nat.leb_spec (off + n) (length b)); [|done]. intros [= <-]. by apply length_slice.
Qed.

Lemma region_some off n b : (off + n ≤ length b)%nat → ∃ l, region off n b = Some l ∧ length l = n.
Proof.
  intros Hl. exists (slice off n b). split; [|by apply length_slice]. unfold region.
  by rewrite (proj2 (Nat.leb_le _ _)) by done.
Qed.

Lemma get16_some off b : (off + 2 ≤ length b)%nat → ∃ v, get16 off b = Some v.
Proof.
  intros Hl. unfold get16.
  destruct (lookup_lt_is_Some_2 b off) as [x ->]; [lia|].
  destruct (lookup_lt_is_Some_2 b (Datatypes.S off)) as [y ->]; [lia|]. by eexists.
Qed.

Lemma eq4_region off b l :
  region off 4 b = Some l → ∀ k, length k = 4%nat → eq4 (drop off b) k = Some (bool_decide (l = k)).
Proof.
  intros Hr k Hk. unfold region in Hr. destruct (Nat.leb_spec (off + 4) (length b)) as [Hl|]; [|done].
  injection Hr as <-. unfold slice. assert (length (drop off b) ≥ 4)%nat as Hd by (rewrite length_drop; lia).
  revert Hd. generalize (drop off b). intros d Hd. do 4 (destruct d as [|? d]; [simpl in Hd; lia|]).
  do 4 (destruct k as [|? k]; [done|]). destruct k; [|done]. unfold eq4. simpl.
  repeat match goal with |- context [?x =? ?y] => destruct (Z.eqb_spec x y) as [->|] end;
    symmetry; f_equal; first [by apply bool_decide_eq_true_2|apply bool_decide_eq_false_2; congruence].
Qed.

Section rules.
Context {S : Type} `{NicLaws S}.

Lemma wp_polling {A} (I : list Z → S → Prop) n (late : A) body fr (Q : A → S → Prop) s :
  I fr s →
  (∀ fr s, I fr s → wp (body fr) (λ r s', match r with inl fr' => I fr' s' | inr a => Q a s' end) s) →
  (∀ fr s, I fr s → Q late s) → wp (polling n late body fr) Q s.
Proof.
  intros HI Hbody Hlate. unfold polling.
  apply (wp_loop (λ '(_, fr) s, I fr s) (λ '(spin, _), Z.to_nat (n - spin))); [|done|lia].
  intros [spin fr'] s' HI'. destruct (Z.ltb_spec spin n).
  - apply wp_bind. eapply wp_mono; [by apply Hbody|]. intros [fr''|a] s'' Hr; apply wp_ret; [|done].
    split; [done|lia].
  - apply wp_ret. by eapply Hlate.
Qed.

(** Frames as the stack sees them: at the front of a buffer that keeps older bytes. *)
Definition in_buffer (f fr : list Z) : Prop := length fr = BUFSZ ∧ ∃ rest, fr = f ++ rest.

Lemma buffer_fields f fr :
  in_buffer f fr → (42 ≤ length f)%nat → get16 12 fr = get16 12 f ∧ get16 6 (drop 14 fr) = get16 20 f ∧
    region 8 6 (drop 14 fr) = region 22 6 f ∧ region 14 4 (drop 14 fr) = region 28 4 f ∧
    drop 24 (drop 14 fr) = drop 38 fr ∧ drop 14 (drop 14 fr) = drop 28 fr ∧
    region 38 4 fr = region 38 4 f ∧ region 28 4 fr = region 28 4 f.
Proof.
  intros [Hlen [rest ->]] Hl. rewrite !drop_drop, get16_drop.
  destruct (region_drop 14 8 6 (f ++ rest)) as [->|E]; [|rewrite length_app in E; lia].
  destruct (region_drop 14 14 4 (f ++ rest)) as [->|E]; [|rewrite length_app in E; lia].
  rewrite !get16_app, !region_app by lia. done.
Qed.

(** The answer to a received frame. *)
Lemma wp_arp_maybe_reply s buf f fr (Q : unit → S → Prop) :
  nic_good s → length buf = 28%nat → in_buffer f fr →
  (∀ s', nic_good s' → my_mac s' = my_mac s → dev_of s' = dev_of s →
     trace s' = trace s ++ arp_answer (my_mac s) f → Q tt s') →
  wp (arp_maybe_reply buf fr (Z.of_nat (length f))) Q s.
Proof.
  intros Hs Hbuf Hfr HQ. unfold arp_maybe_reply.
  assert (arp_answer (my_mac s) f = [] → Q tt s) as Hno.
  { intros E. apply HQ; rewrite ?E, ?app_nil_r; done. }
  unfold arp_answer, arp_parse in *. destruct (Nat.ltb_spec (length f) 42) as [Hl|Hl].
  { destruct (Z.ltb_spec (Z.of_nat (length f)) (14 + 28)); [|lia]. wp_steps. by apply Hno. }
  destruct (Z.ltb_spec (Z.of_nat (length f)) (14 + 28)); [lia|].
  destruct (buffer_fields f fr Hfr Hl) as (E1 & E2 & E3 & E4 & E5 & E6 & E7 & E8).
  destruct (get16_some 12 f) as [ty Hty]; [lia|]. destruct (get16_some 20 f) as [op Hop]; [lia|].
  destruct (region_some 22 6 f) as (smac & Hsm & Lsm); [lia|].
  destruct (region_some 28 4 f) as (sip & Hsi & Lsi); [lia|].
  destruct (region_some 38 4 f) as (tip & Hti & Lti); [lia|].
  rewrite Hty, Hop, Hsm, Hsi, Hti in *. cbn [mbind option_bind] in *.
  wp_steps. eapply wp_of_option; [exact E1|].
  destruct (Z.eqb_spec ty ETH_ARP) as [->|Hne]; cbn [negb] in *; [|wp_steps; by apply Hno].
  wp_steps. eapply wp_of_option; [exact E2|].
  destruct (Z.eqb_spec op 1) as [->|Hne]; cbn [negb andb] in *; [|wp_steps; by apply Hno].
  wp_steps. eapply wp_of_option; [rewrite E5; by apply eq4_region|].
  destruct (bool_decide (tip = MY_IP)) eqn:Hb; cbn [negb] in *; [|wp_steps; by apply Hno].
  wp_steps. eapply wp_of_option; [exact E3|]. wp_steps. eapply wp_of_option; [exact E4|].
  destruct (nic_mac s Hs) as (Lm & _ & _). wp_steps.
  eapply wp_of_option; [apply arp_message_eq; done || lia|]. wp_steps.
  apply nic_tx; [done|done|unfold arp_bytes; rewrite !length_app, Lm, Lsm, Lsi; vm_compute; lia|].
  intros r s' Hr G M D T. wp_steps. by apply HQ.
Qed.
End rules.

(** ** A scripted network, for the witnesses *)

(** The frames still to arrive ([None]: a poll that finds nothing) and the trace. *)
Record wire := Wire { wdev : dev; wmac : list Z; incoming : list (option (list Z)); wtrace : list event }.

#[export] Instance wire_has_dev : HasDev wire := {|
  dev_of := wdev; set_dev d w := Wire d (wmac w) (incoming w) (wtrace w)
|}.
#[export] Instance wire_has_dev_laws : HasDevLaws wire.
Proof. by split; intros; try destruct s. Qed.

#[export] Instance wire_nic : Nic wire := {|
  nic_ok _ := true;
  my_mac := wmac;
  eth_tx dst ty payload := λ w,
    Done 0 (Wire (wdev w) (wmac w) (incoming w) (wtrace w ++ [Tx (eth_frame dst (wmac w) ty payload)]));
  eth_rx buf max := λ w,
    match incoming w with
    | Some f :: l => Done (Z.of_nat (length (take max f)), take max f ++ drop (length (take max f)) buf)
                       (Wire (wdev w) (wmac w) l (wtrace w ++ [Rx (take max f)]))
    | None :: l => Done (0, buf) (Wire (wdev w) (wmac w) l (wtrace w))
    | [] => Done (0, buf) w
    end;
|}.

Definition wire_good (w : wire) : Prop :=
  length (wmac w) = 6%nat ∧ Forall is_byte (wmac w) ∧ Forall (λ o, match o with Some f => Forall is_byte f | None => True end) (incoming w).

#[export] Instance wire_laws : NicLaws wire.
Proof.
  refine {| trace := wtrace; nic_good := wire_good |}.
  - by intros w (H1 & H2 & _).
  - intros w dst ty payload Q Hw _ _ HQ. apply (HQ 0); auto.
  - intros w buf Q (H1 & H2 & H3) Hl Hno Hyes. unfold eth_rx, wire_nic.
    destruct w as [d m [|[f|] l] t]; unfold wp; simpl in *.
    + by apply Hno.
    + inversion_clear H3. apply Hyes; try done.
      * by apply Forall_take.
      * rewrite length_take. lia.
    + inversion_clear H3. by apply Hno.
Defined.

(** ** Address resolution *)

Section resolve.
Context {S : Type} `{NicLaws S}.

(** What [arp_resolve] leaves: the trace it went through is pinned. *)
Definition resolved (s : S) (target : list Z) (r : option (list Z)) (s' : S) : Prop :=
  nic_good s' ∧ my_mac s' = my_mac s ∧ dev_of s' = dev_of s ∧ ∃ fs,
    let req := Tx (eth_frame bcast (my_mac s) ETH_ARP (arp_bytes 1 (my_mac s) MY_IP (replicate 6 0) target)) in
    Forall (λ f, arp_found target f = None) fs ∧
    match r with
    | None => trace s' = trace s ++ req :: answered (my_mac s) fs
    | Some mac => ∃ f, arp_found target f = Some mac ∧
        trace s' = trace s ++ req :: answered (my_mac s) fs ++ [Rx f]
    end.

Lemma wp_arp_resolve a buf fr target s :
  nic_good s → length a = 28%nat → length buf = 28%nat → length fr = BUFSZ → length target = 4%nat →
  wp (arp_resolve a buf fr target) (resolved s target) s.
Proof.
  intros Hs Ha Hbuf Hfr Ht. unfold resolved. set (req := Tx _).
  destruct (nic_mac s Hs) as (Lm & _ & _). unfold arp_resolve, arp_request. wp_steps.
  eapply wp_of_option; [apply arp_message_eq; done || lia|]. wp_steps.
  apply nic_tx; [done|done|unfold arp_bytes; rewrite !length_app, Lm, Ht; vm_compute; lia|].
  intros r s1 _ G1 M1 D1 T1. wp_steps.
  apply (wp_polling (λ fr t, nic_good t ∧ my_mac t = my_mac s ∧ dev_of t = dev_of s ∧ length fr = BUFSZ ∧ ∃ fs,
    Forall (λ f, arp_found target f = None) fs ∧ trace t = trace s ++ req :: answered (my_mac s) fs)).
  - split_and!; try done. by exists [].
  - clear fr Hfr s1 G1 M1 D1 T1. intros fr t (G & M & D & Hfr & fs & Hfs & T). unfold arp_resolve_body. wp_steps.
    apply nic_rx; [done|done| |].
    { intros t1 G1 M1 D1 T1. wp_steps. rewrite Z.leb_refl. wp_steps. split_and!; [done|congruence|congruence|done|].
      exists fs. by rewrite T1. }
    intros f t1 G1 M1 D1 T1 Hby Hlen. set (fr1 := f ++ _).
    assert (in_buffer f fr1) as Hin.
    { split; [|by eexists]. unfold fr1. rewrite length_app, length_drop. lia. }
    assert (trace t1 = trace s ++ req :: answered (my_mac s) fs ++ [Rx f]) as T1'.
    { rewrite T1, T. by rewrite <- app_assoc. }
    (* a frame that is not the reply: possibly answered, then the loop goes on *)
    assert (∀ t2, nic_good t2 → my_mac t2 = my_mac t1 → dev_of t2 = dev_of t1 → arp_found target f = None →
      trace t2 = trace t1 ++ arp_answer (my_mac t1) f →
      nic_good t2 ∧ my_mac t2 = my_mac s ∧ dev_of t2 = dev_of s ∧ length fr1 = BUFSZ ∧ ∃ fs,
        Forall (λ f, arp_found target f = None) fs ∧ trace t2 = trace s ++ req :: answered (my_mac s) fs) as Hgo.
    { intros t2 G2 M2 D2 Hf T2. split_and!; [done|congruence|congruence|apply Hin|]. exists (fs ++ [f]).
      split; [apply Forall_app; split; [done|by constructor]|].
      rewrite T2, T1', answered_snoc, M1, M. rewrite <- app_assoc. cbn [app]. by rewrite <- app_assoc. }
    wp_steps. destruct (Z.leb_spec (Z.of_nat (length f)) 0) as [L0|L0].
    { wp_steps. assert (f = []) as -> by (destruct f; [done|simpl in L0; lia]). apply (Hgo t1); try done.
      by rewrite app_nil_r. }
    destruct (get16_some 12 fr1) as [ty Hty]; [destruct Hin as [-> _]; vm_compute; lia|].
    wp_steps. eapply wp_of_option; [exact Hty|]. destruct (Z.leb_spec (14 + 28) (Z.of_nat (length f))) as [Hl|Hl].
    2: { rewrite andb_false_r. wp_steps. assert (arp_parse f = None) as Hp.
      { unfold arp_parse. by rewrite (proj2 (Nat.ltb_lt _ _)) by lia. }
      apply (Hgo t1); try done; unfold arp_found, arp_answer; rewrite Hp; [done|by rewrite app_nil_r]. }
    rewrite andb_true_r.
    destruct (buffer_fields f fr1 Hin ltac:(lia)) as (E1 & E2 & E3 & E4 & E5 & E6 & E7 & E8).
    destruct (get16_some 20 f) as [op Hop]; [lia|].
    destruct (region_some 22 6 f) as (smac & Hsm & Lsm); [lia|].
    destruct (region_some 28 4 f) as (sip & Hsi & Lsi); [lia|].
    destruct (region_some 38 4 f) as (tip & Hti & Lti); [lia|].
    assert (arp_parse f = if negb (ty =? ETH_ARP) then None else Some (op, smac, sip, tip)) as Hp.
    { unfold arp_parse. rewrite (proj2 (Nat.ltb_ge _ _)) by lia. rewrite <- E1, Hty. cbn [mbind option_bind].
      by rewrite Hop, Hsm, Hsi, Hti. }
    destruct (Z.eqb_spec ty ETH_ARP) as [->|Hne]; cbn [negb] in Hp.
    2: { wp_steps. apply (Hgo t1); try done; unfold arp_found, arp_answer; rewrite Hp; [done|by rewrite app_nil_r]. }
    wp_steps. eapply wp_of_option; [by rewrite E2|]. wp_steps.
    assert (wp (if op =? 2 then of_option (eq4 (drop 14 (drop 14 fr1)) target) else mret false)
      (λ b t2, t2 = t1 ∧ b = (op =? 2) && bool_decide (sip = target)) t1) as Hfrom.
    { destruct (op =? 2); [|by wp_steps]. eapply wp_of_option; [|done]. rewrite E6. apply eq4_region; [by rewrite E8|done]. }
    wp_steps. eapply wp_mono; [exact Hfrom|]. intros b ? [-> ->].
    destruct ((op =? 2) && bool_decide (sip = target)) eqn:Hb.
    + wp_steps. eapply wp_of_option; [by rewrite E3|]. wp_steps. split_and!; [done|congruence|congruence|]. exists fs. split; [done|].
      exists f. split; [|done]. unfold arp_found. by rewrite Hp, Hb.
    + wp_steps. eapply wp_arp_maybe_reply; [done|done|exact Hin|]. intros t2 G2 M2 D2 T2. wp_steps.
      apply (Hgo t2); try done. unfold arp_found. by rewrite Hp, Hb.
  - intros fr' t (G & M & D & Hfr' & fs & Hfs & T). split_and!; [done..|]. by exists fs.
Qed.

(** C35: ARP. [arp_resolve] returns. It sends one request for the target's
    address, then answers every ARP request for the host's own address among the
    frames it receives, with its own MAC, to the asker, and sends nothing else.
    It reports the MAC address of the first reply from the target; if it gives
    up, none of the frames received was one. Runts and frames of other protocols
    never count. *)
Theorem arp_resolve_sound a buf fr target s :
  nic_good s → length a = 28%nat → length buf = 28%nat → length fr = BUFSZ → length target = 4%nat →
  ∃ r s' fs, arp_resolve a buf fr target s = Done r s' ∧ nic_good s' ∧
    let req := Tx (eth_frame bcast (my_mac s) ETH_ARP (arp_bytes 1 (my_mac s) MY_IP (replicate 6 0) target)) in
    Forall (λ f, arp_found target f = None) fs ∧
    match r with
    | None => trace s' = trace s ++ req :: answered (my_mac s) fs
    | Some mac => ∃ f, arp_found target f = Some mac ∧
        trace s' = trace s ++ req :: answered (my_mac s) fs ++ [Rx f]
    end.
Proof.
  intros Hs Ha Hbuf Hfr Ht.
  destruct (wp_run _ _ _ (wp_arp_resolve a buf fr target s Hs Ha Hbuf Hfr Ht)) as (r & s' & Hrun & Hg & _ & _ & fs & Hfs & Hr).
  by exists r, s', fs.
Qed.
End resolve.

(** The gateway answers after a poll that finds nothing and a question for us. *)
Definition demo_request : list Z :=
  eth_frame bcast (replicate 6 5) ETH_ARP (arp_bytes 1 (replicate 6 5) GW_IP (replicate 6 0) MY_IP).
Definition demo_reply : list Z :=
  eth_frame (replicate 6 9) (replicate 6 5) ETH_ARP (arp_bytes 2 (replicate 6 5) GW_IP (replicate 6 9) MY_IP).
Definition demo_wire : wire := Wire demo_dev (replicate 6 9) [None; Some demo_request; Some demo_reply] [].

Lemma demo_wire_good : nic_good demo_wire.
Proof.
  change (wire_good demo_wire). unfold wire_good. split; [done|].
  split; [|simpl; repeat constructor]; vm_compute; repeat constructor; discriminate.
Qed.

Lemma arp_resolve_sound_witness :
  ∃ r s' fs, arp_resolve (replicate 28 0) (replicate 28 0) (replicate BUFSZ 0) GW_IP demo_wire = Done r s' ∧
    Forall (λ f, arp_found GW_IP f = None) fs ∧ nic_good s'.
Proof.
  destruct (arp_resolve_sound (replicate 28 0) (replicate 28 0) (replicate BUFSZ 0) GW_IP demo_wire)
    as (r & s' & fs & H1 & H2 & H3 & _).
  - exact demo_wire_good.
  - reflexivity.
  - reflexivity.
  - apply length_replicate.
  - reflexivity.
  - exists r, s', fs. split; [exact H1|]. split; [exact H3|exact H2].
Defined.

(** ** Datagrams and segments between two hosts that run this code *)

Lemma frame_payload dst src ty p rest :
  length dst = 6%nat → length src = 6%nat →
  get16 12 (eth_frame dst src ty p ++ rest) = get16 0 (be16 (u16 ty) ++ p ++ rest) ∧
  drop 14 (eth_frame dst src ty p ++ rest) = p ++ rest ∧
  region 6 6 (eth_frame dst src ty p ++ rest) = Some src.
Proof.
  intros Hd Hs. unfold eth_frame.
  do 6 (destruct dst as [|? dst]; [done|]). destruct dst; [|done].
  do 6 (destruct src as [|? src]; [done|]). destruct src; [|done]. done.
Qed.

Lemma ip_hdr_fields iplen proto c dip body :
  0 ≤ proto < 256 → 0 ≤ iplen < 65536 → length dip = 4%nat →
  get8 0 (ip_hdr iplen proto c dip ++ body) = Some 69 ∧ get8 9 (ip_hdr iplen proto c dip ++ body) = Some proto ∧
  drop 20 (ip_hdr iplen proto c dip ++ body) = body ∧ get16 2 (ip_hdr iplen proto c dip ++ body) = Some iplen ∧
  region 12 4 (ip_hdr iplen proto c dip ++ body) = Some MY_IP.
Proof.
  intros Hp Hi Hd. do 4 (destruct dip as [|? dip]; [done|]). destruct dip; [|done]. split_and!; try done.
  - change (Some (u8 proto) = Some proto). by rewrite u8_small.
  - change (get16 0 (be16 (u16 iplen) ++ (be16 (u16 0) ++ be16 (u16 0) ++ [u8 64; u8 proto] ++
      be16 (u16 c) ++ MY_IP ++ [z; z0; z1; z2] ++ body)) = Some iplen). by apply get16_field.
Qed.

(** A datagram sent is the datagram received. What [udp_tx] puts in a frame
    is taken by the receiving side of the same code exactly when the ports
    match, as the payload sent, cut to the receiver's buffer, whatever its
    receive buffer held before. *)
Theorem udp_exchange pkt dip sport dport payload mac src rest p max want :
  length pkt = BUFSZ → length dip = 4%nat → Forall is_byte dip → Forall is_byte payload →
  port sport → port dport → (length payload ≤ 2020)%nat → length mac = 6%nat → length src = 6%nat →
  udp_packet pkt dip sport dport payload = Some p →
  let fr := eth_frame mac src ETH_IP p ++ rest in
  get16 12 fr = Some ETH_IP ∧
  udp_accept want fr max = Some (if dport =? want then Some (take max payload) else None).
Proof.
  intros Hpkt Hd Hb Hp Hsp Hdp Hl Hm Hs Hpk fr.
  rewrite udp_packet_eq in Hpk by done. apply (inj Some) in Hpk as <-. set (len := 8 + Z.of_nat (length payload)) in *.
  set (c := udp_field _) in *. set (h := ip_hdr _ _ _ _) in *.
  destruct (frame_payload mac src ETH_IP (h ++ udp_seg sport dport len c payload) rest Hm Hs) as (E1 & E2 & _).
  fold fr in E1, E2. split; [by rewrite E1, get16_field|].
  unfold udp_accept. rewrite E2, <- app_assoc.
  destruct (ip_hdr_fields (20 + len) 17 (ip_sum (20 + len) 17 dip) dip (udp_seg sport dport len c payload ++ rest))
    as (F1 & F2 & F3 & _); [lia|unfold len; lia|done|]. fold h in F1, F2, F3.
  rewrite F1, F2. cbn [mbind option_bind].
  change (negb (Z.shiftr 69 4 =? 4) || negb (17 =? 17)) with false. cbv iota.
  change (Z.to_nat (Z.land 69 0xf * 4)) with 20%nat. rewrite F3.
  set (seg := udp_seg sport dport len c payload).
  assert (get16 2 (seg ++ rest) = Some dport) as ->.
  { unfold seg, udp_seg. rewrite <- !app_assoc, (get16_skip 0) by done. by apply get16_field. }
  cbn [mbind option_bind]. destruct (Z.eqb_spec dport want); cbn [negb]; [|done].
  assert (get16 4 (seg ++ rest) = Some len) as ->.
  { unfold seg, udp_seg. rewrite <- !app_assoc, (get16_skip 2), (get16_skip 0) by done.
    apply get16_field. unfold len. lia. }
  cbn [mbind option_bind]. unfold len. replace (8 + Z.of_nat (length payload) - 8) with (Z.of_nat (length payload)) by lia.
  destruct (Z.ltb_spec (Z.of_nat (length payload)) 0); [lia|].
  set (n := if _ <? _ then _ else _). assert (Z.to_nat n = Nat.min max (length payload)) as ->.
  { unfold n. destruct (Z.ltb_spec (Z.of_nat max) (Z.of_nat (length payload))); lia. }
  unfold region. rewrite (proj2 (Nat.leb_le _ _)).
  2: { rewrite length_app. unfold seg, udp_seg. rewrite !length_app. cbn [length be16]. lia. }
  cbn [fmap option_fmap option_map]. do 2 f_equal. unfold slice, seg, udp_seg.
  change (drop 8 _) with (payload ++ rest). rewrite take_app_le by lia.
  destruct (decide (max ≤ length payload)%nat); [by rewrite Nat.min_l by lia|].
  rewrite Nat.min_r, !take_ge by lia. done.
Qed.

Lemma udp_exchange_witness :
  ∃ p, udp_packet (replicate BUFSZ 7) DNS_IP 0x9999 53 [1; 2; 3] = Some p ∧
    udp_accept 53 (eth_frame (replicate 6 1) (replicate 6 2) ETH_IP p ++ [9; 9]) 2 = Some (Some [1; 2]).
Proof.
  assert (Forall is_byte DNS_IP) as Hd by (unfold DNS_IP; repeat constructor; unfold is_byte; lia).
  assert (Forall is_byte [1; 2; 3]) as Hp by (repeat constructor; unfold is_byte; lia).
  eexists. split; [apply udp_packet_eq; [apply length_replicate|reflexivity|exact Hd|exact Hp|simpl; lia]|].
  eapply (udp_exchange (replicate BUFSZ 7) DNS_IP 0x9999 53 [1; 2; 3] (replicate 6 1) (replicate 6 2) [9; 9] _ 2 53).
  - apply length_replicate.
  - reflexivity.
  - exact Hd.
  - exact Hp.
  - unfold port. lia.
  - unfold port. lia.
  - simpl. lia.
  - reflexivity.
  - reflexivity.
  - apply udp_packet_eq; [apply length_replicate|reflexivity|exact Hd|exact Hp|simpl; lia].
Defined.

(** A segment sent is the segment received. What [tcp_send] puts in a frame
    is taken by [tcp_recv] exactly when the port matches, with the sender's MAC
    and IP address, port, numbers, flags and data. *)
Theorem tcp_exchange pkt dip sport dport seq ack flags data mac src rest p want :
  length pkt = BUFSZ → length dip = 4%nat → Forall is_byte dip → Forall is_byte data →
  port sport → port dport → is_byte flags → (length data ≤ 2008)%nat → length mac = 6%nat → length src = 6%nat →
  tcp_segment pkt dip sport dport seq ack flags data = Some p →
  let fr := eth_frame mac src ETH_IP p ++ rest in
  get16 12 fr = Some ETH_IP ∧
  tcp_accept want fr BUFSZ =
    Some (if dport =? want then Some (TcpIn src MY_IP sport (u32 seq) (u32 ack) flags data) else None).
Proof.
  intros Hpkt Hd Hb Hp Hsp Hdp Hfl Hl Hm Hs Hpk fr.
  rewrite tcp_segment_eq in Hpk by done. apply (inj Some) in Hpk as <-. set (len := 20 + Z.of_nat (length data)) in *.
  set (c := 65535 - oc _) in *. set (h := ip_hdr _ _ _ _) in *.
  destruct (frame_payload mac src ETH_IP (h ++ tcp_seg sport dport seq ack flags c data) rest Hm Hs) as (E1 & E2 & E3).
  fold fr in E1, E2, E3. split; [by rewrite E1, get16_field|].
  unfold tcp_accept. rewrite E2, E3, <- app_assoc.
  destruct (ip_hdr_fields (20 + len) 6 (ip_sum (20 + len) 6 dip) dip (tcp_seg sport dport seq ack flags c data ++ rest))
    as (F1 & F2 & F3 & F4 & F5); [lia|unfold len; lia|done|]. fold h in F1, F2, F3, F4, F5.
  rewrite F1, F2, F4, F5. cbn [mbind option_bind].
  change (negb (Z.shiftr 69 4 =? 4) || negb (6 =? IP_TCP)) with false. cbv iota zeta.
  change (Z.land 69 0xf * 4) with 20. change (Z.to_nat 20) with 20%nat. rewrite F3.
  set (seg := tcp_seg sport dport seq ack flags c data).
  assert (get16 0 (seg ++ rest) = Some sport) as ->.
  { unfold seg, tcp_seg. rewrite <- !app_assoc. by apply get16_field. }
  assert (get16 2 (seg ++ rest) = Some dport) as ->.
  { unfold seg, tcp_seg. rewrite <- !app_assoc, (get16_skip 0) by done. by apply get16_field. }
  cbn [mbind option_bind]. destruct (Z.eqb_spec dport want); cbn [negb]; [|done].
  assert (get32 4 (seg ++ rest) = Some (u32 seq)) as ->.
  { unfold seg, tcp_seg. rewrite <- !app_assoc, (get32_skip 2), (get32_skip 0) by done. apply get32_be32. wrap_lia. }
  assert (get32 8 (seg ++ rest) = Some (u32 ack)) as ->.
  { unfold seg, tcp_seg. rewrite <- !app_assoc, (get32_skip 6), (get32_skip 4), (get32_skip 0) by done.
    apply get32_be32. wrap_lia. }
  change (get8 13 (seg ++ rest)) with (Some (u8 flags)). change (get8 12 (seg ++ rest)) with (Some 80).
  cbn [mbind option_bind]. change (Z.shiftr 80 4 * 4) with 20.
  replace (20 + len - 20 - 20) with (Z.of_nat (length data)) by (unfold len; lia).
  destruct (Z.ltb_spec (Z.of_nat (length data)) 0); [lia|].
  destruct (Z.ltb_spec (Z.of_nat BUFSZ) (Z.of_nat (length data))) as [Hc|_].
  { change (Z.of_nat BUFSZ) with 2048 in Hc. lia. }
  rewrite Nat2Z.id. change (Z.to_nat 20) with 20%nat.
  unfold region. rewrite (proj2 (Nat.leb_le _ _)).
  2: { rewrite length_app. unfold seg. rewrite length_tcp_seg. lia. }
  unfold slice. change (drop 20 (seg ++ rest)) with (data ++ rest).
  rewrite take_app_length. by rewrite (u8_small flags) by exact Hfl.
Qed.

Lemma tcp_exchange_witness :
  ∃ p, tcp_segment (replicate BUFSZ 7) GW_IP 40000 5599 7 8 24 [104; 105] = Some p ∧
    tcp_accept 5599 (eth_frame (replicate 6 1) (replicate 6 2) ETH_IP p ++ [9; 9]) BUFSZ =
      Some (Some (TcpIn (replicate 6 2) MY_IP 40000 7 8 24 [104; 105])).
Proof.
  assert (Forall is_byte GW_IP) as Hd by (unfold GW_IP; repeat constructor; unfold is_byte; lia).
  assert (Forall is_byte [104; 105]) as Hp by (repeat constructor; unfold is_byte; lia).
  eexists. split; [apply tcp_segment_eq; [apply length_replicate|reflexivity|exact Hd|exact Hp|simpl; lia]|].
  eapply (tcp_exchange (replicate BUFSZ 7) GW_IP 40000 5599 7 8 24 [104; 105] (replicate 6 1) (replicate 6 2) [9; 9] _ 5599).
  - apply length_replicate.
  - reflexivity.
  - exact Hd.
  - exact Hp.
  - unfold port. lia.
  - unfold port. lia.
  - unfold is_byte. lia.
  - simpl. lia.
  - reflexivity.
  - reflexivity.
  - apply tcp_segment_eq; [apply length_replicate|reflexivity|exact Hd|exact Hp|simpl; lia].
Defined.

(** A datagram whose length field says [n] where the frame ends with the UDP
    header: 42 bytes, sent to the port the DNS client waits on. *)
Definition lying_datagram (n : Z) : list Z :=
  eth_frame (replicate 6 1) (replicate 6 2) ETH_IP
    (ip_hdr 28 17 (ip_sum 28 17 MY_IP) MY_IP ++ udp_seg 53 0x9999 n 0 []).

Lemma lying_accept n fr :
  length fr = BUFSZ → 8 ≤ n < 2 ^ 16 →
  udp_accept 0x9999 (lying_datagram n ++ drop 42 fr) BUFSZ =
    if n - 8 <=? 2006 then Some (Some (take (Z.to_nat (n - 8)) (drop 42 fr))) else None.
Proof.
  intros Hl Hn. assert (length (drop 42 fr) = 2006%nat) as Hl' by (rewrite length_drop, Hl; reflexivity).
  revert Hl'. generalize (drop 42 fr). intros rest Hl'. clear fr Hl. unfold udp_accept.
  change (drop 14 (lying_datagram n ++ rest)) with
    (ip_hdr 28 17 (ip_sum 28 17 MY_IP) MY_IP ++ udp_seg 53 0x9999 n 0 [] ++ rest).
  destruct (ip_hdr_fields 28 17 (ip_sum 28 17 MY_IP) MY_IP (udp_seg 53 0x9999 n 0 [] ++ rest))
    as (F1 & F2 & F3 & _); [lia|lia|done|].
  rewrite F1, F2. cbn [mbind option_bind].
  change (negb (Z.shiftr 69 4 =? 4) || negb (17 =? 17)) with false. cbv iota.
  change (Z.to_nat (Z.land 69 0xf * 4)) with 20%nat. rewrite F3.
  change (get16 2 (udp_seg 53 0x9999 n 0 [] ++ rest)) with (Some 0x9999).
  assert (get16 4 (udp_seg 53 0x9999 n 0 [] ++ rest) = Some n) as ->.
  { change (get16 4 (udp_seg 53 0x9999 n 0 [] ++ rest)) with (get16 0 (be16 (u16 n) ++ be16 (u16 0) ++ rest)).
    apply get16_field. lia. }
  cbn [mbind option_bind]. change (negb (0x9999 =? 0x9999)) with false. cbv iota.
  rewrite (proj2 (Z.ltb_ge (n - 8) 0)) by lia. change (Z.of_nat BUFSZ) with 2048.
  assert (length (udp_seg 53 0x9999 n 0 []) = 8%nat) as H8 by reflexivity.
  unfold region. rewrite length_app, H8, Hl'. destruct (Z.leb_spec (n - 8) 2006) as [Hle|Hgt].
  - rewrite (proj2 (Z.ltb_ge 2048 (n - 8))) by lia. rewrite (proj2 (Nat.leb_le _ _)) by lia.
    cbn [fmap option_fmap option_map]. do 2 f_equal.
  - rewrite (proj2 (Nat.leb_gt _ _)); [done|]. destruct (Z.ltb_spec 2048 (n - 8)); lia.
Qed.

(** C38: a datagram that lies about its length. Let the next frame be 42 bytes
    long, a UDP header with nothing behind it and with the length field [n]. If
    [n] promises at most the 2006 bytes that the receive buffer has behind the
    frame, [udp_rx] returns them as the payload, although none of them was
    received with this frame: they are what the buffer held before. If it
    promises more, [udp_rx] reads outside its 2048 byte buffer. The length
    field is never compared with the length of the frame. *)
Theorem udp_rx_overread {S : Type} `{HasDev S, Nic S} buf fr n (s s' : S) :
  length fr = BUFSZ → 8 ≤ n < 2 ^ 16 →
  eth_rx fr BUFSZ s = Done (42, lying_datagram n ++ drop 42 fr) s' →
  udp_rx buf fr 0x9999 BUFSZ s =
    if n - 8 <=? 2006 then Done (Some (take (Z.to_nat (n - 8)) (drop 42 fr))) s' else Undef.
Proof.
  intros Hl Hn Hrx. unfold udp_rx, polling. rewrite Nat.add_1_r, loop_S.
  change (0 <? SPINS) with true. cbv iota.
  assert (udp_rx_body buf 0x9999 BUFSZ fr s =
    if n - 8 <=? 2006 then Done (inr (Some (take (Z.to_nat (n - 8)) (drop 42 fr)))) s' else Undef) as Hbody.
  { unfold udp_rx_body. erewrite bind_done by exact Hrx. cbv beta iota.
    change (42 <=? 0) with false. cbv iota.
    change (get16 12 (lying_datagram n ++ drop 42 fr)) with (Some ETH_IP).
    erewrite bind_done by reflexivity. change (ETH_IP =? ETH_ARP) with false.
    change (negb (ETH_IP =? ETH_IP) || (42 <? 14 + 28)) with false. cbv iota.
    rewrite lying_accept by done. by destruct (n - 8 <=? 2006). }
  destruct (n - 8 <=? 2006).
  - erewrite bind_done by (erewrite bind_done by exact Hbody; reflexivity). reflexivity.
  - rewrite bind_undef by (by rewrite bind_undef). reflexivity.
Qed.

(** A received frame ahead of a buffer of stale bytes: asking for 4 bytes gets
    them from the buffer, asking for 2032 leaves it. *)
Lemma udp_rx_overread_witness :
  udp_rx (replicate 28 0) (replicate BUFSZ 7) 0x9999 BUFSZ
      (Wire demo_dev (replicate 6 9) [Some (lying_datagram 12)] []) =
    Done (Some [7; 7; 7; 7]) (Wire demo_dev (replicate 6 9) [] [Rx (lying_datagram 12)]) ∧
  udp_rx (replicate 28 0) (replicate BUFSZ 7) 0x9999 BUFSZ
      (Wire demo_dev (replicate 6 9) [Some (lying_datagram 2040)] []) = Undef.
Proof.
  split.
  - apply (udp_rx_overread (replicate 28 0) (replicate BUFSZ 7) 12 _
      (Wire demo_dev (replicate 6 9) [] [Rx (lying_datagram 12)])); [reflexivity|lia|vm_compute; reflexivity].
  - apply (udp_rx_overread (replicate 28 0) (replicate BUFSZ 7) 2040 _
      (Wire demo_dev (replicate 6 9) [] [Rx (lying_datagram 2040)])); [reflexivity|lia|vm_compute; reflexivity].
Defined.
