(* ===== verification/Dns.v ===== *)
(** * DNS messages: the question the resolver sends, the replies it reads

    Reference encodings of names and resource records, and what
    [dns_question] and [dns_parse] (Net.v) do with them. *)
From S2P Require Import Prelude Packet Net.

(** A label: one to 63 characters, none of them a dot. *)
Definition label_ok (l : list Z) : Prop :=
  (1 ≤ length l ≤ 63)%nat ∧ Forall (λ c, is_byte c ∧ c ≠ 46) l.

(** A name on the wire: length-prefixed labels and the empty root label. *)
Definition wire_label (l : list Z) : list Z := Z.of_nat (length l) :: l.
Definition wire_name (labels : list (list Z)) : list Z := (labels ≫= wire_label) ++ [0].

(** The same name as a C programmer writes it. *)
Fixpoint dotted (labels : list (list Z)) : list Z :=
  match labels with
  | [] => []
  | [l] => l
  | l :: labels => l ++ 46 :: dotted labels
  end.

(** A resource record: its name as a compression pointer or spelled out. *)
Inductive owner := Pointer (lo : Z) | Spelled (labels : list (list Z)).
Record record := Rr { rr_owner : owner; rr_type : Z; rr_class : list Z; rr_data : list Z }.

Definition owner_bytes (o : owner) : list Z :=
  match o with Pointer lo => [0xc0; lo] | Spelled labels => wire_name labels end.
Definition owner_ok (o : owner) : Prop :=
  match o with Pointer lo => is_byte lo | Spelled labels => Forall label_ok labels end.

(** [rr_class]: the six bytes of class and time to live. *)
Definition record_bytes (a : record) : list Z :=
  owner_bytes (rr_owner a) ++ be16 (rr_type a) ++ rr_class a ++ be16 (Z.of_nat (length (rr_data a))) ++ rr_data a.
Definition record_ok (a : record) : Prop :=
  owner_ok (rr_owner a) ∧ port (rr_type a) ∧ length (rr_class a) = 6%nat ∧
  Z.of_nat (length (rr_data a)) < 65536 ∧ (12 ≤ length (record_bytes a))%nat.

(** A reply: twelve bytes of header with the answer count, the question, the answers. *)
Definition reply_bytes (head : list Z) (question : list (list Z)) (answers : list record) (ns : list Z) : list Z :=
  head ++ be16 (Z.of_nat (length answers)) ++ ns ++ wire_name question ++ be16 1 ++ be16 1 ++ (answers ≫= record_bytes).

(** The address a resolver wants: that of the first A record. *)
Fixpoint first_a (answers : list record) : option (list Z) :=
  match answers with
  | [] => None
  | a :: answers =>
      if (rr_type a =? 1) && (length (rr_data a) =? 4)%nat then Some (rr_data a) else first_a answers
  end.

(** ** The question *)

Lemma dns_label_dotted l rest :
  label_ok l → dns_label (l ++ 46 :: rest) = (l, rest) ∧ dns_label l = (l, []).
Proof.
  intros [_ Hl]. induction Hl as [|c l [_ Hc] _ [IH1 IH2]]; [done|]. simpl.
  destruct (Z.eqb_spec c 46); [done|]. by rewrite IH1, IH2.
Qed.

Lemma label_bytes l : label_ok l → u8 <$> l = l.
Proof.
  intros [_ Hl]. induction Hl as [|c l [Hc _] _ IH]; [done|]. cbn. rewrite u8_small by exact Hc.
  f_equal. exact IH.
Qed.

Lemma length_wire_label l : length (wire_label l) = S (length l).
Proof. done. Qed.

Lemma label_nonempty l : label_ok l → l ≠ [].
Proof. intros [Hl _] ->. simpl in Hl. lia. Qed.

Lemma dns_labels_eq labels fuel pre b :
  Forall label_ok labels → (length labels ≤ fuel)%nat → (length (labels ≫= wire_label) ≤ length b)%nat →
  dns_labels fuel (dotted labels) (length pre) (pre ++ b) =
    Some ((length pre + length (labels ≫= wire_label))%nat,
          pre ++ (labels ≫= wire_label) ++ drop (length (labels ≫= wire_label)) b).
Proof.
  intros Hl. revert fuel pre b. induction Hl as [|l labels Hlab Hls IH]; intros fuel pre b Hf Hb.
  { simpl. destruct fuel; simpl; by rewrite Nat.add_0_r, drop_0. }
  destruct fuel as [|fuel]; [simpl in Hf; lia|]. cbn [length] in Hf.
  change ((l :: labels) ≫= wire_label) with (wire_label l ++ (labels ≫= wire_label)) in *.
  rewrite length_app, length_wire_label in Hb. pose proof (label_nonempty l Hlab) as Hne.
  assert (dotted (l :: labels) ≠ [] ∧ dns_label (dotted (l :: labels)) = (l, dotted labels)) as [Hd1 Hd2].
  { destruct labels as [|l' labels]; [split; [done|by apply dns_label_dotted]|].
    change (dotted (l :: l' :: labels)) with (l ++ 46 :: dotted (l' :: labels)).
    split; [by destruct l|]. by apply dns_label_dotted. }
  destruct (dotted (l :: labels)) as [|c name] eqn:E; [done|]. cbn [dns_labels]. rewrite <- E in *. rewrite Hd2.
  unfold put8. destruct Hlab as [Hll Hlc]. rewrite u8_small by lia.
  rewrite overwrite_app by (simpl; lia). cbn [mbind option_bind].
  rewrite (label_bytes l) by (by split). rewrite app_assoc.
  rewrite (overwrite_at _ (pre ++ [Z.of_nat (length l)]));
    [|rewrite length_app; simpl; lia|rewrite length_drop; simpl; lia].
  cbn [mbind option_bind].
  replace (Datatypes.S (length pre) + length l)%nat with (length (pre ++ wire_label l))
    by (rewrite length_app, length_wire_label; lia).
  replace ((pre ++ [Z.of_nat (length l)]) ++ l ++ drop (length l) (drop (length [Z.of_nat (length l)]) b))
    with ((pre ++ wire_label l) ++ drop (S (length l)) b)
    by (rewrite <- !app_assoc, drop_drop; done).
  rewrite IH by (rewrite ?length_drop; lia).
  rewrite !length_app, drop_drop, <- !app_assoc, length_wire_label.
  by rewrite Nat.add_assoc.
Qed.

Lemma length_dotted labels : Forall label_ok labels → (length labels ≤ length (dotted labels))%nat.
Proof.
  induction 1 as [|l labels Hl _ IH]; [done|]. destruct Hl as [Hl _]. destruct labels as [|l' labels].
  - simpl in *. lia.
  - change (dotted (l :: l' :: labels)) with (l ++ 46 :: dotted (l' :: labels)). rewrite length_app.
    cbn [length] in *. lia.
Qed.

Definition question_head : list Z := be16 0x1234 ++ be16 0x0100 ++ be16 1 ++ replicate 6 0.
Definition question_bytes (labels : list (list Z)) : list Z :=
  question_head ++ wire_name labels ++ be16 1 ++ be16 1.

Lemma dns_question_eq q labels :
  length q = 256%nat → Forall label_ok labels → (length (wire_name labels) ≤ 240)%nat →
  dns_question q (dotted labels) = Some (question_bytes labels).
Proof.
  intros Hq Hl Hw. unfold wire_name in Hw. rewrite length_app in Hw. cbn [length] in Hw.
  assert (∃ q', (q ← put16 0 0x1234 q; q ← put16 2 0x0100 q; q ← put16 4 1 q;
    q ← put16 6 0 q; q ← put16 8 0 q; put16 10 0 q) = Some (question_head ++ q') ∧ length q' = 244%nat) as (q' & E & Hq').
  { explode q 12 by Hq. exists q. split; [done|]. simpl in Hq. lia. }
  unfold dns_question. revert E.
  destruct (put16 0 0x1234 q) as [q1|]; [|done]. cbn [mbind option_bind].
  destruct (put16 2 0x0100 q1) as [q2|]; [|done]. cbn [mbind option_bind].
  destruct (put16 4 1 q2) as [q3|]; [|done]. cbn [mbind option_bind].
  destruct (put16 6 0 q3) as [q4|]; [|done]. cbn [mbind option_bind].
  destruct (put16 8 0 q4) as [q5|]; [|done]. cbn [mbind option_bind].
  intros ->. cbn [mbind option_bind]. set (w := labels ≫= wire_label) in *.
  change 12%nat with (length question_head) at 1.
  rewrite dns_labels_eq by (try apply length_dotted; fold w; done || lia).
  cbn [mbind option_bind]. fold w. unfold put8, put16.
  assert (length question_head = 12)%nat as Hh by done.
  rewrite (app_assoc question_head w), (overwrite_at _ (question_head ++ w));
    [|by rewrite length_app|rewrite length_drop; simpl; lia].
  cbn [mbind option_bind]. rewrite (app_assoc _ [u8 0]), (overwrite_at _ ((question_head ++ w) ++ [u8 0]));
    [|rewrite !length_app; simpl; lia|rewrite !length_drop; simpl; lia].
  cbn [mbind option_bind]. rewrite (app_assoc _ (be16 _)), (overwrite_at _ (((question_head ++ w) ++ [u8 0]) ++ be16 (u16 1)));
    [|rewrite !length_app; simpl; lia|rewrite !length_drop; simpl; lia].
  cbn [mbind option_bind]. unfold question_bytes, wire_name. fold w.
  rewrite (app_assoc _ (be16 (u16 1))). erewrite region_front; [|rewrite !length_app; simpl; lia].
  f_equal. by rewrite <- !app_assoc.
Qed.

(** ** The reply *)

Lemma dns_skip_name labels fuel pre post rlen :
  Forall label_ok labels → (length labels ≤ fuel)%nat → (length pre + length (wire_name labels) ≤ rlen)%nat →
  dns_skip fuel (pre ++ wire_name labels ++ post) rlen (length pre) =
    Some (length pre + length (labels ≫= wire_label))%nat.
Proof.
  intros Hl. revert fuel pre. induction Hl as [|l labels [Hll Hlc] Hls IH]; intros fuel pre Hf Hr.
  - change (length (wire_name [])) with 1%nat in Hr. change (length ([] ≫= wire_label)) with 0%nat.
    assert (get8 (length pre) (pre ++ wire_name [] ++ post) = Some 0) as E.
    { unfold get8. rewrite lookup_app_r, Nat.sub_diag by lia. reflexivity. }
    destruct fuel; cbn [dns_skip]; rewrite (proj2 (Nat.ltb_lt _ _)) by lia;
      rewrite E; cbn [mbind option_bind]; rewrite Z.eqb_refl, Nat.add_0_r; reflexivity.
  - destruct fuel as [|fuel]; [simpl in Hf; lia|]. cbn [length] in Hf.
    assert (wire_name (l :: labels) = wire_label l ++ wire_name labels) as Ew.
    { unfold wire_name. change ((l :: labels) ≫= wire_label) with (wire_label l ++ (labels ≫= wire_label)).
      by rewrite <- app_assoc. }
    rewrite Ew in *. rewrite length_app, length_wire_label in Hr.
    assert (get8 (length pre) (pre ++ (wire_label l ++ wire_name labels) ++ post) = Some (Z.of_nat (length l))) as E.
    { unfold get8. rewrite lookup_app_r, Nat.sub_diag by lia. reflexivity. }
    cbn [dns_skip]. rewrite (proj2 (Nat.ltb_lt _ _)) by lia. rewrite E. cbn [mbind option_bind].
    destruct (Z.eqb_spec (Z.of_nat (length l)) 0); [lia|]. rewrite Nat2Z.id.
    replace (length pre + length l + 1)%nat with (length (pre ++ wire_label l))
      by (rewrite length_app, length_wire_label; lia).
    replace (pre ++ (wire_label l ++ wire_name labels) ++ post)
      with ((pre ++ wire_label l) ++ wire_name labels ++ post) by (by rewrite <- !app_assoc).
    rewrite IH; [|lia|rewrite length_app, length_wire_label; lia].
    change (list_bind _ _ wire_label (l :: labels)) with (wire_label l ++ (labels ≫= wire_label)).
    rewrite !length_app, length_wire_label. f_equal. lia.
Qed.

Lemma length_wire_name labels : length (wire_name labels) = S (length (labels ≫= wire_label)).
Proof. unfold wire_name. rewrite length_app. simpl. lia. Qed.

Lemma length_labels labels : (length labels ≤ length (labels ≫= wire_label))%nat.
Proof.
  induction labels as [|l labels IH]; [done|].
  change ((l :: labels) ≫= wire_label) with (wire_label l ++ (labels ≫= wire_label)).
  rewrite length_app, length_wire_label. simpl. lia.
Qed.

(** Skipping the owner of a record. *)
Lemma skip_owner o pre post rlen :
  owner_ok o → (length pre + length (owner_bytes o) ≤ rlen)%nat →
  ∃ b, get8 (length pre) (pre ++ owner_bytes o ++ post) = Some b ∧
    (if Z.land b 0xc0 =? 0xc0 then Some (length pre + 2)%nat
     else S <$> dns_skip rlen (pre ++ owner_bytes o ++ post) rlen (length pre)) =
    Some (length pre + length (owner_bytes o))%nat.
Proof.
  intros Ho Hr. unfold get8. rewrite lookup_app_r, Nat.sub_diag by lia. destruct o as [lo|labels].
  - by exists 0xc0.
  - simpl in Ho, Hr |- *. destruct labels as [|l labels].
    + exists 0. split; [done|]. change (Z.land 0 0xc0 =? 0xc0) with false. cbv iota.
      rewrite dns_skip_name by (done || (simpl; lia)). simpl. f_equal. lia.
    + exists (Z.of_nat (length l)). split; [done|].
      pose proof Ho as [Hll _]%Forall_cons. destruct Hll as [Hll _].
      assert ((Z.land (Z.of_nat (length l)) 0xc0 =? 0xc0) = false) as ->.
      { apply Z.eqb_neq. intros E. apply (f_equal (λ x, Z.testbit x 7)) in E. rewrite Z.land_spec in E.
        change (Z.testbit 0xc0 7) with true in E. rewrite andb_true_r in E.
        rewrite Z.bits_above_log2 in E; [done|lia|]. apply Z.log2_lt_pow2; [lia|].
        change (2 ^ 7) with 128. lia. }
      rewrite length_wire_name in Hr |- *. pose proof (length_labels (l :: labels)).
      rewrite dns_skip_name by (done || rewrite ?length_wire_name; lia). cbn [fmap option_fmap option_map].
      f_equal. lia.
Qed.

Lemma dns_answers_eq answers pre post rlen :
  Forall record_ok answers → (rlen = length pre + length (answers ≫= record_bytes))%nat →
  dns_answers (length answers) (pre ++ (answers ≫= record_bytes) ++ post) rlen (length pre) =
    Some (first_a answers).
Proof.
  intros Ha. revert pre. induction Ha as [|a answers Hok Has IH]; intros pre Hr; [done|].
  change ((a :: answers) ≫= record_bytes) with (record_bytes a ++ (answers ≫= record_bytes)) in *.
  rewrite length_app in Hr. destruct Hok as (Ho & Ht & Hc & Hd & Hlen).
  cbn [length dns_answers]. rewrite (proj2 (Nat.leb_le _ _)) by lia. cbn [negb].
  set (dl := Z.of_nat (length (rr_data a))).
  assert (length (record_bytes a) = length (owner_bytes (rr_owner a)) + 10 + length (rr_data a))%nat as El.
  { unfold record_bytes. rewrite !length_app, Hc. cbn [length be16]. lia. }
  set (tail := be16 (rr_type a) ++ rr_class a ++ be16 dl ++ rr_data a ++ (answers ≫= record_bytes) ++ post).
  assert (pre ++ (record_bytes a ++ (answers ≫= record_bytes)) ++ post = pre ++ owner_bytes (rr_owner a) ++ tail) as Em.
  { unfold record_bytes, tail. fold dl. by rewrite <- !app_assoc. }
  destruct (skip_owner (rr_owner a) pre tail rlen Ho) as (b & Eb & Es); [lia|].
  rewrite Em, Eb. cbn [mbind option_bind]. rewrite Es. cbn [mbind option_bind].
  set (o := length (owner_bytes (rr_owner a))) in *.
  destruct (Nat.ltb_spec rlen (length pre + o + 10)); [lia|].
  rewrite (app_assoc pre).
  assert (∀ k, get16 (length pre + o + k) ((pre ++ owner_bytes (rr_owner a)) ++ tail) = get16 k tail) as Hat.
  { intros k. apply get16_skip. rewrite length_app. fold o. lia. }
  rewrite (Hat 8%nat). rewrite <- (Nat.add_0_r (length pre + o)) at 1. rewrite (Hat 0%nat).
  assert (get16 0 tail = Some (rr_type a)) as ->.
  { unfold tail. by apply get16_be16. }
  assert (get16 8 tail = Some dl) as ->.
  { unfold tail. rewrite (get16_skip 6) by done. rewrite (get16_skip 0) by (by rewrite Hc).
    apply get16_be16. unfold dl, port. lia. }
  cbn [mbind option_bind first_a].
  assert ((dl =? 4) = (length (rr_data a) =? 4)%nat) as ->.
  { unfold dl. destruct (Nat.eqb_spec (length (rr_data a)) 4) as [->|]; [done|]. apply Z.eqb_neq. lia. }
  destruct ((rr_type a =? 1) && (length (rr_data a) =? 4)%nat) eqn:E.
  - apply andb_true_iff in E as [_ E%Nat.eqb_eq].
    assert (region (length pre + o + 10) 4 ((pre ++ owner_bytes (rr_owner a)) ++ tail) = Some (rr_data a)) as ->; [|done].
    replace ((pre ++ owner_bytes (rr_owner a)) ++ tail) with
      ((pre ++ owner_bytes (rr_owner a) ++ be16 (rr_type a) ++ rr_class a ++ be16 dl) ++ rr_data a ++
        (answers ≫= record_bytes) ++ post) by (unfold tail; by rewrite <- !app_assoc).
    apply region_mid; [|done]. rewrite !length_app, Hc. fold o. cbn [length be16]. lia.
  - unfold dl. rewrite Nat2Z.id.
    replace ((pre ++ owner_bytes (rr_owner a)) ++ tail) with ((pre ++ record_bytes a) ++ (answers ≫= record_bytes) ++ post).
    2: { rewrite <- (app_assoc pre (owner_bytes _)), <- Em. by rewrite <- !app_assoc. }
    replace (length pre + o + 10 + length (rr_data a))%nat with (length (pre ++ record_bytes a))
      by (rewrite length_app; lia).
    apply IH. rewrite length_app. lia.
Qed.

Definition dns_labels_ok (labels : list (list Z)) : Prop :=
  Forall label_ok labels ∧ (length (wire_name labels) ≤ 240)%nat.

(** C37: DNS. For every name of at most 240 bytes on the wire the question is the
    standard encoding of the name (length-prefixed labels), whatever the buffer
    held; and for every reply that fits the buffer, whose names may be spelled
    out or be compression pointers, the resolver returns the address of the first
    A record, skipping all other records, and -1 when there is none; bytes
    behind the reply do not matter. *)
Theorem dns_exchange q labels head ns question answers rest :
  length q = 256%nat → dns_labels_ok labels →
  length head = 6%nat → length ns = 4%nat → Forall label_ok question → Forall record_ok answers →
  Z.of_nat (length answers) < 65536 →
  dns_question q (dotted labels) = Some (question_bytes labels) ∧
  let m := reply_bytes head question answers ns in
  dns_parse (m ++ rest) (length m) = Some (first_a answers).
Proof.
  intros Hq [Hl Hw] Hh Hns Hqs Ha Hn. split; [by apply dns_question_eq|]. intros m. unfold dns_parse.
  assert (m ++ rest = (head ++ be16 (Z.of_nat (length answers)) ++ ns) ++ wire_name question ++
    be16 1 ++ be16 1 ++ (answers ≫= record_bytes) ++ rest) as Em.
  { unfold m, reply_bytes. by rewrite <- !app_assoc. }
  assert (length m = 12 + length (wire_name question) + 4 + length (answers ≫= record_bytes))%nat as Hm.
  { unfold m, reply_bytes. rewrite !length_app, Hh, Hns. cbn [length be16]. lia. }
  rewrite (proj2 (Nat.ltb_ge _ _)) by lia.
  assert (get16 6 (m ++ rest) = Some (Z.of_nat (length answers))) as ->.
  { rewrite Em, <- !app_assoc. rewrite (get16_skip 0) by (by rewrite Hh). apply get16_be16. lia. }
  cbn [mbind option_bind]. destruct (Z.ltb_spec (Z.of_nat (length answers)) 1) as [H1|H1].
  { destruct answers; [done|simpl in H1; lia]. }
  rewrite Nat2Z.id. set (pre := head ++ be16 (Z.of_nat (length answers)) ++ ns) in *.
  assert (length pre = 12%nat) as Hp by (unfold pre; rewrite !length_app, Hh, Hns; done).
  rewrite Em at 1. rewrite <- Hp at 1. rewrite length_wire_name in Hm. pose proof (length_labels question).
  rewrite dns_skip_name by (rewrite ?length_wire_name; done || lia). cbn [mbind option_bind].
  replace (m ++ rest) with ((pre ++ wire_name question ++ be16 1 ++ be16 1) ++ (answers ≫= record_bytes) ++ rest)
    by (rewrite Em; by rewrite <- !app_assoc).
  replace (length pre + length (question ≫= wire_label) + 1 + 4)%nat with
    (length (pre ++ wire_name question ++ be16 1 ++ be16 1))
    by (rewrite !length_app, length_wire_name; cbn [length be16]; lia).
  apply dns_answers_eq; [done|]. rewrite !length_app, length_wire_name. cbn [length be16]. lia.
Qed.

(** "a.bc", answered by an alias and then an address. *)
Lemma dns_exchange_witness :
  dns_question (replicate 256 7) [97; 46; 98; 99] = Some (question_bytes [[97]; [98; 99]]) ∧
  (let m := reply_bytes (replicate 6 0) [[97]; [98; 99]]
     [Rr (Pointer 12) 5 (replicate 6 0) [1; 2]; Rr (Spelled [[97]]) 1 (replicate 6 0) [93; 184; 216; 34]] (replicate 4 0) in
   dns_parse (m ++ replicate 9 9) (length m) = Some (Some [93; 184; 216; 34])).
Proof.
  apply (dns_exchange (replicate 256 7) [[97]; [98; 99]] (replicate 6 0) (replicate 4 0) [[97]; [98; 99]]
    [Rr (Pointer 12) 5 (replicate 6 0) [1; 2]; Rr (Spelled [[97]]) 1 (replicate 6 0) [93; 184; 216; 34]] (replicate 9 9)).
  - reflexivity.
  - split; [repeat constructor; unfold is_byte; simpl; lia|]. vm_compute. repeat constructor.
  - reflexivity.
  - reflexivity.
  - repeat constructor; unfold is_byte; simpl; lia.
  - repeat constructor; unfold is_byte, port; simpl; try lia.
  - vm_compute. repeat constructor.
Defined.
