(* ===== verification/NetDemo.v ===== *)
(** * The network demonstration at boot (src/net.c: net_demo)

    Against any network driver with [NicLaws], on a network whose UDP datagrams
    lie inside their frames ([honest]; what happens otherwise is
    [Net.udp_rx_overread]), [net_demo] returns, whatever arrives and whether or
    not anybody answers: it never leaves a buffer, and the driver is as good as
    before. *)
From S2P Require Import Prelude Spinlock Uart Packet Net Dns.

(** ** What the network may deliver *)

(** The datagram in an IPv4 frame, header and payload, is inside the frame. *)
Definition honest (f : list Z) : bool :=
  match get16 12 f, get8 14 f, get8 23 f with
  | Some ty, Some v, Some proto =>
      if (ty =? ETH_IP) && (proto =? 17) then
        let udp := (14 + Z.to_nat (Z.land v 0xf * 4))%nat in
        match get16 (udp + 4) f with
        | Some ulen => (udp + 8 <=? length f)%nat && (Z.of_nat udp + ulen <=? Z.of_nat (length f))
        | None => false
        end
      else true
  | _, _, _ => true
  end.

(** The stack buffers have their sizes, whatever is in them. *)
Record bufs_ok (b : demo_bufs) : Prop := {
  bk_arp : length (d_arp b) = 28%nat;
  bk_fr : length (d_fr b) = BUFSZ ∧ Forall is_byte (d_fr b);
  bk_icmp : length (d_icmp b) = 40%nat;
  bk_pkt : length (d_pkt b) = BUFSZ;
  bk_q : length (d_q b) = 256%nat;
  bk_r : length (d_r b) = BUFSZ ∧ Forall is_byte (d_r b);
}.

(** ** Parsing *)

Lemma get8_buffer off f fr : in_buffer f fr → (off < length f)%nat → get8 off fr = get8 off f ∧ is_Some (get8 off f).
Proof.
  intros [_ [rest ->]] Hl. unfold get8. rewrite lookup_app_l by done. split; [done|]. by apply lookup_lt_is_Some_2.
Qed.

Lemma get8_drop k off b : get8 off (drop k b) = get8 (k + off) b.
Proof. unfold get8. by rewrite lookup_drop. Qed.

Lemma region_bytes off n b l : region off n b = Some l → Forall is_byte b → Forall is_byte l.
Proof. unfold region. destruct (_ <=? _)%nat; [|done]. intros [= <-] Hb. by apply Forall_take, Forall_drop. Qed.

Lemma land_15 v : 0 ≤ Z.land v 0xf ≤ 15.
Proof. change (Z.land v 0xf) with (Z.land v (Z.ones 4)). rewrite Z.land_ones by lia. pose proof (Z.mod_pos_bound v (2 ^ 4)). lia. Qed.

Lemma bufsz : BUFSZ = 2048%nat.
Proof. done. Qed.

Lemma udp_accept_total want f fr :
  in_buffer f fr → Forall is_byte fr → (42 ≤ length f)%nat → get16 12 fr = Some ETH_IP → honest f = true →
  ∃ r, udp_accept want fr BUFSZ = Some r ∧
    match r with Some p => (length p + 22 ≤ BUFSZ)%nat ∧ Forall is_byte p | None => True end.
Proof.
  intros Hin Hby Hl Hty Hh. pose proof Hin as [Hlen [rest Efr]]. unfold udp_accept. rewrite !get8_drop.
  change (14 + 9)%nat with 23%nat. change (14 + 0)%nat with 14%nat.
  destruct (get8_buffer 14 f fr Hin) as [-> [v Ev]]; [lia|]. destruct (get8_buffer 23 f fr Hin) as [E23 [proto Ep]]; [lia|].
  rewrite E23, Ev, Ep. cbn [mbind option_bind].
  destruct (negb (Z.shiftr v 4 =? 4) || negb (proto =? 17)) eqn:Ev4; [by exists None|].
  apply orb_false_iff in Ev4 as [_ ->%negb_false_iff%Z.eqb_eq].
  assert (get16 12 f = Some ETH_IP) as Hty' by (rewrite <- Hty, Efr; symmetry; apply get16_app; lia).
  unfold honest in Hh. rewrite Hty', Ev, Ep in Hh. cbn [Z.eqb andb] in Hh.
  set (k := Z.to_nat (Z.land v 0xf * 4)) in *. rewrite drop_drop. set (udp := (14 + k)%nat) in *.
  destruct (get16 (udp + 4) f) as [ulen|] eqn:Eu; [|done]. apply andb_prop in Hh as [H1%Nat.leb_le H2%Z.leb_le].
  replace (k + 14)%nat with udp by (unfold udp; lia).
  assert (length f ≤ BUFSZ)%nat as Hle by (rewrite <- Hlen, Efr, length_app; lia).
  assert (length (drop udp fr) = BUFSZ - udp)%nat as Hlu by (by rewrite length_drop, Hlen).
  destruct (get16_some 2 (drop udp fr)) as [dport ->]; [lia|]. cbn [mbind option_bind].
  destruct (dport =? want); cbn [negb]; [|by exists None].
  rewrite get16_drop, Efr, get16_app, Eu by lia. cbn [mbind option_bind]. rewrite <- Efr.
  destruct (Z.ltb_spec (ulen - 8) 0); [by exists None|].
  rewrite (proj2 (Z.ltb_ge (Z.of_nat BUFSZ) (ulen - 8))) by lia.
  destruct (region_some 8 (Z.to_nat (ulen - 8)) (drop udp fr)) as (p & Er & Hp); [lia|]. rewrite Er.
  exists (Some p). split; [done|]. split; [unfold udp in *; lia|]. eapply region_bytes; [exact Er|by apply Forall_drop].
Qed.

(** The loops of the resolver stay inside the buffer and end. *)
Lemma dns_skip_total fuel r rlen off :
  (rlen ≤ length r)%nat → (rlen - off ≤ fuel)%nat → ∃ off', dns_skip fuel r rlen off = Some off' ∧ (off ≤ off')%nat.
Proof.
  intros Hr. revert off. induction fuel as [|fuel IH]; intros off Hf; cbn [dns_skip].
  - rewrite (proj2 (Nat.ltb_ge _ _)) by lia. by exists off.
  - destruct (Nat.ltb_spec off rlen); [|by exists off].
    destruct (lookup_lt_is_Some_2 r off) as [b Hb]; [lia|]. unfold get8. rewrite Hb. cbn [mbind option_bind].
    destruct (b =? 0); [by exists off|]. destruct (IH (off + Z.to_nat b + 1)%nat) as (off' & E & Ho); [lia|].
    exists off'. split; [done|lia].
Qed.

Lemma dns_answers_total an r rlen off :
  (rlen + 4 ≤ length r)%nat → Forall is_byte r →
  ∃ a, dns_answers an r rlen off = Some a ∧ match a with Some ip => length ip = 4%nat ∧ Forall is_byte ip | None => True end.
Proof.
  intros Hr Hby. revert off. induction an as [|an IH]; intros off; cbn [dns_answers]; [by exists None|].
  destruct (Nat.leb_spec (off + 12) rlen); cbn [negb]; [|by exists None].
  destruct (lookup_lt_is_Some_2 r off) as [b Hb]; [lia|]. unfold get8. rewrite Hb. cbn [mbind option_bind].
  assert (∃ off', (if Z.land b 0xc0 =? 0xc0 then Some (off + 2)%nat else Datatypes.S <$> dns_skip rlen r rlen off) = Some off') as [off' ->].
  { destruct (Z.land b 0xc0 =? 0xc0); [by eexists|]. destruct (dns_skip_total rlen r rlen off) as (o & -> & _); [lia..|]. by eexists. }
  cbn [mbind option_bind]. destruct (Nat.ltb_spec rlen (off' + 10)); [by exists None|].
  destruct (get16_some off' r) as [type ->]; [lia|]. cbn [mbind option_bind].
  destruct (get16_some (off' + 8) r) as [rdlen ->]; [lia|]. cbn [mbind option_bind].
  destruct ((type =? 1) && (rdlen =? 4)); [|apply IH].
  destruct (region_some (off' + 10) 4 r) as (ip & Er & Hip); [lia|]. exists (Some ip). rewrite Er. split; [done|]. split; [done|].
  by eapply region_bytes.
Qed.

Lemma dns_parse_total p r :
  length r = BUFSZ → (length p + 22 ≤ BUFSZ)%nat → Forall is_byte p → Forall is_byte r →
  ∃ a, dns_parse (p ++ drop (length p) r) (length p) = Some a ∧
    match a with Some ip => length ip = 4%nat ∧ Forall is_byte ip | None => True end.
Proof.
  intros Hr Hp Hbp Hbr. set (m := p ++ _). assert (length m = BUFSZ) as Hm by (unfold m; rewrite length_app, length_drop; lia).
  assert (Forall is_byte m) as Hbm by (apply Forall_app; split; [done|by apply Forall_drop]).
  unfold dns_parse. destruct (Nat.ltb_spec (length p) 12); [by exists None|].
  destruct (get16_some 6 m) as [an ->]; [lia|]. cbn [mbind option_bind]. destruct (an <? 1); [by exists None|].
  destruct (dns_skip_total (length p) m (length p) 12) as (o & -> & _); [lia..|]. cbn [mbind option_bind].
  apply dns_answers_total; [lia|done].
Qed.

(** ** Running it *)

(** What the stack needs beside [NicLaws] to talk on the console in between, and
    of the network. *)
Class NicAtBoot (S : Type) `{NicLaws S} := {
  nb_good d s : nic_good s → nic_good (set_dev d s);
  nb_mac d s : my_mac (set_dev d s) = my_mac s;
  nb_trace d s : trace (set_dev d s) = trace s;
  nb_honest s f : nic_good s → Rx f ∈ trace s → honest f = true;
}.

Section demo.
Context {S : Type} `{NicAtBoot S, !HasDevLaws S}.
Implicit Types s t u : S.

(** The driver is fine, the console may have got more, the wire too. *)
Record went s t : Prop := {
  wt_good : nic_good t;
  wt_mac : my_mac t = my_mac s;
  wt_ready : dev_ready (dev_of t);
  wt_spin : dspin (dev_of t) ≡ dspin (dev_of s);
  wt_trace : ∃ more, trace t = trace s ++ more;
}.

Lemma went_refl s : nic_good s → dev_ready (dev_of s) → went s s.
Proof. intros Hg Hr. split; try done. exists []. by rewrite app_nil_r. Qed.

Lemma went_net s t u more : went s t → nic_good u → my_mac u = my_mac t → dev_of u = dev_of t → trace u = trace t ++ more → went s u.
Proof.
  intros [G M R P [m T]] Gu Mu Du Tu. split; rewrite ?Mu, ?Du; try done. exists (m ++ more). by rewrite Tu, T, app_assoc.
Qed.

Lemma went_said s t l : went s t → went s (set_dev (said l (dev_of t)) t).
Proof.
  intros [G M R P [m T]]. split.
  - by apply nb_good.
  - by rewrite nb_mac.
  - rewrite dev_of_set. by apply said_ready.
  - rewrite dev_of_set. etrans; [apply said_spin, R|done].
  - exists m. by rewrite nb_trace.
Qed.

(** Talking: the wire is quiet. *)
Lemma wp_went_puts l s t (Q : unit → S → Prop) :
  went s t → (∀ u, went s u → trace u = trace t → Q tt u) → wp (uart_puts l) Q t.
Proof. intros Hw HQ. apply wp_puts; [apply Hw|]. apply HQ; [by apply went_said|apply nb_trace]. Qed.

Lemma wp_went_putc c s t (Q : unit → S → Prop) :
  went s t → (∀ u, went s u → trace u = trace t → Q tt u) → wp (uart_putc c) Q t.
Proof. intros Hw HQ. apply wp_putc; [apply Hw|]. apply HQ; [by apply went_said|apply nb_trace]. Qed.

(** Two characters and the rest of a list, after an optional separator. *)
Lemma wp_went_sep (first : bool) c (m : M S unit) s t (Q : unit → S → Prop) :
  went s t → (∀ u, went s u → trace u = trace t → wp m Q u) → wp (when (negb first) (uart_putc c);; m) Q t.
Proof.
  intros Hw Hm. apply wp_bind. unfold when. destruct (negb first); [eapply wp_went_putc; [exact Hw|done]|].
  apply wp_ret. by apply Hm.
Qed.

Lemma wp_went_mac m s t (Q : unit → S → Prop) :
  went s t → (∀ u, went s u → trace u = trace t → Q tt u) → wp (print_mac m) Q t.
Proof.
  unfold print_mac. generalize (take 6 m). clear m. intros m. generalize 0%nat. intros i. revert i t.
  induction m as [|b m IH]; intros i t Hw HQ; cbn [print_mac_from]; [by wp_steps; apply HQ|].
  eapply wp_went_sep; [exact Hw|]. intros u Hu Tu. apply wp_bind. eapply wp_went_putc; [exact Hu|]. intros u1 Hu1 T1.
  apply wp_bind. eapply wp_went_putc; [exact Hu1|]. intros u2 Hu2 T2. apply IH; [done|]. intros v Hv Tv. apply HQ; [done|congruence].
Qed.

Lemma wp_went_ip ip s t (Q : unit → S → Prop) :
  Forall is_byte ip → went s t → (∀ u, went s u → trace u = trace t → Q tt u) → wp (print_ip ip) Q t.
Proof.
  intros Hb. unfold print_ip. assert (Forall is_byte (take 4 ip)) as Hb' by (by apply Forall_take). revert Hb'.
  generalize (take 4 ip). clear ip Hb. intros ip Hb. generalize 0%nat. intros i. revert i t.
  induction Hb as [|b ip Hb _ IH]; intros i t Hw HQ; cbn [print_ip_from]; [by wp_steps; apply HQ|].
  eapply wp_went_sep; [exact Hw|]. intros u Hu Tu. apply wp_bind, wp_dec; [unfold is_byte in Hb; lia|apply Hu|].
  apply IH; [by apply went_said|]. intros v Hv Tv. apply HQ; [done|]. rewrite Tv, nb_trace. congruence.
Qed.

(** ** Waiting for frames *)

(** A receive buffer between two polls. *)
Definition rx_buffer (fr : list Z) : Prop := length fr = BUFSZ ∧ Forall is_byte fr.

Lemma wp_went_rx s t fr (Q : Z * list Z → S → Prop) :
  went s t → rx_buffer fr →
  (∀ u, went s u → Q (0, fr) u) →
  (∀ f fr' u, went s u → rx_buffer fr' → in_buffer f fr' → honest f = true → Q (Z.of_nat (length f), fr') u) →
  wp (eth_rx fr BUFSZ) Q t.
Proof.
  intros Hw [Hl Hb] HQ0 HQ1. apply nic_rx; [apply Hw|done| |].
  - intros u G M D T. apply HQ0. apply (went_net s t u []); [done..|]. by rewrite app_nil_r.
  - intros f u G M D T Hf Hle.
    assert (length (f ++ drop (length f) fr) = BUFSZ) as Hlen by (rewrite length_app, length_drop; lia). apply HQ1.
    + by apply (went_net s t u [Rx f]).
    + split; [done|]. apply Forall_app. split; [done|by apply Forall_drop].
    + split; [done|by eexists].
    + apply (nb_honest u); [done|]. rewrite T. apply elem_of_app. right. by left.
Qed.

Lemma wp_went_reply s t buf f fr (Q : unit → S → Prop) :
  went s t → length buf = 28%nat → in_buffer f fr → (∀ u, went s u → Q tt u) → wp (arp_maybe_reply buf fr (Z.of_nat (length f))) Q t.
Proof.
  intros Hw Hb Hf HQ. eapply wp_arp_maybe_reply; [apply Hw|done|done|]. intros u G M D T. apply HQ. by eapply went_net.
Qed.

(** A loop over received frames. *)
Lemma wp_went_polling {A} n (late : A) body s t fr (Q : A → S → Prop) :
  went s t → rx_buffer fr →
  (∀ fr u, went s u → rx_buffer fr →
     wp (body fr) (λ r v, match r with inl fr' => rx_buffer fr' ∧ went s v | inr a => Q a v end) u) →
  (∀ u, went s u → Q late u) → wp (polling n late body fr) Q t.
Proof.
  intros Hw Hf Hbody HQ. apply (wp_polling (λ fr u, rx_buffer fr ∧ went s u)); [done| |].
  - intros fr' u [Hf' Hu]. by apply Hbody.
  - intros fr' u [_ Hu]. by apply HQ.
Qed.

Lemma wp_went_udp_rx buf fr want s t (Q : option (list Z) → S → Prop) :
  went s t → length buf = 28%nat → rx_buffer fr →
  (∀ r u, went s u → match r with Some p => (length p + 22 ≤ BUFSZ)%nat ∧ Forall is_byte p | None => True end → Q r u) →
  wp (udp_rx buf fr want BUFSZ) Q t.
Proof.
  intros Hw Hbuf Hfr HQ. unfold udp_rx. apply (wp_went_polling _ _ _ s); [done|done| |by intros u Hu; apply HQ].
  clear t fr Hw Hfr. intros fr t Hw Hfr. unfold udp_rx_body. wp_steps. apply (wp_went_rx s t); [done|done| |].
  { intros u Hu. wp_steps. rewrite Z.leb_refl. change (0 <? 0) with false. by wp_steps. }
  intros f fr' u Hu Hfr' Hin Hh. wp_steps. destruct (Z.leb_spec (Z.of_nat (length f)) 0) as [L0|L0].
  { rewrite (proj2 (Z.ltb_ge _ _)) by lia. by wp_steps. }
  destruct (get16_some 12 fr') as [ty Hty]; [rewrite (proj1 Hfr'), bufsz; lia|]. wp_steps. eapply wp_of_option; [exact Hty|].
  destruct (ty =? ETH_ARP); [wp_steps; eapply wp_went_reply; [exact Hu|done|done|]; intros v Hv; by wp_steps|].
  destruct (Z.eqb_spec ty ETH_IP) as [->|]; cbn [negb orb]; [|by wp_steps].
  destruct (Z.ltb_spec (Z.of_nat (length f)) (14 + 28)); [by wp_steps|].
  destruct (udp_accept_total want f fr' Hin (proj2 Hfr') ltac:(lia) Hty Hh) as (r & E & Hr).
  wp_steps. eapply wp_of_option; [exact E|]. destruct r as [p|]; wp_steps; [by apply HQ|done].
Qed.

Lemma wp_went_ping icmp pkt buf fr mac dst s t (Q : Z → S → Prop) :
  went s t → length icmp = 40%nat → length pkt = BUFSZ → length buf = 28%nat → rx_buffer fr → length mac = 6%nat →
  length dst = 4%nat → Forall is_byte dst → (∀ r u, went s u → Q r u) → wp (icmp_ping icmp pkt buf fr mac dst) Q t.
Proof.
  intros Hw Hi Hp Hbuf Hfr Hm Hd Hdb HQ. unfold icmp_ping.
  destruct (icmp_packet_received icmp pkt dst Hi Hp Hd Hdb) as (p & Ep & Hlp & _).
  wp_steps. eapply wp_of_option; [exact Ep|]. wp_steps.
  apply nic_tx; [apply Hw|done|rewrite Hlp, bufsz; lia|]. intros r u Hr G M D T. wp_steps.
  assert (went s u) as Hu by (by eapply went_net). clear t Hw G M D T Ep Hp.
  destruct Hr as [-> | ->]; cbn [Z.eqb negb]; [|wp_steps; by apply HQ].
  apply (wp_went_polling _ _ _ s); [done|done| |by auto]. clear u fr Hu Hfr. intros fr t Hw Hfr.
  unfold ping_body. wp_steps. apply (wp_went_rx s t); [done|done| |].
  { intros u Hu. wp_steps. rewrite Z.leb_refl. change (0 <? 0) with false. by wp_steps. }
  intros f fr' u Hu Hfr' Hin Hh. wp_steps. destruct (Z.leb_spec (Z.of_nat (length f)) 0) as [L0|L0].
  { rewrite (proj2 (Z.ltb_ge _ _)) by lia. by wp_steps. }
  pose proof (proj1 Hfr') as Hl. rewrite bufsz in Hl.
  destruct (get16_some 12 fr') as [ty Hty]; [lia|]. wp_steps. eapply wp_of_option; [exact Hty|].
  destruct (ty =? ETH_ARP); [wp_steps; eapply wp_went_reply; [exact Hu|done|done|]; intros v Hv; by wp_steps|].
  destruct (negb (ty =? ETH_IP) || _); [by wp_steps|].
  assert (∀ k, (k < 100)%nat → is_Some (get8 k (drop 14 fr'))) as Hget.
  { intros k Hk. rewrite get8_drop. apply lookup_lt_is_Some_2. lia. }
  destruct (Hget 9%nat) as [proto E9]; [lia|]. wp_steps. eapply wp_of_option; [exact E9|].
  destruct (negb (proto =? 1)); [by wp_steps|]. destruct (Hget 0%nat) as [v E0]; [lia|]. wp_steps. eapply wp_of_option; [exact E0|].
  pose proof (land_15 v). destruct (Hget (Z.to_nat (Z.land v 0xf * 4))) as [ic Ei]; [lia|]. wp_steps. eapply wp_of_option; [exact Ei|].
  destruct (region_some 12 4 (drop 14 fr')) as (src & Er & _); [rewrite length_drop; lia|].
  destruct (ic =? 0); wp_steps; [eapply wp_of_option; [by eapply eq4_region|]|by wp_steps]. destruct (bool_decide _); wp_steps; [by apply HQ|done].
Qed.

(** ** The resolver and the whole demonstration *)

Lemma wp_went_arp a fr target s t (Q : option (list Z) → S → Prop) :
  went s t → length a = 28%nat → rx_buffer fr → length target = 4%nat →
  (∀ r u, went s u → (∃ more, trace u = trace t ++
      Tx (eth_frame bcast (my_mac s) ETH_ARP (arp_bytes 1 (my_mac s) MY_IP (replicate 6 0) target)) :: more) →
     match r with Some mac => length mac = 6%nat | None => True end → Q r u) →
  wp (arp_resolve a a fr target) Q t.
Proof.
  intros Hw Ha [Hfr _] Ht HQ. eapply wp_mono; [by apply wp_arp_resolve; try done; apply Hw|].
  intros r u (G & M & D & fs & _ & Hr). rewrite (wt_mac _ _ Hw) in Hr. destruct r as [mac|].
  - destruct Hr as (f & Hf & T). apply HQ; [by eapply went_net|by eexists|].
    unfold arp_found, arp_parse in Hf. destruct (length f <? 42)%nat; [done|]. destruct (get16 12 f) as [ty|]; [|done]. cbn [mbind option_bind] in Hf.
    destruct (negb (ty =? ETH_ARP)); [done|]. destruct (get16 20 f); [|done]. cbn [mbind option_bind] in Hf.
    destruct (region 22 6 f) as [m|] eqn:Em; [|done]. cbn [mbind option_bind] in Hf.
    destruct (region 28 4 f); [|done]. cbn [mbind option_bind] in Hf. destruct (region 38 4 f); [|done]. cbn [mbind option_bind] in Hf.
    destruct (_ && _); [|done]. injection Hf as <-. by eapply region_length.
  - apply HQ; [by eapply went_net|by eexists|done].
Qed.

Definition host_labels : list (list Z) := [of_string "example"; of_string "com"].

Lemma wp_went_dns b mac s t (Q : option (list Z) → S → Prop) :
  went s t → bufs_ok b → length mac = 6%nat →
  (∀ r u, went s u → match r with Some ip => Forall is_byte ip | None => True end → Q r u) →
  wp (dns_query (d_q b) (d_pkt b) (d_arp b) (d_fr b) (d_r b) mac (of_string "example.com")) Q t.
Proof.
  intros Hw [Ba Bf Bi Bp Bq [Br Brb]] Hm HQ. unfold dns_query.
  assert (Forall label_ok host_labels) as Hlab by (repeat constructor; vm_compute; repeat constructor; discriminate).
  assert (dns_question (d_q b) (of_string "example.com") = Some (question_bytes host_labels)) as Eq.
  { change (of_string "example.com") with (dotted host_labels). apply dns_question_eq; [done|done|]. vm_compute. lia. }
  wp_steps. eapply wp_of_option; [exact Eq|]. wp_steps. unfold udp_tx.
  assert (length (question_bytes host_labels) = 29%nat ∧ Forall is_byte (question_bytes host_labels)) as [Hql Hqb].
  { split; [done|]. vm_compute. repeat constructor; discriminate. }
  assert (Forall is_byte DNS_IP) as Hdip by (vm_compute; repeat constructor; discriminate).
  wp_steps. eapply wp_of_option; [apply udp_packet_eq; [done|done|done|done|rewrite Hql; lia]|]. cbv zeta. rewrite Hql.
  apply nic_tx; [apply Hw|done| |].
  { rewrite length_app, length_ip_hdr by done. unfold udp_seg. rewrite !length_app, Hql. cbn [length be16]. rewrite bufsz. lia. }
  intros e u He G M D T. wp_steps. assert (went s u) as Hu by (by eapply went_net).
  destruct He as [-> | ->]; cbn [Z.eqb negb]; [|wp_steps; by apply HQ].
  wp_steps. apply (wp_went_udp_rx _ _ _ s); [done|done|exact Bf|]. intros [p|] v Hv Hp; wp_steps; [|by apply HQ].
  destruct Hp as [Hp Hpb]. destruct (dns_parse_total p (d_r b) Br Hp Hpb Brb) as (a & Ea & Ha).
  eapply wp_of_option; [exact Ea|]. apply HQ; [done|]. by destruct a as [ip|]; [apply Ha|].
Qed.

Lemma wp_went_demo_dns b s t (Q : unit → S → Prop) :
  went s t → bufs_ok b → (∀ u, went s u → Q tt u) → wp (net_demo_dns b) Q t.
Proof.
  intros W Hb HQ. unfold net_demo_dns, uart_str, uart_line. apply wp_bind. eapply wp_went_arp; [exact W|apply Hb|apply Hb|done|].
  intros [mac|] s1 W1 _ Hm; [|eapply wp_went_puts; [exact W1|]; intros u Hu _; by apply HQ].
  apply wp_bind. eapply wp_went_puts; [exact W1|]. intros s2 W2 _. apply wp_bind. eapply wp_went_puts; [exact W2|]. intros s3 W3 _.
  apply wp_bind. eapply wp_went_puts; [exact W3|]. intros s4 W4 _. apply wp_bind. eapply wp_went_dns; [exact W4|done|done|].
  intros [ip|] s5 W5 Hip; [|eapply wp_went_puts; [exact W5|]; intros u Hu _; by apply HQ].
  apply wp_bind. eapply wp_went_ip; [exact Hip|exact W5|]. intros s6 W6 _. eapply wp_went_putc; [exact W6|]. intros u Hu _. by apply HQ.
Qed.

(** [net_demo] returns, has asked for the gateway's address, and leaves driver
    and console as they should be. *)
Lemma wp_net_demo b s (Q : unit → S → Prop) :
  nic_good s → dev_ready (dev_of s) → bufs_ok b →
  (∀ t, went s t →
     (∃ more, trace t = trace s ++ Tx (eth_frame bcast (my_mac s) ETH_ARP (arp_bytes 1 (my_mac s) MY_IP (replicate 6 0) GW_IP)) :: more) →
     Q tt t) →
  wp (net_demo b) Q s.
Proof.
  intros Hg Hr Hb HQ. pose proof Hb as [Ba Bf Bi Bp Bq _]. destruct (nic_mac s Hg) as (_ & _ & Eok).
  assert (Forall is_byte GW_IP) as Hgw by (vm_compute; repeat constructor; discriminate).
  pose proof (went_refl s Hg Hr) as W. unfold net_demo, uart_str, uart_line. wp_steps. rewrite Eok. cbn [negb].
  apply wp_bind. eapply wp_went_puts; [exact W|]. intros s1 W1 T1. apply wp_bind. eapply wp_went_ip; [done|exact W1|]. intros s2 W2 T2.
  apply wp_bind. eapply wp_went_puts; [exact W2|]. intros s3 W3 T3. apply wp_bind. eapply wp_went_arp; [exact W3|done|done|done|].
  intros gw s4 W4 (more & T4) Hgw4. assert (∀ u, went s4 u → Q tt u) as Hend.
  { intros u [G M R P (more' & T)]. apply HQ; [split|].
    - done.
    - by rewrite M, (wt_mac _ _ W4).
    - done.
    - by rewrite P, (wt_spin _ _ W4).
    - eexists. by rewrite T, T4, T3, T2, T1, <- app_assoc.
    - exists (more ++ more'). rewrite T, T4, T3, T2, T1, <- app_assoc. done. }
  pose proof (went_refl s4 (wt_good _ _ W4) (wt_ready _ _ W4)) as V. clear HQ W W1 W2 W3 T1 T2 T3 T4 more.
  destruct gw as [mac|]; [|eapply wp_went_puts; [exact V|]; intros u Hu _; by apply Hend].
  apply wp_bind. eapply wp_went_puts; [exact V|]. intros s5 W5 _. apply wp_bind. eapply wp_went_mac; [exact W5|]. intros s6 W6 _.
  apply wp_bind. eapply wp_went_putc; [exact W6|]. intros s7 W7 _. apply wp_bind. eapply wp_went_puts; [exact W7|]. intros s8 W8 _.
  apply wp_bind. eapply wp_went_ip; [done|exact W8|]. intros s9 W9 _. apply wp_bind. eapply wp_went_puts; [exact W9|]. intros s10 W10 _.
  apply wp_bind. eapply wp_went_ping; [exact W10|done..|]. intros r s11 W11. clear V W5 W6 W7 W8 W9 W10.
  apply wp_bind. assert (∀ u, went s4 u → wp (net_demo_dns b;; uart_puts (of_string
    "[ok] networking up: virtio-net + ARP + ICMP + IP/UDP" ++ [10])) Q u) as Hdns.
  { intros u Hu. apply wp_bind. eapply wp_went_demo_dns; [exact Hu|done|]. intros v Hv. eapply wp_went_puts; [exact Hv|]. intros x Hx _. by apply Hend. }
  destruct (r =? 0); (eapply wp_went_puts; [exact W11|]; intros u Hu _; by apply Hdns).
Qed.
End demo.
