(* ===== verification/Disk.v ===== *)
(** * The block device interface (the contract of [virtio_disk_rw], src/virtio.h)

    [virtio_disk_rw block buf write] transfers one sector between the device
    and a 512 byte buffer and returns 0 or -1. [BlockDevLaws] is what the file
    system relies on: a request inside the device succeeds, a read delivers the
    last content written, and a write replaces exactly one sector, atomically.
    The laws are stated with the history of sector writes, so that the state of
    the device after a crash is the device with a prefix of its history. *)
From S2P Require Import Prelude Spinlock Uart.

Definition BSIZE : Z := 512.

Definition is_sector (l : list Z) : Prop := length l = Z.to_nat BSIZE ∧ Forall is_byte l.

(** The content of every sector of a device. *)
Definition sectors : Type := Z → list Z.

Definition put_sector (d : sectors) (b : Z) (x : list Z) : sectors := λ b', if b' =? b then x else d b'.

(** The device after a sequence of writes. *)
Definition played (d : sectors) (ws : list (Z * list Z)) : sectors :=
  fold_left (λ d w, put_sector d w.1 w.2) ws d.

Class BlockDev (D : Type) := {
  virtio_disk_rw : Z → list Z → bool → M D (Z * list Z);
}.

Class BlockDevLaws (D : Type) `{HasDev D, BlockDev D} := {
  disk_good : D → Prop;
  capacity : D → Z;
  origin : D → sectors;
  history : D → list (Z * list Z);
  disk_set_dev x d :
    (disk_good d → disk_good (set_dev x d)) ∧ capacity (set_dev x d) = capacity d ∧
    origin (set_dev x d) = origin d ∧ history (set_dev x d) = history d;
  disk_sector d b : disk_good d → is_sector (played (origin d) (history d) b);
  disk_read d b buf (Q : Z * list Z → D → Prop) :
    disk_good d → 0 ≤ b < capacity d → length buf = Z.to_nat BSIZE →
    (∀ d', disk_good d' → capacity d' = capacity d → origin d' = origin d → history d' = history d →
       dev_of d' = dev_of d → Q (0, played (origin d) (history d) b) d') →
    wp (virtio_disk_rw b buf false) Q d;
  disk_write d b buf (Q : Z * list Z → D → Prop) :
    disk_good d → 0 ≤ b < capacity d → is_sector buf →
    (∀ d', disk_good d' → capacity d' = capacity d → origin d' = origin d → history d' = history d ++ [(b, buf)] →
       dev_of d' = dev_of d → Q (0, buf) d') →
    wp (virtio_disk_rw b buf true) Q d;
}.

(** What the device holds. *)
Definition content `{BlockDevLaws D} (d : D) : sectors := played (origin d) (history d).

(** ** Lemmas on contents *)

Lemma put_sector_eq d b x : put_sector d b x b = x.
Proof. unfold put_sector. by rewrite Z.eqb_refl. Qed.
Lemma put_sector_ne d b x b' : b' ≠ b → put_sector d b x b' = d b'.
Proof. intros. unfold put_sector. by rewrite (proj2 (Z.eqb_neq _ _)). Qed.

Lemma played_app d ws ws' : played d (ws ++ ws') = played (played d ws) ws'.
Proof. apply fold_left_app. Qed.

(** A sector nobody wrote. *)
Lemma played_other d ws b : b ∉ ws.*1 → played d ws b = d b.
Proof.
  revert d. induction ws as [|[b' x] ws IH]; intros d; [done|].
  cbn [fmap list_fmap fst]. rewrite not_elem_of_cons. intros [Hne Hb].
  change (played d ((b', x) :: ws)) with (played (put_sector d b' x) ws). rewrite IH by done. by apply put_sector_ne.
Qed.

Lemma played_last d ws b x : played d (ws ++ [(b, x)]) b = x.
Proof. rewrite played_app. apply put_sector_eq. Qed.

(** ** Steps of the device: sectors written, characters transmitted *)

Section dstep.
Context {D : Type} `{HasDev D, HasDevLaws D (H := H), BlockDev D, BlockDevLaws D (H := H)}.

Record dstep (ws : list (Z * list Z)) (out : list Z) (d d' : D) : Prop := {
  ds_good : disk_good d';
  ds_ready : dev_ready (dev_of d');
  ds_capacity : capacity d' = capacity d;
  ds_origin : origin d' = origin d;
  ds_history : history d' = history d ++ ws;
  ds_tx : tx (dev_of d') = tx (dev_of d) ++ out;
  ds_spin : dspin (dev_of d') ≡ dspin (dev_of d);
}.

(** A device that may be used. *)
Definition disk_ready (d : D) : Prop := disk_good d ∧ dev_ready (dev_of d).

Lemma dstep_refl d : disk_ready d → dstep [] [] d d.
Proof. intros [Hg Hr]. split; rewrite ?app_nil_r; done. Qed.

Lemma dstep_trans ws ws' out out' d d' d'' :
  dstep ws out d d' → dstep ws' out' d' d'' → dstep (ws ++ ws') (out ++ out') d d''.
Proof. intros [] []. split; try congruence; rewrite app_assoc; congruence. Qed.

Lemma dstep_ready ws out d d' : dstep ws out d d' → disk_ready d'.
Proof. by intros []. Qed.

Lemma dstep_content ws out d d' : dstep ws out d d' → content d' = played (content d) ws.
Proof. intros []. unfold content. by rewrite ds_origin0, ds_history0, played_app. Qed.

Lemma dstep_said l d : disk_ready d → dstep [] l d (set_dev (said l (dev_of d)) d).
Proof.
  intros [Hg Hr]. destruct (disk_set_dev (said l (dev_of d)) d) as (E1 & E2 & E3 & E4).
  split; rewrite ?E2, ?E3, ?E4, ?app_nil_r, ?dev_of_set; auto; [by apply said_ready|by apply said_spin, Hr].
Qed.
End dstep.

#[export] Hint Resolve dstep_ready dstep_refl : kernel.

(** ** A device held in memory *)

Record ramdisk := RamDisk { rd_dev : dev; rd_cap : Z; rd_origin : sectors; rd_log : list (Z * list Z) }.

#[export] Instance ramdisk_has_dev : HasDev ramdisk := {|
  dev_of := rd_dev; set_dev x d := RamDisk x (rd_cap d) (rd_origin d) (rd_log d)
|}.
#[export] Instance ramdisk_has_dev_laws : HasDevLaws ramdisk.
Proof. by split; intros; try destruct s. Defined.

#[export] Instance ramdisk_rw : BlockDev ramdisk := {|
  virtio_disk_rw b buf write := λ d,
    if (0 <=? b) && (b <? rd_cap d) then
      if write then Done (0, buf) (RamDisk (rd_dev d) (rd_cap d) (rd_origin d) (rd_log d ++ [(b, buf)]))
      else Done (0, played (rd_origin d) (rd_log d) b) d
    else Done (-1, buf) d
|}.

#[export] Instance ramdisk_laws : BlockDevLaws ramdisk.
Proof.
  refine {| disk_good d := ∀ b, is_sector (played (rd_origin d) (rd_log d) b);
            capacity := rd_cap; origin := rd_origin; history := rd_log |}.
  - intros x d. done.
  - intros d b Hd. apply Hd.
  - intros d b buf Q Hd Hb Hl HQ. unfold wp, virtio_disk_rw, ramdisk_rw.
    rewrite (proj2 (andb_true_iff _ _)) by (split; bsimp; lia). by apply HQ.
  - intros d b buf Q Hd Hb Hl HQ. unfold wp, virtio_disk_rw, ramdisk_rw.
    rewrite (proj2 (andb_true_iff _ _)) by (split; bsimp; lia). apply HQ; try done.
    intros b'. cbn [rd_origin rd_log]. rewrite played_app. cbn. unfold put_sector. by destruct (b' =? b).
Defined.
