(* ===== verification/Fs.v ===== *)
(** * The file system (src/fs.c, src/fsformat.h)

    The on-disk structures, the statics of fs.c and one definition per
    function. [fsbuf], the single transfer buffer, is part of the state because
    the code reuses it between requests. *)
From S2P Require Import Prelude Spinlock Uart Disk.

Definition FS_MAGIC : Z := 0x52465332.
Definition MAXFILES : Z := 8.
Definition NAMELEN : Z := 56.
Definition DIRBLOCK : Z := 1.
Definition LOGHDR : Z := 2.
Definition LOGSTART : Z := 3.
Definition LOGN : Z := 16.
Definition DATASTART : Z := LOGSTART + LOGN.
Definition MAXBLK : Z := 8192.

(** ** On-disk structures *)

(** [struct fs_dirent]: the name is the whole array of 56 bytes. *)
Record dirent := Dirent { d_name : list Z; d_size : Z; d_start : Z }.

Definition word (v : Z) : list Z := le_bytes 4 v.
Definition word_at (off : nat) (b : list Z) : Z := le_val (slice off 4 b).

(** A structure at the start of a sector, zeros behind it. *)
Definition padded (l : list Z) : list Z := l ++ replicate (Z.to_nat BSIZE - length l) 0.

Definition dirent_bytes (e : dirent) : list Z := d_name e ++ word (d_size e) ++ word (d_start e).
Definition dirent_at (i : nat) (b : list Z) : dirent :=
  Dirent (slice (64 * i) 56 b) (word_at (64 * i + 56) b) (word_at (64 * i + 60) b).
Definition dir_bytes (l : list dirent) : list Z := l ≫= dirent_bytes.

(** [struct fs_superblock] *)
Definition super_bytes (nf nextf total : Z) : list Z := word FS_MAGIC ++ word nf ++ word nextf ++ word total.
Definition sb_magic (b : list Z) : Z := word_at 0 b.
Definition sb_nfiles (b : list Z) : Z := word_at 4 b.
Definition sb_next_free (b : list Z) : Z := word_at 8 b.
Definition sb_total (b : list Z) : Z := word_at 12 b.

(** [struct fs_loghdr] *)
Definition loghdr_bytes (committed n : Z) (blk : list Z) : list Z := word committed ++ word n ++ (blk ≫= word).
Definition lh_committed (b : list Z) : Z := word_at 0 b.
Definition lh_n (b : list Z) : Z := word_at 4 b.
Definition lh_blk (i : nat) (b : list Z) : Z := word_at (8 + 4 * i) b.

(** ** The statics of fs.c *)

Record fsmem := FsMem {
  dir : list dirent; nfiles : Z; mounted : bool; next_free : Z; total_blocks : Z;
  fsbuf : list Z; used : gmap Z Z; log_blk : list Z; log_n : Z; log_overflow : bool
}.
Definition set_dir x m := FsMem x (nfiles m) (mounted m) (next_free m) (total_blocks m) (fsbuf m) (used m) (log_blk m) (log_n m) (log_overflow m).
Definition set_nfiles x m := FsMem (dir m) x (mounted m) (next_free m) (total_blocks m) (fsbuf m) (used m) (log_blk m) (log_n m) (log_overflow m).
Definition set_mounted x m := FsMem (dir m) (nfiles m) x (next_free m) (total_blocks m) (fsbuf m) (used m) (log_blk m) (log_n m) (log_overflow m).
Definition set_next_free x m := FsMem (dir m) (nfiles m) (mounted m) x (total_blocks m) (fsbuf m) (used m) (log_blk m) (log_n m) (log_overflow m).
Definition set_total x m := FsMem (dir m) (nfiles m) (mounted m) (next_free m) x (fsbuf m) (used m) (log_blk m) (log_n m) (log_overflow m).
Definition set_fsbuf x m := FsMem (dir m) (nfiles m) (mounted m) (next_free m) (total_blocks m) x (used m) (log_blk m) (log_n m) (log_overflow m).
Definition set_used x m := FsMem (dir m) (nfiles m) (mounted m) (next_free m) (total_blocks m) (fsbuf m) x (log_blk m) (log_n m) (log_overflow m).
Definition set_log_blk x m := FsMem (dir m) (nfiles m) (mounted m) (next_free m) (total_blocks m) (fsbuf m) (used m) x (log_n m) (log_overflow m).
Definition set_log_n x m := FsMem (dir m) (nfiles m) (mounted m) (next_free m) (total_blocks m) (fsbuf m) (used m) (log_blk m) x (log_overflow m).
Definition set_log_overflow x m := FsMem (dir m) (nfiles m) (mounted m) (next_free m) (total_blocks m) (fsbuf m) (used m) (log_blk m) (log_n m) x.

(** The file system on a device. *)
Record fs (D : Type) := FsOn { fm : fsmem; low : D }.
Arguments FsOn {D}.
Arguments fm {D}.
Arguments low {D}.

#[export] Instance fs_has_dev `{HasDev D} : HasDev (fs D) := {|
  dev_of s := dev_of (low s); set_dev x s := FsOn (fm s) (set_dev x (low s))
|}.
#[export] Instance fs_has_dev_laws `{HasDevLaws D} : HasDevLaws (fs D).
Proof.
  split; intros; try destruct s; cbn; [apply dev_of_set|by rewrite set_dev_set|by rewrite set_dev_of].
Defined.

(** [streq] on two character arrays; running off an array is undefined. *)
Fixpoint streq (a b : list Z) : option bool :=
  match a, b with
  | x :: a, y :: b =>
      if (x =? 0) || (y =? 0) then Some (x =? y)
      else if x =? y then streq a b else Some false
  | _, _ => None
  end.

(** The inner loop of [balloc_contig]. The map holds the bytes of the bitmap
    that are not 0. *)
Definition used_at (u : gmap Z Z) (b : Z) : Z := default 0 (u !! b).
Fixpoint run_free (n : nat) (b : Z) (u : gmap Z Z) : bool :=
  match n with
  | O => true
  | S n => if used_at u b =? 0 then run_free n (b + 1) u else false
  end.

Section ops.
Context {D : Type} `{HasDev D, BlockDev D}.

Definition on_mem (f : fsmem → fsmem) : M (fs D) unit := modify (λ s, FsOn (f (fm s)) (low s)).
Definition mem_get {A} (f : fsmem → A) : M (fs D) A := gets (λ s, f (fm s)).

(** [virtio_disk_rw(b, fsbuf, write)] *)
Definition disk_rw (b : Z) (write : bool) : M (fs D) Z :=
  buf ← mem_get fsbuf;
  r ← zoom low (λ d s, FsOn (fm s) d) (virtio_disk_rw b buf write);
  on_mem (set_fsbuf r.2);;
  mret r.1.

(** ** The write-ahead log *)

Definition loghdr_blk (n : Z) (blks : list Z) : option (list Z) :=
  mapM (λ i, if Z.of_nat i <? i32 n then blks !! i else Some 0) (seq 0 (Z.to_nat LOGN)).

Definition write_loghdr (committed n : Z) (blks : list Z) : M (fs D) unit :=
  blk ← of_option (loghdr_blk n blks);
  on_mem (set_fsbuf (padded (loghdr_bytes committed n blk)));;
  r ← disk_rw LOGHDR true;
  mret tt.

Definition log_begin : M (fs D) unit := on_mem (set_log_n 0);; on_mem (set_log_overflow false).

Definition log_write (dst : Z) (data : list Z) : M (fs D) unit :=
  n ← mem_get log_n;
  if LOGN <=? n then on_mem (set_log_overflow true)
  else
    data ← of_option (region 0 (Z.to_nat BSIZE) data);
    on_mem (set_fsbuf data);;
    r ← disk_rw (LOGSTART + n) true;
    blks ← mem_get log_blk;
    assertb ((0 <=? n) && (n <? Z.of_nat (length blks)));;
    on_mem (set_log_blk (<[Z.to_nat n := dst]> blks));;
    on_mem (set_log_n (n + 1)).

Definition log_install (n : Z) (blks : list Z) : M (fs D) unit :=
  for_n (Z.to_nat n) 0 (λ i,
    r ← disk_rw (LOGSTART + i) false;
    b ← of_option (blks !! Z.to_nat i);
    r ← disk_rw b true;
    mret tt).

Definition log_commit : M (fs D) unit :=
  n ← mem_get log_n;
  if n =? 0 then mret tt
  else
    over ← mem_get log_overflow;
    if (over : bool) then
      uart_line "[fs] transaction too large -- aborted (no partial commit)";;
      on_mem (set_log_n 0);; on_mem (set_log_overflow false)
    else
      blks ← mem_get log_blk;
      write_loghdr 1 n blks;;
      log_install n blks;;
      write_loghdr 0 0 [];;
      on_mem (set_log_n 0).

Definition recover : M (fs D) unit :=
  r ← disk_rw LOGHDR false;
  h ← mem_get fsbuf;
  if lh_committed h =? 0 then mret tt
  else
    let n := lh_n h in
    let n := if LOGN <? n then LOGN else n in
    let blks := (λ i, lh_blk i h) <$> seq 0 (Z.to_nat n) in
    log_install n blks;;
    write_loghdr 0 0 [];;
    uart_line "[fs] recovered a committed log transaction".

(** ** The bitmap of blocks in use *)

(** [used[b] = v]: outside the array the behaviour is undefined. *)
Definition put_used (b v : Z) : M (fs D) unit :=
  assertb ((0 <=? b) && (b <? MAXBLK));;
  on_mem (λ m, set_used (<[b := v]> (used m)) m).

(** [dir[i]] *)
Definition dir_at (i : Z) : M (fs D) dirent :=
  l ← mem_get dir;
  of_option (if 0 <=? i then l !! Z.to_nat i else None).
Definition put_dir (i : Z) (e : dirent) : M (fs D) unit :=
  l ← mem_get dir;
  assertb ((0 <=? i) && (i <? Z.of_nat (length l)));;
  on_mem (set_dir (<[Z.to_nat i := e]> l)).

(** [(size + BSIZE - 1) / BSIZE] on [unsigned]. *)
Definition blocks_of (size : Z) : Z := u32 (size + BSIZE - 1) / BSIZE.

Definition build_bitmap : M (fs D) unit :=
  on_mem (set_used ∅);;
  put_used LOGHDR 1;; put_used DIRBLOCK 1;; put_used 0 1;;
  for_n (Z.to_nat LOGN) 0 (λ i, put_used (LOGSTART + i) 1);;
  nf ← mem_get nfiles;
  for_n (Z.to_nat nf) 0 (λ f,
    e ← dir_at f;
    for_n (Z.to_nat (blocks_of (d_size e))) 0 (λ k,
      let b := u32 (d_start e + k) in
      when (b <? MAXBLK) (put_used b 1))).

(** The search tries at most [MAXBLK] starting points. *)
Definition balloc_fuel : nat := Z.to_nat (MAXBLK + 1).
Definition balloc_contig (nblocks : Z) : M (fs D) Z :=
  if nblocks =? 0 then mret DATASTART
  else
    loop balloc_fuel (λ s,
      total ← mem_get total_blocks;
      if (u32 (s + nblocks) <=? total) && (u32 (s + nblocks) <=? MAXBLK) then
        u ← mem_get used;
        mret (if run_free (Z.to_nat nblocks) s u then inr s else inl (u32 (s + 1)))
      else mret (inr (-1))) DATASTART.

(** ** Mounting *)

Definition fs_init : M (fs D) unit :=
  r ← disk_rw 0 false;
  if negb (r =? 0) then uart_line "[fs] cannot read superblock"
  else
    sb ← mem_get fsbuf;
    if negb (sb_magic sb =? FS_MAGIC) then uart_line "[fs] bad magic (no filesystem)"
    else
      let total := sb_total sb in
      on_mem (set_total (if (total =? 0) || (MAXBLK <? total) then MAXBLK else total));;
      recover;;
      r ← disk_rw 0 false;
      sb ← mem_get fsbuf;
      let nf := i32 (sb_nfiles sb) in
      on_mem (set_nfiles (if MAXFILES <? nf then MAXFILES else nf));;
      on_mem (set_next_free (sb_next_free sb));;
      r ← disk_rw DIRBLOCK false;
      d ← mem_get fsbuf;
      on_mem (set_dir ((λ i, dirent_at i d) <$> seq 0 (Z.to_nat MAXFILES)));;
      build_bitmap;;
      on_mem (set_mounted true);;
      uart_str "[ok] filesystem mounted (journaled): ";;
      nf ← mem_get nfiles;
      uart_dec (u64 nf);;
      uart_line " files".

(** ** Reading *)

Definition fs_ls : M (fs D) unit :=
  m ← mem_get mounted;
  if negb m then uart_line "ls: no filesystem"
  else
    nf ← mem_get nfiles;
    for_n (Z.to_nat nf) 0 (λ i,
      e ← dir_at i;
      uart_str "  ";;
      name ← of_option (c_string (d_name e));
      uart_puts name;;
      uart_str "  (";;
      uart_dec (d_size e);;
      uart_line " bytes)").

(** The search loop of the functions that take a name: [n] entries from index
    [i] on are still to be looked at. *)
Fixpoint find_from (n : nat) (i : Z) (name : list Z) : M (fs D) (option Z) :=
  match n with
  | O => mret None
  | S n =>
      e ← dir_at i;
      same ← of_option (streq (d_name e) (name ++ [0]));
      if (same : bool) then mret (Some i) else find_from n (i + 1) name
  end.
Definition find_file (name : list Z) : M (fs D) (option Z) :=
  nf ← mem_get nfiles;
  find_from (Z.to_nat nf) 0 name.

(** [while (remaining > 0)] over the blocks of a file, [size / BSIZE] of them,
    rounded up: the state is the block, the bytes remaining and what [each]
    threads through. *)
Definition each_block {A} (each : list Z → A → M (fs D) A) (size start : Z) (a : A) : M (fs D) A :=
  loop (S (Z.to_nat ((size + BSIZE - 1) / BSIZE))) (λ '(blk, remaining, a),
    if 0 <? remaining then
      r ← disk_rw blk false;
      let n := if BSIZE <? remaining then BSIZE else remaining in
      b ← mem_get fsbuf;
      part ← of_option (region 0 (Z.to_nat n) b);
      a ← each part a;
      mret (inl (u32 (blk + 1), remaining - n, a))
    else mret (inr a)) (start, size, a).

(** The result is the return value and the buffer. *)
Definition fs_read (name buf : list Z) (max : Z) : M (fs D) (Z * list Z) :=
  m ← mem_get mounted;
  if negb m then mret (-1, buf)
  else
    found ← find_file name;
    match found with
    | None => mret (-1, buf)
    | Some i =>
        e ← dir_at i;
        if max <? i32 (d_size e) then mret (-1, buf)
        else
          r ← each_block (λ part '(off, buf),
                buf ← of_option (overwrite off part buf); mret (off + length part, buf)%nat)
                (d_size e) (d_start e) (O, buf);
          mret (i32 (d_size e), r.2)
    end.

(** [Some (start, size)] for 0, [None] for -1. *)
Definition fs_stat (name : list Z) : M (fs D) (option (Z * Z)) :=
  m ← mem_get mounted;
  if negb m then mret None
  else
    found ← find_file name;
    match found with
    | None => mret None
    | Some i => e ← dir_at i; mret (Some (d_start e, d_size e))
    end.

(** [buf] is a page: eight blocks at most. *)
Definition fs_read_page (start size offset : Z) (buf : list Z) : M (fs D) (list Z) :=
  buf ← of_option (overwrite 0 (replicate (Z.to_nat 4096) 0) buf);
  loop 9 (λ '(blk, done, buf),
    if (done <? 4096) && (u32 (offset + done) <? size) then
      r ← disk_rw blk false;
      let n := u32 (size - u32 (offset + done)) in
      let n := if BSIZE <? n then BSIZE else n in
      b ← mem_get fsbuf;
      part ← of_option (region 0 (Z.to_nat n) b);
      buf ← of_option (overwrite (Z.to_nat done) part buf);
      mret (inl (u32 (blk + 1), done + BSIZE, buf))
    else mret (inr buf)) (u32 (start + offset / BSIZE), 0, buf).

Definition fs_cat (name : list Z) : M (fs D) unit :=
  m ← mem_get mounted;
  if negb m then uart_line "cat: no filesystem"
  else
    found ← find_file name;
    match found with
    | None => uart_str "cat: no such file: ";; uart_puts name;; uart_putc 10
    | Some i =>
        e ← dir_at i;
        each_block (λ part _, putc_each part) (d_size e) (d_start e) tt
    end.

(** ** Writing *)

Definition log_dir : M (fs D) unit :=
  l ← mem_get dir;
  log_write DIRBLOCK (take (Z.to_nat BSIZE) (padded (dir_bytes l))).

Definition log_super : M (fs D) unit :=
  m ← mem_get id;
  log_write 0 (padded (super_bytes (u32 (nfiles m)) (next_free m) (total_blocks m))).

(** [name[k] && k < NAMELEN - 1], then the terminator; the rest of the array
    keeps its old bytes. *)
Definition copy_name (name old : list Z) : option (list Z) :=
  overwrite 0 (take (Z.to_nat (NAMELEN - 1)) name ++ [0]) old.

Definition fs_create (name data : list Z) (size : Z) : M (fs D) Z :=
  m ← mem_get mounted;
  nf ← mem_get nfiles;
  if negb m || (MAXFILES <=? nf) || (size <? 0) then mret (-1)
  else
    found ← find_file name;
    match found with
    | Some _ => mret (-1)
    | None =>
        assertb (size + BSIZE - 1 <? 2 ^ 31);;
        let nblocks := (size + BSIZE - 1) / BSIZE in
        if LOGN <? nblocks + 2 then mret (-1)
        else
          start ← balloc_contig nblocks;
          if start <? 0 then mret (-1)
          else
            log_begin;;
            for_n (Z.to_nat nblocks) 0 (λ b,
              let n := if BSIZE <? size - b * BSIZE then BSIZE else size - b * BSIZE in
              part ← of_option (region (Z.to_nat (b * BSIZE)) (Z.to_nat n) data);
              log_write (u32 (start + b)) (padded part));;
            slot ← mem_get nfiles;
            e ← dir_at slot;
            nm ← of_option (copy_name name (d_name e));
            put_dir slot (Dirent nm (u32 size) (u32 start));;
            on_mem (set_nfiles (slot + 1));;
            for_n (Z.to_nat nblocks) 0 (λ b, put_used (start + b) 1);;
            nextf ← mem_get next_free;
            when (nextf <? u32 (start + nblocks)) (on_mem (set_next_free (u32 (start + nblocks))));;
            log_dir;;
            log_super;;
            log_commit;;
            mret 0
    end.

Definition fs_delete (name : list Z) : M (fs D) Z :=
  m ← mem_get mounted;
  if negb m then mret (-1)
  else
    found ← find_file name;
    match found with
    | None => mret (-1)
    | Some idx =>
        e ← dir_at idx;
        for_n (Z.to_nat (blocks_of (d_size e))) 0 (λ b,
          let blk := u32 (d_start e + b) in
          when (blk <? MAXBLK) (put_used blk 0));;
        nf ← mem_get nfiles;
        for_n (Z.to_nat (nf - 1 - idx)) idx (λ j, e ← dir_at (j + 1); put_dir j e);;
        e ← dir_at (nf - 1);
        put_dir (nf - 1) (Dirent (replicate (length (d_name e)) 0) 0 0);;
        on_mem (set_nfiles (nf - 1));;
        log_begin;;
        log_dir;;
        log_super;;
        log_commit;;
        mret 0
    end.
End ops.
