(* ===== verification/FsLayout.v ===== *)
(** * What a disk means (src/fsformat.h)

    [layout d total es files]: the sectors [d] hold the files, in directory
    order. [recoverable d total files]: mounting [d] gives the files, possibly
    after installing a committed log. The main lemma, [transaction_recoverable],
    says that every prefix of the writes of a logged transaction leaves a disk
    that is recoverable to the files before or to the files after. *)
From S2P Require Import Prelude Spinlock Uart Disk Fs.

(** A file: its name and its bytes. *)
Definition file : Type := list Z * list Z.

(** ** Specifications *)

(** The number of blocks of a file, and the blocks of a directory entry. *)
Definition nblk (size : Z) : Z := (size + BSIZE - 1) / BSIZE.
Definition extent (e : dirent) : list Z := seqZ (d_start e) (nblk (d_size e)).
Definition extents (es : list dirent) : list Z := es ≫= extent.

(** The total number of blocks the kernel reads off a superblock. *)
Definition clamp_total (t : Z) : Z := if (t =? 0) || (MAXBLK <? t) then MAXBLK else t.

Record super_ok (b : list Z) (total : Z) : Prop := {
  so_magic : sb_magic b = FS_MAGIC;
  so_total : clamp_total (sb_total b) = total;
}.

Record entry_ok (d : sectors) (total : Z) (e : dirent) (f : file) : Prop := {
  en_name : ∃ pad, d_name e = f.1 ++ 0 :: pad;
  en_chars : Forall (λ c, c ≠ 0) f.1;
  en_size : d_size e = Z.of_nat (length f.2);
  en_start : DATASTART ≤ d_start e;
  en_end : d_start e + nblk (d_size e) ≤ total;
  en_data : take (length f.2) (extent e ≫= d) = f.2;
}.

Record layout (d : sectors) (total : Z) (es : list dirent) (files : list file) : Prop := {
  la_super : super_ok (d 0) total;
  la_nfiles : sb_nfiles (d 0) = Z.of_nat (length files);
  la_bound : DATASTART ≤ total ≤ MAXBLK;
  la_few : (length files ≤ Z.to_nat MAXFILES)%nat;
  la_dir : es = (λ i, dirent_at i (d DIRBLOCK)) <$> seq 0 (Z.to_nat MAXFILES);
  la_entries : Forall2 (entry_ok d total) (take (length files) es) files;
  la_disjoint : NoDup (extents (take (length files) es));
}.

(** The log: the sectors that may only be written by the logging itself. *)
Definition log_sector (b : Z) : Prop := LOGHDR ≤ b < DATASTART.
Definition target_ok (total b : Z) : Prop := 0 ≤ b < total ∧ ¬ log_sector b.

Definition header_blks (h : list Z) : list Z := (λ i, lh_blk i h) <$> seq 0 (Z.to_nat (lh_n h)).
(** The writes that install a log. *)
Definition installs (d : sectors) (blks : list Z) : list (Z * list Z) :=
  imap (λ i b, (b, d (LOGSTART + Z.of_nat i))) blks.

Record committed (d : sectors) (total : Z) (files : list file) : Prop := {
  co_super : super_ok (d 0) total;
  co_few : 0 ≤ lh_n (d LOGHDR) ≤ LOGN;
  co_targets : Forall (target_ok total) (header_blks (d LOGHDR));
  co_supers x : (0, x) ∈ installs d (header_blks (d LOGHDR)) → super_ok x total;
  co_layout : ∃ es, layout (played d (installs d (header_blks (d LOGHDR)))) total es files;
}.

Definition recoverable (d : sectors) (total : Z) (files : list file) : Prop :=
  if lh_committed (d LOGHDR) =? 0 then ∃ es, layout d total es files else committed d total files.

(** The writes of a transaction that replaces the sectors [es]. *)
Definition header (c : Z) (blks : list Z) : list Z :=
  padded (loghdr_bytes c (Z.of_nat (length blks)) (blks ++ replicate (Z.to_nat LOGN - length blks) 0)).
Definition log_writes (es : list (Z * list Z)) : list (Z * list Z) :=
  imap (λ i e, (LOGSTART + Z.of_nat i, e.2)) es.
Definition transaction (es : list (Z * list Z)) : list (Z * list Z) :=
  log_writes es ++ [(LOGHDR, header 1 es.*1)] ++ es ++ [(LOGHDR, header 0 [])].

(** ** Words *)

Lemma length_word v : length (word v) = 4%nat.
Proof. apply length_le_bytes. Qed.

Lemma word_at_mid off pre v post :
  length pre = off → 0 ≤ v < 2 ^ 32 → word_at off (pre ++ word v ++ post) = v.
Proof.
  intros <- Hv. unfold word_at, slice. rewrite drop_app_length.
  rewrite <- (length_word v), take_app_length. apply (le_val_bytes 4). exact Hv.
Qed.

Lemma slice_front {A} n (l k : list A) : length l = n → slice 0 n (l ++ k) = l.
Proof. intros <-. unfold slice. rewrite drop_0. apply take_app_length. Qed.

Lemma word_at_skip k off pre b : off = (length pre + k)%nat → word_at off (pre ++ b) = word_at k b.
Proof. intros ->. unfold word_at. rewrite slice_app_r by lia. do 2 f_equal. lia. Qed.

Lemma length_padded l : (length l ≤ Z.to_nat BSIZE)%nat → length (padded l) = Z.to_nat BSIZE.
Proof. intros. unfold padded. rewrite length_app, length_replicate. lia. Qed.

Lemma word_byte v : Forall is_byte (word v).
Proof. apply le_bytes_byte. Qed.

Lemma words_byte l : Forall is_byte (l ≫= word).
Proof.
  induction l as [|v l IH]; [constructor|]. change ((v :: l) ≫= word) with (word v ++ (l ≫= word)).
  apply Forall_app. split; [apply word_byte|done].
Qed.

Lemma padded_sector l : (length l ≤ Z.to_nat BSIZE)%nat → Forall is_byte l → is_sector (padded l).
Proof.
  intros Hl Hb. split; [by apply length_padded|]. apply Forall_app. split; [done|].
  apply Forall_replicate. unfold is_byte. lia.
Qed.

Lemma word_at_bound off b : Forall is_byte b → 0 ≤ word_at off b < 2 ^ 32.
Proof.
  intros Hb. assert (Forall is_byte (slice off 4 b)) as Hs by (by apply Forall_take, Forall_drop).
  apply le_val_bound in Hs as [H0 H1]. fold (word_at off b) in *. split; [done|].
  eapply Z.lt_le_trans; [exact H1|]. change (2 ^ 32) with (256 ^ 4). apply Z.pow_le_mono_r; [lia|].
  unfold slice. rewrite length_take. lia.
Qed.

(** ** Directory entries *)

Definition dirent_wf (e : dirent) : Prop :=
  (length (d_name e) = Z.to_nat NAMELEN ∧ Forall is_byte (d_name e)) ∧ 0 ≤ d_size e < 2 ^ 32 ∧ 0 ≤ d_start e < 2 ^ 32.

Lemma length_dirent_bytes e : dirent_wf e → length (dirent_bytes e) = 64%nat.
Proof. intros [[Hn _] _]. unfold dirent_bytes. rewrite !length_app, !length_word, Hn. done. Qed.

Lemma dirent_at_0 e rest : dirent_wf e → dirent_at 0 (dirent_bytes e ++ rest) = e.
Proof.
  intros ([Hn _] & Hs & Hb). change (Z.to_nat NAMELEN) with 56%nat in Hn. unfold dirent_at, dirent_bytes.
  rewrite <- !app_assoc. change (64 * 0)%nat with 0%nat.
  rewrite slice_front by done. rewrite (word_at_mid _ (d_name e)) by done.
  rewrite (app_assoc (d_name e)), (word_at_mid _ (d_name e ++ word (d_size e))) by
    (rewrite ?length_app, ?length_word; lia). by destruct e.
Qed.

Lemma dirent_at_S i e rest : dirent_wf e → dirent_at (S i) (dirent_bytes e ++ rest) = dirent_at i rest.
Proof.
  intros He. pose proof (length_dirent_bytes e He) as Hl. unfold dirent_at.
  rewrite slice_app_r by lia.
  rewrite (word_at_skip (64 * i + 56) _ (dirent_bytes e)) by lia.
  rewrite (word_at_skip (64 * i + 60) _ (dirent_bytes e)) by lia.
  f_equal. f_equal. lia.
Qed.

Lemma dirents_at es rest :
  Forall dirent_wf es → (λ i, dirent_at i (dir_bytes es ++ rest)) <$> seq 0 (length es) = es.
Proof.
  induction 1 as [|e es He _ IH]; [done|]. cbn [length]. rewrite <- cons_seq, fmap_cons.
  change (dir_bytes (e :: es)) with (dirent_bytes e ++ dir_bytes es). rewrite <- app_assoc.
  rewrite dirent_at_0 by done. f_equal. rewrite <- fmap_S_seq, <- list_fmap_compose.
  etransitivity; [|exact IH]. apply list_fmap_ext. intros i j _. simpl. by apply dirent_at_S.
Qed.

Lemma length_dir_bytes es : Forall dirent_wf es → length (dir_bytes es) = (64 * length es)%nat.
Proof.
  induction 1 as [|e es He _ IH]; [done|]. change (dir_bytes (e :: es)) with (dirent_bytes e ++ dir_bytes es).
  rewrite length_app, length_dirent_bytes, IH by done. simpl. lia.
Qed.

(** ** The log header *)

Lemma words_at l i x rest :
  l !! i = Some x → Forall (λ v, 0 ≤ v < 2 ^ 32) l → word_at (4 * i) ((l ≫= word) ++ rest) = x.
Proof.
  intros Hi Hl. revert i Hi. induction Hl as [|v l Hv _ IH]; intros i Hi; [done|].
  change ((v :: l) ≫= word) with (word v ++ (l ≫= word)). rewrite <- app_assoc.
  destruct i as [|i]; simpl in Hi.
  - apply (inj Some) in Hi as <-. by apply (word_at_mid 0 []).
  - rewrite (word_at_skip (4 * i)); [by apply IH|]. rewrite length_word. lia.
Qed.

Lemma length_words l : length (l ≫= word) = (4 * length l)%nat.
Proof.
  induction l as [|v l IH]; [done|]. change ((v :: l) ≫= word) with (word v ++ (l ≫= word)).
  rewrite length_app, length_word, IH. simpl. lia.
Qed.

Definition u32_list (l : list Z) : Prop := Forall (λ v, 0 ≤ v < 2 ^ 32) l.

Section header.
Context (c : Z) (blks : list Z) (Hc : 0 ≤ c < 2 ^ 32) (Hl : (length blks ≤ Z.to_nat LOGN)%nat) (Hb : u32_list blks).
Let all := blks ++ replicate (Z.to_nat LOGN - length blks) 0.

Lemma header_all : u32_list all.
Proof. apply Forall_app. split; [done|]. apply Forall_replicate. lia. Qed.

Lemma header_eq : ∃ rest, header c blks = word c ++ word (Z.of_nat (length blks)) ++ (all ≫= word) ++ rest.
Proof. unfold header, padded, loghdr_bytes. fold all. eexists. by rewrite <- !app_assoc. Qed.

Lemma header_sector : is_sector (header c blks).
Proof.
  apply padded_sector; unfold loghdr_bytes.
  - rewrite !length_app, !length_word, length_words, length_app, length_replicate.
    change (Z.to_nat LOGN) with 16%nat in *. change (Z.to_nat BSIZE) with 512%nat. lia.
  - rewrite !Forall_app. split_and!; auto using word_byte, words_byte.
Qed.

Lemma header_committed : lh_committed (header c blks) = c.
Proof. destruct header_eq as [rest ->]. by apply (word_at_mid 0 []). Qed.

Lemma header_n : lh_n (header c blks) = Z.of_nat (length blks).
Proof.
  destruct header_eq as [rest ->]. apply (word_at_mid 4 (word c)); [apply length_word|].
  change (Z.to_nat LOGN) with 16%nat in Hl. lia.
Qed.

Lemma header_blks_eq : header_blks (header c blks) = blks.
Proof.
  unfold header_blks. rewrite header_n, Nat2Z.id. destruct header_eq as [rest ->].
  apply list_eq. intros i. rewrite list_lookup_fmap. destruct (decide (i < length blks)%nat) as [Hi|Hi].
  - rewrite lookup_seq_lt by done. cbn [fmap option_fmap option_map]. destruct (lookup_lt_is_Some_2 blks i Hi) as [b Eb]. rewrite Eb. f_equal.
    unfold lh_blk. rewrite app_assoc. rewrite (word_at_skip (4 * i)) by (rewrite length_app, !length_word; lia).
    apply words_at; [|apply header_all]. unfold all. by rewrite lookup_app_l.
  - rewrite lookup_ge_None_2 by (rewrite length_seq; lia). by rewrite lookup_ge_None_2 by lia.
Qed.
End header.

(** ** Writing sectors *)

Lemma played_indep d d' ws b : b ∈ ws.*1 ∨ d b = d' b → played d ws b = played d' ws b.
Proof.
  revert d d'. induction ws as [|[b' x] ws IH]; intros d d' Hb.
  - destruct Hb as [[]%elem_of_nil|]; done.
  - change (played ?d ((b', x) :: ws)) with (played (put_sector d b' x) ws). apply IH.
    destruct (decide (b = b')) as [->|Hne].
    + right. by rewrite !put_sector_eq.
    + rewrite !put_sector_ne by done. destruct Hb as [Hb|Hb]; [|by right].
      cbn [fmap list_fmap fst] in Hb. apply elem_of_cons in Hb as [->|]; [done|by left].
Qed.

Lemma played_prefix d ws k b : played (played d (take k ws)) ws b = played d ws b.
Proof.
  apply played_indep. destruct (decide (b ∈ ws.*1)) as [|Hb]; [by left|right].
  apply played_other. intros Hin. apply Hb. rewrite <- (take_drop k ws), fmap_app. apply elem_of_app. by left.
Qed.

(** The value written last. *)
Lemma played_in d ws b : b ∈ ws.*1 → (b, played d ws b) ∈ ws.
Proof.
  revert d. induction ws as [|[b' x] ws IH]; intros d Hb; [by apply elem_of_nil in Hb|].
  change (played d ((b', x) :: ws)) with (played (put_sector d b' x) ws).
  destruct (decide (b ∈ ws.*1)) as [Hin|Hout]; [right; by apply IH|].
  cbn [fmap list_fmap fst] in Hb. apply elem_of_cons in Hb as [->|]; [|done].
  rewrite played_other, put_sector_eq by done. left.
Qed.

Definition agree (d d' : sectors) : Prop := ∀ b, ¬ log_sector b → d b = d' b.

Lemma extent_data_ok d total e f b : entry_ok d total e f → b ∈ extent e → ¬ log_sector b.
Proof.
  intros [] Hb. unfold extent in Hb. apply elem_of_seqZ in Hb. unfold log_sector, DATASTART in *. lia.
Qed.

Lemma bind_ext d d' (l : list Z) : (∀ b, b ∈ l → d b = d' b) → l ≫= (d : Z → list Z) = l ≫= d'.
Proof.
  induction l as [|b l IH]; intros Hd; [done|].
  change ((b :: l) ≫= (d : Z → list Z)) with (d b ++ (l ≫= d)).
  change ((b :: l) ≫= (d' : Z → list Z)) with (d' b ++ (l ≫= d')).
  rewrite IH by (intros; apply Hd; by right). rewrite (Hd b) by left. done.
Qed.

Lemma entry_ok_ext d d' total e f :
  (∀ b, b ∈ extent e → d b = d' b) → entry_ok d total e f → entry_ok d' total e f.
Proof. intros Hd []. split; try done. by rewrite <- (bind_ext d d'). Qed.

Lemma layout_ext d d' total es files : agree d d' → layout d total es files → layout d' total es files.
Proof.
  intros Hd []. rewrite (Hd 0) in * by (unfold log_sector, LOGHDR; lia).
  rewrite (Hd DIRBLOCK) in * by (unfold log_sector, LOGHDR, DIRBLOCK; lia). split; try done.
  eapply Forall2_impl; [done|]. intros e f He. apply (entry_ok_ext d); [|done].
  intros b Hb. apply Hd. by eapply extent_data_ok.
Qed.

(** ** Crash states *)

(** The writes of [recover]. *)
Definition recovery (d : sectors) : list (Z * list Z) :=
  if lh_committed (d LOGHDR) =? 0 then []
  else installs d (header_blks (d LOGHDR)) ++ [(LOGHDR, header 0 [])].

Lemma installs_fst d blks : (installs d blks).*1 = blks.
Proof.
  unfold installs. rewrite fmap_imap. rewrite (imap_ext _ (λ _ b, b)) by done.
  rewrite <- (list_fmap_id blks) at 2. rewrite <- imap_const. done.
Qed.

Lemma targets_not_log total (blks : list Z) b : Forall (target_ok total) blks → log_sector b → b ∉ blks.
Proof. intros Hb Hl Hin. by apply (proj1 (Forall_forall _ _) Hb b Hin). Qed.

Lemma target_word total b : target_ok total b → total ≤ MAXBLK → 0 ≤ b < 2 ^ 32.
Proof. unfold target_ok, MAXBLK. lia. Qed.

Lemma targets_words total blks : Forall (target_ok total) blks → total ≤ MAXBLK → u32_list blks.
Proof. intros Hb Ht. eapply Forall_impl; [done|]. intros b Hbb. by eapply target_word. Qed.

Lemma not_in_take {A B} (l : list (A * B)) k x : x ∉ l.*1 → x ∉ (take k l).*1.
Proof.
  intros Hx Hin. apply Hx. rewrite <- (take_drop k l), fmap_app. apply elem_of_app. by left.
Qed.

(** Installing writes no log sector, so installing again writes the same. *)
Lemma played_log d total ws k b :
  Forall (target_ok total) ws.*1 → log_sector b → played d (take k ws) b = d b.
Proof. intros Hb Hl. apply played_other, not_in_take. by eapply targets_not_log. Qed.

Lemma installs_again d total ws k (blks : list Z) :
  Forall (target_ok total) ws.*1 → (length blks ≤ Z.to_nat LOGN)%nat →
  installs (played d (take k ws)) blks = installs d blks.
Proof.
  intros Hb Hl. unfold installs. apply imap_ext. intros i b Hi. f_equal.
  apply lookup_lt_Some in Hi. change (Z.to_nat LOGN) with 16%nat in Hl.
  eapply played_log; [done|]. unfold log_sector, LOGHDR, LOGSTART, DATASTART, LOGSTART, LOGN. lia.
Qed.

Lemma length_header_blks h : length (header_blks h) = Z.to_nat (lh_n h).
Proof. unfold header_blks. by rewrite length_fmap, length_seq. Qed.

(** A clean disk stays so when only log sectors change. *)
Lemma clean_recoverable d d' total es files :
  layout d total es files → agree d d' → lh_committed (d' LOGHDR) = 0 → recoverable d' total files.
Proof.
  intros Hla Hag Hc. unfold recoverable. rewrite Hc. exists es. by eapply layout_ext.
Qed.

(** Every prefix of the recovery of a committed disk is recoverable to the same
    files, and the whole of it leaves a clean disk. *)
Lemma recovery_prefix d total files k :
  lh_committed (d LOGHDR) ≠ 0 → committed d total files →
  recoverable (played d (take k (recovery d))) total files.
Proof.
  intros Hc [Hs Hn Ht Hsup [es Hla]]. unfold recovery. rewrite (proj2 (Z.eqb_neq _ _)) by done.
  set (blks := header_blks (d LOGHDR)) in *. set (ws := installs d blks) in *.
  assert (Forall (target_ok total) ws.*1) as Htw by (unfold ws; by rewrite installs_fst).
  assert (length blks ≤ Z.to_nat LOGN)%nat as Hlb by (unfold blks; rewrite length_header_blks; lia).
  assert (log_sector LOGHDR) as Hlh by (unfold log_sector, LOGHDR, DATASTART, LOGSTART, LOGN; lia).
  destruct (decide (k ≤ length ws)%nat) as [Hk|Hk].
  - rewrite take_app_le by done. unfold recoverable. rewrite (played_log _ total ws) by done.
    rewrite (proj2 (Z.eqb_neq _ _)) by done. split.
    + destruct (decide (0 ∈ (take k ws).*1)) as [Hin|Hout]; [|by rewrite played_other].
      apply Hsup. eapply elem_of_submseteq; [|apply sublist_submseteq, sublist_take]. by apply played_in.
    + by rewrite (played_log _ total ws).
    + by rewrite (played_log _ total ws).
    + rewrite (played_log _ total ws) by done. fold blks. by rewrite (installs_again _ total).
    + exists es. rewrite (played_log _ total ws) by done. fold blks. rewrite (installs_again _ total) by done. fold ws.
      eapply layout_ext; [|done]. intros b _. by rewrite played_prefix.
  - rewrite take_ge by (rewrite length_app; simpl; lia). apply (clean_recoverable (played d ws) _ _ es); [done| |].
    + intros b Hb. rewrite played_app. change (played ?x [(LOGHDR, header 0 [])]) with (put_sector x LOGHDR (header 0 [])).
      rewrite put_sector_ne; [done|]. intros ->. done.
    + rewrite played_last. apply header_committed. lia.
Qed.

(** Recovery may itself be interrupted anywhere, and it ends with a clean disk. *)
Lemma recoverable_prefix d total files k :
  recoverable d total files → recoverable (played d (take k (recovery d))) total files.
Proof.
  intros Hr. unfold recoverable in Hr. destruct (Z.eqb_spec (lh_committed (d LOGHDR)) 0) as [E|E].
  - unfold recovery. rewrite E, Z.eqb_refl, take_nil. change (played d []) with d.
    unfold recoverable. by rewrite E.
  - by apply recovery_prefix.
Qed.

Lemma recovery_clean d : lh_committed (played d (recovery d) LOGHDR) = 0.
Proof.
  unfold recovery. destruct (Z.eqb_spec (lh_committed (d LOGHDR)) 0) as [E|E]; [done|].
  rewrite played_last. apply header_committed. lia.
Qed.

Lemma recovered d total files :
  recoverable d total files → ∃ es, layout (played d (recovery d)) total es files.
Proof.
  intros Hr%(recoverable_prefix _ _ _ (length (recovery d))). rewrite firstn_all in Hr.
  unfold recoverable in Hr. by rewrite recovery_clean in Hr.
Qed.

Lemma recoverable_super d total files : recoverable d total files → super_ok (d 0) total.
Proof.
  unfold recoverable. destruct (_ =? 0).
  - intros [es Hla]. apply Hla.
  - by intros [].
Qed.

Lemma recoverable_bound d total files : recoverable d total files → DATASTART ≤ total ≤ MAXBLK.
Proof. intros [es Hla]%recovered. apply Hla. Qed.

Lemma log_writes_fst es b :
  (length es ≤ Z.to_nat LOGN)%nat → b ∈ (log_writes es).*1 → LOGSTART ≤ b < DATASTART.
Proof.
  intros Hl. unfold log_writes. rewrite fmap_imap. intros (i & x & -> & Hi)%elem_of_lookup_imap_1.
  apply lookup_lt_Some in Hi. change (Z.to_nat LOGN) with 16%nat in Hl.
  simpl. unfold LOGSTART, DATASTART, LOGSTART, LOGN. lia.
Qed.

Lemma played_lookup d ws i b x :
  NoDup ws.*1 → ws !! i = Some (b, x) → played d ws b = x.
Proof.
  revert d i. induction ws as [|[b' x'] ws IH]; intros d i Hnd Hi; [done|].
  cbn [fmap list_fmap fst] in Hnd. apply NoDup_cons in Hnd as [Hout Hnd].
  change (played d ((b', x') :: ws)) with (played (put_sector d b' x') ws).
  destruct i as [|i]; cbn [lookup list_lookup] in Hi.
  - injection Hi as -> ->. by rewrite played_other, put_sector_eq.
  - by apply (IH _ i).
Qed.

Lemma log_writes_nodup es : NoDup (log_writes es).*1.
Proof.
  unfold log_writes. rewrite fmap_imap. apply NoDup_alt. intros i j b.
  rewrite !list_lookup_imap. destruct (es !! i), (es !! j); simpl; try done.
  intros E1 E2. apply (inj Some) in E1, E2. lia.
Qed.

(** After the commit point the log holds what is to be installed. *)
Lemma installs_logged d ws h :
  (length ws ≤ Z.to_nat LOGN)%nat → installs (played d (log_writes ws ++ [(LOGHDR, h)])) ws.*1 = ws.
Proof.
  intros Hlen. apply list_eq. intros i. unfold installs. rewrite list_lookup_imap, list_lookup_fmap.
  destruct (ws !! i) as [[b x]|] eqn:Ei; [|done]. cbn. do 2 f_equal. rewrite played_app, played_other.
  2: { intros Hin%list_elem_of_singleton. apply lookup_lt_Some in Ei. unfold LOGSTART, LOGHDR in *. simpl in Hin. lia. }
  apply (played_lookup _ _ i); [apply log_writes_nodup|]. unfold log_writes. by rewrite list_lookup_imap, Ei.
Qed.

(** Every prefix of a transaction is recoverable: to the files before until the
    header is written, to the files after from then on; and the whole of it
    leaves a clean disk with the files after. *)
Lemma transaction_recoverable d total es files es' ws files' k :
  lh_committed (d LOGHDR) = 0 → layout d total es files →
  (length ws ≤ Z.to_nat LOGN)%nat → Forall (target_ok total) ws.*1 →
  (∀ x, (0, x) ∈ ws → super_ok x total) → layout (played d ws) total es' files' →
  recoverable (played d (take k (transaction ws))) total (if (k <=? length ws)%nat then files else files').
Proof.
  intros Hc Hla Hlen Ht Hsup Hla'.
  assert (length (log_writes ws) = length ws) as Hll by (unfold log_writes; by rewrite length_imap).
  assert (log_sector LOGHDR) as Hlh by (unfold log_sector, LOGHDR, DATASTART, LOGSTART, LOGN; lia).
  destruct (Nat.leb_spec k (length ws)) as [Hk|Hk].
  { unfold transaction. rewrite take_app_le by lia.
    assert (∀ b, b ∈ (take k (log_writes ws)).*1 → LOGSTART ≤ b < DATASTART) as Hin.
    { intros b Hb. apply (log_writes_fst ws); [done|]. rewrite <- (take_drop k (log_writes ws)), fmap_app.
      apply elem_of_app. by left. }
    apply (clean_recoverable d _ _ es); [done| |].
    - intros b Hb. symmetry. apply played_other. intros Hbb%Hin. apply Hb. unfold log_sector, LOGHDR, LOGSTART in *. lia.
    - rewrite played_other; [done|]. intros Hbb%Hin. unfold LOGHDR, LOGSTART in *. lia. }
  (* the disk right after the commit point *)
  set (d1 := played d (log_writes ws ++ [(LOGHDR, header 1 ws.*1)])).
  assert (length ws.*1 ≤ Z.to_nat LOGN)%nat as Hlen1 by (by rewrite length_fmap).
  assert (u32_list ws.*1) as Hu by (eapply targets_words; [done|apply Hla]).
  assert (d1 LOGHDR = header 1 ws.*1) as Eh by apply played_last.
  assert (agree d d1) as Hag.
  { intros b Hb. symmetry. apply played_other. rewrite fmap_app. intros [Hin|Hin]%elem_of_app.
    - apply log_writes_fst in Hin; [|done]. apply Hb. unfold log_sector, LOGHDR, LOGSTART in *. lia.
    - apply list_elem_of_singleton in Hin as ->. done. }
  assert (header_blks (d1 LOGHDR) = ws.*1) as Ehb by (rewrite Eh; apply header_blks_eq; done).
  assert (installs d1 (header_blks (d1 LOGHDR)) = ws) as Ein.
  { rewrite Ehb. by apply installs_logged. }
  assert (lh_committed (d1 LOGHDR) = 1) as Ec by (rewrite Eh; by apply header_committed).
  assert (committed d1 total files') as Hco.
  { split.
    - rewrite <- (Hag 0) by (unfold log_sector, LOGHDR; lia). apply Hla.
    - rewrite Eh, header_n; [unfold LOGN in *; lia|done].
    - by rewrite Ehb.
    - by rewrite Ein.
    - exists es'. rewrite Ein. eapply layout_ext; [|done]. intros b Hb. apply played_indep. right. by apply Hag. }
  assert (transaction ws = (log_writes ws ++ [(LOGHDR, header 1 ws.*1)]) ++ recovery d1) as Etr.
  { unfold recovery. rewrite Ec, Ein. unfold transaction. cbn. by rewrite <- app_assoc. }
  rewrite Etr, take_app_ge by (rewrite length_app, Hll; simpl; lia). rewrite played_app. fold d1.
  apply recovery_prefix; [by rewrite Ec|done].
Qed.

(** What a finished transaction leaves behind. *)
Lemma transaction_done d total es' ws files' :
  (length ws ≤ Z.to_nat LOGN)%nat → Forall (target_ok total) ws.*1 → layout (played d ws) total es' files' →
  lh_committed (played d (transaction ws) LOGHDR) = 0 ∧ layout (played d (transaction ws)) total es' files' ∧
  agree (played d (transaction ws)) (played d ws).
Proof.
  intros Hl Ht Hla. assert (agree (played d (transaction ws)) (played d ws)) as Hag.
  { intros b Hb. unfold transaction. rewrite !played_app. rewrite played_other.
    - apply played_indep. right. rewrite !played_other; [done| |].
      + intros Hin%log_writes_fst; [|done]. apply Hb. unfold log_sector, LOGHDR, LOGSTART in *. lia.
      + intros Hin%list_elem_of_singleton. simpl in Hin. subst b. apply Hb. unfold log_sector, LOGHDR, DATASTART, LOGSTART, LOGN. lia.
    - intros Hin%list_elem_of_singleton. simpl in Hin. subst b. apply Hb. unfold log_sector, LOGHDR, DATASTART, LOGSTART, LOGN. lia. }
  split_and!; [| |done].
  - unfold transaction. rewrite !app_assoc, played_last. apply header_committed. lia.
  - eapply layout_ext; [|done]. intros b Hb. symmetry. by apply Hag.
Qed.

(** ** The directory and the superblock, written *)

Lemma dirent_at_wf i b : is_sector b → (i < Z.to_nat MAXFILES)%nat → dirent_wf (dirent_at i b).
Proof.
  intros [Hl Hb] Hi. change (Z.to_nat BSIZE) with 512%nat in Hl. change (Z.to_nat MAXFILES) with 8%nat in Hi.
  unfold dirent_wf, dirent_at. cbn [d_name d_size d_start]. split; [|split; by apply word_at_bound].
  change (Z.to_nat NAMELEN) with 56%nat. split; [|by apply Forall_take, Forall_drop]. apply length_slice. lia.
Qed.

Definition dir_wf (es : list dirent) : Prop := length es = Z.to_nat MAXFILES ∧ Forall dirent_wf es.

Lemma layout_dir_wf d total es files : is_sector (d DIRBLOCK) → layout d total es files → dir_wf es.
Proof.
  intros Hd []. split; [by rewrite la_dir0, length_fmap, length_seq|]. rewrite la_dir0.
  apply Forall_fmap, Forall_seq. intros i Hi. apply dirent_at_wf; [done|lia].
Qed.

Lemma dir_sector es : dir_wf es → is_sector (dir_bytes es).
Proof.
  intros [Hl He]. split; [by rewrite length_dir_bytes, Hl|]. clear Hl. induction He as [|e es [[_ He] _] _ IH]; [constructor|].
  change (dir_bytes (e :: es)) with (dirent_bytes e ++ dir_bytes es). apply Forall_app. split; [|done].
  apply Forall_app. split; [done|]. apply Forall_app. split; apply word_byte.
Qed.

Lemma super_sector nf nextf total : is_sector (padded (super_bytes nf nextf total)).
Proof.
  apply padded_sector; unfold super_bytes.
  - rewrite !length_app, !length_word. vm_compute. lia.
  - rewrite !Forall_app. split_and!; apply word_byte.
Qed.

Lemma super_bytes_ok nf nextf total :
  0 ≤ nf < 2 ^ 32 → DATASTART ≤ total ≤ MAXBLK →
  super_ok (padded (super_bytes nf nextf total)) total ∧ sb_nfiles (padded (super_bytes nf nextf total)) = nf.
Proof.
  intros Hnf Ht. unfold padded, super_bytes. set (z := replicate _ 0). rewrite <- !app_assoc. split; [split|].
  - by apply (word_at_mid 0 []).
  - unfold sb_total. rewrite (app_assoc (word FS_MAGIC)), (app_assoc (word FS_MAGIC ++ _)).
    rewrite (word_at_mid 12) by (rewrite ?length_app, ?length_word; unfold MAXBLK, DATASTART, LOGSTART, LOGN in *; lia).
    unfold clamp_total. rewrite (proj2 (Z.eqb_neq _ _)), (proj2 (Z.ltb_ge _ _)) by (unfold DATASTART, LOGSTART, LOGN in *; lia).
    done.
  - by apply (word_at_mid 4 (word FS_MAGIC)); [apply length_word|].
Qed.

Definition meta_writes (es : list dirent) (nf nextf total : Z) : list (Z * list Z) :=
  [(DIRBLOCK, dir_bytes es); (0, padded (super_bytes nf nextf total))].

Lemma meta_other d es nf nextf total b : DATASTART ≤ b → played d (meta_writes es nf nextf total) b = d b.
Proof.
  intros Hb. apply played_other. cbn. rewrite !not_elem_of_cons.
  unfold DATASTART, LOGSTART, LOGN, DIRBLOCK in *. split_and!; try lia. apply not_elem_of_nil.
Qed.

Lemma extents_elem es b : b ∈ extents es ↔ ∃ e, e ∈ es ∧ b ∈ extent e.
Proof. unfold extents. rewrite list_elem_of_bind. naive_solver. Qed.

Lemma layout_meta d total es files nextf :
  dir_wf es → DATASTART ≤ total ≤ MAXBLK → (length files ≤ Z.to_nat MAXFILES)%nat →
  Forall2 (entry_ok d total) (take (length files) es) files → NoDup (extents (take (length files) es)) →
  layout (played d (meta_writes es (Z.of_nat (length files)) nextf total)) total es files.
Proof.
  intros Hwf Ht Hn He Hnd. set (nf := Z.of_nat (length files)). set (d' := played _ _).
  assert (d' 0 = padded (super_bytes nf nextf total)) as E0 by reflexivity.
  assert (d' DIRBLOCK = dir_bytes es) as E1 by reflexivity.
  assert (0 ≤ nf < 2 ^ 32) as Hnf by (unfold nf; change (Z.to_nat MAXFILES) with 8%nat in Hn; lia).
  destruct (super_bytes_ok nf nextf total Hnf Ht) as [Hs Hf]. split; rewrite ?E0, ?E1; try done.
  - destruct Hwf as [Hl Hwf]. rewrite <- Hl. rewrite <- (dirents_at es []) at 1 by done. by rewrite app_nil_r.
  - eapply Forall2_impl; [exact He|]. intros e f Hef. apply (entry_ok_ext d); [|done].
    intros b Hb. symmetry. apply meta_other. destruct Hef. unfold extent in Hb. apply elem_of_seqZ in Hb. lia.
Qed.

(** ** The data of a file, written *)

Definition data_block (data : list Z) (b : nat) : list Z := padded (slice (512 * b) 512 data).
Definition data_writes (start : Z) (data : list Z) : list (Z * list Z) :=
  (λ b, (start + Z.of_nat b, data_block data b)) <$> seq 0 (Z.to_nat (nblk (Z.of_nat (length data)))).

Lemma nblk_bound n : 0 ≤ n → 0 ≤ nblk n ∧ n ≤ BSIZE * nblk n ∧ BSIZE * (nblk n - 1) < n ∨ n = 0 ∧ nblk n = 0.
Proof. intros. unfold nblk, BSIZE. Z.to_euclidean_division_equations. lia. Qed.

Lemma data_block_sector data b : Forall is_byte data → is_sector (data_block data b).
Proof.
  intros. apply padded_sector.
  - unfold slice. rewrite length_take. change (Z.to_nat BSIZE) with 512%nat. lia.
  - by apply Forall_take, Forall_drop.
Qed.

Lemma data_block_S data b : data_block data (S b) = data_block (drop 512 data) b.
Proof. unfold data_block, slice. rewrite drop_drop. do 4 f_equal. lia. Qed.

(** The blocks of the data, one after the other, begin with the data. *)
Lemma data_blocks_take data n :
  (length data ≤ 512 * n)%nat → take (length data) (seq 0 n ≫= data_block data) = data.
Proof.
  revert data. induction n as [|n IH]; intros data Hl.
  { destruct data; [done|simpl in Hl; lia]. }
  assert (seq 0 (S n) ≫= data_block data = data_block data 0 ++ (seq 0 n ≫= data_block (drop 512 data))) as ->.
  { rewrite <- cons_seq. change ((0%nat :: ?l) ≫= data_block data) with (data_block data 0 ++ (l ≫= data_block data)).
    f_equal. rewrite <- fmap_S_seq, list_fmap_bind. apply Forall_bind_ext, Forall_forall.
    intros b _. apply data_block_S. }
  assert (length (slice (512 * 0) 512 data) = 512 `min` length data)%nat as Hs.
  { unfold slice. rewrite length_take, length_drop. lia. }
  destruct (Nat.le_gt_cases (length data) 512) as [Hd|Hd].
  - unfold data_block at 1. unfold padded. rewrite <- !app_assoc, take_app_le by lia.
    unfold slice. rewrite (Nat.mul_0_r 512), drop_0. rewrite (take_ge data 512) by lia. by rewrite take_ge by lia.
  - assert (data_block data 0 = take 512 data) as ->.
    { unfold data_block, padded. rewrite Hs. change (Z.to_nat BSIZE) with 512%nat.
      replace (512 - 512 `min` length data)%nat with 0%nat by lia. simpl. by rewrite app_nil_r. }
    rewrite take_app_ge by (rewrite length_take; lia). transitivity (take 512 data ++ drop 512 data); [f_equal|apply take_drop].
    rewrite length_take. replace (length data - 512 `min` length data)%nat with (length (drop 512 data)) by (rewrite length_drop; lia).
    apply IH. rewrite length_drop. lia.
Qed.

Lemma data_writes_fst start data b :
  b ∈ (data_writes start data).*1 ↔ start ≤ b < start + nblk (Z.of_nat (length data)).
Proof.
  unfold data_writes. rewrite <- list_fmap_compose. rewrite list_elem_of_fmap. split.
  - intros (i & -> & Hi%elem_of_seq). simpl. lia.
  - intros Hb. exists (Z.to_nat (b - start)). simpl. split; [lia|]. apply elem_of_seq. lia.
Qed.

Lemma data_writes_nodup start data : NoDup (data_writes start data).*1.
Proof.
  unfold data_writes. rewrite <- list_fmap_compose. apply NoDup_fmap_2_strong; [|apply NoDup_seq].
  intros x y _ _. simpl. lia.
Qed.

Lemma data_writes_at d start data i :
  0 ≤ i < nblk (Z.of_nat (length data)) →
  played d (data_writes start data) (start + i) = data_block data (Z.to_nat i).
Proof.
  intros Hi. apply (played_lookup _ _ (Z.to_nat i)); [apply data_writes_nodup|].
  unfold data_writes. rewrite list_lookup_fmap, lookup_seq_lt by lia. cbn. f_equal. f_equal. lia.
Qed.

Lemma created_entry d total nm name pad start data :
  nm = name ++ 0 :: pad → Forall (λ c, c ≠ 0) name → DATASTART ≤ start →
  start + nblk (Z.of_nat (length data)) ≤ total →
  entry_ok (played d (data_writes start data)) total (Dirent nm (Z.of_nat (length data)) start) (name, data).
Proof.
  intros -> Hn Hs Ht. split; try done; [by eexists|]. unfold extent. cbn [d_size d_start fst snd].
  set (nb := nblk _) in *. rewrite <- (data_blocks_take data (Z.to_nat nb)) at 3.
  - f_equal. unfold seqZ. rewrite list_fmap_bind. apply Forall_bind_ext, Forall_forall.
    intros i Hi%elem_of_seq. cbn [compose]. rewrite (Z.add_comm (Z.of_nat i)), data_writes_at by (fold nb; lia).
    by rewrite Nat2Z.id.
  - pose proof (nblk_bound (Z.of_nat (length data))) as Hb. fold nb in Hb. unfold BSIZE in Hb. lia.
Qed.

(** The writes of [fs_create]. *)
Definition create_writes (es : list dirent) (n : nat) (e : dirent) (nextf total : Z) (data : list Z) : list (Z * list Z) :=
  data_writes (d_start e) data ++ meta_writes (<[n := e]> es) (Z.of_nat (S n)) nextf total.

Lemma take_insert_snoc {A} (l : list A) n x :
  (n < length l)%nat → take (S n) (<[n := x]> l) = take n l ++ [x].
Proof.
  intros Hn. rewrite (take_S_r _ _ x) by (by apply list_lookup_insert_eq).
  by rewrite take_insert_ge by lia.
Qed.

Lemma extents_app es es' : extents (es ++ es') = extents es ++ extents es'.
Proof. apply bind_app. Qed.

Lemma layout_create d total es files e name data pad nextf :
  layout d total es files → dir_wf es → dirent_wf e → (length files < Z.to_nat MAXFILES)%nat →
  d_name e = name ++ 0 :: pad → Forall (λ c, c ≠ 0) name → d_size e = Z.of_nat (length data) →
  DATASTART ≤ d_start e → d_start e + nblk (d_size e) ≤ total →
  (∀ b, b ∈ extents (take (length files) es) → b ∉ extent e) →
  layout (played d (create_writes es (length files) e nextf total data)) total
    (<[length files := e]> es) (files ++ [(name, data)]).
Proof.
  intros Hla [Hl8 Hwf] He Hn Hname Hnm Hsz Hst Hend Hdis. destruct Hla. unfold create_writes. rewrite played_app.
  replace (S (length files)) with (length (files ++ [(name, data)])) by (rewrite length_app; simpl; lia).
  assert (take (length (files ++ [(name, data)])) (<[length files := e]> es) = take (length files) es ++ [e]) as Etake.
  { rewrite length_app, Nat.add_1_r. apply take_insert_snoc. lia. }
  apply layout_meta; rewrite ?Etake.
  - split; [by rewrite length_insert|]. by apply Forall_insert.
  - done.
  - rewrite length_app. simpl. lia.
  - apply Forall2_app.
    + eapply Forall2_in; [exact la_entries0|]. intros e0 f He0 Hef. apply (entry_ok_ext d); [|done].
      intros b Hb. symmetry. apply played_other. rewrite data_writes_fst, <- Hsz. intros Hin.
      apply (Hdis b); [apply extents_elem; eauto|]. apply elem_of_seqZ. done.
    + constructor; [|constructor]. rewrite Hsz in Hend. pose proof (created_entry d total (d_name e) name pad (d_start e) data) as Hc.
      rewrite <- Hsz in Hc at 2. destruct e. apply Hc; done.
  - rewrite extents_app. apply NoDup_app. split; [done|]. split.
    + intros b Hb. change (extents [e]) with (extent e ++ []). rewrite app_nil_r. by apply Hdis.
    + change (extents [e]) with (extent e ++ []). rewrite app_nil_r. apply NoDup_seqZ.
Qed.

(** ** Removing an entry *)

Definition no_entry : dirent := Dirent (replicate (Z.to_nat NAMELEN) 0) 0 0.
Definition removed (es : list dirent) (n idx : nat) : list dirent :=
  delete idx (take n es) ++ [no_entry] ++ drop n es.

Lemma Forall2_delete {A B} (P : A → B → Prop) l k i : Forall2 P l k → Forall2 P (delete i l) (delete i k).
Proof.
  intros Hl. revert i. induction Hl as [|x y l k Hp Hl IH]; intros [|i]; simpl; [by constructor..|done|].
  constructor; [done|]. apply IH.
Qed.

Lemma length_removed es n idx : (idx < n ≤ length es)%nat → length (removed es n idx) = length es.
Proof.
  intros Hi. unfold removed. rewrite !length_app, length_delete; rewrite ?length_take, ?length_drop; simpl; [lia|].
  apply lookup_lt_is_Some. rewrite length_take. lia.
Qed.

Lemma take_removed es n idx :
  (idx < n ≤ length es)%nat → take (n - 1) (removed es n idx) = delete idx (take n es).
Proof.
  intros Hi. unfold removed. rewrite take_app_le.
  - apply take_ge. rewrite length_delete; rewrite ?length_take; [lia|]. apply lookup_lt_is_Some. rewrite length_take. lia.
  - rewrite length_delete; rewrite ?length_take; [lia|]. apply lookup_lt_is_Some. rewrite length_take. lia.
Qed.

Lemma Forall_delete {A} (P : A → Prop) l i : Forall P l → Forall P (delete i l).
Proof.
  intros Hl. revert i. induction Hl as [|x l Hx Hl IH]; intros [|i]; simpl; [by constructor..|done|].
  constructor; [done|apply IH].
Qed.

Lemma removed_wf es n idx : dir_wf es → (idx < n ≤ length es)%nat → dir_wf (removed es n idx).
Proof.
  intros [Hl Hwf] Hi. split; [by rewrite length_removed|]. unfold removed. rewrite !Forall_app. split_and!.
  - by apply Forall_delete, Forall_take.
  - constructor; [|constructor]. split; [split; [done|]|simpl; lia]. apply Forall_replicate. unfold is_byte. lia.
  - by apply Forall_drop.
Qed.

Lemma layout_delete d total es files idx nextf :
  layout d total es files → dir_wf es → (idx < length files)%nat →
  layout (played d (meta_writes (removed es (length files) idx) (Z.of_nat (length files - 1)) nextf total)) total
    (removed es (length files) idx) (delete idx files).
Proof.
  intros Hla Hwf Hi. destruct Hla. pose proof Hwf as [Hl8 _].
  assert (length (delete idx files) = length files - 1)%nat as Hlen.
  { rewrite length_delete; [done|]. by apply lookup_lt_is_Some. }
  rewrite <- Hlen.
  assert (take (length (delete idx files)) (removed es (length files) idx) = delete idx (take (length files) es)) as Et.
  { rewrite Hlen. apply take_removed. lia. }
  apply layout_meta; rewrite ?Et; try done.
  - apply removed_wf; [done|lia].
  - lia.
  - by apply Forall2_delete.
  - eapply sublist_NoDup; [exact la_disjoint0|]. apply bind_sublist, sublist_delete.
Qed.
