(* ===== verification/FsOps.v ===== *)
(** * The file system mounted: logging, mounting and reading (src/fs.c)

    Rules for the disk requests and the log, the representation [fs_rep] of a
    mounted file system, and what [fs_init], [fs_read], [fs_read_page],
    [fs_stat], [fs_ls] and [fs_cat] do. *)
From S2P Require Import Prelude Spinlock Uart Disk Fs FsLayout.

(** ** Specifications *)

(** The statics before and after any call. *)
Definition statics_ok (m : fsmem) : Prop := is_sector (fsbuf m) ∧ length (log_blk m) = Z.to_nat LOGN.

(** The statics that say which files there are. *)
Definition core (m : fsmem) := (dir m, nfiles m, mounted m, next_free m, total_blocks m, used m).

Record mem_rep (m : fsmem) (total : Z) (es : list dirent) (files : list file) : Prop := {
  mr_mounted : mounted m = true;
  mr_dir : dir m = es;
  mr_nfiles : nfiles m = Z.of_nat (length files);
  mr_total : total_blocks m = total;
  mr_used : ∀ b, 0 ≤ b < MAXBLK → used_at (used m) b ≠ 0 ↔ b < DATASTART ∨ b ∈ extents (take (length files) es);
}.

(** The files a name refers to: the first with that name. *)
Fixpoint lookup_file (name : list Z) (files : list file) : option nat :=
  match files with
  | [] => None
  | f :: files => if bool_decide (f.1 = name) then Some O else S <$> lookup_file name files
  end.

(** A character string argument: no NUL inside. *)
Definition c_chars (l : list Z) : Prop := Forall (λ c, c ≠ 0 ∧ is_byte c) l.

(** Sets the bytes of the bitmap of the blocks in [l]. *)
Definition paint (v : Z) (u : gmap Z Z) (l : list Z) : gmap Z Z := fold_left (λ u b, <[b := v]> u) l u.

Definition free_run (u : gmap Z Z) (total n s : Z) : Prop :=
  DATASTART ≤ s ∧ s + n ≤ total ∧ ∀ b, s ≤ b < s + n → used_at u b = 0.

(** A mounted file system with the directory [es] and the files [files]. *)
Record fs_rep `{BlockDevLaws D} (s : fs D) (total : Z) (es : list dirent) (files : list file) : Prop := {
  rep_ready : disk_ready (low s);
  rep_capacity : total ≤ capacity (low s);
  rep_statics : statics_ok (fm s);
  rep_clean : lh_committed (content (low s) LOGHDR) = 0;
  rep_layout : layout (content (low s)) total es files;
  rep_mem : mem_rep (fm s) total es files;
}.

(** The kernel after power-up on a disk in some state: nothing is mounted. *)
Record powered_up `{BlockDevLaws D} (s : fs D) (total : Z) (d : sectors) : Prop := {
  pu_ready : disk_ready (low s);
  pu_capacity : total ≤ capacity (low s);
  pu_statics : statics_ok (fm s);
  pu_content b : content (low s) b = d b;
}.

(** ** The bitmap *)

Lemma used_paint v u l b : used_at (paint v u l) b = if bool_decide (b ∈ l) then v else used_at u b.
Proof.
  revert u. induction l as [|c l IH]; intros u.
  { by rewrite bool_decide_eq_false_2 by apply not_elem_of_nil. }
  change (paint v u (c :: l)) with (paint v (<[c := v]> u) l). rewrite IH. unfold used_at.
  destruct (decide (b ∈ l)) as [Hl|Hl].
  - by rewrite !bool_decide_eq_true_2 by (rewrite ?elem_of_cons; auto).
  - rewrite (bool_decide_eq_false_2 (b ∈ l)) by done. destruct (decide (b = c)) as [->|Hne].
    + rewrite bool_decide_eq_true_2 by left. by rewrite lookup_insert_eq.
    + rewrite bool_decide_eq_false_2 by (rewrite elem_of_cons; naive_solver). by rewrite lookup_insert_ne.
Qed.

Lemma paint_app v u l k : paint v u (l ++ k) = paint v (paint v u l) k.
Proof. apply fold_left_app. Qed.

Lemma run_free_spec n b u : run_free n b u = true ↔ ∀ c, b ≤ c < b + Z.of_nat n → used_at u c = 0.
Proof.
  revert b. induction n as [|n IH]; intros b; cbn [run_free].
  - split; [lia|done].
  - destruct (Z.eqb_spec (used_at u b) 0) as [E|E].
    + rewrite IH. split.
      * intros H c Hc. destruct (decide (c = b)) as [->|]; [done|]. apply H. lia.
      * intros H c Hc. apply H. lia.
    + split; [done|]. intros H. destruct E. apply H. lia.
Qed.

(** ** Names *)

Lemma streq_names n pad name :
  Forall (λ c, c ≠ 0) n → Forall (λ c, c ≠ 0) name →
  streq (n ++ 0 :: pad) (name ++ [0]) = Some (bool_decide (n = name)).
Proof.
  intros Hn. revert name. induction Hn as [|x n Hx _ IH]; intros name Hname.
  - destruct Hname as [|y name Hy _]; [done|].
    rewrite bool_decide_eq_false_2 by done. cbn. by destruct y.
  - cbn. rewrite (proj2 (Z.eqb_neq x 0)) by done. destruct Hname as [|y name Hy Hname]; cbn.
    + rewrite (proj2 (Z.eqb_neq x 0)) by done. by rewrite bool_decide_eq_false_2.
    + rewrite (proj2 (Z.eqb_neq y 0)) by done. cbn. destruct (Z.eqb_spec x y) as [->|Hne].
      * rewrite IH by done. f_equal. apply bool_decide_ext. naive_solver.
      * rewrite bool_decide_eq_false_2; [done|]. naive_solver.
Qed.

Lemma c_chars_nonzero l : c_chars l → Forall (λ c, c ≠ 0) l.
Proof. intros H. eapply Forall_impl; [exact H|]. by intros c []. Qed.

Lemma lookup_file_spec name files i :
  lookup_file name files = Some i → ∃ f, files !! i = Some f ∧ f.1 = name ∧
    ∀ j g, (j < i)%nat → files !! j = Some g → g.1 ≠ name.
Proof.
  revert i. induction files as [|f files IH]; intros i Hi; [done|]. cbn in Hi.
  destruct (bool_decide (f.1 = name)) eqn:E.
  - apply (inj Some) in Hi as <-. exists f. split; [done|]. split; [by apply bool_decide_eq_true in E|]. intros; lia.
  - destruct (lookup_file name files) as [k|]; [|done]. apply (inj Some) in Hi as <-.
    destruct (IH k eq_refl) as (g & Hg & Hn & Hlt). exists g. split; [done|]. split; [done|].
    intros [|j] h Hj Hh; cbn in Hh; [|by apply (Hlt j); [lia|]]. apply (inj Some) in Hh as <-.
    by apply bool_decide_eq_false in E.
Qed.

Lemma loghdr_blk_eq k blks :
  (k ≤ length blks)%nat → (k ≤ Z.to_nat LOGN)%nat →
  loghdr_blk (Z.of_nat k) blks = Some (take k blks ++ replicate (Z.to_nat LOGN - k) 0).
Proof.
  intros Hk Hl. unfold loghdr_blk. change (Z.to_nat LOGN) with 16%nat in *. rewrite i32_small by lia.
  apply mapM_Some_2. apply Forall2_same_length_lookup_2.
  { rewrite length_seq, length_app, length_take, length_replicate. lia. }
  intros i x y Hi Hy. apply lookup_seq in Hi as [-> Hi]. rewrite Nat.add_0_l.
  destruct (Z.ltb_spec (Z.of_nat i) (Z.of_nat k)) as [H1|H1].
  - rewrite lookup_app_l in Hy by (rewrite length_take; lia). by rewrite lookup_take_lt in Hy by lia.
  - rewrite lookup_app_r in Hy by (rewrite length_take; lia).
    apply lookup_replicate in Hy as [-> _]. done.
Qed.

(** ** Rules for the disk requests *)

Section rules.
Context {D : Type} `{HasDevLaws D, !BlockDev D, !BlockDevLaws D}.
Implicit Types s t : fs D.

Lemma content_sector (d : D) b : disk_good d → is_sector (content d b).
Proof. apply disk_sector. Qed.

Lemma wp_on_mem f (Q : unit → fs D → Prop) s : Q tt (FsOn (f (fm s)) (low s)) → wp (on_mem f) Q s.
Proof. done. Qed.
Lemma wp_mem_get {A} (f : fsmem → A) (Q : A → fs D → Prop) s : Q (f (fm s)) s → wp (mem_get f) Q s.
Proof. done. Qed.

Lemma wp_read b (Q : Z → fs D → Prop) s :
  disk_ready (low s) → 0 ≤ b < capacity (low s) → is_sector (fsbuf (fm s)) →
  (∀ d', dstep [] [] (low s) d' → Q 0 (FsOn (set_fsbuf (content (low s) b) (fm s)) d')) →
  wp (disk_rw b false) Q s.
Proof.
  intros [Hg Hr] Hb [Hl _] HQ. unfold disk_rw. wp_step. apply wp_mem_get. wp_step. apply wp_zoom.
  apply disk_read; [done|done|done|]. intros d' Hg' Hc Ho Hh Hd. wp_steps. apply wp_on_mem. wp_steps.
  apply (HQ d'). split; rewrite ?app_nil_r, ?Hd; done.
Qed.

Lemma wp_write b (Q : Z → fs D → Prop) s :
  disk_ready (low s) → 0 ≤ b < capacity (low s) → is_sector (fsbuf (fm s)) →
  (∀ d', dstep [(b, fsbuf (fm s))] [] (low s) d' → Q 0 (FsOn (fm s) d')) →
  wp (disk_rw b true) Q s.
Proof.
  intros [Hg Hr] Hb Hl HQ. unfold disk_rw. wp_step. apply wp_mem_get. wp_step. apply wp_zoom.
  apply disk_write; [done|done|done|]. intros d' Hg' Hc Ho Hh Hd. wp_steps. apply wp_on_mem. wp_steps.
  destruct (fm s) eqn:E. apply (HQ d'). split; rewrite ?app_nil_r, ?Hd; done.
Qed.

Lemma wp_write_loghdr c k blks (Q : unit → fs D → Prop) s :
  disk_ready (low s) → DATASTART ≤ capacity (low s) → 0 ≤ c < 2 ^ 32 →
  (k ≤ length blks)%nat → (k ≤ Z.to_nat LOGN)%nat →
  (∀ d', dstep [(LOGHDR, header c (take k blks))] [] (low s) d' →
     Q tt (FsOn (set_fsbuf (header c (take k blks)) (fm s)) d')) →
  wp (write_loghdr c (Z.of_nat k) blks) Q s.
Proof.
  intros Hd Hcap Hc Hk Hn HQ. unfold write_loghdr. wp_step. eapply wp_of_option; [by apply loghdr_blk_eq|].
  assert (length (take k blks) = k) as Hlk by (rewrite length_take; lia).
  assert (padded (loghdr_bytes c (Z.of_nat k) (take k blks ++ replicate (Z.to_nat LOGN - k) 0)) = header c (take k blks)) as ->.
  { unfold header. by rewrite Hlk. }
  wp_step. apply wp_on_mem. wp_step. apply wp_write; [done|unfold LOGHDR, DATASTART, LOGSTART, LOGN in *; simpl; lia| |].
  - apply header_sector. by rewrite Hlk.
  - intros d' Hd'. wp_steps. by apply HQ.
Qed.

Lemma wp_log_install total k all (Q : unit → fs D → Prop) s :
  disk_ready (low s) → DATASTART ≤ total ≤ capacity (low s) → is_sector (fsbuf (fm s)) →
  Forall (target_ok total) (take k all) → (k ≤ length all)%nat → (k ≤ Z.to_nat LOGN)%nat →
  (∀ x d', is_sector x → dstep (installs (content (low s)) (take k all)) [] (low s) d' →
     Q tt (FsOn (set_fsbuf x (fm s)) d')) →
  wp (log_install (Z.of_nat k) all) Q s.
Proof.
  intros Hd Ht Hbuf Hb Hk Hl HQ. unfold log_install. rewrite Nat2Z.id.
  set (blks := take k all) in *. assert (length blks = k) as Hbl by (unfold blks; rewrite length_take; lia).
  set (ws := installs (content (low s)) blks) in *.
  assert (Forall (target_ok total) ws.*1) as Hws by (unfold ws; by rewrite installs_fst).
  apply (wp_for_n (λ i t, ∃ x, is_sector x ∧ fm t = set_fsbuf x (fm s) ∧
    dstep (take (Z.to_nat i) ws) [] (low s) (low t))).
  - exists (fsbuf (fm s)). split_and!; [done|by destruct (fm s)|]. by apply dstep_refl.
  - intros i t Hi (x & Hx & Em & Hst). wp_step.
    assert (is_sector (fsbuf (fm t))) as Hbt by (by rewrite Em).
    assert (LOGSTART + i < DATASTART ∧ log_sector (LOGSTART + i)) as [Hlo Hls].
    { change (Z.to_nat LOGN) with 16%nat in Hl. unfold log_sector, LOGHDR, DATASTART, LOGSTART, LOGN. lia. }
    apply wp_read; [by eapply dstep_ready|rewrite (ds_capacity _ _ _ _ Hst); unfold LOGSTART in *; lia|done|].
    intros d' Hd'. wp_steps. destruct (lookup_lt_is_Some_2 blks (Z.to_nat i)) as [b Eb]; [lia|].
    eapply wp_of_option; [unfold blks in Eb; rewrite lookup_take_lt in Eb by lia; exact Eb|]. wp_steps.
    assert (target_ok total b) as Htb by (exact (Forall_lookup_1 _ _ _ _ Hb Eb)).
    assert (content (low t) (LOGSTART + i) = content (low s) (LOGSTART + i)) as Ec.
    { rewrite (dstep_content _ _ _ _ Hst). by eapply played_log. }
    apply wp_write; cbn [low fm].
    + by eapply dstep_ready.
    + rewrite (ds_capacity _ _ _ _ Hd'), (ds_capacity _ _ _ _ Hst). unfold target_ok in Htb. lia.
    + apply content_sector. by eapply dstep_ready.
    + intros d'' Hd''. wp_steps. eexists. split_and!; [|cbn [fm]; by rewrite Em|].
      * apply content_sector. by eapply dstep_ready.
      * pose proof (dstep_trans _ _ _ _ _ _ _ Hst (dstep_trans _ _ _ _ _ _ _ Hd' Hd'')) as Hall.
        cbn [low app] in *. replace (Z.to_nat (i + 1)) with (S (Z.to_nat i)) by lia.
        rewrite (take_S_r _ _ (b, content (low t) (LOGSTART + i))); [exact Hall|].
        unfold ws, installs. rewrite list_lookup_imap, Eb. cbn. do 2 f_equal.
        rewrite Ec. do 2 f_equal. lia.
  - intros t (x & Hx & Em & Hst). destruct t as [mt dt]. cbn in Em. subst mt. apply HQ; [done|].
    rewrite take_ge in Hst; [done|]. unfold ws, installs. rewrite length_imap. lia.
Qed.

(** ** Transactions *)

(** Between [log_begin] and [log_commit]: the writes [ws] are in the log. *)
Record logging (d0 : D) (ws : list (Z * list Z)) (s : fs D) : Prop := {
  lg_step : dstep (log_writes ws) [] d0 (low s);
  lg_n : log_n (fm s) = Z.of_nat (length ws);
  lg_blk : take (length ws) (log_blk (fm s)) = ws.*1;
  lg_over : log_overflow (fm s) = false;
  lg_ok : statics_ok (fm s);
}.

Lemma wp_log_begin (Q : unit → fs D → Prop) s :
  disk_ready (low s) → statics_ok (fm s) →
  (∀ s', logging (low s) [] s' → low s' = low s → core (fm s') = core (fm s) → Q tt s') → wp log_begin Q s.
Proof.
  intros Hd [Hb Hl] HQ. unfold log_begin. wp_step. apply wp_on_mem. apply wp_on_mem. apply HQ; [|done|done].
  split; try done. by apply dstep_refl.
Qed.

Lemma log_writes_app ws w :
  log_writes (ws ++ [w]) = log_writes ws ++ [(LOGSTART + Z.of_nat (length ws), w.2)].
Proof. unfold log_writes. rewrite imap_app. cbn. by rewrite Nat.add_0_r. Qed.

Lemma wp_log_write d0 ws dst data (Q : unit → fs D → Prop) s :
  logging d0 ws s → (length ws < Z.to_nat LOGN)%nat → DATASTART ≤ capacity d0 → is_sector data →
  (∀ s', logging d0 (ws ++ [(dst, data)]) s' → core (fm s') = core (fm s) → Q tt s') →
  wp (log_write dst data) Q s.
Proof.
  intros [Hst Hn Hblk Hov [Hb Hl]] Hlen Hcap Hdata HQ. unfold log_write. wp_step. apply wp_mem_get. rewrite Hn.
  change (Z.to_nat LOGN) with 16%nat in *. destruct (Z.leb_spec LOGN (Z.of_nat (length ws))); [unfold LOGN in *; lia|].
  wp_step. eapply wp_of_option.
  { pose proof (region_front data [] (Z.to_nat BSIZE)) as E. rewrite app_nil_r in E. apply E, Hdata. }
  wp_step. apply wp_on_mem. wp_step. apply wp_write; cbn [low fm].
  - by eapply dstep_ready.
  - rewrite (ds_capacity _ _ _ _ Hst). unfold LOGSTART, DATASTART, LOGSTART, LOGN in *. lia.
  - done.
  - intros d' Hd'. wp_step. apply wp_mem_get. wp_step. apply wp_assertb.
    { cbn [fm log_blk set_fsbuf]. rewrite Hl. bsimp; lia. }
    wp_step. apply wp_on_mem. apply wp_on_mem. apply HQ; [|done]. cbn.
    split; cbn; rewrite ?length_app, ?length_insert; try done.
    + rewrite log_writes_app. apply (dstep_trans _ _ [] [] _ _ _ Hst). exact Hd'.
    + simpl. lia.
    + rewrite Nat2Z.id, fmap_app, <- Hblk. cbn. rewrite Nat.add_1_r. apply take_insert_snoc. lia.
    + split; [done|]. cbn. by rewrite length_insert.
Qed.

Lemma wp_log_commit total d0 ws (Q : unit → fs D → Prop) s :
  logging d0 ws s → ws ≠ [] → (length ws ≤ Z.to_nat LOGN)%nat → DATASTART ≤ total ≤ capacity d0 →
  Forall (target_ok total) ws.*1 →
  (∀ s', dstep (transaction ws) [] d0 (low s') → core (fm s') = core (fm s) → statics_ok (fm s') → Q tt s') →
  wp log_commit Q s.
Proof.
  intros [Hst Hn Hblk Hov [Hb Hl]] Hne Hlen Hcap Ht HQ. unfold log_commit. wp_step. apply wp_mem_get. rewrite Hn.
  destruct (Z.eqb_spec (Z.of_nat (length ws)) 0) as [E|_]; [destruct ws; [done|simpl in E; lia]|].
  wp_step. apply wp_mem_get. rewrite Hov. wp_step. apply wp_mem_get.
  pose proof (ds_capacity _ _ _ _ Hst) as Ec.
  wp_step. apply wp_write_loghdr; [by eapply dstep_ready|lia|lia|by rewrite Hl|done|].
  intros d1 Hd1. rewrite Hblk in *. wp_step.
  assert (length ws.*1 = length ws) as Ef by apply length_fmap.
  pose proof (dstep_trans _ _ _ _ _ _ _ Hst Hd1) as H1. cbn [app] in H1.
  assert (installs (content d1) ws.*1 = ws) as Ei.
  { rewrite (dstep_content _ _ _ _ H1). by apply installs_logged. }
  apply (wp_log_install total); cbn [low fm log_blk set_fsbuf]; rewrite ?Hblk; try done.
  - by eapply dstep_ready.
  - rewrite (ds_capacity _ _ _ _ H1). lia.
  - apply header_sector. lia.
  - by rewrite Hl.
  - intros x d2 Hx Hd2. rewrite Ei in Hd2. wp_step. apply (wp_write_loghdr 0 0); cbn [low fm].
    + by eapply dstep_ready.
    + rewrite (ds_capacity _ _ _ _ Hd2), (ds_capacity _ _ _ _ H1). lia.
    + lia.
    + simpl. lia.
    + lia.
    + intros d3 Hd3. apply wp_on_mem. apply HQ; [|done|].
      * pose proof (dstep_trans _ _ _ _ _ _ _ H1 (dstep_trans _ _ _ _ _ _ _ Hd2 Hd3)) as Hall.
        cbn [low app] in *. unfold transaction. by rewrite <- app_assoc in Hall.
      * split; [|done]. apply header_sector. simpl. lia.
Qed.
(** ** Mounting *)

Lemma wp_fs_puts l (Q : unit → fs D → Prop) s :
  disk_ready (low s) → (∀ d', dstep [] (crlf l) (low s) d' → Q tt (FsOn (fm s) d')) → wp (uart_puts l) Q s.
Proof. intros Hd HQ. apply wp_puts; [apply Hd|]. apply (HQ (set_dev (said (crlf l) (dev_of (low s))) (low s))). by apply dstep_said. Qed.

Lemma wp_fs_line m (Q : unit → fs D → Prop) s :
  disk_ready (low s) → (∀ d', dstep [] (crlf (of_string m ++ [10])) (low s) d' → Q tt (FsOn (fm s) d')) →
  wp (uart_line m) Q s.
Proof. apply wp_fs_puts. Qed.

Lemma wp_fs_str m (Q : unit → fs D → Prop) s :
  disk_ready (low s) → (∀ d', dstep [] (crlf (of_string m)) (low s) d' → Q tt (FsOn (fm s) d')) →
  wp (uart_str m) Q s.
Proof. apply wp_fs_puts. Qed.

Lemma wp_fs_putc c (Q : unit → fs D → Prop) s :
  disk_ready (low s) → (∀ d', dstep [] [u8 c] (low s) d' → Q tt (FsOn (fm s) d')) → wp (uart_putc c) Q s.
Proof. intros Hd HQ. apply wp_putc; [apply Hd|]. apply (HQ (set_dev (said [u8 c] (dev_of (low s))) (low s))). by apply dstep_said. Qed.

Lemma wp_fs_dec n (Q : unit → fs D → Prop) s :
  0 ≤ n < 2 ^ 64 → disk_ready (low s) → (∀ d', dstep [] (dec_out n) (low s) d' → Q tt (FsOn (fm s) d')) →
  wp (uart_dec n) Q s.
Proof. intros Hn Hd HQ. apply wp_dec; [done|apply Hd|]. apply (HQ (set_dev (said (dec_out n) (dev_of (low s))) (low s))). by apply dstep_said. Qed.

Lemma wp_recover total files (Q : unit → fs D → Prop) s :
  disk_ready (low s) → is_sector (fsbuf (fm s)) → total ≤ capacity (low s) →
  recoverable (content (low s)) total files →
  (∀ x out d', is_sector x → dstep (recovery (content (low s))) out (low s) d' →
     Q tt (FsOn (set_fsbuf x (fm s)) d')) →
  wp recover Q s.
Proof.
  intros Hd Hb Hcap Hr HQ. pose proof (recoverable_bound _ _ _ Hr) as Ht. unfold recover. wp_step.
  apply wp_read; [done|unfold LOGHDR, DATASTART, LOGSTART, LOGN in *; lia|done|]. intros d1 Hd1. wp_step. apply wp_mem_get.
  cbn [fm fsbuf set_fsbuf]. set (h := content (low s) LOGHDR) in *. unfold recoverable in Hr. fold h in Hr.
  assert (is_sector h) as Hh by (apply content_sector, Hd).
  destruct (Z.eqb_spec (lh_committed h) 0) as [E|E].
  { wp_steps. apply (HQ _ []); [done|]. unfold recovery. fold h. by rewrite E. }
  destruct Hr as [_ Hn Htg _ _]. fold h in Hn, Htg.
  destruct (Z.ltb_spec LOGN (lh_n h)); [lia|]. change ((λ i, lh_blk i h) <$> seq 0 (Z.to_nat (lh_n h))) with (header_blks h).
  pose proof (length_header_blks h) as Hlh. wp_step.
  replace (lh_n h) with (Z.of_nat (Z.to_nat (lh_n h))) by lia.
  assert (take (Z.to_nat (lh_n h)) (header_blks h) = header_blks h) as Etk by (apply take_ge; lia).
  apply (wp_log_install total); cbn [low fm fsbuf set_fsbuf]; rewrite ?Etk; try done.
  - by eapply dstep_ready.
  - rewrite (ds_capacity _ _ _ _ Hd1). lia.
  - lia.
  - lia.
  - intros x d2 Hx Hd2. wp_step. apply (wp_write_loghdr 0 0); cbn [low fm].
    + by eapply dstep_ready.
    + rewrite (ds_capacity _ _ _ _ Hd2), (ds_capacity _ _ _ _ Hd1). lia.
    + lia.
    + simpl. lia.
    + lia.
    + intros d3 Hd3. apply wp_fs_line; cbn [low fm]; [by eapply dstep_ready|]. intros d4 Hd4.
      eapply HQ.
      2: { pose proof (dstep_trans _ _ _ _ _ _ _ Hd1 (dstep_trans _ _ _ _ _ _ _ Hd2 (dstep_trans _ _ _ _ _ _ _ Hd3 Hd4))) as Hall.
           cbn [low app] in *. unfold recovery. fold h. rewrite (proj2 (Z.eqb_neq _ _)) by done.
           rewrite (dstep_content _ _ _ _ Hd1) in Hall. cbn in Hall. exact Hall. }
      apply header_sector. simpl. lia.
Qed.

(** ** The bitmap *)

Definition with_used (u : gmap Z Z) (s : fs D) : fs D := FsOn (set_used u (fm s)) (low s).

Lemma with_used_with u v s : with_used u (with_used v s) = with_used u s.
Proof. done. Qed.

Lemma wp_put_used b v (Q : unit → fs D → Prop) s :
  0 ≤ b < MAXBLK → Q tt (with_used (<[b := v]> (used (fm s))) s) → wp (put_used b v) Q s.
Proof. intros Hb HQ. unfold put_used. wp_steps; [bsimp; lia|]. by apply wp_on_mem. Qed.

(** A loop that sets the byte of block [b0 + k] in round [k]. *)
Lemma wp_paint n v b0 body (Q : unit → fs D → Prop) s :
  0 ≤ n →
  (∀ k t R, 0 ≤ k < n → R tt (with_used (<[b0 + k := v]> (used (fm t))) t) → wp (body k) R t) →
  Q tt (with_used (paint v (used (fm s)) (seqZ b0 n)) s) →
  wp (for_n (Z.to_nat n) 0 body) Q s.
Proof.
  intros Hn Hbody HQ. apply (wp_for_n (λ k t, t = with_used (paint v (used (fm s)) (seqZ b0 k)) s)).
  - unfold with_used. cbn. by destruct s as [[] ?].
  - intros k t Hk ->. apply Hbody; [lia|]. rewrite with_used_with. f_equal.
    by rewrite seqZ_app, paint_app by lia.
  - intros t ->. by rewrite Z.add_0_l, Z2Nat.id by done.
Qed.

Lemma entry_blocks d total e f :
  entry_ok d total e f → total ≤ MAXBLK →
  blocks_of (d_size e) = nblk (d_size e) ∧ 0 ≤ nblk (d_size e) ∧ 0 ≤ d_size e < 2 ^ 22 + 1 ∧ d_start e ≤ MAXBLK.
Proof.
  intros [] Ht. pose proof (nblk_bound (d_size e)) as Hb. unfold MAXBLK, DATASTART, LOGSTART, LOGN, BSIZE in *.
  split_and!; try lia. unfold blocks_of. rewrite u32_small; [done|]. unfold BSIZE. lia.
Qed.

Lemma wp_dir_at e i (Q : dirent → fs D → Prop) s :
  0 ≤ i → dir (fm s) !! Z.to_nat i = Some e → Q e s → wp (dir_at i) Q s.
Proof.
  intros Hi He HQ. unfold dir_at. wp_step. apply wp_mem_get. rewrite (proj2 (Z.leb_le _ _)) by done.
  by eapply wp_of_option.
Qed.

Lemma wp_build_bitmap d total files (Q : unit → fs D → Prop) s :
  nfiles (fm s) = Z.of_nat (length files) → total ≤ MAXBLK →
  Forall2 (entry_ok d total) (take (length files) (dir (fm s))) files →
  (∀ u, (∀ b, 0 ≤ b → used_at u b ≠ 0 ↔ b < DATASTART ∨ b ∈ extents (take (length files) (dir (fm s)))) →
     Q tt (with_used u s)) →
  wp build_bitmap Q s.
Proof.
  intros Hn Ht He HQ. unfold build_bitmap. wp_step. apply wp_on_mem.
  do 3 (wp_step; apply wp_put_used; [unfold LOGHDR, DIRBLOCK, MAXBLK; lia|]). wp_step.
  apply (wp_paint LOGN 1 LOGSTART); [done| |].
  { intros k t R Hk HR. apply wp_put_used; [|done]. unfold LOGSTART, LOGN, MAXBLK in *. lia. }
  wp_step. apply wp_mem_get. cbn [fm nfiles set_used with_used low used].
  set (u0 := paint 1 _ (seqZ LOGSTART LOGN)).
  rewrite Hn, Nat2Z.id. set (es := take (length files) (dir (fm s))) in *.
  apply (wp_for_n (λ i t, t = with_used (paint 1 u0 (extents (take (Z.to_nat i) es))) s)).
  - done.
  - intros i t Hi ->. destruct (lookup_lt_is_Some_2 files (Z.to_nat i)) as [f Ef]; [lia|].
    destruct (Forall2_lookup_r _ _ _ _ _ He Ef) as (e & Ee & Hef).
    destruct (entry_blocks _ _ _ _ Hef Ht) as (Eb & Hb0 & Hsz & Hs).
    wp_step. apply (wp_dir_at e); [lia| |].
    { unfold es in Ee. rewrite lookup_take_lt in Ee by lia. done. }
    rewrite Eb. apply (wp_paint (nblk (d_size e)) 1 (d_start e)); [done| |].
    + intros k t R Hk HR. destruct Hef. unfold MAXBLK, DATASTART, LOGSTART, LOGN in *. rewrite u32_small by lia.
      destruct (Z.ltb_spec (d_start e + k) 8192); [|lia]. apply wp_put_used; [unfold MAXBLK; lia|done].
    + rewrite with_used_with. f_equal. replace (Z.to_nat (i + 1)) with (S (Z.to_nat i)) by lia.
      rewrite (take_S_r _ _ e) by done. unfold extents. rewrite bind_app, paint_app. cbn. by rewrite app_nil_r.
  - intros t ->. apply HQ. intros b Hb. rewrite Z.add_0_l, Nat2Z.id.
    rewrite take_ge by (unfold es; rewrite length_take; lia). rewrite used_paint.
    assert (used_at u0 b ≠ 0 ↔ b < DATASTART) as Hu0.
    { unfold u0. rewrite used_paint. unfold used_at. cbn [used set_used fm]. case_bool_decide as E.
      - apply elem_of_seqZ in E. unfold LOGSTART, DATASTART, LOGSTART, LOGN in *. split; [lia|done].
      - rewrite elem_of_seqZ in E. unfold LOGSTART, DATASTART, LOGSTART, LOGN, LOGHDR, DIRBLOCK in *.
        destruct (decide (b = 0)) as [->|]; [by rewrite lookup_insert_eq|]. rewrite lookup_insert_ne by done.
        destruct (decide (b = 1)) as [->|]; [by rewrite lookup_insert_eq|]. rewrite lookup_insert_ne by done.
        destruct (decide (b = 2)) as [->|]; [by rewrite lookup_insert_eq|]. rewrite lookup_insert_ne by done.
        rewrite lookup_empty. cbn. split; [done|lia]. }
    case_bool_decide as E.
    + split; [by right|done].
    + rewrite Hu0. naive_solver.
Qed.

(** ** Mounting, continued *)

Lemma wp_fs_init total files (Q : unit → fs D → Prop) s :
  disk_ready (low s) → total ≤ capacity (low s) → statics_ok (fm s) → recoverable (content (low s)) total files →
  (∀ s' es out, dstep (recovery (content (low s))) out (low s) (low s') → fs_rep s' total es files → Q tt s') →
  wp fs_init Q s.
Proof.
  intros Hd Hcap [Hb Hl] Hr HQ. pose proof (recoverable_bound _ _ _ Hr) as Ht.
  assert (0 < DATASTART) as Hds by (unfold DATASTART, LOGSTART, LOGN; lia).
  unfold fs_init. wp_step. apply wp_read; [done|lia|done|]. intros d1 Hd1. cbn [negb Z.eqb].
  wp_step. apply wp_mem_get. cbn [fm fsbuf set_fsbuf]. destruct (recoverable_super _ _ _ Hr) as [Em Et].
  rewrite Em, Z.eqb_refl. cbn [negb]. unfold clamp_total in Et. rewrite Et.
  wp_step. apply wp_on_mem. wp_step.
  pose proof (dstep_content _ _ _ _ Hd1) as E1. cbn in E1.
  apply (wp_recover total files); cbn [low fm fsbuf set_total set_fsbuf].
  { by eapply dstep_ready. }
  { apply content_sector, Hd. }
  { by rewrite (ds_capacity _ _ _ _ Hd1). }
  { by rewrite E1. }
  intros x out d2 Hx Hd2. rewrite E1 in Hd2. pose proof (dstep_trans _ _ _ _ _ _ _ Hd1 Hd2) as H2. cbn [app] in H2.
  wp_step. apply wp_read; cbn [low fm fsbuf set_fsbuf set_total]; [by eapply dstep_ready| |done|].
  { rewrite (ds_capacity _ _ _ _ H2). lia. }
  intros d3 Hd3. wp_step. apply wp_mem_get. cbn [fm fsbuf set_fsbuf].
  destruct (recovered _ _ _ Hr) as [es Hla]. pose proof (recovery_clean (content (low s))) as Hcl.
  rewrite <- (dstep_content _ _ _ _ H2) in Hla, Hcl. pose proof (la_nfiles _ _ _ _ Hla) as Hnf.
  pose proof (la_few _ _ _ _ Hla) as Hfew. change (Z.to_nat MAXFILES) with 8%nat in Hfew.
  rewrite Hnf. rewrite i32_small by lia. destruct (Z.ltb_spec MAXFILES (Z.of_nat (length files))); [unfold MAXFILES in *; lia|].
  do 2 (wp_step; apply wp_on_mem). wp_step. pose proof (dstep_trans _ _ _ _ _ _ _ H2 Hd3) as H3.
  rewrite !app_nil_r in H3. pose proof (dstep_content _ _ _ _ Hd3) as E3. cbn [low played fold_left] in E3.
  apply wp_read; cbn [low fm fsbuf set_fsbuf set_total set_next_free set_nfiles]; [by eapply dstep_ready| | |].
  { rewrite (ds_capacity _ _ _ _ H3). unfold DIRBLOCK, DATASTART, LOGSTART, LOGN in *. lia. }
  { apply content_sector. by eapply dstep_ready. }
  intros d4 Hd4. wp_step. apply wp_mem_get. wp_step. apply wp_on_mem. cbn [fm fsbuf set_fsbuf low]. wp_step.
  rewrite E3, <- (la_dir _ _ _ _ Hla). pose proof (dstep_trans _ _ _ _ _ _ _ H3 Hd4) as H4. rewrite !app_nil_r in H4.
  pose proof (dstep_content _ _ _ _ Hd4) as E4. cbn [low played fold_left] in E4.
  apply (wp_build_bitmap (content d2) total files); cbn [fm nfiles dir set_nfiles set_next_free set_fsbuf set_total set_dir].
  { done. }
  { lia. }
  { apply Hla. }
  intros u Hu. wp_step. apply wp_on_mem. wp_step. unfold with_used. cbn [low fm].
  apply wp_fs_str; cbn [low fm]; [by eapply dstep_ready|]. intros d5 Hd5. wp_step. apply wp_mem_get.
  cbn [fm nfiles set_mounted set_used set_dir set_fsbuf set_nfiles set_next_free]. wp_step.
  rewrite u64_small by lia. apply wp_fs_dec; cbn [low fm]; [lia|by eapply dstep_ready|]. intros d6 Hd6.
  apply wp_fs_line; cbn [low fm]; [by eapply dstep_ready|]. intros d7 Hd7.
  pose proof (dstep_trans _ _ _ _ _ _ _ Hd5 (dstep_trans _ _ _ _ _ _ _ Hd6 Hd7)) as H7. cbn [low app] in H7.
  pose proof (dstep_content _ _ _ _ H7) as E7. cbn [low played fold_left] in E7.
  pose proof (dstep_trans _ _ _ _ _ _ _ H4 H7) as H8. rewrite !app_nil_r in H8.
  eapply (HQ _ es); [exact H8|]. split; cbn [fm low].
  - by eapply dstep_ready.
  - by rewrite (ds_capacity _ _ _ _ H8).
  - split; [|done]. apply content_sector. by eapply dstep_ready.
  - by rewrite E7, E4, E3.
  - by rewrite E7, E4, E3.
  - split; try done. intros b Hbb. apply Hu. lia.
Qed.
End rules.
