(* ===== verification/FsRead.v ===== *)
(** * Reading files (src/fs.c: fs_read, fs_stat, fs_read_page, fs_cat, fs_ls) *)
From S2P Require Import Prelude Spinlock Uart Disk Fs FsLayout FsOps.

(** ** Specifications *)

(** The file system afterwards: the same files, no sector written. *)
Definition unwritten `{BlockDevLaws D} (out : list Z) (s s' : fs D) : Prop :=
  dstep [] out (low s) (low s') ∧ core (fm s') = core (fm s) ∧ statics_ok (fm s').

(** The page at [offset] of a file: zeros behind its end. *)
Definition page_of (data : list Z) (offset : nat) : list Z :=
  let part := slice offset 4096 data in part ++ replicate (4096 - length part) 0.

Section read.
Context {D : Type} `{HasDevLaws D, !BlockDev D, !BlockDevLaws D}.
Implicit Types s t : fs D.

Lemma unwritten_refl s : disk_ready (low s) → statics_ok (fm s) → unwritten [] s s.
Proof. intros. split_and!; [by apply dstep_refl|done|done]. Qed.

Lemma unwritten_trans o o' s t u : unwritten o s t → unwritten o' t u → unwritten (o ++ o') s u.
Proof.
  intros (H1 & E1 & _) (H2 & E2 & Hs). split_and!; [|congruence|done].
  exact (dstep_trans _ _ _ _ _ _ _ H1 H2).
Qed.

Lemma unwritten_content out s t : unwritten out s t → content (low t) = content (low s).
Proof. intros [H1 _]. by rewrite (dstep_content _ _ _ _ H1). Qed.

Lemma unwritten_rep out s t total es files : unwritten out s t → fs_rep s total es files → fs_rep t total es files.
Proof.
  intros (H1 & E & Hs) [Hr Hc _ Hcl Hla [M1 M2 M3 M4 M5]]. unfold core in E.
  injection E as E1 E2 E3 E4 E5 E6. split; rewrite ?(dstep_content _ _ _ _ H1); try done.
  - by eapply dstep_ready.
  - by rewrite (ds_capacity _ _ _ _ H1).
  - split; [congruence..|]. intros b Hb. rewrite E6. by apply M5.
Qed.

(** A disk read is unwritten. *)
Lemma unwritten_read s d' b :
  disk_ready (low s) → statics_ok (fm s) → dstep [] [] (low s) d' →
  unwritten [] s (FsOn (set_fsbuf (content (low s) b) (fm s)) d').
Proof.
  intros Hr [_ Hl] Hd. split_and!; [done|done|]. split; [|done]. apply content_sector, Hr.
Qed.

Lemma unwritten_out out s d' : statics_ok (fm s) → dstep [] out (low s) d' → unwritten out s (FsOn (fm s) d').
Proof. by intros. Qed.

(** ** Looking up a name *)

Lemma wp_find_from total d name files es n i (Q : option Z → fs D → Prop) s :
  Forall (λ c, c ≠ 0) name → 0 ≤ i → dir (fm s) = es → Forall2 (entry_ok d total) (take n (drop (Z.to_nat i) es)) files →
  n = length files →
  Q (option_map (λ k, i + Z.of_nat k) (lookup_file name files)) s →
  wp (find_from n i name) Q s.
Proof.
  intros Hname Hi He. revert n i Hi. induction files as [|f files IH]; intros n i Hi Hf -> HQ; [done|].
  cbn [length find_from] in *. destruct (drop (Z.to_nat i) es) as [|e es'] eqn:Ed; cbn [take] in Hf; [by inversion Hf|].
  apply Forall2_cons in Hf as [[[pad Hn] Hc _ _ _ _] Hf].
  assert (es !! Z.to_nat i = Some e) as Hl.
  { rewrite <- (Nat.add_0_r (Z.to_nat i)), <- lookup_drop, Ed. done. }
  wp_step. apply (wp_dir_at e); [done|by rewrite He|]. wp_step. eapply wp_of_option.
  { rewrite Hn. by apply streq_names. }
  cbn [lookup_file] in HQ. destruct (bool_decide (f.1 = name)).
  - wp_step. cbn in HQ. by rewrite Z.add_0_r in HQ.
  - apply IH; [lia| |done|].
    + replace (Z.to_nat (i + 1)) with (S (Z.to_nat i)) by lia.
      rewrite <- Nat.add_1_r, <- drop_drop, Ed. done.
    + destruct (lookup_file name files); cbn in HQ |- *; [|done]. by replace (i + 1 + Z.of_nat n) with (i + Z.of_nat (S n)) by lia.
Qed.

Lemma wp_find_file total es files name (Q : option Z → fs D → Prop) s :
  fs_rep s total es files → Forall (λ c, c ≠ 0) name →
  Q (option_map Z.of_nat (lookup_file name files)) s → wp (find_file name) Q s.
Proof.
  intros [_ _ _ _ Hla Hm] Hname HQ. unfold find_file. wp_step. apply wp_mem_get. rewrite (mr_nfiles _ _ _ _ Hm), Nat2Z.id.
  eapply (wp_find_from total (content (low s)) _ files es); [done|done|apply Hm| |done|].
  - rewrite drop_0. apply Hla.
  - by destruct (lookup_file name files).
Qed.

(** The entry of a file found. *)
Lemma found_entry s total es files name i f :
  fs_rep s total es files → lookup_file name files = Some i → files !! i = Some f →
  ∃ e, dir (fm s) !! i = Some e ∧ entry_ok (content (low s)) total e f ∧ (i < length files)%nat.
Proof.
  intros [_ _ _ _ Hla Hm] Hi Hf. apply lookup_lt_Some in Hf as Hlt.
  destruct (Forall2_lookup_r _ _ _ _ _ (la_entries _ _ _ _ Hla) Hf) as (e & He & Hef).
  exists e. split_and!; [|done|done]. rewrite (mr_dir _ _ _ _ Hm). by rewrite lookup_take_lt in He.
Qed.

(** ** Reading the blocks of a file *)

Lemma drop_blocks (d : sectors) st n k :
  (∀ b, is_sector (d b)) → 0 ≤ Z.of_nat k ≤ n →
  drop (512 * k) (seqZ st n ≫= d) = seqZ (st + Z.of_nat k) (n - Z.of_nat k) ≫= d.
Proof.
  intros Hd. revert st n. induction k as [|k IH]; intros st n Hk.
  - rewrite Nat.mul_0_r, drop_0, Z.add_0_r, Z.sub_0_r. done.
  - rewrite (seqZ_cons st n), bind_cons by lia. destruct (Hd st) as [Hl _]. change (Z.to_nat BSIZE) with 512%nat in Hl.
    rewrite drop_app_ge by lia. rewrite Hl. replace (512 * S k - 512)%nat with (512 * k)%nat by lia.
    rewrite IH by lia. do 2 f_equal; lia.
Qed.

(** The bytes of block [k] of a file. *)
Lemma block_bytes total e f k n (d : sectors) :
  entry_ok d total e f → (∀ b, is_sector (d b)) → (512 * k < length f.2)%nat →
  n = Nat.min 512 (length f.2 - 512 * k) →
  region 0 n (d (d_start e + Z.of_nat k)) = Some (slice (512 * k) n f.2).
Proof.
  intros Hef Hd Hk Hn. destruct (Hd (d_start e + Z.of_nat k)) as [Hl _]. change (Z.to_nat BSIZE) with 512%nat in Hl.
  unfold region. rewrite (proj2 (Nat.leb_le _ _)) by lia. f_equal.
  pose proof (en_data _ _ _ _ Hef) as Ed. pose proof (en_size _ _ _ _ Hef) as Es. unfold extent in Ed. rewrite Es in Ed.
  pose proof (nblk_bound (Z.of_nat (length f.2))) as Hb. unfold BSIZE in Hb.
  set (len := length f.2) in *. rewrite <- Ed. unfold slice. rewrite drop_0, skipn_firstn_comm, take_take.
  replace (n `min` (len - 512 * k))%nat with n by lia. rewrite drop_blocks by (done || lia).
  rewrite seqZ_cons, bind_cons by lia. by rewrite take_app_le by lia.
Qed.

(** The loop over the blocks of a file: an invariant indexed by the blocks done
    and the characters transmitted. *)
Lemma wp_each_block {A} (I : nat → A → list Z → Prop) (each : list Z → A → M (fs D) A) total e f a
    (Q : A → fs D → Prop) s :
  entry_ok (content (low s)) total e f → total ≤ capacity (low s) → total ≤ MAXBLK →
  disk_ready (low s) → statics_ok (fm s) → I O a [] →
  (∀ k a out t, (512 * k < length f.2)%nat → I k a out → unwritten out s t →
     wp (each (slice (512 * k) (Nat.min 512 (length f.2 - 512 * k)) f.2) a)
       (λ a' t', ∃ out', unwritten out' t t' ∧ I (S k) a' (out ++ out')) t) →
  (∀ k a out t, (length f.2 ≤ 512 * k)%nat → I k a out → unwritten out s t → Q a t) →
  wp (each_block each (d_size e) (d_start e) a) Q s.
Proof.
  intros Hef Hcap Hmax Hr Hs HI Heach HQ. destruct (entry_blocks _ _ _ _ Hef Hmax) as (_ & Hb0 & Hsz & Hst).
  pose proof (en_size _ _ _ _ Hef) as Es. pose proof (en_start _ _ _ _ Hef) as Hs0. pose proof (en_end _ _ _ _ Hef) as Hend.
  unfold each_block. change ((d_size e + BSIZE - 1) / BSIZE) with (nblk (d_size e)).
  apply (wp_loop (λ '(blk, remaining, a) t, ∃ k out, blk = d_start e + Z.of_nat k ∧
      remaining = Z.max 0 (d_size e - 512 * Z.of_nat k) ∧ I k a out ∧ unwritten out s t)
    (λ '(blk, remaining, a), Z.to_nat (nblk remaining))).
  - intros [[blk remaining] b] t (k & out & -> & -> & HIk & Hu). pose proof Hu as (Hd & _ & Ht).
    remember (Z.max 0 (d_size e - 512 * Z.of_nat k)) as remaining eqn:Er. pose proof (nblk_bound remaining) as Hrem. unfold BSIZE in Hrem.
    pose proof (nblk_bound (d_size e)) as Hsb. unfold BSIZE in Hsb.
    destruct (Z.ltb_spec 0 remaining) as [Hpos|Hpos].
    2: { wp_step. eapply HQ; [|done|done]. lia. }
    wp_step. apply wp_read; [by eapply dstep_ready| |apply Ht|].
    { rewrite (ds_capacity _ _ _ _ Hd). unfold DATASTART, LOGSTART, LOGN in *. lia. }
    intros d' Hd'. wp_step. apply wp_mem_get. cbn [fm fsbuf set_fsbuf]. wp_step.
    assert (Z.to_nat (if BSIZE <? remaining then BSIZE else remaining) = Nat.min 512 (length f.2 - 512 * k)) as ->.
    { unfold BSIZE. destruct (Z.ltb_spec 512 remaining); lia. }
    rewrite (unwritten_content _ _ _ Hu). eapply wp_of_option.
    { apply (block_bytes total e f k); [done|intros; apply content_sector, Hr|lia|done]. }
    assert (unwritten out s (FsOn (set_fsbuf (content (low s) (d_start e + Z.of_nat k)) (fm t)) d')) as Hu'.
    { rewrite <- (app_nil_r out). eapply unwritten_trans; [exact Hu|]. rewrite <- (unwritten_content _ _ _ Hu).
      apply unwritten_read; [by eapply dstep_ready|done|done]. }
    wp_step. eapply wp_mono; [apply (Heach k b out); [lia|done|exact Hu']|]. intros b' t' (out' & Hu2 & HI').
    wp_step. split.
    + exists (S k), (out ++ out'). split_and!.
      * rewrite u32_small; [lia|]. unfold DATASTART, LOGSTART, LOGN, MAXBLK in *. lia.
      * unfold BSIZE. destruct (Z.ltb_spec 512 remaining); lia.
      * done.
      * by eapply unwritten_trans.
    + assert (remaining - (if BSIZE <? remaining then BSIZE else remaining) = Z.max 0 (remaining - 512)) as ->.
      { unfold BSIZE. destruct (Z.ltb_spec 512 remaining); lia. }
      pose proof (nblk_bound (Z.max 0 (remaining - 512))) as Hr'. unfold BSIZE in Hr'. lia.
  - exists O, []. rewrite Z.add_0_r. split_and!; [done|lia|done|by apply unwritten_refl].
  - cbn. lia.
Qed.

(** ** The functions *)

Lemma wp_putc_bytes l s :
  disk_ready (low s) → Forall is_byte l →
  wp (putc_each l) (λ _ s', fm s' = fm s ∧ dstep [] l (low s) (low s')) s.
Proof.
  intros Hr Hl. revert s Hr. induction Hl as [|c l Hc _ IH]; intros s Hr; cbn [putc_each].
  - wp_step. split; [done|by apply dstep_refl].
  - wp_step. apply wp_fs_putc; [done|]. intros d' Hd'. eapply wp_mono; [apply IH; by eapply dstep_ready|].
    intros _ t [Em Ht]. split; [done|]. rewrite u8_small in Hd' by exact Hc. exact (dstep_trans _ _ _ _ _ _ _ Hd' Ht).
Qed.

Lemma entry_bytes total e f (d : sectors) :
  entry_ok d total e f → (∀ b, is_sector (d b)) → Forall is_byte f.2.
Proof.
  intros Hef Hd. rewrite <- (en_data _ _ _ _ Hef). apply Forall_take. apply Forall_bind, Forall_forall. intros b _. apply Hd.
Qed.

Lemma slice_extend {A} (l : list A) off k n :
  (off + k ≤ length l)%nat → slice off k l ++ slice (off + k) n l = slice off (k + n) l.
Proof.
  intros Hk. unfold slice. rewrite <- drop_drop. rewrite <- (take_drop k (drop off l)) at 3.
  rewrite take_app_add'; [done|]. rewrite length_take, length_drop. lia.
Qed.

(** Block [k] of a file copied behind the bytes before it. *)
Lemma copy_block (l buf : list Z) k n :
  (length l ≤ length buf)%nat → (k + n ≤ length l)%nat →
  overwrite k (slice k n l) (take k l ++ drop k buf) = Some (take (k + n) l ++ drop (k + n) buf).
Proof.
  intros Hl Hk. assert (length (slice k n l) = n) as Hs by (by apply length_slice).
  rewrite (overwrite_at k (take k l)); rewrite ?length_take, ?length_drop, ?Hs; [|lia|lia]. f_equal.
  rewrite drop_drop, app_assoc. f_equal. pose proof (slice_extend l 0 k n ltac:(lia)) as E. unfold slice in *.
  by rewrite !drop_0 in E.
Qed.

(** The file a name refers to. *)
Definition file_named (name : list Z) (files : list file) : option file :=
  match lookup_file name files with Some i => files !! i | None => None end.

Lemma file_named_cases name files :
  (lookup_file name files = None ∧ file_named name files = None) ∨
  ∃ i f, lookup_file name files = Some i ∧ files !! i = Some f ∧ file_named name files = Some f.
Proof.
  unfold file_named. destruct (lookup_file name files) as [i|] eqn:E; [right|by left].
  destruct (lookup_file_spec _ _ _ E) as (f & Hf & _). by exists i, f.
Qed.

(** What [fs_read] returns and leaves in the buffer. *)
Definition read_result (name buf : list Z) (max : Z) (files : list file) : Z * list Z :=
  match file_named name files with
  | None => (-1, buf)
  | Some f =>
      if max <? Z.of_nat (length f.2) then (-1, buf)
      else (Z.of_nat (length f.2), f.2 ++ drop (length f.2) buf)
  end.

Lemma wp_fs_read total es files name buf max (Q : Z * list Z → fs D → Prop) s :
  fs_rep s total es files → Forall (λ c, c ≠ 0) name → max ≤ Z.of_nat (length buf) →
  (∀ s', unwritten [] s s' → Q (read_result name buf max files) s') →
  wp (fs_read name buf max) Q s.
Proof.
  intros Hrep Hname Hmax HQ. pose proof Hrep as [Hr Hc Hs _ Hla Hm]. unfold fs_read.
  wp_step. apply wp_mem_get. rewrite (mr_mounted _ _ _ _ Hm). cbn [negb]. wp_step.
  eapply wp_find_file; [done|done|]. unfold read_result in HQ.
  destruct (file_named_cases name files) as [[-> En]|(i & f & Ei & Hf & En)]; rewrite En in HQ.
  { cbn [option_map]. wp_step. apply HQ. by apply unwritten_refl. }
  rewrite Ei. cbn [option_map].
  destruct (found_entry _ _ _ _ _ _ _ Hrep Ei Hf) as (e & He & Hef & Hi).
  wp_step. apply (wp_dir_at e); [lia|by rewrite Nat2Z.id|].
  destruct (entry_blocks _ _ _ _ Hef (proj2 (la_bound _ _ _ _ Hla))) as (_ & _ & Hsz & _).
  rewrite i32_small, (en_size _ _ _ _ Hef) in * by lia.
  destruct (Z.ltb_spec max (Z.of_nat (length f.2))) as [Hx|Hx].
  { wp_step. apply HQ. by apply unwritten_refl. }
  rewrite <- (en_size _ _ _ _ Hef) at 1. wp_step.
  eapply (wp_each_block (λ k '(off, b) out, out = [] ∧ off = Nat.min (512 * k) (length f.2) ∧ b = take off f.2 ++ drop off buf)
    _ total e f); try done.
  - apply la_bound in Hla. lia.
  - intros k [off b] out t Hk (-> & -> & ->) Hu. cbv beta iota.
    replace ((512 * k) `min` length f.2)%nat with (512 * k)%nat by lia. wp_step. eapply wp_of_option; [apply copy_block; lia|]. wp_step. exists []. split_and!; [|done| |].
    + destruct Hu as (Hd & _ & Ht). apply unwritten_refl; [by eapply dstep_ready|done].
    + rewrite length_slice by lia. lia.
    + rewrite length_slice by lia. do 2 f_equal; lia.
  - intros k [off b] out t Hk (-> & -> & ->) Hu. wp_step.
    replace ((512 * k) `min` length f.2)%nat with (length f.2) by lia. cbn [snd]. rewrite firstn_all. by apply HQ.
Qed.

(** The page as it looks after [j] blocks. *)
Definition page_upto (part : list Z) (j : nat) : list Z :=
  take (512 * j) part ++ replicate (4096 - length (take (512 * j) part)) 0.

Lemma page_upto_end part j :
  (length part ≤ 4096)%nat → (length part ≤ 512 * j)%nat → page_upto part j = part ++ replicate (4096 - length part) 0.
Proof. intros Hp Hj. unfold page_upto. by rewrite take_ge by done. Qed.

Lemma page_upto_step part j n :
  (length part ≤ 4096)%nat → (512 * j < length part)%nat → n = Nat.min 512 (length part - 512 * j) →
  overwrite (512 * j) (slice (512 * j) n part) (page_upto part j) = Some (page_upto part (S j)).
Proof.
  intros Hp Hj Hn. unfold page_upto. set (k := (512 * j)%nat) in *.
  assert (length (take k part) = k) as Hk by (rewrite length_take; lia).
  assert (length (slice k n part) = n) as Hs by (apply length_slice; lia).
  rewrite (overwrite_at k (take k part)); [|done|rewrite Hs, length_replicate; lia]. f_equal.
  rewrite Hs, Hk, drop_replicate, app_assoc. pose proof (slice_extend part 0 k n ltac:(lia)) as E. unfold slice in *.
  rewrite !drop_0, Nat.add_0_l in E. rewrite E. assert (take (k + n) part = take (512 * S j) part) as ->.
  { destruct (decide (n = 512%nat)) as [->|]; [f_equal; lia|]. by rewrite !take_ge by lia. }
  f_equal. f_equal. rewrite length_take. lia.
Qed.

Lemma wp_fs_read_page total es files i f e q buf (Q : list Z → fs D → Prop) s :
  fs_rep s total es files → files !! i = Some f → es !! i = Some e → length buf = Z.to_nat 4096 →
  Z.of_nat (512 * q) + 4096 < 2 ^ 31 →
  (∀ s', unwritten [] s s' → Q (page_of f.2 (512 * q)) s') →
  wp (fs_read_page (d_start e) (d_size e) (Z.of_nat (512 * q)) buf) Q s.
Proof.
  intros [Hr Hcap Hs _ Hla Hm] Hf He Hbuf Hoff HQ.
  assert (entry_ok (content (low s)) total e f) as Hef.
  { destruct (Forall2_lookup_r _ _ _ _ _ (la_entries _ _ _ _ Hla) Hf) as (e' & He' & Hef).
    rewrite lookup_take_lt in He' by (by eapply lookup_lt_Some). congruence. }
  destruct (entry_blocks _ _ _ _ Hef (proj2 (la_bound _ _ _ _ Hla))) as (_ & Hb0 & Hsz & Hst).
  pose proof (en_size _ _ _ _ Hef) as Es. pose proof (en_start _ _ _ _ Hef) as Hs0. pose proof (en_end _ _ _ _ Hef) as Hend.
  pose proof (nblk_bound (d_size e)) as Hnb. unfold BSIZE, MAXBLK, DATASTART, LOGSTART, LOGN in *.
  change (Z.to_nat 4096) with 4096%nat in *. set (off := (512 * q)%nat) in *. set (part := slice off 4096 f.2).
  assert (length part = Nat.min 4096 (length f.2 - off)) as Hp by (unfold part, slice; rewrite length_take, length_drop; lia).
  unfold fs_read_page. wp_step. eapply wp_of_option.
  { apply (overwrite_app []). rewrite length_replicate. change (Z.to_nat 4096) with 4096%nat. lia. }
  cbn [app]. change (Z.to_nat 4096) with 4096%nat. rewrite length_replicate, drop_ge, app_nil_r by lia.
  apply (wp_loop (λ '(blk, done, b) t, ∃ j, (j ≤ 8)%nat ∧ blk = d_start e + Z.of_nat (q + j) ∧ done = 512 * Z.of_nat j ∧
      b = page_upto part j ∧ unwritten [] s t) (λ '(_, done, _), Z.to_nat (8 - done / 512))).
  - intros [[blk dn] b] t (j & Hj & -> & -> & -> & Hu). pose proof Hu as (Hd & _ & Ht). unfold BSIZE.
    rewrite u32_small by lia.
    destruct (Z.ltb_spec (512 * Z.of_nat j) 4096) as [H1|H1]; cbn [andb].
    2: { wp_step. rewrite page_upto_end by lia. apply HQ. done. }
    destruct (Z.ltb_spec (Z.of_nat off + 512 * Z.of_nat j) (d_size e)) as [H2|H2].
    2: { wp_step. rewrite page_upto_end by lia. apply HQ. done. }
    wp_step. apply wp_read; [by eapply dstep_ready|rewrite (ds_capacity _ _ _ _ Hd); lia|apply Ht|].
    intros d' Hd'. wp_step. apply wp_mem_get. cbn [fm fsbuf set_fsbuf]. rewrite (unwritten_content _ _ _ Hu).
    rewrite (u32_small (d_size e - _)) by lia. set (n := if 512 <? _ then _ else _).
    assert (Z.to_nat n = Nat.min 512 (length f.2 - 512 * (q + j))) as ->.
    { unfold n. destruct (Z.ltb_spec 512 (d_size e - (Z.of_nat off + 512 * Z.of_nat j))); lia. }
    wp_step. eapply wp_of_option.
    { apply (block_bytes total e f (q + j)); [done|intros; apply content_sector, Hr|lia|done]. }
    wp_step. replace (Z.to_nat (512 * Z.of_nat j)) with (512 * j)%nat by lia. eapply wp_of_option.
    { assert (slice (512 * (q + j)) (512 `min` (length f.2 - 512 * (q + j))) f.2 =
        slice (512 * j) (512 `min` (length f.2 - 512 * (q + j))) part) as ->.
      { unfold part, slice. rewrite skipn_firstn_comm, take_take, drop_drop. f_equal; [lia|]. f_equal. lia. }
      apply page_upto_step; lia. }
    wp_step. split.
    + exists (S j). split_and!; [lia|rewrite u32_small; lia|lia|done|].
      eapply (unwritten_trans [] []); [exact Hu|]. rewrite <- (unwritten_content _ _ _ Hu).
      apply unwritten_read; [by eapply dstep_ready|done|done].
    + rewrite (Z.mul_comm 512 (Z.of_nat j)), Z.div_mul by lia.
      replace (Z.of_nat j * 512 + 512) with (Z.of_nat (S j) * 512) by lia. rewrite Z.div_mul by lia. lia.
  - exists O. split_and!; [lia| |done|done|by apply unwritten_refl]. unfold BSIZE.
    assert (Z.of_nat off / 512 = Z.of_nat q) as -> by (unfold off; rewrite Nat2Z.inj_mul, Z.mul_comm; by apply Z.div_mul).
    rewrite u32_small by lia. lia.
  - change (8 < 9)%nat. lia.
Qed.

Lemma wp_fs_stat total es files name (Q : option (Z * Z) → fs D → Prop) s :
  fs_rep s total es files → Forall (λ c, c ≠ 0) name →
  (file_named name files = None → Q None s) →
  (∀ i e f, lookup_file name files = Some i → file_named name files = Some f → files !! i = Some f → es !! i = Some e →
     Q (Some (d_start e, d_size e)) s) →
  wp (fs_stat name) Q s.
Proof.
  intros Hrep Hname Hno Hyes. pose proof Hrep as [_ _ _ _ _ Hm]. unfold fs_stat.
  wp_step. apply wp_mem_get. rewrite (mr_mounted _ _ _ _ Hm). cbn [negb]. wp_step.
  eapply wp_find_file; [done|done|].
  destruct (file_named_cases name files) as [[-> En]|(i & f & Ei & Hf & En)]; cbn [option_map].
  { wp_step. by apply Hno. }
  rewrite Ei. cbn [option_map]. destruct (found_entry _ _ _ _ _ _ _ Hrep Ei Hf) as (e & He & _ & _).
  wp_step. apply (wp_dir_at e); [lia|by rewrite Nat2Z.id|]. wp_step. apply (Hyes i e f); try done.
  by rewrite <- (mr_dir _ _ _ _ Hm).
Qed.

Definition cat_output (name : list Z) (files : list file) : list Z :=
  match file_named name files with
  | Some f => f.2
  | None => crlf (of_string "cat: no such file: ") ++ crlf name ++ [10]
  end.

Lemma wp_fs_cat total es files name (Q : unit → fs D → Prop) s :
  fs_rep s total es files → Forall (λ c, c ≠ 0) name →
  (∀ s', unwritten (cat_output name files) s s' → Q tt s') → wp (fs_cat name) Q s.
Proof.
  intros Hrep Hname HQ. pose proof Hrep as [Hr Hc Hs _ Hla Hm]. unfold fs_cat, cat_output in *.
  wp_step. apply wp_mem_get. rewrite (mr_mounted _ _ _ _ Hm). cbn [negb]. wp_step.
  eapply wp_find_file; [done|done|].
  destruct (file_named_cases name files) as [[-> En]|(i & f & Ei & Hf & En)]; rewrite En in HQ; cbn [option_map].
  { wp_step. apply wp_fs_str; [done|]. intros d1 H1. wp_step. apply wp_fs_puts; cbn [low fm]; [by eapply dstep_ready|].
    intros d2 H2. apply wp_fs_putc; cbn [low fm]; [by eapply dstep_ready|]. intros d3 H3. apply HQ. split_and!; [|done|done].
    exact (dstep_trans _ _ _ _ _ _ _ H1 (dstep_trans _ _ _ _ _ _ _ H2 H3)). }
  rewrite Ei. cbn [option_map]. destruct (found_entry _ _ _ _ _ _ _ Hrep Ei Hf) as (e & He & Hef & Hi).
  wp_step. apply (wp_dir_at e); [lia|by rewrite Nat2Z.id|].
  apply (wp_each_block (λ k _ out, out = take (512 * k) f.2) _ total e f); try done; try apply (la_bound _ _ _ _ Hla).
  - intros k [] out t Hk -> Hu. eapply wp_mono; [apply wp_putc_bytes|].
    + destruct Hu as (Hd & _ & _). by eapply dstep_ready.
    + apply Forall_take, Forall_drop. eapply entry_bytes; [done|]. intros. apply content_sector, Hr.
    + intros _ t' [Em Ht']. eexists. split; [split_and!; [exact Ht'|by rewrite Em|rewrite Em; apply Hu]|].
      pose proof (slice_extend f.2 0 (512 * k) (512 `min` (length f.2 - 512 * k)) ltac:(lia)) as E.
      unfold slice in *. rewrite !drop_0, Nat.add_0_l in E. rewrite E.
      destruct (decide (512 ≤ length f.2 - 512 * k)%nat); [f_equal; lia|]. by rewrite !take_ge by lia.
  - intros k [] out t Hk -> Hu. rewrite take_ge in Hu by done. by apply HQ.
Qed.

Definition ls_line (f : file) : list Z :=
  crlf (of_string "  ") ++ crlf f.1 ++ crlf (of_string "  (") ++ dec_out (Z.of_nat (length f.2)) ++
  crlf (of_string " bytes)" ++ [10]).

Lemma wp_fs_ls total es files (Q : unit → fs D → Prop) s :
  fs_rep s total es files → (∀ s', unwritten (files ≫= ls_line) s s' → Q tt s') → wp fs_ls Q s.
Proof.
  intros Hrep HQ. pose proof Hrep as [Hr Hc Hs _ Hla Hm]. unfold fs_ls.
  wp_step. apply wp_mem_get. rewrite (mr_mounted _ _ _ _ Hm). cbn [negb]. wp_step. apply wp_mem_get.
  rewrite (mr_nfiles _ _ _ _ Hm), Nat2Z.id.
  apply (wp_for_n (λ i t, unwritten (take (Z.to_nat i) files ≫= ls_line) s t)).
  - by apply unwritten_refl.
  - intros i t Hi Hu. destruct (lookup_lt_is_Some_2 files (Z.to_nat i)) as [f Ef]; [lia|].
    destruct (Forall2_lookup_r _ _ _ _ _ (la_entries _ _ _ _ Hla) Ef) as (e & Ee & Hef).
    rewrite lookup_take_lt in Ee by lia. pose proof (unwritten_rep _ _ _ _ _ _ Hu Hrep) as [Hrt _ Hst _ _ Hmt].
    destruct (entry_blocks _ _ _ _ Hef (proj2 (la_bound _ _ _ _ Hla))) as (_ & _ & Hsz & _).
    rewrite (en_size _ _ _ _ Hef) in Hsz. destruct (en_name _ _ _ _ Hef) as [pad En].
    wp_step. apply (wp_dir_at e); [lia|by rewrite (mr_dir _ _ _ _ Hmt)|].
    wp_step. apply wp_fs_str; [done|]. intros d1 H1. wp_step. eapply wp_of_option.
    { rewrite En. apply c_string_app, (en_chars _ _ _ _ Hef). }
    wp_step. apply wp_fs_puts; cbn [low fm]; [by eapply dstep_ready|]. intros d2 H2.
    wp_step. apply wp_fs_str; cbn [low fm]; [by eapply dstep_ready|]. intros d3 H3.
    wp_step. rewrite (en_size _ _ _ _ Hef). apply wp_fs_dec; cbn [low fm]; [lia|by eapply dstep_ready|]. intros d4 H4.
    apply wp_fs_line; cbn [low fm]; [by eapply dstep_ready|]. intros d5 H5.
    replace (Z.to_nat (i + 1)) with (S (Z.to_nat i)) by lia. rewrite (take_S_r _ _ f), bind_app, bind_singleton by done.
    eapply unwritten_trans; [exact Hu|]. split_and!; [|done|done].
    exact (dstep_trans _ _ _ _ _ _ _ H1 (dstep_trans _ _ _ _ _ _ _ H2 (dstep_trans _ _ _ _ _ _ _ H3
      (dstep_trans _ _ _ _ _ _ _ H4 H5)))).
  - intros t Hu. apply HQ. rewrite Z.add_0_l, Nat2Z.id, firstn_all in Hu. done.
Qed.
End read.
