(* ===== verification/FsWrite.v ===== *)
(** * Creating and deleting files (src/fs.c: balloc_contig, fs_create, fs_delete) *)
From S2P Require Import Prelude Spinlock Uart Disk Fs FsLayout FsOps FsRead.

Section write.
Context {D : Type} `{HasDevLaws D, !BlockDev D, !BlockDevLaws D}.
Implicit Types s t : fs D.

(** ** The allocator *)

(** [r] is the first place for [n] consecutive blocks, or -1 when there is none. *)
Definition first_fit (u : gmap Z Z) (total n r : Z) : Prop :=
  (free_run u total n r ∧ ∀ b, free_run u total n b → r ≤ b) ∨ (r = -1 ∧ ∀ b, ¬ free_run u total n b).

Lemma wp_balloc n total (Q : Z → fs D → Prop) s :
  0 ≤ n ≤ MAXBLK → DATASTART ≤ total ≤ MAXBLK → total_blocks (fm s) = total →
  (∀ r, first_fit (used (fm s)) total n r → Q r s) →
  wp (balloc_contig n) Q s.
Proof.
  intros Hn Ht Et HQ. unfold balloc_contig, first_fit, free_run in *. set (u := used (fm s)) in *.
  unfold MAXBLK, DATASTART, LOGSTART, LOGN in *. change (3 + 16) with 19 in *.
  destruct (Z.eqb_spec n 0) as [->|Hn0].
  { wp_step. apply HQ. left. split_and!; try lia. }
  apply (wp_loop (λ x t, t = s ∧ 19 ≤ x ≤ 8192 ∧ ∀ b, free_run u total n b → x ≤ b)
    (λ x, Z.to_nat (8192 - x))).
  - intros x t (-> & Hx & Hbelow). wp_step. apply wp_mem_get. rewrite Et, !u32_small by lia.
    destruct (Z.leb_spec (x + n) total) as [H1|H1]; cbn [andb].
    2: { wp_step. apply HQ. right. split; [done|]. intros b Hb. pose proof (Hbelow b Hb). destruct Hb as (_ & Hb & _). lia. }
    destruct (Z.leb_spec (x + n) 8192); [|lia]. wp_step. apply wp_mem_get. wp_step. fold u.
    destruct (run_free (Z.to_nat n) x u) eqn:E.
    + apply HQ. left. split; [|done]. split_and!; [lia|done|].
      intros b Hb. apply (proj1 (run_free_spec _ _ _) E). lia.
    + split; [|lia]. split_and!; [done|lia|lia|]. intros b Hb. pose proof (Hbelow b Hb) as Hxb.
      destruct (decide (b = x)) as [->|]; [|lia]. destruct Hb as (_ & _ & Hb).
      assert (run_free (Z.to_nat n) x u = true); [|congruence]. apply run_free_spec. intros c Hc. apply Hb. lia.
  - split_and!; [done|lia|lia|]. intros b (Hb & _). unfold DATASTART, LOGSTART, LOGN in Hb. lia.
  - change (Z.to_nat (8192 - 19)) with (Z.to_nat 8173). unfold balloc_fuel, MAXBLK. lia.
Qed.

(** ** Logging the metadata *)

Lemma logging_mem d0 ws s s' :
  logging d0 ws s → low s' = low s → log_n (fm s') = log_n (fm s) → log_blk (fm s') = log_blk (fm s) →
  log_overflow (fm s') = log_overflow (fm s) → fsbuf (fm s') = fsbuf (fm s) → logging d0 ws s'.
Proof. intros [H1 H2 H3 H4 [H5 H6]] E1 E2 E3 E4 E5. split; [..|split]; congruence. Qed.

Lemma padded_full l : length l = Z.to_nat BSIZE → take (Z.to_nat BSIZE) (padded l) = l.
Proof. intros Hl. unfold padded. rewrite Hl, Nat.sub_diag. cbn [replicate]. rewrite app_nil_r. apply take_ge. lia. Qed.

(** The last part of both writing functions: the directory and the superblock
    are logged, and the transaction is committed. *)
Lemma wp_log_meta d0 ws es n nextf total (Q : Z → fs D → Prop) s :
  logging d0 ws s → (length ws + 2 ≤ Z.to_nat LOGN)%nat → DATASTART ≤ total ≤ capacity d0 →
  Forall (target_ok total) ws.*1 → dir (fm s) = es → dir_wf es → nfiles (fm s) = Z.of_nat n → (n ≤ 8)%nat →
  next_free (fm s) = nextf → total_blocks (fm s) = total →
  (∀ s', dstep (transaction (ws ++ meta_writes es (Z.of_nat n) nextf total)) [] d0 (low s') →
     core (fm s') = core (fm s) → statics_ok (fm s') → Q 0 s') →
  wp (log_dir;; log_super;; log_commit;; mret 0) Q s.
Proof.
  intros Hlog Hlen Ht Htg Hdir Hwf Hn Hn8 Hnf Htot HQ. change (Z.to_nat LOGN) with 16%nat in *. wp_step. unfold log_dir. wp_step.
  apply wp_mem_get. rewrite Hdir, padded_full by apply (dir_sector _ Hwf).
  apply (wp_log_write d0 ws); [done|change (Z.to_nat LOGN) with 16%nat; lia|lia|by apply dir_sector|].
  intros s1 Hlog1 Hc1. unfold core in Hc1.
  injection Hc1 as C1 C2 C3 C4 C5 C6. wp_step. unfold log_super. wp_step. apply wp_mem_get. cbn [id].
  rewrite C2, C4, C5, Hn, Hnf, Htot, u32_small by lia.
  apply (wp_log_write d0 (ws ++ [(DIRBLOCK, dir_bytes es)]));
    [done|change (Z.to_nat LOGN) with 16%nat; rewrite length_app; simpl; lia|lia|apply super_sector|].
  intros s2 Hlog2 Hc2. rewrite <- app_assoc in Hlog2. cbn [app] in Hlog2. fold (meta_writes es (Z.of_nat n) nextf total) in Hlog2.
  wp_step. apply (wp_log_commit total d0 (ws ++ meta_writes es (Z.of_nat n) nextf total)).
  - done.
  - by destruct ws.
  - rewrite length_app. simpl. change (Z.to_nat LOGN) with 16%nat. lia.
  - done.
  - rewrite fmap_app. apply Forall_app. split; [done|]. cbn. unfold target_ok, log_sector, LOGHDR, DIRBLOCK, DATASTART, LOGSTART, LOGN in *.
    repeat constructor; lia.
  - intros s3 Hd3 Hc3 Hs3. wp_step. apply HQ; [done| |done]. rewrite Hc3, Hc2. unfold core. congruence.
Qed.

(** ** Creating a file *)

(** The entry [fs_create] writes into a directory slot. *)
Definition new_entry (name : list Z) (old : dirent) (size start : Z) : dirent :=
  let nm := take 55 name in
  Dirent (nm ++ 0 :: drop (S (length nm)) (d_name old)) size start.

Lemma copy_name_eq name old :
  length old = 56%nat → copy_name name old = Some (take 55 name ++ 0 :: drop (S (length (take 55 name))) old).
Proof.
  intros Ho. unfold copy_name. change (Z.to_nat (NAMELEN - 1)) with 55%nat.
  assert (length (take 55 name ++ [0%Z]) ≤ length old)%nat as Hl.
  { rewrite length_app, length_take. cbn [length]. lia. }
  pose proof (overwrite_app [] (take 55 name ++ [0]) old Hl) as E. cbn [length app] in E. rewrite E. f_equal.
  rewrite <- app_assoc. cbn [app]. do 2 f_equal. rewrite length_app. cbn [length]. f_equal. lia.
Qed.

Lemma new_entry_wf name old size start :
  dirent_wf old → c_chars name → 0 ≤ size < 2 ^ 32 → 0 ≤ start < 2 ^ 32 → dirent_wf (new_entry name old size start).
Proof.
  intros [[Hl Hb] _] Hn Hsz Hst. change (Z.to_nat NAMELEN) with 56%nat in Hl. split; [split|done]; cbn [d_name new_entry].
  - change (Z.to_nat NAMELEN) with 56%nat. pose proof (length_take name 55) as Ht.
    rewrite length_app. cbn [length]. rewrite length_drop. lia.
  - apply Forall_app. split.
    + apply Forall_take. eapply Forall_impl; [exact Hn|]. by intros c [].
    + constructor; [unfold is_byte; lia|]. by apply Forall_drop.
Qed.

(** The data blocks, logged. *)
Lemma wp_log_data d0 data size start (Q : unit → fs D → Prop) s :
  logging d0 [] s → DATASTART ≤ capacity d0 → 0 ≤ size ≤ Z.of_nat (length data) → nblk size ≤ 14 →
  0 ≤ start ≤ MAXBLK → Forall is_byte data →
  (∀ s', logging d0 (data_writes start (take (Z.to_nat size) data)) s' → core (fm s') = core (fm s) → Q tt s') →
  wp (for_n (Z.to_nat (nblk size)) 0 (λ b,
       let n := if BSIZE <? size - b * BSIZE then BSIZE else size - b * BSIZE in
       part ← of_option (region (Z.to_nat (b * BSIZE)) (Z.to_nat n) data);
       log_write (u32 (start + b)) (padded part))) Q s.
Proof.
  intros Hlog Hcap Hsz Hnb Hst Hbytes HQ. set (data' := take (Z.to_nat size) data) in *.
  assert (Z.of_nat (length data') = size) as Hl by (unfold data'; rewrite length_take; lia).
  assert (∀ b, (b ≤ Z.to_nat (nblk size))%nat → take b (data_writes start data') =
    (λ i, (start + Z.of_nat i, data_block data' i)) <$> seq 0 b) as Htake.
  { intros b Hb. unfold data_writes. rewrite Hl, <- fmap_take. f_equal. rewrite take_seq. f_equal. lia. }
  pose proof (nblk_bound size) as Hbd. unfold BSIZE in Hbd.
  apply (wp_for_n (λ b t, logging d0 (take (Z.to_nat b) (data_writes start data')) t ∧ core (fm t) = core (fm s))).
  - done.
  - intros b t Hb [Hlt Hct]. cbv zeta. unfold BSIZE. wp_step.
    set (n := if 512 <? size - b * 512 then 512 else size - b * 512).
    assert (Z.to_nat n = Nat.min 512 (length data' - 512 * Z.to_nat b)) as En.
    { unfold n. destruct (Z.ltb_spec 512 (size - b * 512)); lia. }
    eapply wp_of_option.
    { unfold region. rewrite (proj2 (Nat.leb_le _ _)); [done|]. rewrite En. unfold data' in Hl |- *. rewrite length_take. lia. }
    assert (padded (slice (Z.to_nat (b * 512)) (Z.to_nat n) data) = data_block data' (Z.to_nat b)) as ->.
    { unfold data_block. f_equal. unfold slice, data'. rewrite skipn_firstn_comm, take_take. f_equal; [|f_equal; lia].
      rewrite En. unfold data'. rewrite length_take. lia. }
    rewrite u32_small by (unfold MAXBLK in *; lia).
    eapply (wp_log_write d0); [exact Hlt| |done|by apply data_block_sector, Forall_take|].
    { rewrite Htake, length_fmap, length_seq by lia. change (Z.to_nat LOGN) with 16%nat. lia. }
    intros t' Hlt' Hct'. split; [|congruence]. replace (Z.to_nat (b + 1)) with (S (Z.to_nat b)) by lia.
    rewrite Htake in Hlt' |- * by lia. rewrite seq_S, fmap_app. cbn. by rewrite Z2Nat.id by lia.
  - intros t [Hlt Hct]. rewrite Z.add_0_l, Nat2Z.id in Hlt. apply HQ; [|done].
    rewrite take_ge in Hlt; [done|]. unfold data_writes. rewrite length_fmap, length_seq, Hl. done.
Qed.

(** [s'] is [s] after the committed transaction [ws], which leaves [files']. *)
Record transacted (total : Z) (files' : list file) (ws : list (Z * list Z)) (s s' : fs D) : Prop := {
  tr_step : dstep (transaction ws) [] (low s) (low s');
  tr_few : (length ws ≤ Z.to_nat LOGN)%nat;
  tr_targets : Forall (target_ok total) ws.*1;
  tr_supers x : (0, x) ∈ ws → super_ok x total;
  tr_layout : ∃ es', layout (played (content (low s)) ws) total es' files';
}.

(** Why [fs_create] refuses. *)
Definition create_refused (s : fs D) (name : list Z) (size total : Z) (files : list file) : Prop :=
  MAXFILES ≤ Z.of_nat (length files) ∨ size < 0 ∨ lookup_file name files ≠ None ∨ LOGN < nblk size + 2 ∨
  ∀ b, ¬ free_run (used (fm s)) total (nblk size) b.

(** The mounted file system after a committed transaction: data blocks outside
    the log, then the metadata. *)
Lemma committed_rep s s' total es es' files files' ws n nextf :
  fs_rep s total es files → dstep (transaction (ws ++ meta_writes es' n nextf total)) [] (low s) (low s') →
  statics_ok (fm s') → (length ws + 2 ≤ Z.to_nat LOGN)%nat → 0 ≤ n < 2 ^ 32 →
  Forall (target_ok total) ws.*1 → (∀ b, b ∈ ws.*1 → b ≠ 0) →
  layout (played (content (low s)) (ws ++ meta_writes es' n nextf total)) total es' files' →
  mem_rep (fm s') total es' files' →
  transacted total files' (ws ++ meta_writes es' n nextf total) s s' ∧ fs_rep s' total es' files'.
Proof.
  intros [_ Hc _ _ Hla0 _] Hd Hs Hl Hn Ht H0' Hla Hm. pose proof (la_bound _ _ _ _ Hla0) as Hb.
  set (all := ws ++ _) in *.
  assert (length all ≤ Z.to_nat LOGN)%nat as Hlen by (unfold all; rewrite length_app; simpl; lia).
  assert (Forall (target_ok total) all.*1) as Hta.
  { unfold all. rewrite fmap_app. apply Forall_app. split; [done|].
    cbn. unfold target_ok, log_sector, LOGHDR, DIRBLOCK, DATASTART, LOGSTART, LOGN in *. repeat constructor; lia. }
  split.
  - split; try done; [|by exists es']. intros x [Hx|Hx]%elem_of_app.
    + destruct (H0' 0); [|done]. apply (list_elem_of_fmap_2 fst) in Hx. done.
    + cbn in Hx. apply elem_of_cons in Hx as [Hx|Hx]; [by injection Hx|].
      apply list_elem_of_singleton in Hx. injection Hx as ->. by apply super_bytes_ok.
  - destruct (transaction_done _ _ _ _ _ Hlen Hta Hla) as (E1 & E2 & _).
    split; rewrite ?(dstep_content _ _ _ _ Hd); try done; [by eapply dstep_ready|].
    by rewrite (ds_capacity _ _ _ _ Hd).
Qed.

(** A place for the new file is apart from the files there are. *)
Lemma free_run_apart s total es files n start :
  fs_rep s total es files → free_run (used (fm s)) total n start →
  ∀ b, b ∈ extents (take (length files) es) → b ∉ seqZ start n.
Proof.
  intros [_ _ _ _ Hla Hm] (H1 & H2 & H3) b Hb Hin%elem_of_seqZ. pose proof (la_bound _ _ _ _ Hla) as Ht.
  apply (mr_used _ _ _ _ Hm b); [unfold DATASTART, LOGSTART, LOGN in *; lia|by right|]. by apply H3.
Qed.

Lemma data_targets total start data :
  DATASTART ≤ start → start + nblk (Z.of_nat (length data)) ≤ total →
  Forall (target_ok total) (data_writes start data).*1.
Proof.
  intros Hs He. apply Forall_forall. intros b Hb%data_writes_fst.
  unfold target_ok, log_sector, LOGHDR, DATASTART, LOGSTART, LOGN in *. lia.
Qed.

Lemma length_data_writes start data : length (data_writes start data) = Z.to_nat (nblk (Z.of_nat (length data))).
Proof. unfold data_writes. by rewrite length_fmap, length_seq. Qed.

Lemma extents_snoc es n e :
  (n < length es)%nat → extents (take (S n) (<[n := e]> es)) = extents (take n es) ++ extent e.
Proof. intros Hn. rewrite take_insert_snoc by done. unfold extents. by rewrite bind_app, bind_singleton. Qed.

(** The second half of [fs_create]: the data is in the log, the entry and the
    superblock follow, and the transaction is committed. *)
Lemma wp_create_entry total es files name data size start (Q : Z → fs D → Prop) s t :
  fs_rep s total es files → c_chars name → Forall is_byte data → Z.of_nat (length data) = size →
  (length files < Z.to_nat MAXFILES)%nat → nblk size ≤ 14 → free_run (used (fm s)) total (nblk size) start →
  logging (low s) (data_writes start data) t → core (fm t) = core (fm s) →
  (∀ old nextf s', es !! length files = Some old →
     let e := new_entry name old size start in
     transacted total (files ++ [(take 55 name, data)]) (create_writes es (length files) e nextf total data) s s' →
     fs_rep s' total (<[length files := e]> es) (files ++ [(take 55 name, data)]) → Q 0 s') →
  wp (slot ← mem_get nfiles;
      e ← dir_at slot;
      nm ← of_option (copy_name name (d_name e));
      put_dir slot (Dirent nm (u32 size) (u32 start));;
      on_mem (set_nfiles (slot + 1));;
      for_n (Z.to_nat (nblk size)) 0 (λ b, put_used (start + b) 1);;
      nextf ← mem_get next_free;
      when (nextf <? u32 (start + nblk size)) (on_mem (set_next_free (u32 (start + nblk size))));;
      log_dir;;
      log_super;;
      log_commit;;
      mret 0) Q t.
Proof.
  intros Hrep Hname Hbytes Hsize Hn Hnb14 Hrun Hlog Hcore HQ. pose proof Hrep as [Hr Hcap Hs Hcl Hla Hm].
  assert (dir_wf es) as Hwf by (eapply layout_dir_wf; [apply content_sector, Hr|done]). pose proof Hwf as [Hl8 Hwf'].
  pose proof (la_bound _ _ _ _ Hla) as Ht. pose proof (nblk_bound size ltac:(lia)) as Hnb. unfold BSIZE in Hnb.
  change (Z.to_nat MAXFILES) with 8%nat in *. set (nb := nblk size) in *. pose proof Hrun as (Hst & Hend & _).
  unfold core in Hcore. injection Hcore as C1 C2 C3 C4 C5 C6.
  wp_step. apply wp_mem_get. rewrite C2, (mr_nfiles _ _ _ _ Hm).
  destruct (lookup_lt_is_Some_2 es (length files)) as [old Eold]; [lia|].
  assert (dirent_wf old) as Hold by (by eapply Forall_lookup_1).
  wp_step. apply (wp_dir_at old); [lia|by rewrite Nat2Z.id, C1, (mr_dir _ _ _ _ Hm)|].
  wp_step. eapply wp_of_option; [apply copy_name_eq, Hold|].
  rewrite !u32_small by (unfold MAXBLK, DATASTART, LOGSTART, LOGN in *; lia).
  change (Dirent _ size start) with (new_entry name old size start). set (e := new_entry name old size start).
  assert (dirent_wf e) as He by (apply new_entry_wf; [done|done|lia|unfold MAXBLK, DATASTART, LOGSTART, LOGN in *; lia]).
  wp_step. unfold put_dir. wp_step. apply wp_mem_get. wp_step. apply wp_assertb.
  { rewrite C1, (mr_dir _ _ _ _ Hm). bsimp; lia. }
  apply wp_on_mem. wp_step. apply wp_on_mem. wp_step. rewrite Nat2Z.id, C1, (mr_dir _ _ _ _ Hm).
  apply (wp_paint nb 1 start); [lia| |].
  { intros k u R Hk HR. apply wp_put_used; [unfold MAXBLK, DATASTART, LOGSTART, LOGN in *; lia|done]. }
  unfold with_used. cbn [fm low used set_nfiles set_dir]. wp_step. apply wp_mem_get. wp_step.
  (* the state in memory is final now, up to [next_free] *)
  assert (∀ nextf, wp (log_dir;; log_super;; log_commit;; mret 0) Q
    (FsOn (set_next_free nextf (set_used (paint 1 (used (fm t)) (seqZ start nb))
      (set_nfiles (Z.of_nat (length files) + 1) (set_dir (<[length files := e]> es) (fm t))))) (low t))) as Hrest.
  { intros nextf. apply (wp_log_meta (low s) (data_writes start data) (<[length files := e]> es) (S (length files)) nextf total).
    - by eapply logging_mem.
    - rewrite length_data_writes, Hsize. fold nb. change (Z.to_nat LOGN) with 16%nat. lia.
    - lia.
    - apply data_targets; [done|]. rewrite Hsize. done.
    - done.
    - split; [by rewrite length_insert|by apply Forall_insert].
    - cbn. lia.
    - lia.
    - done.
    - cbn. rewrite C5. apply Hm.
    - intros s' Hd' Hc' Hs'. unfold core in Hc'. cbn in Hc'. injection Hc' as D1 D2 D3 D4 D5 D6.
      cut (transacted total (files ++ [(take 55 name, data)]) (create_writes es (length files) e nextf total data) s s' ∧
        fs_rep s' total (<[length files := e]> es) (files ++ [(take 55 name, data)])); [by intros []; eapply HQ|].
      eapply committed_rep; [exact Hrep|exact Hd'|done| | | | | |].
      + rewrite length_data_writes, Hsize. fold nb. change (Z.to_nat LOGN) with 16%nat. lia.
      + lia.
      + apply data_targets; [done|by rewrite Hsize].
      + intros b Hb%data_writes_fst. cbn [d_start e new_entry] in Hb. unfold DATASTART, LOGSTART, LOGN in *. lia.
      + apply (layout_create _ _ _ _ e (take 55 name) data (drop (S (length (take 55 name))) (d_name old)));
          try done; [apply Forall_take; by apply c_chars_nonzero|].
        intros b Hb. eapply free_run_apart; done.
      + destruct Hm as [M1 M2 M3 M4 M5]. fold e. split; try congruence.
        * rewrite D2, length_app. cbn [length]. lia.
        * intros b Hb. rewrite D6, length_app, Nat.add_1_r, extents_snoc, used_paint, elem_of_app by lia.
          change (extent e) with (seqZ start nb). case_bool_decide as Ein; [naive_solver|].
          rewrite C6, M5 by done. naive_solver. }
  destruct (next_free _ <? _).
  - cbn [when]. apply wp_on_mem. apply Hrest.
  - cbn [when]. wp_step. specialize (Hrest (next_free (fm t))). by destruct (fm t).
Qed.

Lemma wp_fs_create total es files name data size (Q : Z → fs D → Prop) s :
  fs_rep s total es files → c_chars name → Forall is_byte data → size ≤ Z.of_nat (length data) →
  size + 511 < 2 ^ 31 →
  (create_refused s name size total files → Q (-1) s) →
  (∀ old start nextf s', ¬ create_refused s name size total files →
     first_fit (used (fm s)) total (nblk size) start → DATASTART ≤ start → es !! length files = Some old →
     let e := new_entry name old size start in
     let data := take (Z.to_nat size) data in
     transacted total (files ++ [(take 55 name, data)]) (create_writes es (length files) e nextf total data) s s' →
     fs_rep s' total (<[length files := e]> es) (files ++ [(take 55 name, data)]) → Q 0 s') →
  wp (fs_create name data size) Q s.
Proof.
  intros Hrep Hname Hbytes Hsz Hov Hno Hyes. pose proof Hrep as [Hr Hcap Hs Hcl Hla Hm]. unfold create_refused in *.
  assert (dir_wf es) as Hwf by (eapply layout_dir_wf; [apply content_sector, Hr|done]). pose proof Hwf as [Hl8 Hwf'].
  pose proof (la_bound _ _ _ _ Hla) as Ht.
  unfold fs_create. wp_step. apply wp_mem_get. rewrite (mr_mounted _ _ _ _ Hm). wp_step. apply wp_mem_get.
  rewrite (mr_nfiles _ _ _ _ Hm). cbn [negb orb]. destruct (Z.leb_spec MAXFILES (Z.of_nat (length files))) as [H1|H1]; cbn [orb].
  { wp_step. apply Hno. by left. }
  destruct (Z.ltb_spec size 0) as [H2|H2]; [wp_step; apply Hno; by right; left|].
  wp_step. eapply wp_find_file; [done|by apply c_chars_nonzero|].
  destruct (lookup_file name files) as [i|] eqn:Ei; cbn [option_map]; [wp_step; apply Hno; by right; right; left|].
  wp_step. apply wp_assertb; [unfold BSIZE; bsimp; lia|]. cbv zeta.
  change ((size + BSIZE - 1) / BSIZE) with (nblk size). set (nb := nblk size) in *.
  destruct (Z.ltb_spec LOGN (nb + 2)) as [H3|H3]; [wp_step; apply Hno; by right; right; right; left|].
  pose proof (nblk_bound size H2) as Hnb. fold nb in Hnb. unfold BSIZE in Hnb. unfold LOGN in H3.
  wp_step. apply (wp_balloc nb total); [unfold MAXBLK; lia|done|apply Hm|]. intros start Hfit.
  destruct Hfit as [[Hrun Hfirst]|[-> Hfull]].
  2: { cbn [Z.ltb Z.compare]. wp_step. apply Hno. by repeat right. }
  assert (¬ (MAXFILES ≤ Z.of_nat (length files) ∨ size < 0 ∨ None ≠ @None nat ∨ LOGN < nb + 2 ∨
    ∀ b, ¬ free_run (used (fm s)) total nb b)) as Hok.
  { intros [?|[?|[?|[?|Hf]]]]; [lia|lia|done|unfold LOGN in *; lia|by apply (Hf start)]. }
  pose proof Hrun as (Hst & Hend & _). destruct (Z.ltb_spec start 0); [unfold DATASTART, LOGSTART, LOGN in *; lia|].
  wp_step. apply wp_log_begin; [done|done|]. intros s1 Hlog1 Hlow1 Hc1. wp_step.
  set (data' := take (Z.to_nat size) data). assert (Z.of_nat (length data') = size) as Hld by (unfold data'; rewrite length_take; lia).
  apply (wp_log_data (low s)); [done|unfold DATASTART, LOGSTART, LOGN in *; lia|lia|fold nb; lia|lia|done|].
  intros s2 Hlog2 Hc2. fold data' in Hlog2. rewrite Hc1 in Hc2.
  apply (wp_create_entry total es files name data' size start Q s s2); try done.
  - by apply Forall_take.
  - unfold MAXFILES in *. lia.
  - lia.
  - intros old nextf s' Eold e Hd Hrep'. eapply (Hyes old start nextf); try done. by left.
Qed.

(** ** Deleting a file *)

(** [es] with the [k] entries behind [idx] moved down by one. *)
Definition shifted (es : list dirent) (idx k : nat) (l : list dirent) : Prop :=
  length l = length es ∧ ∀ j, l !! j = if bool_decide (idx ≤ j < idx + k)%nat then es !! S j else es !! j.

Lemma shifted_step es idx k l e :
  shifted es idx k l → es !! S (idx + k) = Some e → shifted es idx (S k) (<[(idx + k)%nat := e]> l).
Proof.
  intros [Hl Hj] He. apply lookup_lt_Some in He as Hlt. split; [by rewrite length_insert|]. intros j.
  destruct (decide (j = idx + k)%nat) as [->|Hne].
  - rewrite list_lookup_insert_eq by lia. rewrite bool_decide_eq_true_2 by lia. done.
  - rewrite list_lookup_insert_ne by done. rewrite Hj. case_bool_decide as E1; case_bool_decide as E2; try done; lia.
Qed.

Lemma shifted_removed es n idx l :
  shifted es idx (n - 1 - idx) l → (idx < n ≤ length es)%nat → <[(n - 1)%nat := no_entry]> l = removed es n idx.
Proof.
  intros [Hl Hj] Hn. apply list_eq. intros j. unfold removed. rewrite delete_take_drop.
  assert (length (take idx (take n es)) = idx) as L1 by (rewrite !length_take; lia).
  assert (length (drop (S idx) (take n es)) = n - 1 - idx)%nat as L2 by (rewrite length_drop, length_take; lia).
  destruct (decide (j < idx)%nat) as [C1|C1].
  { rewrite list_lookup_insert_ne, Hj, bool_decide_eq_false_2 by lia.
    rewrite !lookup_app_l by (rewrite ?length_app, ?L1; lia). by rewrite !lookup_take_lt by lia. }
  destruct (decide (j < n - 1)%nat) as [C2|C2].
  { rewrite list_lookup_insert_ne, Hj, bool_decide_eq_true_2 by lia.
    rewrite lookup_app_l by (rewrite length_app, L1, L2; lia). rewrite lookup_app_r by (rewrite L1; lia).
    rewrite L1, lookup_drop, lookup_take_lt by lia. f_equal. lia. }
  rewrite lookup_app_r by (rewrite length_app, L1, L2; lia). rewrite length_app, L1, L2.
  destruct (decide (j = n - 1)%nat) as [->|C3].
  { rewrite list_lookup_insert_eq by lia. by replace (n - 1 - (idx + (n - 1 - idx)))%nat with 0%nat by lia. }
  rewrite list_lookup_insert_ne, Hj, bool_decide_eq_false_2 by lia.
  rewrite lookup_app_r by (simpl; lia). cbn [length]. rewrite lookup_drop. f_equal. lia.
Qed.

Lemma extents_delete es n idx e b :
  NoDup (extents (take n es)) → take n es !! idx = Some e →
  b ∈ extents (delete idx (take n es)) ↔ b ∈ extents (take n es) ∧ b ∉ extent e.
Proof.
  intros Hnd He. pose proof (delete_Permutation _ _ _ He) as Hp.
  assert (extents (take n es) ≡ₚ extent e ++ extents (delete idx (take n es))) as Hx.
  { apply (bind_Permutation extent) in Hp. by rewrite bind_cons in Hp. }
  rewrite Hx in Hnd. apply NoDup_app in Hnd as (_ & Hdis & _). rewrite Hx, elem_of_app. naive_solver.
Qed.

Lemma wp_fs_delete total es files name (Q : Z → fs D → Prop) s :
  fs_rep s total es files → c_chars name →
  (lookup_file name files = None → Q (-1) s) →
  (∀ i nextf s', lookup_file name files = Some i →
     transacted total (delete i files)
       (meta_writes (removed es (length files) i) (Z.of_nat (length files - 1)) nextf total) s s' →
     fs_rep s' total (removed es (length files) i) (delete i files) → Q 0 s') →
  wp (fs_delete name) Q s.
Proof.
  intros Hrep Hname Hno Hyes. pose proof Hrep as [Hr Hcap Hs Hcl Hla Hm].
  assert (dir_wf es) as Hwf by (eapply layout_dir_wf; [apply content_sector, Hr|done]). pose proof Hwf as [Hl8 Hwf'].
  pose proof (la_bound _ _ _ _ Hla) as Ht. pose proof (la_few _ _ _ _ Hla) as Hfew. change (Z.to_nat MAXFILES) with 8%nat in *.
  unfold fs_delete. wp_step. apply wp_mem_get. rewrite (mr_mounted _ _ _ _ Hm). cbn [negb]. wp_step.
  eapply wp_find_file; [done|by apply c_chars_nonzero|].
  destruct (lookup_file name files) as [idx|] eqn:Ei; cbn [option_map]; [|wp_step; by apply Hno].
  destruct (lookup_file_spec _ _ _ Ei) as (f & Hf & _ & _).
  destruct (found_entry _ _ _ _ _ _ _ Hrep Ei Hf) as (e & He & Hef & Hi). rewrite (mr_dir _ _ _ _ Hm) in He.
  destruct (entry_blocks _ _ _ _ Hef (proj2 Ht)) as (Eb & Hb0 & Hsz & Hst).
  pose proof (en_start _ _ _ _ Hef) as Hs0. pose proof (en_end _ _ _ _ Hef) as Hend.
  wp_step. apply (wp_dir_at e); [lia|by rewrite Nat2Z.id, (mr_dir _ _ _ _ Hm)|]. wp_step. rewrite Eb.
  apply (wp_paint (nblk (d_size e)) 0 (d_start e)); [done| |].
  { intros k t R Hk HR. cbv zeta. unfold MAXBLK, DATASTART, LOGSTART, LOGN in *. rewrite u32_small by lia.
    destruct (Z.ltb_spec (d_start e + k) 8192); [|lia]. apply wp_put_used; [unfold MAXBLK; lia|done]. }
  fold (extent e). set (s1 := with_used _ s). wp_step. apply wp_mem_get. cbn [s1 with_used fm nfiles set_used].
  rewrite (mr_nfiles _ _ _ _ Hm). wp_step.
  apply (wp_for_n (λ j t, ∃ l, t = FsOn (set_dir l (fm s1)) (low s) ∧ shifted es idx (Z.to_nat j - idx) l)).
  { exists es. split; [|split; [done|]].
    - rewrite <- (mr_dir _ _ _ _ Hm). unfold s1, with_used. cbn. by destruct (fm s).
    - intros j. rewrite bool_decide_eq_false_2 by lia. done. }
  { intros j t Hj (l & -> & Hl). replace (Z.of_nat (Z.to_nat _)) with (Z.of_nat (length files) - 1 - Z.of_nat idx) in Hj by lia.
    destruct (lookup_lt_is_Some_2 es (S (Z.to_nat j))) as [e' He']; [lia|].
    wp_step. apply (wp_dir_at e'); [lia| |].
    { cbn [fm dir set_dir]. destruct Hl as [_ Hl]. rewrite Hl, bool_decide_eq_false_2 by lia. rewrite <- He'. f_equal. lia. }
    unfold put_dir. wp_step. apply wp_mem_get. wp_step. apply wp_assertb.
    { cbn [fm dir set_dir]. destruct Hl as [Hl _]. rewrite Hl. bsimp; lia. }
    apply wp_on_mem. eexists. split; [reflexivity|]. cbn [fm dir set_dir low].
    replace (Z.to_nat (j + 1) - idx)%nat with (S (Z.to_nat j - idx)) by lia.
    replace (Z.to_nat j) with (idx + (Z.to_nat j - idx))%nat at 2 by lia. apply shifted_step; [done|].
    rewrite <- He'. f_equal. lia. }
  intros t (l & -> & Hl). replace (Z.to_nat _ - idx)%nat with (length files - 1 - idx)%nat in Hl by lia.
  destruct (lookup_lt_is_Some_2 l (length files - 1)) as [el Hel]; [destruct Hl; lia|].
  assert (length (d_name el) = 56%nat) as Hnl.
  { destruct Hl as [_ Hl]. rewrite Hl in Hel. assert (dirent_wf el) as [[Hn _] _]; [|done].
    case_bool_decide; by eapply Forall_lookup_1. }
  wp_step. apply (wp_dir_at el); [lia|replace (Z.to_nat (Z.of_nat (length files) - 1)) with (length files - 1)%nat by lia; done|].
  wp_step. unfold put_dir. wp_step. apply wp_mem_get. wp_step. apply wp_assertb.
  { cbn [fm dir set_dir]. destruct Hl as [Hl _]. rewrite Hl. bsimp; lia. }
  apply wp_on_mem. wp_step. apply wp_on_mem. cbn [fm low dir set_dir]. rewrite Hnl.
  replace (Z.to_nat (Z.of_nat (length files) - 1)) with (length files - 1)%nat by lia.
  change (Dirent (replicate 56 0) 0 0) with no_entry. rewrite (shifted_removed es (length files) idx) by (done || lia).
  wp_step. apply wp_log_begin; [done|done|]. intros s2 Hlog2 Hlow2 Hc2. cbn [low] in Hlog2. unfold core in Hc2. cbn in Hc2.
  injection Hc2 as C1 C2 C3 C4 C5 C6.
  apply (wp_log_meta (low s) [] (removed es (length files) idx) (length files - 1) (next_free (fm s)) total); try done.
  - change (Z.to_nat LOGN) with 16%nat. simpl. lia.
  - lia.
  - apply removed_wf; [done|lia].
  - rewrite C2. lia.
  - lia.
  - rewrite C5. apply Hm.
  - intros s' Hd' Hc' Hs'. cbn [app] in Hd'. unfold core in Hc'. injection Hc' as D1 D2 D3 D4 D5 D6.
    set (ws := meta_writes _ _ _ _) in Hd'.
    cut (transacted total (delete idx files) ws s s' ∧ fs_rep s' total (removed es (length files) idx) (delete idx files));
      [by intros []; eapply Hyes|].
    apply (committed_rep s s' total es (removed es (length files) idx) files (delete idx files) []);
      [exact Hrep|exact Hd'|done| | | | | |].
    + change (Z.to_nat LOGN) with 16%nat. simpl. lia.
    + lia.
    + apply Forall_nil_2.
    + by intros b Hb%elem_of_nil.
    + by apply layout_delete.
    + assert (length (delete idx files) = length files - 1)%nat as Hld by (rewrite length_delete; [done|by eexists]).
      destruct Hm as [M1 M2 M3 M4 M5]. split; try congruence; [lia|].
      intros b Hb. rewrite D6, C6, used_paint, Hld, take_removed by lia.
      rewrite (extents_delete _ _ _ e) by (apply Hla || by rewrite lookup_take_lt by lia).
      pose proof (M5 b Hb) as M5b. case_bool_decide as Ein; [|naive_solver].
      split; [done|]. intros [Hlt|[_ Hnin]]; [|done]. unfold extent in Ein. apply elem_of_seqZ in Ein. lia.
Qed.
End write.
