(* ===== verification/FsSpec.v ===== *)
(** * The contract of the file system (src/fs.h)

    Files are a list of names and contents, in directory order. Creating and
    deleting are atomic with respect to crashes: whatever prefix of the sector
    writes reached the disk, and however often mounting is interrupted after
    that, the next mount finds the files before or the files after. *)
From S2P Require Import Prelude Spinlock Uart Disk Fs FsLayout FsOps FsRead FsWrite.

(** The writing calls. *)
Inductive request := Create (name data : list Z) (size : Z) | Delete (name : list Z).

Definition permitted (q : request) : Prop :=
  match q with
  | Create name data size =>
      c_chars name ∧ Forall is_byte data ∧ size ≤ Z.of_nat (length data) ∧ size + 511 < 2 ^ 31
  | Delete name => c_chars name
  end.

(** What a call does to the files, with its result. [place] says whether there
    is room for the blocks of a new file. *)
Definition spec (place : Z → Prop) (q : request) (files : list file) (r : Z) (files' : list file) : Prop :=
  match q with
  | Create name data size =>
      let ok := Z.of_nat (length files) < MAXFILES ∧ 0 ≤ size ∧ lookup_file name files = None ∧
        nblk size + 2 ≤ LOGN ∧ place (nblk size) in
      (ok ∧ r = 0 ∧ files' = files ++ [(take 55 name, take (Z.to_nat size) data)]) ∨
      (¬ ok ∧ r = -1 ∧ files' = files)
  | Delete name =>
      match lookup_file name files with
      | Some i => r = 0 ∧ files' = delete i files
      | None => r = -1 ∧ files' = files
      end
  end.

Lemma recoverable_ext d d' total files :
  (∀ b, d b = d' b) → recoverable d total files → recoverable d' total files.
Proof.
  intros Hd. unfold recoverable. rewrite <- (Hd LOGHDR). destruct (_ =? 0).
  - intros [es Hla]. exists es. eapply layout_ext; [|done]. by intros b _.
  - assert (∀ blks, installs d' blks = installs d blks) as Hi.
    { intros blks. unfold installs. apply imap_ext. intros i b _. by rewrite Hd. }
    intros [H1 H2 H3 H4 [es H5]]. split; rewrite <- ?(Hd 0), <- ?(Hd LOGHDR), ?Hi; try done.
    exists es. eapply layout_ext; [|done]. intros b _. apply played_indep. by right.
Qed.

Lemma recovery_ext d d' : (∀ b, d b = d' b) → recovery d = recovery d'.
Proof.
  intros Hd. unfold recovery. rewrite (Hd LOGHDR). destruct (_ =? 0); [done|]. f_equal.
  unfold installs. apply imap_ext. intros i b _. by rewrite Hd.
Qed.

Section spec.
Context {D : Type} `{HasDevLaws D, !BlockDev D, !BlockDevLaws D}.
Implicit Types s t : fs D.

Definition perform (q : request) : M (fs D) Z :=
  match q with Create name data size => fs_create name data size | Delete name => fs_delete name end.

(** The file system holds [files]. *)
Definition holds (s : fs D) (total : Z) (files : list file) : Prop := ∃ es, fs_rep s total es files.

(** Disks that interrupted mounts can make out of [d]: each time the kernel
    powers up and some prefix of the writes of [fs_init] reaches the disk. *)
Inductive interrupted (total : Z) (d : sectors) : sectors → Prop :=
| intr_none : interrupted total d d
| intr_mount d1 s s' ws k :
    interrupted total d d1 → powered_up s total d1 → fs_init s = Done tt s' →
    history (low s') = history (low s) ++ ws → interrupted total d (played d1 (take k ws)).

Lemma powered_up_mounts s total d files :
  powered_up s total d → recoverable d total files →
  ∃ s' es out, fs_init s = Done tt s' ∧ dstep (recovery d) out (low s) (low s') ∧ fs_rep s' total es files.
Proof.
  intros [H1 H2 H3 H4] Hr.
  assert (wp fs_init (λ _ s', ∃ es out, dstep (recovery d) out (low s) (low s') ∧ fs_rep s' total es files) s) as Hwp.
  { apply (wp_fs_init total files); [done|done|done|by apply (recoverable_ext d)|].
    intros s' es out Hd Hrep. exists es, out.
    rewrite (recovery_ext d (content (low s))) by done. done. }
  apply wp_run in Hwp as ([] & s' & Hrun & es & out & Hd & Hrep). by exists s', es, out.
Qed.

Lemma interrupted_recoverable total d d' files :
  interrupted total d d' → recoverable d total files → recoverable d' total files.
Proof.
  intros Hi Hr. induction Hi as [|d1 s s' ws k _ IH Hup Hrun Hh]; [done|].
  destruct (powered_up_mounts _ _ _ _ Hup IH) as (s2 & es & out & Hrun' & Hd & _).
  rewrite Hrun in Hrun'. injection Hrun' as <-. pose proof (ds_history _ _ _ _ Hd) as Hh'.
  rewrite Hh in Hh'. apply app_inv_head in Hh' as ->. by apply recoverable_prefix.
Qed.

(** Room for [n] consecutive blocks. *)
Definition has_place (s : fs D) (total : Z) (n : Z) : Prop := ∃ b, free_run (used (fm s)) total n b.

(** A call, its result, and the transaction it writes. *)
Lemma perform_spec q total es files s :
  fs_rep s total es files → permitted q →
  ∃ r s' files' ws, perform q s = Done r s' ∧ spec (has_place s total) q files r files' ∧
    holds s' total files' ∧
    ((r = -1 ∧ s' = s) ∨ (r = 0 ∧ transacted total files' ws s s')).
Proof.
  intros Hrep Hp. pose proof Hrep as [Hr Hcap Hs Hcl Hla Hm].
  cut (wp (perform q) (λ r s', ∃ files' ws, spec (has_place s total) q files r files' ∧ holds s' total files' ∧
    ((r = -1 ∧ s' = s) ∨ (r = 0 ∧ transacted total files' ws s s'))) s).
  { intros (r & s' & Hrun & files' & ws & Hx)%wp_run. by exists r, s', files', ws. }
  destruct q as [name data size|name]; cbn [perform permitted spec] in *.
  - destruct Hp as (Hn & Hb & Hsz & Hov). apply (wp_fs_create total es files); [done..| |].
    + intros Href. exists files, []. split_and!; [|by exists es|by left]. right. split; [|done].
      intros (H1 & H2 & H3 & H4 & [b H5]). destruct Href as [?|[?|[?|[?|Hf]]]]; [lia|lia|done|lia|by apply (Hf b)].
    + intros old start nextf s' Hok Hfit Hst Hold e data' Htr Hrep'. eexists _, _.
      split_and!; [|by eexists|right; by split]. left. split; [|done]. unfold create_refused in Hok.
      split_and!.
      * destruct (decide (MAXFILES ≤ Z.of_nat (length files))); [|lia]. destruct Hok. by left.
      * destruct (decide (size < 0)); [|lia]. destruct Hok. by right; left.
      * destruct (lookup_file name files); [|done]. destruct Hok. by right; right; left.
      * destruct (decide (LOGN < nblk size + 2)); [|lia]. destruct Hok. by right; right; right; left.
      * destruct Hfit as [[Hf _]|[-> _]]; [by eexists|]. unfold DATASTART, LOGSTART, LOGN in Hst. lia.
  - apply (wp_fs_delete total es files); [done|done| |].
    + intros E. exists files, []. rewrite E. split_and!; [done|done|by exists es|by left].
    + intros i nextf s' E Htr Hrep'. eexists _, _. rewrite E. split_and!; [done|done|by eexists|right; by split].
Qed.
End spec.

(** ** An empty disk of 64 sectors, mounted *)

Definition demo_sectors : sectors := λ b,
  if b =? 0 then padded (super_bytes 0 DATASTART 64) else replicate (Z.to_nat BSIZE) 0.
Definition demo_low : ramdisk := RamDisk demo_dev 64 demo_sectors [].
Definition demo_dir : list dirent := replicate 8 no_entry.
Definition demo_fs : fs ramdisk := FsOn
  (FsMem demo_dir 0 true DATASTART 64 (replicate (Z.to_nat BSIZE) 0) (paint 1 ∅ (seqZ 0 DATASTART)) (replicate 16 0) 0 false)
  demo_low.

Lemma demo_zeros : is_sector (replicate (Z.to_nat BSIZE) 0).
Proof. split; [by rewrite length_replicate|]. apply Forall_replicate. unfold is_byte. lia. Qed.

Lemma demo_good : disk_good demo_low.
Proof.
  intros b. change (is_sector (demo_sectors b)). unfold demo_sectors. destruct (b =? 0); [apply super_sector|apply demo_zeros].
Qed.

Lemma demo_holds : holds demo_fs 64 [].
Proof.
  exists demo_dir. split; try done.
  - split; [apply demo_good|apply demo_dev_ready].
  - split; [apply demo_zeros|done].
  - change (content (low demo_fs)) with demo_sectors. split; try done.
    + cbn. lia.
    + constructor.
  - split; try done. intros b Hb. change (used (fm demo_fs)) with (paint 1 ∅ (seqZ 0 DATASTART)). rewrite used_paint.
    change (extents (take (length (@nil file)) demo_dir)) with (@nil Z). rewrite elem_of_nil.
    case_bool_decide as E; rewrite elem_of_seqZ in E.
    + split; [left; lia|done].
    + unfold used_at. rewrite lookup_empty. cbn. split; [done|]. intros [?|[]]. lia.
Qed.

Definition demo_request : request := Create [97; 46; 116] [104; 105; 10] 3.
Lemma demo_permitted : permitted demo_request.
Proof. repeat split; try (repeat constructor; unfold is_byte; lia); simpl; lia. Qed.

(** ** The theorems *)

Section claims.
Context {D : Type} `{HasDevLaws D, !BlockDev D, !BlockDevLaws D}.
Implicit Types s t : fs D.

(** C9: creating and deleting files. On a mounted file system every call returns.
    [fs_create] succeeds exactly when the directory has a slot, the size is not
    negative, no file has the name, the transaction fits the log and there is
    room for the blocks; then the file is added, with its name cut to 55
    characters. [fs_delete] succeeds exactly when there is such a file, and
    removes it. A refused call changes nothing, and every other file keeps its
    name and content. *)
Theorem fs_calls_refine q total files s :
  holds s total files → permitted q →
  ∃ r s' files', perform q s = Done r s' ∧ spec (has_place s total) q files r files' ∧ holds s' total files' ∧
    (r = -1 → s' = s).
Proof.
  intros [es Hrep] Hq. destruct (perform_spec q total es files s Hrep Hq) as (r & s' & files' & ws & Hrun & Hspec & Hh & Hc).
  exists r, s', files'. split_and!; [done..|]. intros ->. by destruct Hc as [[_ ->]|[? _]].
Qed.

(** C2: crash atomicity. Stop the machine after any prefix of the sector writes of
    [fs_create] or [fs_delete], then interrupt any number of mounts anywhere: the
    next mount succeeds and finds the files before the call when the prefix ends
    at or before the commit point [c], and the files after the call from then on.
    Nothing in between is ever seen, and a call that returned 0 is durable. *)
Theorem fs_crash_atomic q total files s :
  holds s total files → permitted q →
  ∃ r s' files' ws c, perform q s = Done r s' ∧ spec (has_place s total) q files r files' ∧
    history (low s') = history (low s) ++ ws ∧ (r = 0 → (c < length ws)%nat) ∧
    ∀ k d s1, interrupted total (played (content (low s)) (take k ws)) d → powered_up s1 total d →
      ∃ s2, fs_init s1 = Done tt s2 ∧ holds s2 total (if (k <=? c)%nat then files else files').
Proof.
  intros [es Hrep] Hq. destruct (perform_spec q total es files s Hrep Hq) as (r & s' & files' & ws & Hrun & Hspec & Hh & Hc).
  assert (∀ d d1 fs1 s1, recoverable d total fs1 → interrupted total d d1 → powered_up s1 total d1 →
    ∃ s2, fs_init s1 = Done tt s2 ∧ holds s2 total fs1) as Hmount.
  { intros d d1 fs1 s1 Hr Hi Hup. destruct (powered_up_mounts s1 total d1 fs1) as (s2 & es2 & out & Hrun2 & _ & Hrep2).
    - done.
    - by eapply interrupted_recoverable.
    - exists s2. split; [done|]. by exists es2. }
  destruct Hrep as [_ _ _ Hcl Hla _]. destruct Hc as [[-> ->]|[-> [T1 T2 T3 T4 [es' T5]]]].
  - assert (files' = files) as ->.
    { destruct q as [name data size|name]; cbn in Hspec.
      - by destruct Hspec as [(_ & ? & _)|(_ & _ & ->)].
      - by destruct (lookup_file name files); destruct Hspec as [? ->]. }
    exists (-1), s, files, [], O. rewrite app_nil_r. split_and!; try done. intros k d s1. rewrite take_nil. cbn [played fold_left].
    replace (if (k <=? 0)%nat then files else files) with files by (by destruct (k <=? 0)%nat).
    apply Hmount. unfold recoverable. rewrite Hcl. by exists es.
  - exists 0, s', files', (transaction ws), (length ws). split_and!; [done|done|apply T1| |].
    + intros _. unfold transaction. rewrite !length_app. unfold log_writes. rewrite length_imap. simpl. lia.
    + intros k d s1. apply Hmount. by apply (transaction_recoverable _ total es _ es').
Qed.

(** C34: reading a file. [fs_read] returns the size of the first file with the name
    and puts its bytes at the start of the buffer; it returns -1, with the buffer
    untouched, when there is none or it is larger than [max]. Nothing is written
    to the disk, and the files are as before. *)
Theorem fs_read_returns name buf max total files s :
  holds s total files → c_chars name → max ≤ Z.of_nat (length buf) →
  ∃ s', fs_read name buf max s = Done (read_result name buf max files) s' ∧ holds s' total files ∧ unwritten [] s s'.
Proof.
  intros [es Hrep] Hn Hm.
  assert (wp (fs_read name buf max) (λ r s', r = read_result name buf max files ∧ unwritten [] s s') s) as Hwp.
  { apply (wp_fs_read total es files); [done|by apply c_chars_nonzero|done|]. done. }
  apply wp_run in Hwp as (r & s' & Hrun & -> & Hu). exists s'. split_and!; [done| |done].
  exists es. by eapply unwritten_rep.
Qed.

(** C33: reading pages. [fs_stat] finds every file and nothing else, and with the
    two numbers it reports [fs_read_page] delivers the page of the file at any
    block-aligned offset, filled up with zeros behind the end of the file,
    whatever the page held. *)
Theorem fs_pages name total files s :
  holds s total files → c_chars name →
  match file_named name files with
  | None => fs_stat name s = Done None s
  | Some f => ∃ start, fs_stat name s = Done (Some (start, Z.of_nat (length f.2))) s ∧
      ∀ q page, length page = Z.to_nat 4096 → Z.of_nat (512 * q) + 4096 < 2 ^ 31 →
        ∃ s', fs_read_page start (Z.of_nat (length f.2)) (Z.of_nat (512 * q)) page s = Done (page_of f.2 (512 * q)) s' ∧
          holds s' total files ∧ unwritten [] s s'
  end.
Proof.
  intros [es Hrep] Hn. pose proof Hrep as [_ _ _ _ Hla _].
  assert (wp (fs_stat name) (λ r s', s' = s ∧ match file_named name files with None => r = None | Some f =>
    ∃ i e, files !! i = Some f ∧ es !! i = Some e ∧ r = Some (d_start e, d_size e) end) s) as Hwp.
  { apply (wp_fs_stat total es files); [done|by apply c_chars_nonzero| |].
    - by intros ->.
    - intros i e f _ -> Hf He. split; [done|]. by exists i, e. }
  apply wp_run in Hwp as (r & s' & Hrun & -> & Hr). destruct (file_named name files) as [f|]; [|by rewrite Hrun, Hr].
  destruct Hr as (i & e & Hf & He & ->).
  assert (d_size e = Z.of_nat (length f.2)) as Es.
  { destruct (Forall2_lookup_r _ _ _ _ _ (la_entries _ _ _ _ Hla) Hf) as (e' & He' & Hef).
    rewrite lookup_take_lt in He' by (by eapply lookup_lt_Some). rewrite He in He'. injection He' as <-. apply Hef. }
  exists (d_start e). rewrite <- Es. split; [done|]. intros q page Hp Hq.
  assert (wp (fs_read_page (d_start e) (d_size e) (Z.of_nat (512 * q)) page)
    (λ r s', r = page_of f.2 (512 * q) ∧ unwritten [] s s') s) as Hwp.
  { by apply (wp_fs_read_page total es files i f). }
  apply wp_run in Hwp as (r & s' & Hrun' & -> & Hu). exists s'. split_and!; [done| |done].
  exists es. by eapply unwritten_rep.
Qed.

(** Listing and printing. [fs_ls] prints one line per file, its name and its
    size in decimal; [fs_cat] prints the bytes of the file unchanged, or the
    message that there is none. Neither writes to the disk. *)
Theorem fs_prints name total files s :
  holds s total files → c_chars name →
  (∃ s', fs_ls s = Done tt s' ∧ holds s' total files ∧ unwritten (files ≫= ls_line) s s') ∧
  (∃ s', fs_cat name s = Done tt s' ∧ holds s' total files ∧ unwritten (cat_output name files) s s').
Proof.
  intros [es Hrep] Hn. split.
  - assert (wp fs_ls (λ _ s', unwritten (files ≫= ls_line) s s') s) as Hwp by (by apply (wp_fs_ls total es files)).
    apply wp_run in Hwp as ([] & s' & Hrun & Hu). exists s'. split_and!; [done| |done]. exists es. by eapply unwritten_rep.
  - assert (wp (fs_cat name) (λ _ s', unwritten (cat_output name files) s s') s) as Hwp.
    { apply (wp_fs_cat total es files); [done|by apply c_chars_nonzero|done]. }
    apply wp_run in Hwp as ([] & s' & Hrun & Hu). exists s'. split_and!; [done| |done]. exists es. by eapply unwritten_rep.
Qed.

(** C39: a name of 56 characters or more. [fs_create] reports success, but the
    file it adds has the name cut to its first 55 characters, and the name is not
    cut when a file is looked up: under the name it was created with, [fs_stat]
    and [fs_delete] do not find it, and [fs_create] does not refuse a second file:
    as long as there is an entry and a run of blocks left, it succeeds again and
    leaves two files of the same, cut, name. *)
Theorem fs_long_name_lost name data size total files s s' :
  holds s total files → permitted (Create name data size) → (56 ≤ length name)%nat →
  fs_create name data size s = Done 0 s' →
  let kept := (take 55 name, take (Z.to_nat size) data) in
  holds s' total (files ++ [kept]) ∧
  fs_stat name s' = Done None s' ∧ fs_delete name s' = Done (-1) s' ∧
  ∀ data2 size2, permitted (Create name data2 size2) → 0 ≤ size2 → nblk size2 + 2 ≤ LOGN →
    Z.of_nat (length files) + 1 < MAXFILES → has_place s' total (nblk size2) →
    ∃ s2, fs_create name data2 size2 s' = Done 0 s2 ∧
      holds s2 total (files ++ [kept; (take 55 name, take (Z.to_nat size2) data2)]).
Proof.
  intros [es Hrep] Hq Hl Hrun kept.
  destruct (perform_spec (Create name data size) total es files s Hrep Hq) as (r & s2 & files' & ws & Hrun' & Hspec & [es' Hrep'] & _).
  cbn [perform] in Hrun'. rewrite Hrun in Hrun'. injection Hrun' as <- <-.
  destruct Hspec as [((_ & _ & Hno & _) & _ & ->)|(_ & ? & _)]; [|done]. fold kept in Hrep'.
  assert (lookup_file name (files ++ [kept]) = None) as Hlost.
  { revert Hno. clear -Hl. induction files as [|f fs IH]; cbn.
    - intros _. rewrite bool_decide_eq_false_2; [done|]. intros E. apply (f_equal length) in E. rewrite length_take in E. lia.
    - destruct (bool_decide (f.1 = name)); [done|]. intros E. rewrite IH; [done|]. by destruct (lookup_file name fs). }
  split; [by exists es'|]. split; [|split].
  - destruct Hq as (Hn & _). apply wp_eq, (wp_fs_stat total es' (files ++ [kept]));
      [done|by apply c_chars_nonzero|done|]. intros i e f E. congruence.
  - destruct Hq as (Hn & _). apply wp_eq, (wp_fs_delete total es' (files ++ [kept])); [done|done|done|].
    intros i nextf s3 E. congruence.
  - intros data2 size2 Hq2 Hsz Hlog Hcap Hplace.
    destruct (perform_spec (Create name data2 size2) total es' (files ++ [kept]) s' Hrep' Hq2) as (r & s2 & files2 & ws2 & Hrun2 & Hspec & Hh & _).
    exists s2. cbn [perform spec] in *. destruct Hspec as [(_ & -> & ->)|(Hbad & _)].
    + split; [done|]. by rewrite <- app_assoc in Hh.
    + destruct Hbad. rewrite length_app. simpl. split_and!; [lia|done..].
Qed.

(** The allocator is first fit. [balloc_contig] always returns; the result is
    the lowest block from which [n] blocks below the end of the disk are free, or
    -1 when there is no such block. *)
Theorem balloc_first_fit n s :
  0 ≤ n ≤ MAXBLK → DATASTART ≤ total_blocks (fm s) ≤ MAXBLK →
  ∃ r, balloc_contig n s = Done r s ∧ first_fit (used (fm s)) (total_blocks (fm s)) n r.
Proof.
  intros Hn Ht.
  assert (wp (balloc_contig n) (λ r s', s' = s ∧ first_fit (used (fm s)) (total_blocks (fm s)) n r) s) as Hwp.
  { apply (wp_balloc n (total_blocks (fm s))); [done|done|done|]. done. }
  apply wp_run in Hwp as (r & s' & Hrun & -> & Hf). by exists r.
Qed.
End claims.

(** ** Witnesses: on the empty disk *)

Lemma fs_calls_refine_witness :
  ∃ r s' files', perform demo_request demo_fs = Done r s' ∧
    spec (has_place demo_fs 64) demo_request [] r files' ∧ holds s' 64 files' ∧ (r = -1 → s' = demo_fs).
Proof. apply (fs_calls_refine demo_request 64 [] demo_fs); [apply demo_holds|apply demo_permitted]. Defined.

(** Power-up on the disk the kernel was running on. *)
Lemma fs_crash_atomic_witness :
  ∃ r s' files' ws c, perform demo_request demo_fs = Done r s' ∧
    spec (has_place demo_fs 64) demo_request [] r files' ∧
    history (low s') = history (low demo_fs) ++ ws ∧ (r = 0 → (c < length ws)%nat) ∧
    ∀ k d s1, interrupted 64 (played (content (low demo_fs)) (take k ws)) d → powered_up s1 64 d →
      ∃ s2, fs_init s1 = Done tt s2 ∧ holds s2 64 (if (k <=? c)%nat then [] else files').
Proof. apply (fs_crash_atomic demo_request 64 [] demo_fs); [apply demo_holds|apply demo_permitted]. Defined.

Lemma demo_name : c_chars [97; 46; 116].
Proof. repeat constructor; unfold is_byte; lia. Qed.

(** The disk with one file, "a.t". *)
Definition after_call (o : outcome (fs ramdisk) Z) : fs ramdisk :=
  match o with Done _ s => s | Halt s => s | Undef => demo_fs end.
Definition demo_one : fs ramdisk := after_call (perform demo_request demo_fs).
Definition demo_files : list file := [([97; 46; 116], [104; 105; 10])].

Lemma demo_one_holds : holds demo_one 64 demo_files.
Proof.
  destruct demo_holds as [es Hrep].
  destruct (perform_spec demo_request 64 es [] demo_fs Hrep demo_permitted) as (r & s' & files' & ws & Hrun & Hspec & Hh & _).
  assert (perform demo_request demo_fs = Done 0 demo_one) as Hone by (vm_compute; reflexivity).
  rewrite Hone in Hrun. apply done_inj in Hrun as [<- <-].
  destruct Hspec as [(_ & _ & ->)|(_ & E & _)]; [exact Hh|discriminate E].
Qed.
#[local] Opaque demo_one.

Lemma fs_read_returns_witness :
  ∃ s', fs_read [97; 46; 116] [1; 2; 3; 4] 4 demo_one = Done (3, [104; 105; 10; 4]) s' ∧
    holds s' 64 demo_files ∧ unwritten [] demo_one s'.
Proof.
  apply (fs_read_returns [97; 46; 116] [1; 2; 3; 4] 4 64 demo_files demo_one); [apply demo_one_holds|apply demo_name|simpl; lia].
Defined.

Lemma fs_pages_witness :
  ∃ start, fs_stat [97; 46; 116] demo_one = Done (Some (start, 3)) demo_one ∧
    ∀ q page, length page = Z.to_nat 4096 → Z.of_nat (512 * q) + 4096 < 2 ^ 31 →
      ∃ s', fs_read_page start 3 (Z.of_nat (512 * q)) page demo_one = Done (page_of [104; 105; 10] (512 * q)) s' ∧
        holds s' 64 demo_files ∧ unwritten [] demo_one s'.
Proof.
  pose proof (fs_pages [97; 46; 116] 64 demo_files demo_one demo_one_holds demo_name) as W.
  change (file_named [97; 46; 116] demo_files) with (Some ([97; 46; 116], [104; 105; 10] : list Z)) in W. exact W.
Defined.

Lemma fs_prints_witness :
  (∃ s', fs_ls demo_one = Done tt s' ∧ holds s' 64 demo_files ∧ unwritten (demo_files ≫= ls_line) demo_one s') ∧
  (∃ s', fs_cat [97; 46; 116] demo_one = Done tt s' ∧ holds s' 64 demo_files ∧ unwritten [104; 105; 10] demo_one s').
Proof. apply (fs_prints [97; 46; 116] 64 demo_files demo_one); [apply demo_one_holds|apply demo_name]. Defined.

Definition long_name : list Z := replicate 56 97.
Definition demo_long : fs ramdisk := after_call (fs_create long_name [] 0 demo_fs).

Lemma demo_long_eq : fs_create long_name [] 0 demo_fs = Done 0 demo_long.
Proof. vm_compute. reflexivity. Qed.

Definition demo_kept : file := (take 55 long_name, []).

Lemma demo_long_permitted : permitted (Create long_name [] 0).
Proof. split; [|split; [constructor|split; simpl; lia]]. apply Forall_replicate. unfold is_byte. lia. Qed.

(** The file system of the first call still has entries and blocks. *)
Lemma fs_long_name_lost_witness :
  holds demo_long 64 [demo_kept] ∧
  fs_stat long_name demo_long = Done None demo_long ∧ fs_delete long_name demo_long = Done (-1) demo_long ∧
  ∃ s2, fs_create long_name [104; 105; 10] 3 demo_long = Done 0 s2 ∧
    holds s2 64 [demo_kept; (take 55 long_name, [104; 105; 10])].
Proof.
  destruct (fs_long_name_lost long_name [] 0 64 [] demo_fs demo_long) as (W1 & W2 & W3 & W4);
    [apply demo_holds|apply demo_long_permitted|vm_compute; lia|apply demo_long_eq|].
  split; [exact W1|]. split; [exact W2|]. split; [exact W3|].
  apply (W4 [104; 105; 10] 3); [split; [apply demo_long_permitted|]|lia|vm_compute; discriminate|vm_compute; reflexivity|].
  { split; [repeat constructor; unfold is_byte; lia|split; simpl; lia]. }
  exists 40. split; [vm_compute; discriminate|]. split; [vm_compute; discriminate|].
  change (nblk 3) with 1. intros b Hb. replace b with 40 by lia. vm_compute. reflexivity.
Defined.

Lemma balloc_first_fit_witness :
  ∃ r, balloc_contig 2 demo_fs = Done r demo_fs ∧ first_fit (used (fm demo_fs)) 64 2 r.
Proof. apply (balloc_first_fit 2 demo_fs); vm_compute; split; discriminate. Defined.
