(* ===== verification/MkFs.v ===== *)
(** * The image builder (src/tools/mkfs.c) and mounting what it builds

    mkfs.c runs on the host: reading the input files is the host's, so the
    model takes their paths and contents. The result is the sequence of blocks
    written to the image. The theorem is the round trip with the kernel: the
    image mounts, and holds the files given. *)
From S2P Require Import Prelude Spinlock Uart Disk Fs FsLayout FsOps FsRead FsWrite FsSpec.

Definition zero_block : list Z := replicate (Z.to_nat BSIZE) 0.

(** [strrchr(path, '/')]: the characters behind the last slash. *)
Fixpoint basename_from (path base : list Z) : list Z :=
  match path with
  | [] => base
  | c :: path => if c =? 47 then basename_from path path else basename_from path base
  end.
Definition basename (path : list Z) : list Z := basename_from path path.

(** [strncpy(dir[i].name, base, NAMELEN - 1)] into a cleared array. *)
Definition strncpy_name (base : list Z) : list Z :=
  let s := take (Z.to_nat (NAMELEN - 1)) base in s ++ replicate (Z.to_nat NAMELEN - length s) 0.

(** Step 1: the directory entries, and the first block behind the data. *)
Fixpoint assign (files : list file) (cur : Z) : list dirent * Z :=
  match files with
  | [] => ([], cur)
  | (path, data) :: files =>
      let sz := Z.of_nat (length data) in
      let r := assign files (u32 (cur + (sz + BSIZE - 1) / BSIZE)) in
      (Dirent (strncpy_name (basename path)) (u32 sz) cur :: r.1, r.2)
  end.

(** Step 4: [while (written < sizes[i])]. *)
Fixpoint file_blocks (fuel : nat) (data : list Z) (written : Z) : option (list (list Z)) :=
  let size := Z.of_nat (length data) in
  if written <? size then
    match fuel with
    | O => None
    | S fuel =>
        let n := if BSIZE <? size - written then BSIZE else size - written in
        (padded (slice (Z.to_nat written) (Z.to_nat n) data) ::.) <$> file_blocks fuel data (written + n)
    end
  else Some [].

(** The blocks of the image, or [None] for exit status 1. Every round of step 4
    writes at least one byte of the file. *)
Definition mkfs (files : list file) : option (list (list Z)) :=
  let nfiles := Z.of_nat (length files) in
  if (nfiles <? 1) || (MAXFILES <? nfiles) then None
  else
    let '(dir, cur) := assign files DATASTART in
    let total := if 256 <? cur then cur else 256 in
    data ← mapM (λ f, file_blocks (S (length f.2)) f.2 0) files;
    Some ([padded (super_bytes nfiles cur total);
           dir_bytes (dir ++ replicate (Z.to_nat MAXFILES - length dir) no_entry); zero_block] ++
          replicate (Z.to_nat LOGN) zero_block ++ mjoin data ++ replicate (Z.to_nat (total - cur)) zero_block).

(** ** The image as a disk *)

(** Blocks behind the end of the image are not read. *)
Definition image_sectors (blocks : list (list Z)) : sectors := λ b, nth (Z.to_nat b) blocks zero_block.

(** The name and content the kernel sees of an input file. *)
Definition imported (f : file) : file := (take 55 (basename f.1), f.2).

Definition total_nblk (files : list file) : Z := fold_right (λ f n, nblk (Z.of_nat (length f.2)) + n) 0 files.

(** ** Lemmas *)

Lemma basename_from_Forall (P : Z → Prop) path base :
  Forall P path → Forall P base → Forall P (basename_from path base).
Proof.
  intros Hp. revert base. induction Hp as [|c path Hc Hp IH]; intros base Hb; [done|]. cbn.
  destruct (c =? 47); by apply IH.
Qed.

Lemma file_blocks_eq data fuel (k : nat) :
  (Z.to_nat (nblk (Z.of_nat (length data))) - k < fuel)%nat →
  (Z.of_nat k ≤ nblk (Z.of_nat (length data))) →
  file_blocks fuel data (Z.min (512 * Z.of_nat k) (Z.of_nat (length data))) =
    Some (data_block data <$> seq k (Z.to_nat (nblk (Z.of_nat (length data))) - k)).
Proof.
  set (size := Z.of_nat (length data)). pose proof (nblk_bound size) as Hb. unfold BSIZE in Hb.
  revert k. induction fuel as [|fuel IH]; intros k Hf Hk; [lia|]. cbn [file_blocks]. fold size.
  destruct (Z.ltb_spec (Z.min (512 * Z.of_nat k) size) size) as [Hlt|Hge].
  - unfold BSIZE. set (n := if _ <? _ then _ else _).
    assert (n = Z.min 512 (size - 512 * Z.of_nat k)) as En by (unfold n; destruct (Z.ltb_spec 512 (size - Z.min (512 * Z.of_nat k) size)); lia).
    replace (Z.min (512 * Z.of_nat k) size + n) with (Z.min (512 * Z.of_nat (S k)) size) by lia.
    rewrite IH by lia. cbn [fmap option_fmap option_map].
    replace (Z.to_nat (nblk size) - k)%nat with (S (Z.to_nat (nblk size) - S k)) by lia. cbn [seq fmap list_fmap].
    do 2 f_equal. unfold data_block. f_equal. unfold slice.
    replace (Z.to_nat (Z.min (512 * Z.of_nat k) size)) with (512 * k)%nat by lia.
    destruct (decide (n = 512)) as [->|]; [done|]. rewrite !take_ge; rewrite ?length_drop; [done|lia|lia].
  - replace (Z.to_nat (nblk size) - k)%nat with 0%nat by lia. done.
Qed.

Definition file_data (f : file) : list (list Z) := data_block f.2 <$> seq 0 (Z.to_nat (nblk (Z.of_nat (length f.2)))).

Lemma files_blocks (files : list file) :
  mapM (λ f, file_blocks (S (length f.2)) f.2 0) files = Some (file_data <$> files).
Proof.
  induction files as [|f files IH]; [done|]. cbn [mapM fmap list_fmap].
  pose proof (nblk_bound (Z.of_nat (length f.2))) as Hb. unfold BSIZE in Hb.
  pose proof (file_blocks_eq f.2 (S (length f.2)) 0) as E. change (512 * Z.of_nat 0) with 0 in E.
  rewrite Z.min_l, Nat.sub_0_r in E by lia. rewrite E by lia. cbn [mbind option_bind]. by rewrite IH.
Qed.

Lemma nblk_nonneg (f : file) : 0 ≤ nblk (Z.of_nat (length f.2)).
Proof. pose proof (nblk_bound (Z.of_nat (length f.2))). lia. Qed.

Lemma total_nblk_nonneg files : 0 ≤ total_nblk files.
Proof. induction files as [|f files IH]; [done|]. pose proof (nblk_nonneg f).
  cbn [total_nblk fold_right]. fold (total_nblk files). lia. Qed.

Lemma length_files_data files : length (mjoin (file_data <$> files)) = Z.to_nat (total_nblk files).
Proof.
  induction files as [|f files IH]; [done|]. change (mjoin (file_data <$> f :: files)) with (file_data f ++ mjoin (file_data <$> files)).
  rewrite length_app, IH. unfold file_data at 1. rewrite length_fmap, length_seq. cbn [total_nblk fold_right].
  fold (total_nblk files). pose proof (nblk_nonneg f). pose proof (total_nblk_nonneg files). lia.
Qed.

Lemma strncpy_name_eq base :
  c_chars base → (∃ pad, strncpy_name base = take 55 base ++ 0 :: pad) ∧
  length (strncpy_name base) = Z.to_nat NAMELEN ∧ Forall is_byte (strncpy_name base) ∧ Forall (λ c, c ≠ 0) (take 55 base).
Proof.
  intros Hb. unfold strncpy_name. change (Z.to_nat (NAMELEN - 1)) with 55%nat. change (Z.to_nat NAMELEN) with 56%nat.
  assert (length (take 55 base) ≤ 55)%nat as Hl by (rewrite length_take; lia).
  apply (Forall_take _ 55) in Hb. split_and!.
  - exists (replicate (55 - length (take 55 base)) 0). f_equal.
    by replace (56 - length (take 55 base))%nat with (S (55 - length (take 55 base))) by lia.
  - rewrite length_app, length_replicate. lia.
  - apply Forall_app. split; [by eapply Forall_impl; [exact Hb|intros x []]|]. apply Forall_replicate. unfold is_byte. lia.
  - eapply Forall_impl; [exact Hb|]. by intros x [].
Qed.

(** Input files: paths are C strings, contents are bytes. *)
Definition input_ok (f : file) : Prop := c_chars f.1 ∧ Forall is_byte f.2.

(** The entries assigned describe the files, provided the blocks of the files
    follow each other on the disk from [cur] on. *)
Lemma assign_entries d total files cur :
  Forall input_ok files → DATASTART ≤ cur → cur + total_nblk files ≤ total → total ≤ MAXBLK →
  (∀ i x, mjoin (file_data <$> files) !! i = Some x → d (cur + Z.of_nat i) = x) →
  let r := assign files cur in
  r.2 = cur + total_nblk files ∧ Forall2 (entry_ok d total) r.1 (imported <$> files) ∧
  Forall dirent_wf r.1 ∧ extents r.1 = seqZ cur (total_nblk files).
Proof.
  intros Hok. revert cur. induction Hok as [|[path data] files [Hp Hd] _ IH]; intros cur Hc Ht Hm Hx; cbn zeta.
  { cbn. split_and!; [lia|constructor|constructor|done]. }
  cbn [assign]. set (sz := Z.of_nat (length data)). cbn [total_nblk fold_right snd] in Ht |- *. fold (total_nblk files) in *. fold sz in Ht |- *.
  fold (nblk sz). pose proof (nblk_nonneg (path, data)) as Hn. cbn [snd] in Hn. fold sz in Hn.
  pose proof (total_nblk_nonneg files). pose proof (nblk_bound sz) as Hb. unfold BSIZE, MAXBLK, DATASTART, LOGSTART, LOGN in *.
  rewrite !u32_small by lia.
  assert (length (file_data (path, data)) = Z.to_nat (nblk sz)) as Hl by (unfold file_data; by rewrite length_fmap, length_seq).
  change (mjoin (file_data <$> (path, data) :: files)) with (file_data (path, data) ++ mjoin (file_data <$> files)) in Hx.
  destruct (IH (cur + nblk sz)) as (E & Hent & Hwf & Hext); [lia|lia|lia| |].
  { intros i x Hi. rewrite <- (Hx (Z.to_nat (nblk sz) + i)%nat x); [f_equal; lia|].
    rewrite lookup_app_r by lia. by rewrite Hl, Nat.add_comm, Nat.add_sub. }
  destruct (strncpy_name_eq (basename path)) as ([pad Hname] & Hlen & Hbytes & Hnz); [by apply basename_from_Forall|].
  cbn [fst snd]. rewrite E. split_and!; [lia| | |].
  - constructor; [|exact Hent]. apply (entry_ok_ext (played d (data_writes cur data))).
    + intros b Hb'. unfold extent in Hb'. cbn [d_start d_size] in Hb'. apply elem_of_seqZ in Hb'.
      replace b with (cur + (b - cur)) at 1 by lia. rewrite data_writes_at by (fold sz; lia).
      symmetry. replace b with (cur + Z.of_nat (Z.to_nat (b - cur))) at 1 by lia. apply Hx.
      rewrite lookup_app_l by lia. unfold file_data. cbn [snd]. fold sz. rewrite list_lookup_fmap, lookup_seq_lt by lia. done.
    + cbn [imported fst snd]. apply (created_entry _ _ _ _ pad); unfold DATASTART, LOGSTART, LOGN; [done|done|lia|].
      change ((path, data).2) with data. fold sz. lia.
  - constructor; [|exact Hwf]. split; [by split|]. cbn [d_size d_start]. lia.
  - unfold extents in Hext |- *. rewrite bind_cons, Hext. unfold extent. cbn [d_start d_size].
    rewrite (seqZ_app _ (nblk sz)) by lia. done.
Qed.

(** ** The image *)

Definition image_total (files : list file) : Z := Z.max 256 (DATASTART + total_nblk files).

Lemma image_at_data (l : list (list Z)) (k : list (list Z)) i x :
  length l = Z.to_nat DATASTART → k !! i = Some x → image_sectors (l ++ k) (DATASTART + Z.of_nat i) = x.
Proof.
  intros Hl Hi. unfold image_sectors. rewrite app_nth2 by (rewrite Hl; unfold DATASTART, LOGSTART, LOGN; lia).
  replace (Z.to_nat (DATASTART + Z.of_nat i) - length l)%nat with i
    by (rewrite Hl; unfold DATASTART, LOGSTART, LOGN; lia).
  by apply nth_lookup_Some.
Qed.

Lemma no_entry_wf : dirent_wf no_entry.
Proof. repeat split; try done. repeat constructor; unfold is_byte; lia. Qed.

Lemma mkfs_layout files :
  (1 ≤ length files ≤ Z.to_nat MAXFILES)%nat → Forall input_ok files → DATASTART + total_nblk files ≤ MAXBLK →
  ∃ blocks es, mkfs files = Some blocks ∧ length blocks = Z.to_nat (image_total files) ∧
    lh_committed (image_sectors blocks LOGHDR) = 0 ∧
    layout (image_sectors blocks) (image_total files) es (imported <$> files).
Proof.
  intros Hlen Hok Hfit. unfold mkfs. change (Z.to_nat MAXFILES) with 8%nat in *.
  rewrite (proj2 (orb_false_iff _ _)) by (unfold MAXFILES; split; bsimp; lia).
  destruct (assign files DATASTART) as [dir cur] eqn:Ea. rewrite files_blocks. cbn [mbind option_bind].
  set (total := if _ <? _ then _ else _). set (blocks := _ ++ _ ++ _). set (es := dir ++ replicate (8 - length dir) no_entry).
  pose proof (total_nblk_nonneg files) as Hnn.
  set (meta := [padded (super_bytes (Z.of_nat (length files)) cur total); dir_bytes es; zero_block] ++ replicate (Z.to_nat LOGN) zero_block).
  assert (blocks = meta ++ (mjoin (file_data <$> files) ++ replicate (Z.to_nat (total - cur)) zero_block)) as Eb
    by (unfold blocks, meta; by rewrite <- app_assoc).
  assert (∀ i x, mjoin (file_data <$> files) !! i = Some x → image_sectors blocks (DATASTART + Z.of_nat i) = x) as Hdata.
  { intros i x Hi. rewrite Eb. apply image_at_data; [done|]. by apply lookup_app_l_Some. }
  destruct (assign_entries (image_sectors blocks) (image_total files) files DATASTART Hok) as (Ecur & Hent & Hwf & Hext);
    [done|unfold image_total; lia|unfold image_total, MAXBLK in *; lia|exact Hdata|].
  rewrite Ea in Ecur, Hent, Hwf, Hext. cbn [fst snd] in *.
  assert (total = image_total files) as Et.
  { unfold total, image_total. rewrite <- Ecur. destruct (Z.ltb_spec 256 cur); lia. }
  assert (length dir = length files) as Hld by (apply Forall2_length in Hent; by rewrite length_fmap in Hent).
  assert (take (length files) es = dir) as Etake by (unfold es; rewrite <- Hld; apply take_app_length).
  exists blocks, es. split_and!; [done| | |].
  - rewrite Eb, !length_app, length_replicate, length_files_data. change (length meta) with 19%nat.
    rewrite Et. unfold image_total in *. rewrite Ecur. change DATASTART with 19 in *. lia.
  - reflexivity.
  - pose proof (layout_meta (image_sectors blocks) (image_total files) es (imported <$> files) cur) as Hla.
    rewrite length_fmap, Etake in Hla. eapply layout_ext; [|apply Hla].
    + intros b _. cbn [played fold_left meta_writes fst snd].
      destruct (decide (b = 0)) as [->|]; [rewrite put_sector_eq; by rewrite <- Et|rewrite put_sector_ne by done].
      destruct (decide (b = DIRBLOCK)) as [->|]; [by rewrite put_sector_eq|by rewrite put_sector_ne].
    + split; [unfold es; rewrite length_app, length_replicate; change (Z.to_nat MAXFILES) with 8%nat; lia|].
      apply Forall_app. split; [done|]. apply Forall_replicate, no_entry_wf.
    + unfold image_total. unfold DATASTART, LOGSTART, LOGN, MAXBLK in *. lia.
    + change (Z.to_nat MAXFILES) with 8%nat; lia.
    + done.
    + rewrite Hext. apply NoDup_seqZ.
Qed.

Section claims.
Context {D : Type} `{HasDevLaws D, !BlockDev D, !BlockDevLaws D}.

(** C16: the image builder and the kernel agree on the format. For one to eight
    input files that fit a disk of 8192 blocks, mkfs succeeds, the image has at
    least 256 blocks, and a kernel that powers up on it mounts it and finds
    exactly the input files, in order, named by the part of their path behind the
    last slash (cut to 55 characters), with their bytes. *)
Theorem mkfs_mounts (files : list file) :
  (1 ≤ length files ≤ Z.to_nat MAXFILES)%nat → Forall input_ok files → DATASTART + total_nblk files ≤ MAXBLK →
  ∃ blocks, mkfs files = Some blocks ∧ length blocks = Z.to_nat (image_total files) ∧
    ∀ s : fs D, powered_up s (image_total files) (image_sectors blocks) →
      ∃ s', fs_init s = Done tt s' ∧ holds s' (image_total files) (imported <$> files).
Proof.
  intros Hlen Hok Hfit. destruct (mkfs_layout files Hlen Hok Hfit) as (blocks & es & Hb & Hl & Hc & Hla).
  exists blocks. split_and!; [done..|]. intros s Hs.
  destruct (powered_up_mounts s (image_total files) (image_sectors blocks) (imported <$> files)) as (s' & es' & out & Hrun & _ & Hrep).
  - done.
  - unfold recoverable. rewrite Hc. by exists es.
  - exists s'. split; [done|]. by exists es'.
Qed.
End claims.

(** A disk image of one file, [dir/a.t]. *)
Definition demo_input : list file := [([100; 47; 97; 46; 116], [104; 105; 10])].
Definition demo_image : list (list Z) := default [] (mkfs demo_input).

Lemma demo_input_ok : Forall input_ok demo_input.
Proof. repeat constructor; unfold is_byte; lia. Qed.

Lemma mkfs_mounts_witness :
  mkfs demo_input = Some demo_image ∧ length demo_image = 256%nat ∧
  ∀ s : fs ramdisk, powered_up s 256 (image_sectors demo_image) →
    ∃ s', fs_init s = Done tt s' ∧ holds s' 256 [([97; 46; 116], [104; 105; 10])].
Proof.
  destruct (mkfs_mounts (D := ramdisk) demo_input) as (blocks & Hb & Hl & Hm);
    [change (1 ≤ 1 ≤ 8)%nat; lia|apply demo_input_ok|vm_compute; discriminate|].
  unfold demo_image. rewrite Hb. split_and!; [done|exact Hl|exact Hm].
Defined.
