(* ===== verification/Console.v ===== *)
(** * The console input buffer (src/console.c)

    The ring buffer between the UART interrupt and [console_read], without the
    lock and the sleeping, which are in Sched.v. Positions only grow; the
    character at position [x] is in [inbuf[x % INBUF]]. *)
From S2P Require Import Prelude.

Definition INBUF : Z := 128.

Record console := Console { inbuf : list Z; in_w : Z; in_r : Z }.

(** [inbuf[x % INBUF]] *)
Definition slot_at (x : Z) : nat := Z.to_nat (x mod INBUF).
Definition inbuf_at (x : Z) (k : console) : Z := nth (slot_at x) (inbuf k) 0.

(** [console_intr] between [acquire] and [release]: the buffer, the characters
    echoed, and whether readers are woken up. *)
Definition console_put (c : Z) (k : console) : console * list Z * bool :=
  let c := if c =? 13 then 10 else c in
  if (c =? 127) || (c =? 8) then
    if (in_r k <? in_w k) && negb (inbuf_at (u64 (in_w k - 1)) k =? 10) then
      (Console (inbuf k) (u64 (in_w k - 1)) (in_r k), [8; 32; 8], false)
    else (k, [], false)
  else if INBUF <=? u64 (in_w k - in_r k) then (k, [], false)
  else (Console (<[slot_at (in_w k) := c]> (inbuf k)) (u64 (in_w k + 1)) (in_r k), [c], c =? 10).

(** [in_r == in_w] *)
Definition console_empty (k : console) : bool := in_r k =? in_w k.

(** [c = inbuf[in_r % INBUF]; in_r++] *)
Definition console_take (k : console) : Z * console :=
  (inbuf_at (in_r k) k, Console (inbuf k) (in_w k) (u64 (in_r k + 1))).

(** The buffer at power up. *)
Definition console_zero : console := Console (replicate (Z.to_nat INBUF) 0) 0 0.

(** ** The buffer as a queue *)

(** The characters typed and not yet read. *)
Definition typed (k : console) : list Z := (λ x, inbuf_at x k) <$> seqZ (in_r k) (in_w k - in_r k).

Record console_ok (k : console) : Prop := {
  ck_size : length (inbuf k) = Z.to_nat INBUF;
  ck_order : 0 ≤ in_r k ≤ in_w k;
  ck_room : in_w k - in_r k ≤ INBUF;
  ck_width : in_w k < 2 ^ 64;
}.

(** What one received character does to the line being typed. *)
Definition type_char (c : Z) (q : list Z) : list Z * list Z * bool :=
  let c := if c =? 13 then 10 else c in
  if (c =? 127) || (c =? 8) then
    match last q with
    | Some x => if x =? 10 then (q, [], false) else (take (length q - 1) q, [8; 32; 8], false)
    | None => (q, [], false)
    end
  else if INBUF <=? Z.of_nat (length q) then (q, [], false)
  else (q ++ [c], [c], c =? 10).

Lemma console_zero_ok : console_ok console_zero.
Proof. split; [done|cbn; lia|unfold INBUF; cbn; lia|cbn; lia]. Qed.

Lemma length_typed k : console_ok k → Z.of_nat (length (typed k)) = in_w k - in_r k.
Proof. intros []. unfold typed. rewrite length_fmap, length_seqZ. lia. Qed.

Lemma lookup_typed k i :
  0 ≤ i < in_w k - in_r k → typed k !! Z.to_nat i = Some (inbuf_at (in_r k + i) k).
Proof. intros Hi. unfold typed. rewrite list_lookup_fmap, lookup_seqZ_lt by lia. simpl. do 2 f_equal. lia. Qed.

Lemma slot_small x : (slot_at x < Z.to_nat INBUF)%nat.
Proof. unfold slot_at, INBUF. pose proof (Z.mod_pos_bound x 128). lia. Qed.

(** Two positions of the window have different slots. *)
Lemma slot_inj x y : x - INBUF < y < x → slot_at x ≠ slot_at y.
Proof. unfold slot_at, INBUF. intros Hxy E. apply Z2Nat.inj in E; Z.to_euclidean_division_equations; lia. Qed.

Lemma typed_last k : console_ok k → in_r k < in_w k → last (typed k) = Some (inbuf_at (in_w k - 1) k).
Proof.
  intros Hk Hlt. rewrite last_lookup. pose proof (length_typed k Hk).
  replace (pred (length (typed k))) with (Z.to_nat (in_w k - in_r k - 1)) by lia.
  rewrite lookup_typed by lia. do 2 f_equal. lia.
Qed.

Lemma typed_push k c :
  console_ok k → in_w k - in_r k < INBUF →
  typed (Console (<[slot_at (in_w k) := c]> (inbuf k)) (in_w k + 1) (in_r k)) = typed k ++ [c].
Proof.
  intros [Hs Ho Hr Hw] Hlt. unfold typed. cbn [in_r in_w].
  replace (in_w k + 1 - in_r k) with (in_w k - in_r k + 1) by lia.
  rewrite seqZ_app by lia. rewrite fmap_app. f_equal.
  - apply list_fmap_ext. intros i x Hi. apply lookup_seqZ in Hi. unfold inbuf_at. cbn [inbuf].
    rewrite !nth_lookup, list_lookup_insert_ne; [done|]. apply slot_inj. lia.
  - replace (in_r k + (in_w k - in_r k)) with (in_w k) by lia. rewrite seqZ_cons, seqZ_nil by lia. cbn [fmap list_fmap]. unfold inbuf_at. cbn [inbuf].
    rewrite nth_lookup, list_lookup_insert_eq; [done|]. rewrite Hs. apply slot_small.
Qed.

Lemma typed_pop k : 0 ≤ in_r k → in_r k < in_w k → typed (Console (inbuf k) (in_w k - 1) (in_r k)) = take (length (typed k) - 1) (typed k).
Proof.
  intros H0 Hlt. unfold typed. cbn [in_r in_w]. rewrite length_fmap, length_seqZ.
  replace (in_w k - in_r k) with (in_w k - 1 - in_r k + 1) at 2 by lia. rewrite seqZ_app, fmap_app by lia.
  rewrite take_app_length'; [done|]. rewrite length_fmap, length_seqZ. lia.
Qed.

Lemma typed_take k :
  in_r k < in_w k → typed k = inbuf_at (in_r k) k :: typed (Console (inbuf k) (in_w k) (in_r k + 1)).
Proof.
  intros Hlt. unfold typed. cbn [in_r in_w]. rewrite seqZ_cons by lia. cbn [fmap list_fmap]. f_equal.
  replace (in_w k - (in_r k + 1)) with (Z.pred (in_w k - in_r k)) by lia.
  replace (in_r k + 1) with (Z.succ (in_r k)) by lia. done.
Qed.

(** C19: the ring buffer is the line being typed. A received character edits the
    queue of unread characters as [type_char] says (carriage return becomes a
    newline, backspace and DEL erase the last character of the line but no line
    already ended, a full buffer drops the character), with the same echo and the
    same wake-up; reading takes the first character. *)
Theorem console_is_queue k :
  console_ok k →
  (∀ c, in_w k + 1 < 2 ^ 64 →
     let r := console_put c k in
     console_ok r.1.1 ∧ (typed r.1.1, r.1.2, r.2) = type_char c (typed k)) ∧
  (console_empty k = true ↔ typed k = []) ∧
  (typed k ≠ [] → let r := console_take k in console_ok r.2 ∧ typed k = r.1 :: typed r.2).
Proof.
  intros Hk. pose proof (length_typed k Hk) as Hl. pose proof Hk as [Hs Ho Hr Hw]. unfold INBUF in Hr. split_and!.
  - intros c Hbig. cbn zeta. unfold console_put, type_char. cbn zeta. set (c' := if c =? 13 then 10 else c).
    destruct ((c' =? 127) || (c' =? 8)) eqn:Ebs.
    + destruct (Z.ltb_spec (in_r k) (in_w k)) as [Hlt|Hge]; cbn [andb].
      * rewrite typed_last, u64_small by (done || lia). destruct (inbuf_at (in_w k - 1) k =? 10); cbn [negb fst snd]; [done|].
        split; [split; cbn [inbuf in_w in_r]; unfold INBUF; [done|lia|lia|lia]|]. by rewrite typed_pop by lia.
      * cbn [fst snd]. assert (typed k = []) as -> by (apply nil_length_inv; lia). by split.
    + rewrite Hl, u64_small by lia. unfold INBUF. destruct (Z.leb_spec 128 (in_w k - in_r k)); [done|]. cbn [fst snd].
      rewrite u64_small by lia. rewrite typed_push by (unfold INBUF; done || lia). split; [|done].
      split; cbn [inbuf in_w in_r]; unfold INBUF; [by rewrite length_insert|lia|lia|lia].
  - unfold console_empty. rewrite Z.eqb_eq. split; intros E.
    + apply nil_length_inv. lia.
    + rewrite E in Hl. simpl in Hl. lia.
  - intros Hne. assert (in_r k < in_w k).
    { destruct (decide (in_r k = in_w k)) as [E|]; [|lia]. destruct Hne. apply nil_length_inv. lia. }
    cbn zeta. unfold console_take. cbn [fst snd]. rewrite u64_small by lia. split; [|by apply typed_take].
    split; cbn [inbuf in_w in_r]; unfold INBUF; [done|lia|lia|lia].
Qed.

(** A full line buffer whose counters have gone round the array: 128 characters
    waiting, the first one at index 100 of the array. *)
Definition console_full : console := Console (replicate (Z.to_nat INBUF) 97) 228 100.

Lemma console_full_ok : console_ok console_full.
Proof. split; vm_compute; try reflexivity; try (split; discriminate); discriminate. Qed.

Lemma console_is_queue_witness :
  (let r := console_put 98 console_full in
   console_ok r.1.1 ∧ (typed r.1.1, r.1.2, r.2) = type_char 98 (replicate 128 97)) ∧
  (let r := console_put 127 console_full in
   console_ok r.1.1 ∧ (typed r.1.1, r.1.2, r.2) = type_char 127 (replicate 128 97)) ∧
  console_empty console_full = false ∧
  (let r := console_take console_full in console_ok r.2 ∧ replicate 128 97 = r.1 :: typed r.2).
Proof.
  assert (typed console_full = replicate 128 97) as E by (vm_compute; reflexivity).
  destruct (console_is_queue console_full console_full_ok) as (Hput & Hempty & Htake). rewrite E in *.
  split; [apply Hput; vm_compute; reflexivity|]. split; [apply Hput; vm_compute; reflexivity|].
  split; [vm_compute; reflexivity|apply Htake; discriminate].
Defined.
