(* ===== verification/Sched.v ===== *)
(** * Processes and the scheduler (src/proc.c)

    Every hart runs [scheduler], a process, or the kernel on behalf of one. The
    state of [sys] is what the harts share; [code] says where each of them is.
    One step of a hart ([exec]) is the code between two points where another
    hart or an interrupt can come in: up to the next [swtch], or to the point
    where [pt_lock] is given up. A context saved by [swtch] is the point of the
    code that the saved return address stands for, with the locals it needs
    there. What a process owns in memory is an interface, [Images]. *)
From stdpp Require Import functions.
From S2P Require Import Prelude Spinlock Console.

Definition NPROC : nat := 8.

(** [enum proc_state] *)
Inductive proc_state := UNUSED | RUNNABLE | RUNNING | SLEEPING | ZOMBIE.
#[export] Instance proc_state_eq_dec : EqDecision proc_state.
Proof. solve_decision. Defined.

(** The channels in use: [&proctable[i]] and [&inbuf]. *)
Inductive channel := OnProc (i : nat) | OnInbuf.
#[export] Instance channel_eq_dec : EqDecision channel.
Proof. solve_decision. Defined.

(** [struct context] by its return address: zeroed, the three first-run
    wrappers, and behind the calls of [swtch]; [InWait] and [InRead] are the call
    in [sleep], for [proc_wait] and for [console_read] with its locals. *)
Inductive point :=
| Zeroed | Thread_start | Enter_user | Forkret
| InYield | InExit | InWait (p : nat) | InRead (p : nat) (got : list Z) (n : Z)
| InSched (i : nat).

(** [struct proc]; [image] stands for its memory ([pagetable], [ucode],
    [ustack], [kstack], [heap_top] and the mmap fields). *)
Record proc {I : Type} := Proc {
  state : proc_state; context : point; fn : Z; counter : Z; name : list Z; is_user : bool;
  pid : Z; chan : option channel; parent : option nat; tf_va : Z; image : I;
}.
Arguments proc : clear implicits.

Section setters.
Context {I : Type}.
Implicit Types p : proc I.
Definition with_state x p := Proc I x (context p) (fn p) (counter p) (name p) (is_user p) (pid p) (chan p) (parent p) (tf_va p) (image p).
Definition with_context x p := Proc I (state p) x (fn p) (counter p) (name p) (is_user p) (pid p) (chan p) (parent p) (tf_va p) (image p).
Definition with_counter x p := Proc I (state p) (context p) (fn p) x (name p) (is_user p) (pid p) (chan p) (parent p) (tf_va p) (image p).
Definition with_chan x p := Proc I (state p) (context p) (fn p) (counter p) (name p) (is_user p) (pid p) x (parent p) (tf_va p) (image p).
Definition with_parent x p := Proc I (state p) (context p) (fn p) (counter p) (name p) (is_user p) (pid p) (chan p) x (tf_va p) (image p).
Definition with_image x p := Proc I (state p) (context p) (fn p) (counter p) (name p) (is_user p) (pid p) (chan p) (parent p) (tf_va p) x.
End setters.

(** The memory of processes: what [make_thread], [make_user_proc], [proc_fork]
    and [proc_freeimage] do to it. [new_image] is [None] when the embedded
    program does not load. All are given the old image of the slot, and
    [fork_image] the image of the parent and the address of its trap frame. *)
Class Images (W I : Type) := {
  thread_image : I → M W I;
  new_image : I → M W (option I);
  fork_image : I → I → Z → M W I;
  free_image : I → M W I;
}.

(** Where a hart is. [At o k]: just switched to the context [k] of process [o]
    ([None]: of the hart's scheduler). [Free p]: process [p] in user mode, or in
    the kernel without [pt_lock]. *)
Inductive hcode :=
| Top | Scan (i : nat) | At (o : option nat) (k : point)
| Wait (p : nat) | Read (p : nat) (got : list Z) (n : Z) | Free (p : nat).

(** The statics of proc.c and console.c, the locks, and per hart the current
    page table ([None] the kernel's) and code. *)
Record sys {W I : Type} := Sys {
  procs : nat → proc I; cpu_proc : nat → option nat; cpu_sched : nat → point; next_pid : Z;
  spins : spin; con : console; echoed : list Z;
  satps : nat → option nat; code : nat → hcode; mem_world : W;
}.
Arguments sys : clear implicits.

Section sys.
Context {W I : Type}.
Implicit Types s : sys W I.

Definition put_procs x s := Sys W I x (cpu_proc s) (cpu_sched s) (next_pid s) (spins s) (con s) (echoed s) (satps s) (code s) (mem_world s).
Definition put_cpu_proc x s := Sys W I (procs s) x (cpu_sched s) (next_pid s) (spins s) (con s) (echoed s) (satps s) (code s) (mem_world s).
Definition put_cpu_sched x s := Sys W I (procs s) (cpu_proc s) x (next_pid s) (spins s) (con s) (echoed s) (satps s) (code s) (mem_world s).
Definition put_next_pid x s := Sys W I (procs s) (cpu_proc s) (cpu_sched s) x (spins s) (con s) (echoed s) (satps s) (code s) (mem_world s).
Definition put_spins x s := Sys W I (procs s) (cpu_proc s) (cpu_sched s) (next_pid s) x (con s) (echoed s) (satps s) (code s) (mem_world s).
Definition put_con x s := Sys W I (procs s) (cpu_proc s) (cpu_sched s) (next_pid s) (spins s) x (echoed s) (satps s) (code s) (mem_world s).
Definition put_echoed x s := Sys W I (procs s) (cpu_proc s) (cpu_sched s) (next_pid s) (spins s) (con s) x (satps s) (code s) (mem_world s).
Definition put_satps x s := Sys W I (procs s) (cpu_proc s) (cpu_sched s) (next_pid s) (spins s) (con s) (echoed s) x (code s) (mem_world s).
Definition put_code x s := Sys W I (procs s) (cpu_proc s) (cpu_sched s) (next_pid s) (spins s) (con s) (echoed s) (satps s) x (mem_world s).
Definition put_world x s := Sys W I (procs s) (cpu_proc s) (cpu_sched s) (next_pid s) (spins s) (con s) (echoed s) (satps s) (code s) x.

(** ** Primitive actions of hart [h] *)

Definition get_proc (p : nat) : M (sys W I) (proc I) := gets (λ s, procs s p).
Definition set_proc (p : nat) (x : proc I) : M (sys W I) unit := modify (λ s, put_procs (<[p := x]> (procs s)) s).
Definition upd_proc (p : nat) (f : proc I → proc I) : M (sys W I) unit := x ← get_proc p; set_proc p (f x).
Definition goto (h : nat) (c : hcode) : M (sys W I) unit := modify (λ s, put_code (<[h := c]> (code s)) s).
Definition set_satp (h : nat) (o : option nat) : M (sys W I) unit := modify (λ s, put_satps (<[h := o]> (satps s)) s).
Definition set_cpu_proc (h : nat) (o : option nat) : M (sys W I) unit := modify (λ s, put_cpu_proc (<[h := o]> (cpu_proc s)) s).
Definition set_sie (h : nat) (b : bool) : M (sys W I) unit := modify (λ s, put_spins (with_sie h b (spins s)) s).

(** [acquire(&pt_lock)]: no step while another hart holds it. *)
Definition acquire_pt (h : nat) : M (sys W I) unit :=
  sp ← gets (λ s, push_off h (spins s));
  sp ← of_option sp;
  let '(old, sp) := test_and_set pt_lock sp in
  if old =? 0 then modify (put_spins sp) else halt.

(** [release(&pt_lock)] *)
Definition release_pt (h : nat) : M (sys W I) unit :=
  sp ← gets (λ s, pop_off h (lock_release pt_lock (spins s)));
  sp ← of_option sp;
  modify (put_spins sp).

(** [swtch(&cpu_sched[id], &p->context)] in round [i] of [scheduler]. *)
Definition swtch_to_proc (h p i : nat) : M (sys W I) unit :=
  modify (λ s, put_cpu_sched (<[h := InSched i]> (cpu_sched s)) s);;
  x ← get_proc p;
  goto h (At (Some p) (context x)).

(** [swtch(&p->context, &cpu_sched[id])], to be resumed at [k]. *)
Definition swtch_to_sched (h p : nat) (k : point) : M (sys W I) unit :=
  upd_proc p (with_context k);;
  c ← gets (λ s, cpu_sched s h);
  goto h (At None c).

Definition current_proc (h : nat) : M (sys W I) (option nat) := gets (λ s, cpu_proc s h).

(** ** scheduler *)

Definition sched_top (h : nat) : M (sys W I) unit := set_sie h true;; acquire_pt h;; goto h (Scan 0).

Definition sched_scan (h i : nat) : M (sys W I) unit :=
  if (i <? NPROC)%nat then
    x ← get_proc i;
    if decide (state x = RUNNABLE) then
      set_proc i (with_state RUNNING x);;
      set_cpu_proc h (Some i);;
      set_satp h (Some i);;
      swtch_to_proc h i i
    else goto h (Scan (S i))
  else release_pt h;; goto h Top.

Definition sched_back (h i : nat) : M (sys W I) unit :=
  set_satp h None;; set_cpu_proc h None;; goto h (Scan (S i)).

(** ** The first-run wrappers, up to the jump to the process *)

Definition thread_start (h p : nat) : M (sys W I) unit := release_pt h;; set_sie h true;; goto h (Free p).
Definition enter_user (h p : nat) : M (sys W I) unit := release_pt h;; goto h (Free p).
Definition forkret (h p : nat) : M (sys W I) unit := release_pt h;; goto h (Free p).

(** ** yield, sleep, wakeup *)

Definition yield (h : nat) : M (sys W I) unit :=
  cur ← current_proc h;
  match cur with
  | None => mret tt
  | Some p =>
      acquire_pt h;;
      x ← get_proc p;
      (if decide (state x = RUNNING) then set_proc p (with_state RUNNABLE x) else mret tt);;
      swtch_to_sched h p InYield
  end.
Definition yield_back (h p : nat) : M (sys W I) unit := release_pt h;; goto h (Free p).

(** [sleep(c)], called by code that resumes at [k]. *)
Definition sleep (h : nat) (c : channel) (k : point) : M (sys W I) unit :=
  cur ← current_proc h;
  match cur with
  | None => mret tt
  | Some p => upd_proc p (λ x, with_state SLEEPING (with_chan (Some c) x));; swtch_to_sched h p k
  end.
Definition sleep_back (p : nat) : M (sys W I) unit := upd_proc p (with_chan None).

Definition asleep_on (c : channel) (x : proc I) : bool :=
  bool_decide (state x = SLEEPING) && bool_decide (chan x = Some c).

(** The loop of [wakeup] over [n] slots from [i]. *)
Fixpoint wakeup_loop (n i : nat) (c : channel) : M (sys W I) unit :=
  match n with
  | O => mret tt
  | S n =>
      x ← get_proc i;
      when (asleep_on c x) (set_proc i (with_state RUNNABLE x));;
      wakeup_loop n (S i) c
  end.
Definition wakeup (c : channel) : M (sys W I) unit := wakeup_loop NPROC 0 c.

(** ** console_intr and console_read *)

(** [c == '\n'] wakes the readers; echoing is [uart_putc] and [uart_puts]. *)
Definition console_intr (h : nat) (c : Z) : M (sys W I) unit :=
  acquire_pt h;;
  r ← gets (λ s, console_put c (con s));
  modify (put_con r.1.1);;
  modify (λ s, put_echoed (echoed s ++ r.1.2) s);;
  when r.2 (wakeup OnInbuf);;
  release_pt h.

(** [uart_intr]: all the characters received. *)
Fixpoint uart_intr (h : nat) (l : list Z) : M (sys W I) unit :=
  match l with
  | [] => mret tt
  | c :: l => console_intr h c;; uart_intr h l
  end.

(** One round of the loops of [console_read]; the characters read so far are
    [got]. The value returned is their number. *)
Definition read_round (h p : nat) (got : list Z) (n : Z) : M (sys W I) (option Z) :=
  let i := Z.of_nat (length got) in
  if i <? n then
    e ← gets (λ s, console_empty (con s));
    if e : bool then sleep h OnInbuf (InRead p got n);; mret None
    else
      r ← gets (λ s, console_take (con s));
      modify (put_con r.2);;
      if r.1 =? 10 then release_pt h;; goto h (Free p);; mret (Some (i + 1))
      else goto h (Read p (got ++ [r.1]) n);; mret None
  else release_pt h;; goto h (Free p);; mret (Some i).

Definition console_read (h p : nat) (n : Z) : M (sys W I) unit := acquire_pt h;; goto h (Read p [] n).

(** ** make_thread, make_user_proc, fork, exit, wait *)

Definition initlock_pt : M (sys W I) unit := modify (λ s, put_spins (initlock pt_lock (spins s)) s).

Fixpoint procinit_loop (n i : nat) : M (sys W I) unit :=
  match n with O => mret tt | S n => upd_proc i (with_state UNUSED);; procinit_loop n (S i) end.
Definition procinit : M (sys W I) unit := initlock_pt;; procinit_loop NPROC 0.

(** The first slot from [i] on that is [UNUSED]. *)
Fixpoint find_unused (f : nat → proc I) (n i : nat) : option nat :=
  match n with
  | O => None
  | S n => if decide (state (f i) = UNUSED) then Some i else find_unused f n (S i)
  end.

(** [for (; src[j] && j < max; j++) dst[j] = src[j]]: the characters copied. *)
Fixpoint name_chars (max : nat) (src : list Z) : list Z :=
  match max, src with
  | S max, c :: src => if c =? 0 then [] else c :: name_chars max src
  | _, _ => []
  end.
Definition put_name (s old : list Z) : list Z := s ++ drop (length s) old.

Context `{Images W I}.

Definition on_world {A} (m : M W A) : M (sys W I) A := zoom mem_world put_world m.

Definition take_pid : M (sys W I) Z :=
  p ← gets next_pid; assertb (p <? 2 ^ 31 - 1);; modify (put_next_pid (p + 1));; mret p.

Definition make_thread (f : Z) (nm : list Z) : M (sys W I) (option nat) :=
  i ← gets (λ s, find_unused (procs s) NPROC 0);
  match i with
  | None => mret None
  | Some i =>
      x ← get_proc i;
      img ← on_world (thread_image (image x));
      set_proc i (Proc I RUNNABLE Thread_start f 0 (put_name (name_chars 7 nm ++ [0]) (name x)) false
                    (pid x) (chan x) (parent x) (tf_va x) img);;
      mret (Some i)
  end.

Definition make_user_proc (nm : list Z) : M (sys W I) (option nat) :=
  i ← gets (λ s, find_unused (procs s) NPROC 0);
  match i with
  | None => mret None
  | Some i =>
      x ← get_proc i;
      img ← on_world (new_image (image x));
      match img with
      | None => mret None
      | Some img =>
          np ← take_pid;
          set_proc i (Proc I RUNNABLE Enter_user 0 0 (put_name (name_chars 7 nm ++ [0]) (name x)) true
                        np (chan x) (parent x) (tf_va x) img);;
          mret (Some i)
      end
  end.

(** [proc_fork]; the frame is at the user address [f]. *)
Definition proc_fork (h : nat) (f : Z) : M (sys W I) Z :=
  cur ← current_proc h;
  par ← of_option cur;
  acquire_pt h;;
  i ← gets (λ s, find_unused (procs s) NPROC 0);
  match i with
  | None => release_pt h;; mret (-1)
  | Some i =>
      y ← get_proc par;
      x ← get_proc i;
      img ← on_world (fork_image (image x) (image y) f);
      np ← take_pid;
      set_proc i (Proc I RUNNABLE Forkret 0 0 (put_name (name_chars 6 (name y) ++ [43; 0]) (name x)) true
                    np (chan x) (Some par) f img);;
      release_pt h;;
      mret np
  end.

Definition proc_exit (h : nat) : M (sys W I) unit :=
  cur ← current_proc h;
  p ← of_option cur;
  acquire_pt h;;
  x ← get_proc p;
  (match parent x with Some q => wakeup (OnProc q) | None => mret tt end);;
  upd_proc p (with_state ZOMBIE);;
  swtch_to_sched h p InExit.

(** The scan of [proc_wait]: a zombie child, or whether there are children. *)
Fixpoint wait_scan (f : nat → proc I) (p n i : nat) (kids : bool) : bool + nat :=
  match n with
  | O => inl kids
  | S n =>
      if decide (parent (f i) = Some p) then
        if decide (state (f i) = ZOMBIE) then inr i else wait_scan f p n (S i) true
      else wait_scan f p n (S i) kids
  end.

Definition wait_round (h p : nat) : M (sys W I) (option Z) :=
  r ← gets (λ s, wait_scan (procs s) p NPROC 0 false);
  match r with
  | inr q =>
      x ← get_proc q;
      img ← on_world (free_image (image x));
      upd_proc q (with_image img);;
      upd_proc q (with_parent None);;
      upd_proc q (with_state UNUSED);;
      release_pt h;;
      goto h (Free p);;
      mret (Some (pid x))
  | inl kids =>
      if kids : bool then sleep h (OnProc p) (InWait p);; mret None
      else release_pt h;; goto h (Free p);; mret (Some (-1))
  end.

Definition proc_wait (h : nat) : M (sys W I) unit :=
  cur ← current_proc h;
  p ← of_option cur;
  acquire_pt h;; goto h (Wait p).

(** ** Steps *)

(** What a hart does next: go on, or, outside the lock, take a trap or make a
    call. [Own w i] is anything a process does to the memory and to its own
    image without [pt_lock] (system calls, page faults, exec). *)
Inductive event :=
| Go | Timer | Received (l : list Z) | Intr (b : bool)
| Exit | WaitChild | ReadLine (n : Z) | Fork (f : Z) | Tick | Own (w : W) (i : I).

(** An interrupt: taken with interrupts off, which [sret] restores. *)
Definition interrupt (h : nat) (m : M (sys W I) unit) : M (sys W I) unit :=
  b ← gets (λ s, sie (spins s) !! h);
  b ← of_option b;
  set_sie h false;; m;; set_sie h b.

(** One step of hart [h], with the value the running process is returned. *)
Definition exec (h : nat) (e : event) : M (sys W I) (option Z) :=
  c ← gets (λ s, code s h);
  match c, e with
  | Top, Go => sched_top h;; mret None
  | Top, Received l => interrupt h (uart_intr h l);; mret None
  | Top, Intr b => set_sie h b;; mret None
  | Scan i, Go => sched_scan h i;; mret None
  | At None (InSched i), Go => sched_back h i;; mret None
  | At (Some p) Thread_start, Go => thread_start h p;; mret None
  | At (Some p) Enter_user, Go => enter_user h p;; mret None
  | At (Some p) Forkret, Go => forkret h p;; mret None
  | At (Some p) InYield, Go => yield_back h p;; mret None
  | At (Some p) (InWait q), Go => sleep_back q;; goto h (Wait q);; mret None
  | At (Some p) (InRead q got n), Go => sleep_back q;; goto h (Read q got n);; mret None
  | Wait p, Go => wait_round h p
  | Read p got n, Go => read_round h p got n
  | Free p, Timer => set_sie h false;; yield h;; mret None
  | Free p, Received l => interrupt h (uart_intr h l);; mret None
  | Free p, Intr b => set_sie h b;; mret None
  | Free p, Exit => proc_exit h;; mret None
  | Free p, WaitChild => proc_wait h;; mret None
  | Free p, ReadLine n => console_read h p n;; mret None
  | Free p, Fork f => r ← proc_fork h f; mret (Some r)
  | Free p, Tick => upd_proc p (λ x, with_counter (u64 (counter x + 1)) x);; mret None
  | Free p, Own w i => modify (put_world w);; upd_proc p (with_image i);; mret None
  | _, _ => halt
  end.

(** The steps of the machine: some hart that exists takes a step. *)
Inductive sched_step : sys W I → sys W I → Prop :=
| sched_step_exec h e v s s' : (h < NCPU)%nat → exec h e s = Done v s' → sched_step s s'.

(** A sequence of steps, as harts and events; the values returned. *)
Fixpoint run (l : list (nat * event)) : M (sys W I) (list (option Z)) :=
  match l with
  | [] => mret []
  | (h, e) :: l => v ← exec h e; vs ← run l; mret (v :: vs)
  end.

(** Every hart about to enter [scheduler], the lock free; each slot unused or
    made by [make_thread] or [make_user_proc]. *)
Record booted (s : sys W I) : Prop := {
  bt_code h : (h < NCPU)%nat → code s h = Top ∧ cpu_proc s h = None ∧ satps s h = None;
  bt_spin : length (sie (spins s)) = NCPU ∧ length (cpus (spins s)) = NCPU ∧
    ∀ h c, cpus (spins s) !! h = Some c → noff c = 0;
  bt_lock : word_of pt_lock (words (spins s)) = 0;
  bt_procs p : (p < NPROC)%nat → parent (procs s p) = None ∧
    (state (procs s p) = UNUSED ∨
     state (procs s p) = RUNNABLE ∧ context (procs s p) ∈ [Thread_start; Enter_user]);
  bt_pids p q : (p < NPROC)%nat → (q < NPROC)%nat → state (procs s p) ≠ UNUSED → state (procs s q) ≠ UNUSED →
    is_user (procs s p) = true → is_user (procs s q) = true →
    pid (procs s p) < next_pid s ∧ (pid (procs s p) = pid (procs s q) → p = q);
}.

Definition reachable (s0 s : sys W I) : Prop := booted s0 ∧ rtc sched_step s0 s.
End sys.
Arguments event : clear implicits.
