(* ===== verification/SchedInv.v ===== *)
(** * The invariant of the scheduler

    [Inv] describes every reachable state of Sched.v, and [exec_Inv] shows that
    each step keeps it. Its parts: what each hart may be doing ([hart_ok]), that
    no process is on two harts, what each slot of the process table may hold
    ([slot_ok]), that a process asleep in [proc_wait] has something to wait for
    ([waits_ok]), and who holds [pt_lock]. *)
From stdpp Require Import functions.
From S2P Require Import Prelude Spinlock Console Sched.

Section invariant.
Context {W I : Type}.
Implicit Types s t : sys W I.

(** ** Definition *)

Definition locked (c : hcode) : bool := match c with Top | Free _ => false | _ => true end.

(** The process a hart executes. *)
Definition owner (c : hcode) : option nat :=
  match c with At (Some p) _ | Wait p | Read p _ _ | Free p => Some p | _ => None end.

(** The contexts of a process that waits for a hart. *)
Definition resumes (p : nat) (k : point) : Prop :=
  match k with
  | Thread_start | Enter_user | Forkret | InYield => True
  | InWait q | InRead q _ _ => q = p
  | _ => False
  end.

(** The interrupt nesting of hart [h]; interrupts are off when [off]. *)
Definition hart_spin (sp : spin) (h : nat) (n : Z) (off : bool) : Prop :=
  ∃ c b, cpus sp !! h = Some c ∧ sie sp !! h = Some b ∧ noff c = n ∧ (off = true → b = false).

Definition runs s h p : Prop :=
  cpu_proc s h = Some p ∧ satps s h = Some p ∧ (p < NPROC)%nat ∧ state (procs s p) = RUNNING ∧
  ∃ i, cpu_sched s h = InSched i ∧ (i < NPROC)%nat.

Definition hart_ok s h : Prop :=
  hart_spin (spins s) h (if locked (code s h) then 1 else 0) (locked (code s h)) ∧
  match code s h with
  | Top => cpu_proc s h = None ∧ satps s h = None
  | Scan i => (i ≤ NPROC)%nat ∧ cpu_proc s h = None ∧ satps s h = None
  | At None k => ∃ i, k = InSched i ∧ (i < NPROC)%nat
  | At (Some p) k => runs s h p ∧ resumes p k
  | Wait p | Read p _ _ | Free p => runs s h p
  end.

Definition slot_ok s p : Prop :=
  let x := procs s p in
  match state x with
  | UNUSED => parent x = None
  | RUNNABLE => resumes p (context x)
  | RUNNING => ∃ h, (h < NCPU)%nat ∧ owner (code s h) = Some p
  | SLEEPING => (context x = InWait p ∧ chan x = Some (OnProc p)) ∨
                (∃ got n, context x = InRead p got n ∧ chan x = Some OnInbuf)
  | ZOMBIE => context x = InExit
  end.

Definition waits_ok s p : Prop :=
  state (procs s p) = SLEEPING → chan (procs s p) = Some (OnProc p) →
  (∃ q, (q < NPROC)%nat ∧ parent (procs s q) = Some p) ∧
  ∀ q, (q < NPROC)%nat → parent (procs s q) = Some p → state (procs s q) ≠ ZOMBIE.

Definition lock_word s : Z := word_of pt_lock (words (spins s)).

(** The process identifiers of user processes. *)
Definition pids_ok s : Prop :=
  ∀ p, (p < NPROC)%nat → state (procs s p) ≠ UNUSED → is_user (procs s p) = true →
    pid (procs s p) < next_pid s ∧
    ∀ q, (q < NPROC)%nat → state (procs s q) ≠ UNUSED → is_user (procs s q) = true →
      pid (procs s p) = pid (procs s q) → p = q.

Record Inv s : Prop := {
  inv_harts h : (h < NCPU)%nat → hart_ok s h;
  inv_owner h h' p : (h < NCPU)%nat → (h' < NCPU)%nat →
    owner (code s h) = Some p → owner (code s h') = Some p → h = h';
  inv_slots p : (p < NPROC)%nat → slot_ok s p;
  inv_waits p : (p < NPROC)%nat → waits_ok s p;
  inv_lock : (lock_word s = 0 ∧ ∀ h, (h < NCPU)%nat → locked (code s h) = false) ∨
    (lock_word s = 1 ∧ ∃ h, (h < NCPU)%nat ∧ locked (code s h) = true ∧
       ∀ h', (h' < NCPU)%nat → locked (code s h') = true → h' = h);
  inv_pids : pids_ok s;
}.

Lemma booted_Inv s : booted s → Inv s.
Proof.
  intros [Hc [Hs1 [Hs2 Hn]] Hl Hp Hpid].
  assert (∀ h, (h < NCPU)%nat → code s h = Top) as Hcode by (intros h Hh; by apply Hc).
  split.
  - intros h Hh. destruct (Hc h Hh) as (E & E1 & E2). unfold hart_ok. rewrite E. split; [|done].
    destruct (lookup_lt_is_Some_2 (cpus (spins s)) h) as [c Ec]; [lia|].
    destruct (lookup_lt_is_Some_2 (sie (spins s)) h) as [b Eb]; [lia|].
    exists c, b. split_and!; [done|done|by eapply Hn|done].
  - intros h h' p Hh _. by rewrite Hcode.
  - intros p H. destruct (Hp p H) as [E [E1|[E1 E2]]]; unfold slot_ok; rewrite E1; [done|].
    repeat (apply elem_of_cons in E2 as [->|E2]; [done|]). by apply elem_of_nil in E2.
  - intros p H Hst. destruct (Hp p H) as [_ [E1|[E1 _]]]; congruence.
  - left. split; [done|]. intros h Hh. by rewrite Hcode.
  - intros p H Hst Hu. destruct (Hpid p p) as [Hlt _]; try done. split; [done|].
    intros q Hq Hst' Hu' E. by apply (Hpid p q).
Qed.

(** ** How a step of hart [h] is shown to keep the invariant *)

(** Nothing of the other harts changes. *)
Record elsewhere (h : nat) s t : Prop := {
  ew_code h' : h' ≠ h → code t h' = code s h';
  ew_cpu h' : h' ≠ h → cpu_proc t h' = cpu_proc s h' ∧ cpu_sched t h' = cpu_sched s h' ∧ satps t h' = satps s h';
  ew_spin h' : h' ≠ h → cpus (spins t) !! h' = cpus (spins s) !! h' ∧ sie (spins t) !! h' = sie (spins s) !! h';
}.

Record step_ok (h : nat) s t : Prop := {
  so_elsewhere : elsewhere h s t;
  so_hart : hart_ok t h;
  (* processes running on other harts go on running *)
  so_running p : (p < NPROC)%nat → state (procs s p) = RUNNING → owner (code s h) ≠ Some p →
    state (procs t p) = RUNNING;
  (* a process the hart takes was not running *)
  so_taken p : owner (code t h) = Some p → owner (code s h) = Some p ∨ state (procs s p) ≠ RUNNING;
  so_slots p : (p < NPROC)%nat →
    if decide (state (procs t p) = RUNNING)
    then owner (code t h) = Some p ∨ (state (procs s p) = RUNNING ∧ owner (code s h) ≠ Some p)
    else slot_ok t p;
  so_waits p : (p < NPROC)%nat → waits_ok t p;
  so_lock : (locked (code s h) = true ∨ lock_word s = 0) ∧ lock_word t = (if locked (code t h) then 1 else 0) ∨
    locked (code t h) = locked (code s h) ∧ lock_word t = lock_word s;
  so_pids : pids_ok t;
}.

Lemma owner_running s h p : hart_ok s h → owner (code s h) = Some p → (p < NPROC)%nat ∧ state (procs s p) = RUNNING.
Proof.
  intros [_ Hc]. destruct (code s h) as [|i|[q|] k|q|q got n|q]; simpl; try done; intros [= <-].
  - by destruct Hc as [(_ & _ & ? & ? & _) _].
  - by destruct Hc as (_ & _ & ? & ? & _).
  - by destruct Hc as (_ & _ & ? & ? & _).
  - by destruct Hc as (_ & _ & ? & ? & _).
Qed.

Lemma hart_ok_frame h h' s t :
  elsewhere h s t → h' ≠ h → hart_ok s h' →
  (∀ p, owner (code s h') = Some p → state (procs t p) = RUNNING) → hart_ok t h'.
Proof.
  intros [Hc Hp Hs] Hne [Hsp Hcode] Hr. unfold hart_ok, hart_spin. rewrite (Hc h') by done.
  destruct (Hs h') as [-> ->]; [done|]. split; [exact Hsp|].
  destruct (Hp h') as (E1 & E2 & E3); [done|]. unfold runs in *. rewrite E1, E2, E3.
  destruct (code s h') as [|i|[q|] k|q|q got n|q]; simpl in *; try done; naive_solver.
Qed.

Lemma step_ok_Inv h s t : (h < NCPU)%nat → Inv s → step_ok h s t → Inv t.
Proof.
  intros Hh HI Hok.
  assert (∀ h' p, (h' < NCPU)%nat → h' ≠ h → owner (code s h') = Some p →
    state (procs s p) = RUNNING ∧ state (procs t p) = RUNNING ∧ owner (code s h) ≠ Some p) as Hother.
  { intros h' p Hh' Hne Ho. destruct (owner_running s h' p) as [Hp Hr]; [by apply (inv_harts _ HI)|done|].
    assert (owner (code s h) ≠ Some p) as Hno by (intros Ho'; by apply Hne, (inv_owner _ HI _ _ p)).
    split_and!; [done| |done]. by apply (so_running _ _ _ Hok). }
  pose proof (ew_code _ _ _ (so_elsewhere _ _ _ Hok)) as Hcode.
  split.
  - intros h' Hh'. destruct (decide (h' = h)) as [->|Hne]; [apply Hok|].
    apply (hart_ok_frame h h' s); [apply Hok|done|by apply (inv_harts _ HI)|].
    intros p Ho. by destruct (Hother h' p) as (_ & ? & _).
  - assert (∀ h' p, (h' < NCPU)%nat → owner (code t h) = Some p → owner (code t h') = Some p → h' = h) as Huniq.
    { intros h' p Hh' Ho Ho'. destruct (decide (h' = h)) as [|Hne]; [done|]. rewrite Hcode in Ho' by done.
      destruct (Hother h' p) as (Hr & _ & Hno); [done..|].
      by destruct (so_taken _ _ _ Hok p Ho). }
    intros h1 h2 p Hh1 Hh2 Ho1 Ho2.
    destruct (decide (h1 = h)) as [->|Hne1]; [symmetry; by eapply Huniq|].
    destruct (decide (h2 = h)) as [->|Hne2]; [by eapply Huniq|].
    rewrite Hcode in Ho1, Ho2 by done. by eapply (inv_owner _ HI).
  - intros p Hp. pose proof (so_slots _ _ _ Hok p Hp) as Hs. case_decide as E; [|done].
    unfold slot_ok. rewrite E. destruct Hs as [Ho|[Hr Hno]]; [by exists h|].
    pose proof (inv_slots _ HI p Hp) as Hsl. unfold slot_ok in Hsl. rewrite Hr in Hsl.
    destruct Hsl as (h' & Hh' & Ho'). exists h'. split; [done|]. rewrite Hcode; [done|]. by intros ->.
  - apply Hok.
  - destruct (so_lock _ _ _ Hok) as [[Hl Ew]|[Hl Ew]]; rewrite Ew.
    2: { assert (∀ h', locked (code t h') = locked (code s h')) as Hsame.
         { intros h'. destruct (decide (h' = h)) as [->|Hne]; [done|]. by rewrite Hcode. }
         destruct (inv_lock _ HI) as [[E0 Hno]|(E1 & h0 & Hh0 & Hl0 & Huniq)]; [left|right]; (split; [done|]).
         - intros. rewrite Hsame. auto.
         - exists h0. split_and!; [done|by rewrite Hsame|]. intros h' Hh'. rewrite Hsame. auto. }
    assert (∀ h', (h' < NCPU)%nat → h' ≠ h → locked (code t h') = false) as Hothers.
    { intros h' Hh' Hne. rewrite Hcode by done.
      destruct (inv_lock _ HI) as [[E0 Hno]|(E1 & h0 & _ & _ & Huniq)]; [by apply Hno|].
      destruct Hl as [Hl|Hl]; [|unfold lock_word in *; lia]. destruct (locked (code s h')) eqn:El; [|done].
      destruct Hne. rewrite (Huniq h') by done. symmetry. by apply Huniq. }
    destruct (locked (code t h)) eqn:El.
    + right. split; [done|]. exists h. split_and!; [done|done|]. intros h' Hh' Hl'.
      destruct (decide (h' = h)) as [|Hne]; [done|]. by rewrite Hothers in Hl'.
    + left. split; [done|]. intros h' Hh'. destruct (decide (h' = h)) as [->|Hne]; [done|]. by apply Hothers.
  - apply Hok.
Qed.

(** ** Steps that change little: slots keep their process, some wake up *)

Record kept (x y : proc I) : Prop := {
  kp_same : parent y = parent x ∧ pid y = pid x ∧ is_user y = is_user x;
  kp_state : (state y = state x ∧ (state x ≠ RUNNING → context y = context x ∧ chan y = chan x)) ∨
    (state x = SLEEPING ∧ state y = RUNNABLE ∧ context y = context x);
}.

Lemma kept_refl x : kept x x.
Proof. split; [done|]. by left. Qed.

Lemma kept_trans x y z : kept x y → kept y z → kept x z.
Proof.
  intros [(E1 & E2 & E3) H1] [(F1 & F2 & F3) H2]. split; [by rewrite F1, F2, F3|].
  destruct H1 as [[S1 C1]|(S1 & S2 & C1)], H2 as [[T1 D1]|(T1 & T2 & D1)].
  - left. split; [congruence|]. intros Hr. destruct (C1 Hr) as [<- <-]. apply D1. congruence.
  - right. destruct C1 as [C1 _]; [congruence|]. split_and!; [congruence|done|congruence].
  - right. destruct D1 as [D1 _]; [by rewrite S2|]. split_and!; [done|congruence|congruence].
  - congruence.
Qed.

Lemma kept_slots h s t :
  Inv s → (∀ p, (p < NPROC)%nat → kept (procs s p) (procs t p)) → owner (code t h) = owner (code s h) →
  ∀ p, (p < NPROC)%nat →
    if decide (state (procs t p) = RUNNING)
    then owner (code t h) = Some p ∨ (state (procs s p) = RUNNING ∧ owner (code s h) ≠ Some p)
    else slot_ok t p.
Proof.
  intros HI Hk Ho p Hp. destruct (Hk p Hp) as [(E1 & _) Hst]. pose proof (inv_slots _ HI p Hp) as Hs. unfold slot_ok in *.
  destruct Hst as [[S1 C]|(S1 & S2 & C)].
  - rewrite S1 in *. case_decide as Er.
    + rewrite Ho. destruct (decide (owner (code s h) = Some p)); [by left|by right].
    + destruct (C Er) as [C1 C2]. rewrite C1, C2, E1. destruct (state (procs s p)); done.
  - rewrite S1 in Hs. rewrite S2. destruct (decide _); [done|]. rewrite C. destruct Hs as [[-> _]|(? & ? & -> & _)]; done.
Qed.

Lemma kept_waits s t :
  Inv s → (∀ p, (p < NPROC)%nat → kept (procs s p) (procs t p)) → ∀ p, (p < NPROC)%nat → waits_ok t p.
Proof.
  intros HI Hk p Hp Hst Hch. destruct (Hk p Hp) as [_ Hpst].
  assert (state (procs s p) = SLEEPING ∧ chan (procs s p) = Some (OnProc p)) as [Hs Hc].
  { destruct Hpst as [[S1 C]|(_ & S2 & _)]; [|congruence]. rewrite S1 in Hst. rewrite Hst in C.
    destruct C as [_ C]; [done|]. by rewrite <- C. }
  destruct (inv_waits _ HI p Hp Hs Hc) as [(q & Hq & Hpar) Hz]. split.
  - exists q. split; [done|]. destruct (Hk q Hq) as [(E & _) _]. by rewrite E.
  - intros r Hr Hpr Hzz. destruct (Hk r Hr) as [(E & _) Hrst]. rewrite E in Hpr. apply (Hz r Hr Hpr).
    destruct Hrst as [[S1 _]|(_ & S2 & _)]; congruence.
Qed.

Lemma kept_pids s t :
  Inv s → (∀ p, (p < NPROC)%nat → kept (procs s p) (procs t p)) → next_pid t = next_pid s → pids_ok t.
Proof.
  intros HI Hk Hn p Hp Hst Hu.
  assert (∀ q, (q < NPROC)%nat → (state (procs t q) ≠ UNUSED → state (procs s q) ≠ UNUSED) ∧
    is_user (procs t q) = is_user (procs s q) ∧ pid (procs t q) = pid (procs s q)) as Hsame.
  { intros q Hq. destruct (Hk q Hq) as [(_ & E2 & E3) [[S1 _]|(S1 & _)]]; split_and!; try done; congruence. }
  destruct (Hsame p Hp) as (H1 & H2 & H3). rewrite H2 in Hu. rewrite Hn, H3.
  destruct (inv_pids _ HI p Hp (H1 Hst) Hu) as [Hlt Huniq]. split; [done|].
  intros q Hq Hst' Hu'. destruct (Hsame q Hq) as (G1 & G2 & G3). rewrite G2 in Hu'. rewrite G3. auto.
Qed.

Lemma step_ok_kept h s t :
  Inv s → elsewhere h s t → hart_ok t h → (∀ p, (p < NPROC)%nat → kept (procs s p) (procs t p)) →
  owner (code t h) = owner (code s h) → next_pid t = next_pid s →
  (locked (code s h) = true ∨ lock_word s = 0) → lock_word t = (if locked (code t h) then 1 else 0) →
  step_ok h s t.
Proof.
  intros HI Hew Hh Hk Ho Hn Hl Hw. split; [exact Hew|exact Hh| | | | |left; by split|].
  - intros p Hp Hr _. destruct (Hk p Hp) as [_ [[-> _]|(S & _)]]; [done|congruence].
  - intros p. rewrite Ho. by left.
  - by apply kept_slots.
  - by eapply kept_waits.
  - by eapply kept_pids.
Qed.

(** ** The lock *)

Definition spin_elsewhere (h : nat) (sp sp' : spin) : Prop :=
  ∀ h', h' ≠ h → cpus sp' !! h' = cpus sp !! h' ∧ sie sp' !! h' = sie sp !! h'.

Lemma wlp_set_sie h b n s (Q : unit → sys W I → Prop) :
  hart_spin (spins s) h n false →
  (∀ sp, spin_elsewhere h (spins s) sp → words sp = words (spins s) → hart_spin sp h n false → Q tt (put_spins sp s)) →
  wlp (set_sie h b) Q s.
Proof.
  intros (c & b0 & Hc & Hb & Hn & _) HQ. unfold set_sie. wlp_step. apply HQ; [|done|].
  - intros h' Hne. cbn. by rewrite list_lookup_insert_ne.
  - exists c, b. cbn. rewrite list_lookup_insert_eq by (by eapply lookup_lt_Some). done.
Qed.

Lemma wlp_acquire_pt h n off s (Q : unit → sys W I → Prop) :
  hart_spin (spins s) h n off →
  (∀ sp, lock_word s = 0 → word_of pt_lock (words sp) = 1 → spin_elsewhere h (spins s) sp →
     hart_spin sp h (n + 1) true → Q tt (put_spins sp s)) →
  wlp (acquire_pt h) Q s.
Proof.
  intros (c & b0 & Hc & Hb & Hn & _) HQ. unfold acquire_pt. do 4 wlp_step.
  destruct (push_off_spec _ _ _ H) as (c' & b' & i & Hc' & Hb' & ->). rewrite Hc in Hc'. injection Hc' as <-.
  cbn [test_and_set]. unfold test_and_set. cbn [words]. case_match eqn:E; [|done]. apply Z.eqb_eq in E.
  wlp_step. apply HQ; [exact E|by destruct (words (spins s))| |].
  - intros h' Hne. cbn. by rewrite !list_lookup_insert_ne.
  - eexists _, _. cbn. rewrite !list_lookup_insert_eq by (by eapply lookup_lt_Some). split_and!; [done|done|by rewrite <- Hn|done].
Qed.

Lemma wlp_release_pt h n off s (Q : unit → sys W I → Prop) :
  hart_spin (spins s) h n off →
  (∀ sp, word_of pt_lock (words sp) = 0 → spin_elsewhere h (spins s) sp →
     hart_spin sp h (n - 1) false → Q tt (put_spins sp s)) →
  wlp (release_pt h) Q s.
Proof.
  intros (c & b0 & Hc & Hb & Hn & _) HQ. unfold release_pt. do 4 wlp_step.
  destruct (pop_off_spec _ _ _ H) as (c' & Hc' & Hw & Hcpus & Hsie). cbn in Hc', Hw, Hcpus, Hsie.
  rewrite Hc in Hc'. injection Hc' as <-. wlp_step. apply HQ.
  - rewrite Hw. by destruct (words (spins s)).
  - intros h' Hne. rewrite Hcpus, list_lookup_insert_ne by done. split; [done|].
    destruct Hsie as [->|[_ ->]]; [done|by rewrite list_lookup_insert_ne].
  - destruct Hsie as [Hsie|[_ Hsie]].
    + eexists _, b0. rewrite Hcpus, Hsie, list_lookup_insert_eq by (by eapply lookup_lt_Some). split_and!; [done|done|by rewrite <- Hn|done].
    + eexists _, true. rewrite Hcpus, Hsie, !list_lookup_insert_eq by (by eapply lookup_lt_Some). split_and!; [done|done|by rewrite <- Hn|done].
Qed.

(** ** wakeup and the scans *)

Lemma wakeup_loop_S n i c s :
  wakeup_loop (S n) i c s = wakeup_loop n (S i) c
    (if asleep_on c (procs s i) then put_procs (<[i := with_state RUNNABLE (procs s i)]> (procs s)) s else s).
Proof.
  change (wakeup_loop (S n) i c s) with ((when (asleep_on c (procs s i)) (set_proc i (with_state RUNNABLE (procs s i))) ;; wakeup_loop n (S i) c) s).
  by destruct (asleep_on c (procs s i)).
Qed.

Lemma wakeup_loop_eq n i c s :
  ∃ f, wakeup_loop n i c s = Done tt (put_procs f s) ∧
    ∀ j, f j = if bool_decide (i ≤ j < i + n)%nat && asleep_on c (procs s j) then with_state RUNNABLE (procs s j) else procs s j.
Proof.
  revert i s. induction n as [|n IH]; intros i s.
  - exists (procs s). split; [by destruct s|]. intros j. rewrite bool_decide_false by lia. done.
  - rewrite wakeup_loop_S. destruct (asleep_on c (procs s i)) eqn:Ea.
    + destruct (IH (S i) (put_procs (<[i:=with_state RUNNABLE (procs s i)]> (procs s)) s)) as (f & E & Hf).
      exists f. split; [exact E|]. intros j. rewrite Hf. cbn [procs put_procs].
      destruct (decide (j = i)) as [->|Hne].
      * rewrite fn_lookup_insert, Ea, bool_decide_false, bool_decide_true by lia. done.
      * rewrite fn_lookup_insert_ne by done. by rewrite (bool_decide_ext (S i ≤ j < S i + n)%nat (i ≤ j < i + S n)%nat) by lia.
    + destruct (IH (S i) s) as (f & E & Hf). exists f. split; [exact E|]. intros j. rewrite Hf.
      destruct (decide (j = i)) as [->|Hne].
      * by rewrite Ea, !andb_false_r.
      * by rewrite (bool_decide_ext (S i ≤ j < S i + n)%nat (i ≤ j < i + S n)%nat) by lia.
Qed.

(** [f'] is the process table [f] with the sleepers on [c] made runnable. *)
Definition woken (c : channel) (f f' : nat → proc I) : Prop :=
  ∀ j, f' j = if bool_decide (j < NPROC)%nat && asleep_on c (f j) then with_state RUNNABLE (f j) else f j.

Lemma wlp_wakeup c s (Q : unit → sys W I → Prop) :
  (∀ f, woken c (procs s) f → Q tt (put_procs f s)) → wlp (wakeup c) Q s.
Proof.
  intros HQ. unfold wakeup. destruct (wakeup_loop_eq NPROC 0 c s) as (f & E & Hf). unfold wlp. rewrite E.
  apply HQ. intros j. rewrite Hf. by rewrite (bool_decide_ext (0 ≤ j < 0 + NPROC)%nat (j < NPROC)%nat) by lia.
Qed.

Lemma asleep_on_iff c (x : proc I) : asleep_on c x = true ↔ state x = SLEEPING ∧ chan x = Some c.
Proof. unfold asleep_on. rewrite andb_true_iff, !bool_decide_eq_true. done. Qed.

Lemma woken_kept c f f' p : woken c f f' → kept (f p) (f' p).
Proof.
  intros Hw. rewrite Hw. destruct (bool_decide _ && _) eqn:E; [|apply kept_refl].
  apply andb_true_iff in E as [_ E%asleep_on_iff]. split; [done|]. right. by destruct E.
Qed.

Lemma find_unused_some (f : nat → proc I) n i j :
  find_unused f n i = Some j → (i ≤ j < i + n)%nat ∧ state (f j) = UNUSED.
Proof.
  revert i. induction n as [|n IH]; intros i; simpl; [done|]. case_decide as E.
  - intros [= <-]. split; [lia|done].
  - intros Hj%IH. split; [lia|]. by destruct Hj.
Qed.

Lemma wait_scan_spec (f : nat → proc I) p n i kids :
  match wait_scan f p n i kids with
  | inr q => (i ≤ q < i + n)%nat ∧ parent (f q) = Some p ∧ state (f q) = ZOMBIE
  | inl k => (k = true ↔ kids = true ∨ ∃ q, (i ≤ q < i + n)%nat ∧ parent (f q) = Some p) ∧
      ∀ q, (i ≤ q < i + n)%nat → parent (f q) = Some p → state (f q) ≠ ZOMBIE
  end.
Proof.
  revert i kids. induction n as [|n IH]; intros i kids; simpl.
  - split; [|lia]. split; [by left|]. intros [|(q & ? & _)]; [done|lia].
  - case_decide as Ep; [case_decide as Ez|].
    + split; [lia|done].
    + specialize (IH (S i) true). destruct (wait_scan f p n (S i) true) as [k|q]; [|destruct IH; split; [lia|done]].
      destruct IH as [Hk Hz]. split.
      * rewrite Hk. split; [|by left]. intros _. right. exists i. split; [lia|done].
      * intros q Hq. destruct (decide (q = i)) as [->|]; [done|]. apply Hz. lia.
    + specialize (IH (S i) kids). destruct (wait_scan f p n (S i) kids) as [k|q]; [|destruct IH; split; [lia|done]].
      destruct IH as [Hk Hz]. split.
      * rewrite Hk. split.
        -- intros [|(q & ? & ?)]; [by left|]. right. exists q. split; [lia|done].
        -- intros [|(q & ? & Hq)]; [by left|]. right. exists q. split; [|done].
           destruct (decide (q = i)) as [->|]; [done|lia].
      * intros q Hq Hpar. destruct (decide (q = i)) as [->|]; [done|]. apply Hz; [lia|done].
Qed.
End invariant.
