(* ===== verification/SchedStep.v ===== *)
(** * Every step of the scheduler keeps the invariant *)
From stdpp Require Import functions.
From S2P Require Import Prelude Spinlock Console Sched SchedInv.

(** Projections of an updated state. *)
Ltac sys_simpl :=
  cbn [procs cpu_proc cpu_sched next_pid spins con echoed satps code mem_world
       put_procs put_cpu_proc put_cpu_sched put_next_pid put_spins put_con put_echoed put_satps put_code put_world
       state context pid chan parent is_user image name
       with_state with_context with_counter with_chan with_parent with_image
       locked owner] in *.

(** [sys_simpl], with the updated entries looked up. *)
Ltac look := sys_simpl; rewrite ?fn_lookup_insert; sys_simpl.

Ltac spin_else :=
  repeat match goal with
  | H : spin_elsewhere ?h _ ?b, Hne : ?h' ≠ ?h |- context [cpus ?b !! ?h'] => destruct (H h' Hne) as [-> ->]
  end; done.

Ltac else_tac :=
  split; intros h' Hne; sys_simpl; rewrite ?fn_lookup_insert_ne by done; first [done|spin_else].

Ltac prims :=
  unfold swtch_to_proc, swtch_to_sched, upd_proc, get_proc, set_proc, goto, set_satp, set_cpu_proc, current_proc, on_world, take_pid.

Section steps.
Context {W I : Type}.
Implicit Types s t : sys W I.

Section hart.
Context (h : nat) (s : sys W I) (Hh : (h < NCPU)%nat) (HI : Inv s).

Lemma hart_spin_weaken sp n off : hart_spin sp h n off → hart_spin sp h n false.
Proof. intros (c & b & H1 & H2 & H3 & _). exists c, b. done. Qed.

Lemma kept_id p : kept (procs s p) (procs s p).
Proof. apply kept_refl. Qed.

(** The lock is held by this hart, or free. *)
Lemma held_locked : locked (code s h) = true → locked (code s h) = true ∨ lock_word s = 0.
Proof. by left. Qed.

Lemma lock_word_held : locked (code s h) = true → lock_word s = 1.
Proof.
  intros Hl. destruct (inv_lock _ HI) as [[_ Hno]|[? _]]; [|done]. rewrite Hno in Hl by done. done.
Qed.

Lemma keep_Inv t :
  elsewhere h s t → hart_ok t h → (∀ p, (p < NPROC)%nat → kept (procs s p) (procs t p)) →
  owner (code t h) = owner (code s h) → next_pid t = next_pid s →
  (locked (code s h) = true ∨ lock_word s = 0) → lock_word t = (if locked (code t h) then 1 else 0) → Inv t.
Proof. intros. apply (step_ok_Inv h s); [done|done|]. by apply step_ok_kept. Qed.

Lemma top_Inv : code s h = Top → wlp (sched_top h) (λ _ t, Inv t) s.
Proof.
  intros Ec. pose proof (inv_harts _ HI h Hh) as [Hsp Hl]. rewrite Ec in *. simpl in Hsp. destruct Hl as [Ecp Esa].
  unfold sched_top. prims. wlp_step. eapply wlp_set_sie; [done|]. intros sp Hel Hw Hsp'. wlp_step.
  eapply wlp_acquire_pt; [done|]. intros sp' Hz Hw' Hel' Hsp''. wlp_step.
  assert (lock_word s = 0) as Hz' by (unfold lock_word in *; cbn in Hz; by rewrite <- Hw).
  apply keep_Inv; rewrite ?Ec; try done.
  - else_tac.
  - split; look; [done|]. split; [unfold NPROC; lia|done].
  - intros; apply kept_refl.
  - by look.
  - by right.
  - by look.
Qed.

(** The conditions of [step_ok] for one slot. *)
Definition slot_step t p : Prop :=
  if decide (state (procs t p) = RUNNING)
  then owner (code t h) = Some p ∨ (state (procs s p) = RUNNING ∧ owner (code s h) ≠ Some p)
  else slot_ok t p.

Lemma slot_kept t p :
  (p < NPROC)%nat → kept (procs s p) (procs t p) → (owner (code s h) = Some p → owner (code t h) = Some p) → slot_step t p.
Proof.
  intros Hp [(E1 & _) Hst] Ho. pose proof (inv_slots _ HI p Hp) as Hs. unfold slot_step, slot_ok in *.
  destruct Hst as [[S1 C]|(S1 & S2 & C)].
  - rewrite S1 in *. case_decide as Er.
    + destruct (decide (owner (code s h) = Some p)); [left; auto|by right].
    + destruct (C Er) as [C1 C2]. rewrite C1, C2, E1. destruct (state (procs s p)); done.
  - rewrite S1 in Hs. rewrite S2. destruct (decide _); [done|]. rewrite C. destruct Hs as [[-> _]|(? & ? & -> & _)]; done.
Qed.

Lemma kept_running (x y : proc I) : kept x y → state x = RUNNING → state y = RUNNING.
Proof. intros [_ [[E _]|(E & _)]]; congruence. Qed.

Lemma kept_sleeping (x y : proc I) : kept x y → state y = SLEEPING → state x = SLEEPING ∧ chan x = chan y.
Proof. intros [_ [[E C]|(_ & E & _)]] Hs; [|congruence]. split; [congruence|]. destruct C; congruence. Qed.

Lemma kept_zombie (x y : proc I) : kept x y → state y = ZOMBIE → state x = ZOMBIE.
Proof. intros [_ [[E C]|(_ & E & _)]]; congruence. Qed.

Lemma waits_from t p :
  (p < NPROC)%nat →
  (state (procs t p) = SLEEPING → state (procs s p) = SLEEPING ∧ chan (procs s p) = chan (procs t p)) →
  (state (procs s p) = SLEEPING → ∀ q, (q < NPROC)%nat → parent (procs t q) = Some p ↔ parent (procs s q) = Some p) →
  (state (procs t p) = SLEEPING → chan (procs t p) = Some (OnProc p) →
     ∀ q, (q < NPROC)%nat → parent (procs t q) = Some p → state (procs t q) = ZOMBIE → state (procs s q) = ZOMBIE) →
  waits_ok t p.
Proof.
  intros Hp Hsl Hpar Hz Hst Hch. destruct (Hsl Hst) as [Hs Hc]. rewrite <- Hc in Hch.
  destruct (inv_waits _ HI p Hp Hs Hch) as [(q & Hq & Hqp) Hnz]. split.
  - exists q. split; [done|]. by apply Hpar.
  - intros r Hr Hrp Hrz. apply (Hnz r Hr); [by apply Hpar|]. apply Hz; congruence.
Qed.

(** Identifiers: the slots keep theirs, or become unused, or take the next. *)
Lemma pids_from t :
  next_pid s ≤ next_pid t →
  (∀ p, (p < NPROC)%nat → state (procs t p) ≠ UNUSED → is_user (procs t p) = true →
     state (procs s p) ≠ UNUSED ∧ is_user (procs s p) = true ∧ pid (procs t p) = pid (procs s p) ∨
     pid (procs t p) = next_pid s ∧ next_pid s < next_pid t ∧
       ∀ q, (q < NPROC)%nat → q ≠ p → state (procs t q) ≠ UNUSED → is_user (procs t q) = true →
         state (procs s q) ≠ UNUSED ∧ is_user (procs s q) = true ∧ pid (procs t q) = pid (procs s q)) →
  pids_ok t.
Proof.
  intros Hn Hk. assert (∀ p, (p < NPROC)%nat → state (procs t p) ≠ UNUSED → is_user (procs t p) = true →
    pid (procs t p) < next_pid t) as Hlt.
  { intros p Hp Hu Hi. destruct (Hk p Hp Hu Hi) as [(Hu' & Hi' & ->)|(-> & H & _)]; [|done].
    destruct (inv_pids _ HI p Hp Hu' Hi'). lia. }
  intros p Hp Hu Hi. split; [by apply Hlt|]. intros q Hq Hu' Hi' E. destruct (decide (p = q)) as [|Hne]; [done|].
  destruct (Hk p Hp Hu Hi) as [(Hus & His & Ep)|(Ep & _ & Ho)].
  - destruct (Hk q Hq Hu' Hi') as [(Hus' & His' & Eq)|(Eq & _ & _)].
    + destruct (inv_pids _ HI p Hp Hus His) as [_ Huniq]. apply Huniq; [done..|congruence].
    + destruct (inv_pids _ HI p Hp Hus His) as [Hl _]. rewrite Ep, Eq in E. lia.
  - destruct (Ho q Hq ltac:(done) Hu' Hi') as (Hus' & His' & Eq). destruct (inv_pids _ HI q Hq Hus' His') as [Hl _]. lia.
Qed.

Lemma kept_pid (x y : proc I) :
  kept x y → state y ≠ UNUSED → is_user y = true → state x ≠ UNUSED ∧ is_user x = true ∧ pid y = pid x.
Proof. intros [(E1 & E2 & E3) [[E _]|(E & _)]] Hu Hi; rewrite <- E3, E2; split_and!; congruence. Qed.

(** Steps that change the state of one process, [i]; the others are kept. *)
Lemma change_Inv i t :
  (i < NPROC)%nat → elsewhere h s t → hart_ok t h →
  (∀ p, (p < NPROC)%nat → p ≠ i → kept (procs s p) (procs t p)) →
  parent (procs t i) = parent (procs s i) → is_user (procs t i) = is_user (procs s i) → pid (procs t i) = pid (procs s i) →
  state (procs s i) ≠ UNUSED → next_pid t = next_pid s →
  (* who runs *)
  (state (procs s i) = RUNNING → owner (code s h) = Some i) →
  (∀ p, owner (code s h) = Some p → p = i ∨ owner (code t h) = Some p) →
  (∀ p, owner (code t h) = Some p → owner (code s h) = Some p ∨ p = i ∧ state (procs s i) ≠ RUNNING) →
  slot_step t i → waits_ok t i →
  (state (procs t i) = ZOMBIE → ∀ p, (p < NPROC)%nat → parent (procs s i) = Some p → state (procs t p) = SLEEPING →
     chan (procs t p) ≠ Some (OnProc p)) →
  (locked (code s h) = true ∨ lock_word s = 0) → lock_word t = (if locked (code t h) then 1 else 0) → Inv t.
Proof.
  intros Hi Hew Hho Hk Epar Eu Epid Hnu Hnext Hrun Hown Htaken Hslot Hwait Hz Hl Hlw.
  apply (step_ok_Inv h s); [done|done|]. split; [done|done| | | | |by left|].
  - intros p Hp Hr Ho. destruct (decide (p = i)) as [->|Hne]; [by destruct Ho; apply Hrun|].
    by eapply kept_running; [apply Hk|].
  - intros p Ho. destruct (Htaken p Ho) as [|[-> ?]]; [by left|by right].
  - intros p Hp. destruct (decide (p = i)) as [->|Hne]; [exact Hslot|]. apply slot_kept; [done|by apply Hk|].
    intros Ho. by destruct (Hown p Ho).
  - intros p Hp. destruct (decide (p = i)) as [->|Hne]; [done|]. apply waits_from; [done| | |].
    + by apply kept_sleeping, Hk.
    + intros _ q Hq. destruct (decide (q = i)) as [->|Hne']; [by rewrite Epar|].
      by destruct (Hk q Hq Hne') as [(-> & _) _].
    + intros Hst Hch q Hq Hpar Hzz. destruct (decide (q = i)) as [->|Hne'].
      * rewrite Epar in Hpar. by destruct (Hz Hzz p Hp Hpar Hst).
      * by eapply kept_zombie; [apply Hk|].
  - apply pids_from; [lia|]. intros p Hp Hu Hus. left. destruct (decide (p = i)) as [->|Hne].
    + rewrite Eu in Hus. done.
    + by apply kept_pid; [apply Hk|..].
Qed.

Lemma scan_Inv i : code s h = Scan i → wlp (sched_scan h i) (λ _ t, Inv t) s.
Proof.
  intros Ec. pose proof (inv_harts _ HI h Hh) as [Hsp Hl]. rewrite Ec in *. simpl in Hsp. destruct Hl as (Hi & Ecp & Esa).
  pose proof (lock_word_held ltac:(by rewrite Ec)) as Hlw.
  unfold sched_scan. prims. destruct (Nat.ltb_spec i NPROC) as [Hlt|Hge].
  2: { wlp_step. eapply wlp_release_pt; [done|]. intros sp Hw Hel Hsp'. wlp_step.
       apply keep_Inv; rewrite ?Ec; try done; [else_tac| |intros; apply kept_refl|by look|by left|by look].
       split; look; [exact Hsp'|done]. }
  do 2 wlp_step. case_decide as Er; wlp_steps.
  - pose proof (inv_slots _ HI i Hlt) as Hsl. unfold slot_ok in Hsl. rewrite Er in Hsl.
    apply (change_Inv i); rewrite ?Ec; look; try done.
    + else_tac.
    + split; look; [exact Hsp|]. split; [|exact Hsl]. unfold runs. look. split_and!; try done. by exists i.
    + intros p Hp Hne. rewrite fn_lookup_insert_ne by done. apply kept_refl.
    + congruence.
    + congruence.
    + intros p [= <-]. right. split; [done|congruence].
    + unfold slot_step. look. by left.
    + intros Hst. exfalso. revert Hst. by look.
    + by left.
  - apply keep_Inv; rewrite ?Ec; try done.
    + else_tac.
    + split; look; [done|]. split; [lia|done].
    + intros; apply kept_refl.
    + by look.
    + by left.
    + by look.
Qed.

(** The code of a process that holds the lock, or does not. *)
Lemma runs_here p : owner (code s h) = Some p → runs s h p.
Proof.
  intros Ho. destruct (inv_harts _ HI h Hh) as [_ Hc].
  destruct (code s h) as [|i|[q|] k|q|q got n|q]; simpl in Ho; try done; injection Ho as ->; try exact Hc. apply Hc.
Qed.

Lemma spin_here n : (if locked (code s h) then 1 else 0) = n → hart_spin (spins s) h n (locked (code s h)).
Proof. intros <-. apply (inv_harts _ HI h Hh). Qed.

Lemma runs_put c sp p : runs s h p → runs (put_code (<[h := c]> (code s)) (put_spins sp s)) h p.
Proof. done. Qed.

(** Giving up the lock, and going on as process [p]. *)
Lemma leave_Inv p t :
  owner (code s h) = Some p → locked (code s h) = true →
  elsewhere h s t → (∀ q, (q < NPROC)%nat → kept (procs s q) (procs t q)) → next_pid t = next_pid s →
  cpu_proc t h = cpu_proc s h → cpu_sched t h = cpu_sched s h → satps t h = satps s h → spins t = spins s →
  wlp (release_pt h;; goto h (Free p)) (λ _ u, Inv u) t.
Proof.
  intros Ho Hl Hew Hk Hn E1 E2 E3 Esp. pose proof (spin_here 1 ltac:(by rewrite Hl)) as Hsp. rewrite <- Esp in Hsp.
  destruct (runs_here p Ho) as (R1 & R2 & R3 & R4 & R5).
  wlp_step. eapply wlp_release_pt; [done|]. intros sp Hw Hel Hsp'. unfold goto. wlp_step. destruct Hew as [W1 W2 W3].
  apply keep_Inv; look; try done; [| |by left].
  - split; intros h' Hne; sys_simpl; [by rewrite fn_lookup_insert_ne, W1|by apply W2|].
    destruct (Hel h' Hne) as [-> ->]. by apply W3.
  - split; look; [exact Hsp'|]. unfold runs. sys_simpl. rewrite E1, E2, E3. split_and!; try done.
    by eapply kept_running; [apply Hk|].
Qed.

Lemma back_Inv i : code s h = At None (InSched i) → wlp (sched_back h i) (λ _ t, Inv t) s.
Proof.
  intros Ec. pose proof (inv_harts _ HI h Hh) as [Hsp Hl]. rewrite Ec in *. simpl in Hsp. destruct Hl as (i' & [= <-] & Hi).
  unfold sched_back. prims. wlp_steps.
  apply keep_Inv; rewrite ?Ec; try done; [else_tac| |intros; apply kept_refl|by look|by left|].
  - split; look; [exact Hsp|]. split; [lia|done].
  - look. apply lock_word_held. by rewrite Ec.
Qed.

Lemma self_elsewhere : elsewhere h s s.
Proof. by split. Qed.

Lemma entry_Inv p : owner (code s h) = Some p → locked (code s h) = true → wlp (release_pt h;; goto h (Free p)) (λ _ u, Inv u) s.
Proof. intros Ho Hl. apply (leave_Inv p); try done; intros; apply kept_refl. Qed.

Lemma sie_Inv b : locked (code s h) = false → wlp (set_sie h b) (λ _ t, Inv t ∧ code t = code s) s.
Proof.
  intros Hl. pose proof (inv_harts _ HI h Hh) as [Hsp Hc]. rewrite Hl in Hsp.
  eapply wlp_set_sie; [done|]. intros sp Hel Hw Hsp'. split; [|done].
  apply (step_ok_Inv h s); [done|done|]. split; look.
  - else_tac.
  - split; look; [by rewrite Hl|exact Hc].
  - done.
  - by left.
  - intros p Hp. apply (slot_kept (put_spins sp s)); [done|apply kept_refl|done].
  - apply (inv_waits _ HI).
  - right. split; [done|]. unfold lock_word. look. by rewrite Hw.
  - apply (inv_pids _ HI).
Qed.

(** A step of a process that keeps the hart and the lock as they are. *)
Lemma work_Inv t p :
  owner (code s h) = Some p → code t = code s → cpu_proc t = cpu_proc s → cpu_sched t = cpu_sched s →
  satps t = satps s → spins t = spins s → next_pid t = next_pid s →
  (∀ q, (q < NPROC)%nat → kept (procs s q) (procs t q)) → Inv t.
Proof.
  intros Ho E1 E2 E3 E4 E5 E6 Hk. pose proof (inv_harts _ HI h Hh) as [Hsp Hc].
  destruct (runs_here p Ho) as (R1 & R2 & R3 & R4 & R5).
  assert (elsewhere h s t) as Hew by (split; intros; rewrite ?E1, ?E2, ?E3, ?E4, ?E5; done).
  apply (step_ok_Inv h s); [done|done|]. split; rewrite ?E1.
  - done.
  - assert (runs t h p) as Hrun.
    { unfold runs. rewrite E2, E3, E4. split_and!; try done. by eapply kept_running; [apply Hk|]. }
    unfold hart_ok. rewrite E1, E5. split; [done|].
    destruct (code s h) as [|i|[q|] k|q|q got n|q]; simpl in Ho; try done; injection Ho as ->; try done.
    split; [done|]. by apply Hc.
  - intros q Hq Hr _. by eapply kept_running; [apply Hk|].
  - by left.
  - intros q Hq. pose proof (slot_kept t q Hq (Hk q Hq)) as Hs. unfold slot_step in Hs. rewrite E1 in Hs. by apply Hs.
  - by eapply kept_waits.
  - right. split; [done|]. unfold lock_word. by rewrite E5.
  - by eapply kept_pids.
Qed.

(** Changing a field of the running process that the invariant does not see. *)
Lemma kept_upd p (f : proc I → proc I) :
  owner (code s h) = Some p →
  (∀ x, state (f x) = state x ∧ parent (f x) = parent x ∧ pid (f x) = pid x ∧ is_user (f x) = is_user x) →
  ∀ q, kept (procs s q) ((<[p := f (procs s p)]> (procs s)) q).
Proof.
  intros Ho Hf q. destruct (decide (q = p)) as [->|Hne]; [|rewrite fn_lookup_insert_ne by done; apply kept_refl].
  rewrite fn_lookup_insert. destruct (Hf (procs s p)) as (F1 & F2 & F3 & F4).
  split; [by rewrite F2, F3, F4|]. left. split; [done|]. intros Hr. destruct Hr. by apply (runs_here p Ho).
Qed.

Lemma upd_Inv p (f : proc I → proc I) :
  owner (code s h) = Some p →
  (∀ x, state (f x) = state x ∧ parent (f x) = parent x ∧ pid (f x) = pid x ∧ is_user (f x) = is_user x) →
  wlp (upd_proc p f) (λ _ t, Inv t) s.
Proof.
  intros Ho Hf. prims. wlp_steps. apply (work_Inv _ p); try done. intros q _. by apply kept_upd.
Qed.

(** Back in [sleep]: the channel is cleared, and the caller goes on with the lock. *)
Lemma sleep_back_Inv p c :
  owner (code s h) = Some p → locked (code s h) = true → owner c = Some p → locked c = true →
  (runs s h p → match c with Wait q | Read q _ _ => q = p | _ => False end) →
  wlp (sleep_back p;; goto h c) (λ _ t, Inv t) s.
Proof.
  intros Ho Hl Hoc Hlc Hcase. pose proof (spin_here 1 ltac:(by rewrite Hl)) as Hsp. rewrite Hl in Hsp.
  pose proof (runs_here p Ho) as Hr. specialize (Hcase Hr). destruct Hr as (R1 & R2 & R3 & R4 & R5).
  unfold sleep_back. prims. wlp_steps. apply keep_Inv; look; try done.
  - else_tac.
  - split; look; [by rewrite Hlc|]. destruct c; try done; subst; unfold runs; look; done.
  - intros q _. by apply kept_upd.
  - by rewrite Hoc.
  - by left.
  - rewrite Hlc. apply lock_word_held. done.
Qed.

(** Leaving the hart: the process [p] gets a new state, and is resumed at [k]. *)
Lemma desched_Inv p t k x :
  owner (code s h) = Some p → elsewhere h s t → (∀ q, (q < NPROC)%nat → q ≠ p → kept (procs s q) (procs t q)) →
  procs t p = x → parent x = parent (procs s p) → is_user x = is_user (procs s p) → pid x = pid (procs s p) →
  state x ≠ RUNNING → slot_ok t p → waits_ok t p →
  (state x = ZOMBIE → ∀ q, (q < NPROC)%nat → parent (procs s p) = Some q → state (procs t q) = SLEEPING →
     chan (procs t q) ≠ Some (OnProc q)) →
  next_pid t = next_pid s → code t h = At None k → k = cpu_sched s h → hart_spin (spins t) h 1 true →
  (locked (code s h) = true ∨ lock_word s = 0) → lock_word t = 1 → Inv t.
Proof.
  intros Ho Hew Hk Ex Epar Eu Epid Hnr Hslot Hwait Hz Hn Hc Hkk Hsp Hl Hlw.
  destruct (runs_here p Ho) as (R1 & R2 & R3 & R4 & R5).
  apply (change_Inv p); rewrite ?Ex; try done.
  - split; rewrite Hc; [exact Hsp|]. rewrite Hkk. exact R5.
  - by rewrite R4.
  - intros q Hq. left. congruence.
  - by rewrite Hc.
  - unfold slot_step. by rewrite Ex, decide_False by done.
  - by rewrite Hc.
Qed.

Lemma sleep_Inv p c k :
  owner (code s h) = Some p → locked (code s h) = true →
  (k = InWait p ∧ c = OnProc p ∧ (∃ q, (q < NPROC)%nat ∧ parent (procs s q) = Some p) ∧
     (∀ q, (q < NPROC)%nat → parent (procs s q) = Some p → state (procs s q) ≠ ZOMBIE)) ∨
  (∃ got n, k = InRead p got n ∧ c = OnInbuf) →
  wlp (sleep h c k) (λ _ t, Inv t) s.
Proof.
  intros Ho Hl Hk. pose proof (spin_here 1 ltac:(by rewrite Hl)) as Hsp. rewrite Hl in Hsp.
  destruct (runs_here p Ho) as (R1 & R2 & R3 & R4 & R5).
  unfold sleep. prims. do 2 wlp_step. rewrite R1. wlp_steps. sys_simpl. rewrite fn_lookup_insert.
  set (x := with_context k (with_state SLEEPING (with_chan (Some c) (procs s p)))).
  eapply (desched_Inv p _ (cpu_sched s h) x); look; try done.
  - else_tac.
  - intros q _ Hne. rewrite !fn_lookup_insert_ne by done. apply kept_refl.
  - unfold slot_ok. look. destruct Hk as [(-> & -> & _)|(got & n & -> & ->)]; [by left|right; by exists got, n].
  - intros _. look. intros [= ->]. destruct Hk as [(-> & _ & (q & Hq & Hqp) & Hz)|(? & ? & _ & ?)]; [|done]. split.
    + exists q. split; [done|]. destruct (decide (q = p)) as [->|Hne]; [by look|by rewrite !fn_lookup_insert_ne].
    + intros r Hr. destruct (decide (r = p)) as [->|Hne]; [by look|]. rewrite !fn_lookup_insert_ne by done. auto.
  - by left.
  - by apply lock_word_held.
Qed.

Lemma yield_Inv p : code s h = Free p → wlp (yield h) (λ _ t, Inv t) s.
Proof.
  intros Ec. pose proof (inv_harts _ HI h Hh) as [Hsp _]. rewrite Ec in Hsp. simpl in Hsp.
  destruct (runs_here p ltac:(by rewrite Ec)) as (R1 & R2 & R3 & R4 & R5).
  unfold yield. prims. do 2 wlp_step. rewrite R1. wlp_step. eapply wlp_acquire_pt; [done|]. intros sp Hz Hw Hel Hsp'.
  do 2 wlp_step. sys_simpl. rewrite decide_True by done. wlp_steps. sys_simpl. rewrite fn_lookup_insert.
  eapply (desched_Inv p _ (cpu_sched s h) (with_context InYield (with_state RUNNABLE (procs s p)))); rewrite ?Ec; look; try done.
  - else_tac.
  - intros q _ Hne. rewrite !fn_lookup_insert_ne by done. apply kept_refl.
  - unfold slot_ok. by look.
  - intros Hst. exfalso. revert Hst. by look.
  - by right.
Qed.

Lemma exit_Inv p : code s h = Free p → wlp (proc_exit h) (λ _ t, Inv t) s.
Proof.
  intros Ec. pose proof (inv_harts _ HI h Hh) as [Hsp _]. rewrite Ec in Hsp. simpl in Hsp.
  destruct (runs_here p ltac:(by rewrite Ec)) as (R1 & R2 & R3 & R4 & R5).
  unfold proc_exit. prims. do 4 wlp_step. assert (a = p) as -> by congruence.
  wlp_step. eapply wlp_acquire_pt; [done|]. intros sp Hz Hw Hel Hsp'. do 2 wlp_step. sys_simpl.
  set (Q := λ (_ : unit) t, ∃ f, t = put_procs f (put_spins sp s) ∧ (∀ q, kept (procs s q) (f q)) ∧ f p = procs s p ∧
    ∀ q, (q < NPROC)%nat → parent (procs s p) = Some q → state (f q) = SLEEPING → chan (f q) ≠ Some (OnProc q)).
  wlp_step. apply wlp_mono with Q.
  { destruct (parent (procs s p)) as [q|] eqn:Epar.
    - apply wlp_wakeup. intros f Hf. exists f. split; [done|]. split; [intros r; by eapply woken_kept|]. sys_simpl.
      split; [rewrite Hf; destruct (asleep_on _ _) eqn:Ea; [|by rewrite andb_false_r]; apply asleep_on_iff in Ea as [Ea _]; congruence|].
      intros r Hr [= <-] Hst Hch. rewrite Hf, bool_decide_true in Hst, Hch by done.
      destruct (asleep_on (OnProc q) (procs s q)) eqn:Ea; simpl in Hst, Hch; [done|].
      by rewrite (proj2 (asleep_on_iff _ _)) in Ea.
    - wlp_step. exists (procs s). split; [by destruct s|]. split; [intros; apply kept_refl|]. done. }
  intros [] t (f & -> & Hk & Ep & Hno). wlp_steps. sys_simpl. rewrite fn_lookup_insert, Ep.
  eapply (desched_Inv p _ (cpu_sched s h) (with_context InExit (with_state ZOMBIE (procs s p)))); rewrite ?Ec; look; try done.
  - else_tac.
  - intros q _ Hne. by rewrite !fn_lookup_insert_ne by done.
  - unfold slot_ok. by look.
  - intros Hst. exfalso. revert Hst. by look.
  - intros _ q Hq Hpar. destruct (decide (q = p)) as [->|Hne]; [by look|]. rewrite !fn_lookup_insert_ne by done. by apply Hno.
  - by right.
Qed.

(** Taking the lock, and going on as process [p]. *)
Lemma enter_Inv p c :
  code s h = Free p → owner c = Some p → match c with Wait q | Read q _ _ => q = p | _ => False end →
  wlp (acquire_pt h;; goto h c) (λ _ t, Inv t) s.
Proof.
  intros Ec Hoc Hc. pose proof (inv_harts _ HI h Hh) as [Hsp _]. rewrite Ec in Hsp. simpl in Hsp.
  destruct (runs_here p ltac:(by rewrite Ec)) as (R1 & R2 & R3 & R4 & R5).
  wlp_step. eapply wlp_acquire_pt; [done|]. intros sp Hz Hw Hel Hsp'. prims. wlp_step.
  assert (locked c = true) as Hlc by (by destruct c).
  apply keep_Inv; rewrite ?Ec; look; try done.
  - else_tac.
  - split; look; [by rewrite Hlc|]. destruct c; try done; subst; done.
  - intros; apply kept_refl.
  - by right.
  - by rewrite Hlc.
Qed.

(** [proc_wait] frees the image of the child [q] and its slot. *)
Lemma reap_Inv p q (x : proc I) t :
  owner (code s h) = Some p → locked (code s h) = true → (q < NPROC)%nat →
  parent (procs s q) = Some p → state (procs s q) = ZOMBIE →
  elsewhere h s t → (∀ r, r ≠ q → procs t r = procs s r) → procs t q = x → state x = UNUSED → parent x = None →
  cpu_proc t h = cpu_proc s h → cpu_sched t h = cpu_sched s h → satps t h = satps s h → spins t = spins s →
  code t h = code s h → next_pid t = next_pid s → Inv t.
Proof.
  intros Ho Hl Hq Hpar Hzq Hew Hk Ex Hst Hpx E1 E2 E3 Esp Ec Hn.
  destruct (runs_here p Ho) as (R1 & R2 & R3 & R4 & R5).
  assert (p ≠ q) as Hpq by congruence.
  apply (step_ok_Inv h s); [done|done|]. pose proof (inv_harts _ HI h Hh) as [Hsp Hc].
  split; rewrite ?Ec; try done.
  - assert (runs t h p) as Hrun.
    { unfold runs. rewrite E1, E2, E3, Hk by done. by split_and!. }
    unfold hart_ok. rewrite Ec, Esp. split; [done|].
    destruct (code s h) as [|i|[r|] k|r|r got n|r]; simpl in Ho; try done; injection Ho as ->; try done.
    split; [done|]. by apply Hc.
  - intros r Hr Hrun _. rewrite Hk by congruence. done.
  - by left.
  - intros r Hr. destruct (decide (r = q)) as [->|Hne].
    + rewrite Ex, Hst. unfold slot_ok. rewrite Ex, Hst. done.
    + pose proof (slot_kept t r Hr) as Hs. unfold slot_step in Hs. rewrite Ec in Hs. apply Hs; [|done].
      rewrite Hk by done. apply kept_refl.
  - intros r Hr. apply waits_from; [done| | |].
    + destruct (decide (r = q)) as [->|Hne]; [rewrite Ex, Hst; done|by rewrite Hk].
    + intros Hsr u Hu. destruct (decide (u = q)) as [->|Hne]; [|by rewrite Hk].
      rewrite Ex, Hpx, Hpar. split; [done|]. intros [= ->]. congruence.
    + intros _ _ u Hu _. destruct (decide (u = q)) as [->|Hne]; [by rewrite Ex, Hst|by rewrite Hk].
  - right. split; [done|]. unfold lock_word. by rewrite Esp.
  - apply pids_from; [lia|]. intros r Hr Hu Hus. left.
    destruct (decide (r = q)) as [->|Hne]; [by rewrite Ex, Hst in Hu|]. rewrite Hk in * by done. done.
Qed.
End hart.

Lemma wait_round_Inv `{Images W I} h s p :
  (h < NCPU)%nat → Inv s → code s h = Wait p → wlp (wait_round h p) (λ _ t, Inv t) s.
Proof.
  intros Hh HI Ec. pose proof (runs_here h s Hh HI p ltac:(by rewrite Ec)) as (R1 & R2 & R3 & R4 & R5).
  pose proof (wait_scan_spec (procs s) p NPROC 0 false) as Hs.
  unfold wait_round. do 2 wlp_step. destruct (wait_scan (procs s) p NPROC 0 false) as [kids|q].
  - destruct Hs as [Hkids Hz]. destruct kids.
    + wlp_step. eapply wlp_mono; [apply (sleep_Inv h s Hh HI p); rewrite ?Ec; try done|by intros [] t Ht].
      left. split_and!; [done|done| |intros q Hq; apply Hz; lia].
      destruct (proj1 Hkids eq_refl) as [|(q & Hq & Hqp)]; [done|]. exists q. split; [lia|done].
    + apply wlp_seq_ret. apply (entry_Inv h s Hh HI p); by rewrite Ec.
  - destruct Hs as (Hq & Hpar & Hzq). unfold on_world, upd_proc, get_proc, set_proc. do 14 wlp_step. sys_simpl.
    rewrite !fn_lookup_insert. apply wlp_seq_ret.
    apply (entry_Inv h); sys_simpl; rewrite ?Ec; try done.
    apply (reap_Inv h s Hh HI p q (with_state UNUSED (with_parent None (with_image a (procs s q))))); rewrite ?Ec; look; try done.
    + lia.
    + intros r Hr. by rewrite !fn_lookup_insert_ne.
Qed.

Lemma read_round_Inv h s p got n :
  (h < NCPU)%nat → Inv s → code s h = Read p got n → wlp (read_round h p got n) (λ _ t, Inv t) s.
Proof.
  intros Hh HI Ec. pose proof (runs_here h s Hh HI p ltac:(by rewrite Ec)) as (R1 & R2 & R3 & R4 & R5).
  unfold read_round. destruct (_ <? n).
  2: { apply wlp_seq_ret. apply (entry_Inv h s Hh HI p); by rewrite Ec. }
  do 2 wlp_step. destruct (console_empty (con s)).
  { wlp_step. eapply wlp_mono; [apply (sleep_Inv h s Hh HI p); rewrite ?Ec; try done|by intros [] t Ht].
    right. by exists got, n. }
  do 3 wlp_step. wlp_step.
  assert (∀ c, code (put_con c s) h = Read p got n) as Ec' by done.
  assert (∀ c, Inv (put_con c s)) as HI'.
  { intros c. apply (work_Inv h s Hh HI _ p); rewrite ?Ec; try done. intros; apply kept_refl. }
  destruct (_ =? 10).
  - apply wlp_seq_ret. by apply (entry_Inv h _ Hh (HI' _) p); rewrite ?Ec'.
  - prims. wlp_steps. apply (keep_Inv h s Hh HI); rewrite ?Ec; look; try done.
    + else_tac.
    + pose proof (inv_harts _ HI h Hh) as [Hsp Hc]. rewrite Ec in Hsp, Hc. split; look; done.
    + intros; apply kept_refl.
    + by left.
    + apply (lock_word_held h s Hh HI). by rewrite Ec.
Qed.

(** [proc_fork] fills the slot [i] with the child of [p]. *)
Lemma child_Inv h s p i x t :
  (h < NCPU)%nat → Inv s → code s h = Free p → lock_word s = 0 → (i < NPROC)%nat → state (procs s i) = UNUSED →
  elsewhere h s t → hart_spin (spins t) h 0 false → (∀ r, r ≠ i → procs t r = procs s r) → procs t i = x →
  state x = RUNNABLE → context x = Forkret → parent x = Some p → is_user x = true → pid x = next_pid s →
  cpu_proc t h = cpu_proc s h → cpu_sched t h = cpu_sched s h → satps t h = satps s h → lock_word t = 0 →
  code t h = code s h → next_pid t = next_pid s + 1 → Inv t.
Proof.
  intros Hh HI Ecode Hlw Hi Hun Hew Hsp Hk Ex Hst Hctx Hpx Hu Hpid E1 E2 E3 Hlw' Ec Hn.
  destruct (runs_here h s Hh HI p ltac:(by rewrite Ecode)) as (R1 & R2 & R3 & R4 & R5).
  assert (p ≠ i) as Hpi by congruence.
  assert (parent (procs s i) = None) as Hnone.
  { pose proof (inv_slots _ HI i Hi) as Hs. unfold slot_ok in Hs. by rewrite Hun in Hs. }
  apply (step_ok_Inv h s); [done|done|]. split; rewrite ?Ec, ?Ecode; try done.
  - split; rewrite Ec, Ecode; [exact Hsp|]. unfold runs. rewrite E1, E2, E3, Hk by done. done.
  - intros r Hr Hrun _. rewrite Hk by congruence. done.
  - by left.
  - intros r Hr. destruct (decide (r = i)) as [->|Hne].
    + rewrite Ex, Hst. unfold slot_ok. rewrite Ex, Hst, Hctx. done.
    + pose proof (slot_kept h s HI t r Hr) as Hs. unfold slot_step in Hs. rewrite Ec, Ecode in Hs. apply Hs; [|done].
      rewrite Hk by done. apply kept_refl.
  - intros r Hr. apply (waits_from s HI); [done| | |].
    + destruct (decide (r = i)) as [->|Hne]; [rewrite Ex, Hst; done|by rewrite Hk].
    + intros Hsr u Hu'. destruct (decide (u = i)) as [->|Hne]; [|by rewrite Hk].
      rewrite Ex, Hpx, Hnone. split; [|done]. intros [= ->]. congruence.
    + intros _ _ u Hu' _. destruct (decide (u = i)) as [->|Hne]; [by rewrite Ex, Hst|by rewrite Hk].
  - left. split; [by right|done].
  - apply (pids_from h s Hh HI); [lia|]. intros r Hr Hun' Hus. destruct (decide (r = i)) as [->|Hne].
    + right. rewrite Ex. split_and!; [done|lia|]. intros q Hq Hne Huq Hus'. rewrite Hk in * by done. done.
    + left. rewrite Hk in * by done. done.
Qed.

Lemma fork_Inv `{Images W I} h s p f : (h < NCPU)%nat → Inv s → code s h = Free p → wlp (proc_fork h f) (λ _ t, Inv t) s.
Proof.
  intros Hh HI Ec. pose proof (inv_harts _ HI h Hh) as [Hsp _]. rewrite Ec in Hsp. simpl in Hsp.
  destruct (runs_here h s Hh HI p ltac:(by rewrite Ec)) as (R1 & R2 & R3 & R4 & R5).
  unfold proc_fork. prims. do 4 wlp_step. assert (a = p) as -> by congruence. clear H0.
  wlp_step. eapply wlp_acquire_pt; [done|]. intros sp Hz Hw Hel Hsp'. do 2 wlp_step. sys_simpl.
  destruct (find_unused (procs s) NPROC 0) as [i|] eqn:Ef.
  - apply find_unused_some in Ef as [Hi Hun]. wlp_steps. sys_simpl. eapply wlp_release_pt; [done|]. intros sp' Hw' Hel' Hsp''. wlp_step.
    eapply (child_Inv h s p i); look; try done.
    + lia.
    + else_tac.
    + intros r Hr. by rewrite fn_lookup_insert_ne.
  - wlp_step. eapply wlp_release_pt; [done|]. intros sp' Hw' Hel' Hsp''. wlp_step.
    apply (keep_Inv h s Hh HI); rewrite ?Ec; look; try done.
    + else_tac.
    + split; look; [by rewrite Ec|]. by rewrite Ec.
    + intros; apply kept_refl.
    + by rewrite Ec.
    + by right.
    + by rewrite Ec.
Qed.

(** ** Interrupts *)

Definition outside (c : hcode) : Prop := c = Top ∨ ∃ p, c = Free p.

Lemma outside_spin h s : (h < NCPU)%nat → Inv s → outside (code s h) → hart_spin (spins s) h 0 false ∧ locked (code s h) = false.
Proof.
  intros Hh HI Ho. pose proof (inv_harts _ HI h Hh) as [Hsp _].
  destruct Ho as [E|[p E]]; rewrite E in *; done.
Qed.

Lemma console_intr_Inv h s c :
  (h < NCPU)%nat → Inv s → outside (code s h) → wlp (console_intr h c) (λ _ t, Inv t ∧ code t = code s) s.
Proof.
  intros Hh HI Ho. destruct (outside_spin h s Hh HI Ho) as [Hsp Hl].
  unfold console_intr. wlp_step. eapply wlp_acquire_pt; [done|]. intros sp Hz Hw Hel Hsp'. do 6 wlp_step. sys_simpl.
  set (t := put_echoed _ _). set (Q := λ (_ : unit) u, ∃ f, u = put_procs f t ∧ ∀ q, kept (procs s q) (f q)).
  wlp_step. apply wlp_mono with Q.
  { unfold when. destruct (console_put c (con s)).2.
    - apply wlp_wakeup. intros f Hf. exists f. split; [done|]. intros q. by eapply woken_kept.
    - wlp_step. exists (procs s). split; [done|]. intros; apply kept_refl. }
  intros [] u (f & -> & Hk). eapply wlp_release_pt; [done|]. intros sp' Hw' Hel' Hsp''. split; [|done].
  subst t. pose proof (inv_harts _ HI h Hh) as [_ Hc].
  apply (keep_Inv h s Hh HI); look; try done.
  - else_tac.
  - split; look; [by rewrite Hl|]. destruct Ho as [E|[p E]]; rewrite E in *; [done|].
    destruct Hc as (R1 & R2 & R3 & R4 & R5). unfold runs. sys_simpl. split_and!; try done. by eapply kept_running.
  - by right.
  - by rewrite Hl.
Qed.

Lemma uart_intr_Inv h s l :
  (h < NCPU)%nat → Inv s → outside (code s h) → wlp (uart_intr h l) (λ _ t, Inv t ∧ code t = code s) s.
Proof.
  intros Hh. revert s. induction l as [|c l IH]; intros s HI Ho; cbn [uart_intr].
  - by wlp_step.
  - wlp_step. eapply wlp_mono; [by apply console_intr_Inv|]. intros [] t [HI' Ec]. rewrite <- Ec in Ho.
    eapply wlp_mono; [by apply IH|]. intros [] u [HI'' Ec']. split; [done|congruence].
Qed.

Lemma interrupt_Inv h s m :
  (h < NCPU)%nat → Inv s → outside (code s h) →
  (∀ t, Inv t → outside (code t h) → wlp m (λ _ u, Inv u ∧ code u = code t) t) →
  wlp (interrupt h m) (λ _ t, Inv t) s.
Proof.
  intros Hh HI Ho Hm. unfold interrupt. do 4 wlp_step. wlp_step.
  destruct (outside_spin h s Hh HI Ho) as [_ Hl].
  eapply wlp_mono; [by apply (sie_Inv h s Hh HI)|]. intros [] t [HI' Ec]. wlp_step. rewrite <- Ec in Ho.
  eapply wlp_mono; [by apply Hm|]. intros [] u [HI'' Ec']. rewrite <- Ec' in Ho.
  destruct (outside_spin h u Hh HI'' Ho) as [_ Hl'].
  eapply wlp_mono; [by apply (sie_Inv h u Hh HI'')|]. by intros [] v [? _].
Qed.

(** ** All steps *)

Lemma seq_Inv {A} (m : M (sys W I) unit) (a : A) s :
  wlp m (λ _ t, Inv t) s → wlp (m;; mret a) (λ _ t, Inv t) s.
Proof. intros Hm. wlp_step. eapply wlp_mono; [exact Hm|]. intros [] t Ht. by wlp_step. Qed.

Lemma thread_start_Inv h s p :
  (h < NCPU)%nat → Inv s → code s h = At (Some p) Thread_start → wlp (thread_start h p) (λ _ t, Inv t) s.
Proof.
  intros Hh HI Ec. pose proof (inv_harts _ HI h Hh) as [Hsp _]. rewrite Ec in Hsp. simpl in Hsp.
  destruct (runs_here h s Hh HI p ltac:(by rewrite Ec)) as (R1 & R2 & R3 & R4 & R5).
  unfold thread_start. wlp_step. eapply wlp_release_pt; [done|]. intros sp Hw Hel Hsp'. wlp_step.
  eapply wlp_set_sie; [exact Hsp'|]. intros sp' Hel' Hw' Hsp''. prims. wlp_step. sys_simpl.
  apply (keep_Inv h s Hh HI); rewrite ?Ec; look; try done.
  - else_tac.
  - split; look; done.
  - intros; apply kept_refl.
  - by left.
  - unfold lock_word. look. by rewrite Hw'.
Qed.

Lemma wait_Inv h s p : (h < NCPU)%nat → Inv s → code s h = Free p → wlp (proc_wait h) (λ _ t, Inv t) s.
Proof.
  intros Hh HI Ec. destruct (runs_here h s Hh HI p ltac:(by rewrite Ec)) as (R1 & R2 & R3 & R4 & R5).
  unfold proc_wait, current_proc. do 4 wlp_step. assert (a = p) as -> by congruence. by apply (enter_Inv h s Hh HI p).
Qed.

Lemma exec_Inv `{Images W I} h e s : (h < NCPU)%nat → Inv s → wlp (exec h e) (λ _ t, Inv t) s.
Proof.
  intros Hh HI. unfold exec. do 2 wlp_step.
  destruct (code s h) as [|i|[p|] k|p|p got n|p] eqn:Ec.
  - destruct e; try done; apply seq_Inv.
    + by apply top_Inv.
    + apply interrupt_Inv; [done|done|by left|]. intros; by apply uart_intr_Inv.
    + eapply wlp_mono; [apply (sie_Inv h s Hh HI); by rewrite Ec|]. by intros [] t [? _].
  - destruct e; try done. apply seq_Inv. by apply scan_Inv.
  - pose proof (inv_harts _ HI h Hh) as [_ Hc]. rewrite Ec in Hc. destruct Hc as [_ Hres].
    destruct k; try done; destruct e; try done; simpl in Hres.
    + apply seq_Inv. by apply (thread_start_Inv h s p).
    + apply seq_Inv. apply (entry_Inv h s Hh HI p); by rewrite Ec.
    + apply seq_Inv. apply (entry_Inv h s Hh HI p); by rewrite Ec.
    + apply seq_Inv. apply (entry_Inv h s Hh HI p); by rewrite Ec.
    + subst. apply wlp_seq_ret. by apply (sleep_back_Inv h s Hh HI p); rewrite ?Ec.
    + subst. apply wlp_seq_ret. by apply (sleep_back_Inv h s Hh HI p); rewrite ?Ec.
  - destruct k; try done. destruct e; try done. apply seq_Inv. by apply back_Inv.
  - destruct e; try done. by apply wait_round_Inv.
  - destruct e; try done. by apply read_round_Inv.
  - destruct e; try done.
    + apply wlp_seq_ret. wlp_step.
      eapply wlp_mono; [apply (sie_Inv h s Hh HI); by rewrite Ec|]. intros [] t [HI' Ec'].
      apply (yield_Inv h t Hh HI' p). by rewrite Ec'.
    + apply seq_Inv. apply interrupt_Inv; [done|done|by right; exists p|]. intros; by apply uart_intr_Inv.
    + apply seq_Inv. eapply wlp_mono; [apply (sie_Inv h s Hh HI); by rewrite Ec|]. by intros [] t [? _].
    + apply seq_Inv. by apply (exit_Inv h s Hh HI p).
    + apply seq_Inv. by apply (wait_Inv h s p).
    + apply seq_Inv. by apply (enter_Inv h s Hh HI p).
    + wlp_step. eapply wlp_mono; [by apply (fork_Inv h s p)|]. intros v t Ht. by wlp_step.
    + apply seq_Inv. apply (upd_Inv h s Hh HI p); [by rewrite Ec|done].
    + apply wlp_seq_ret. wlp_step. wlp_step.
      assert (Inv (put_world w s)) as HI' by (apply (work_Inv h s Hh HI _ p); rewrite ?Ec; try done; intros; apply kept_refl).
      apply (upd_Inv h _ Hh HI' p); [sys_simpl; by rewrite Ec|done].
Qed.
End steps.
