(* ===== verification/SchedSpec.v ===== *)
(** * What the scheduler guarantees

    Mutual exclusion of processes, no lost wake-ups, safe reuse of the memory of
    finished processes, and that a hart always gives [pt_lock] up again; and two
    things it does not guarantee: the interrupt flag of a preempted process, and
    that [proc_wait] only returns children. *)
From stdpp Require Import functions relations.
From S2P Require Import Prelude Spinlock Console Sched SchedInv SchedStep.

Section facts.
Context {W I : Type} `{Images W I}.
Implicit Types s t : sys W I.

Lemma step_Inv s t : sched_step s t → Inv s → Inv t.
Proof. intros [h e v s' t' Hh He] HI. by apply (wlp_run _ _ _ _ _ (exec_Inv h e s' Hh HI) He). Qed.

Lemma reachable_Inv s0 s : reachable s0 s → Inv s.
Proof.
  intros [Hb Hs]. apply booted_Inv in Hb. induction Hs as [|s t u Hst _ IH]; [done|].
  apply IH. by eapply step_Inv.
Qed.

Lemma runs_owner h s p : (h < NCPU)%nat → Inv s → owner (code s h) = Some p → runs s h p.
Proof. intros. by apply runs_here. Qed.

Lemma lock_holder h h' s :
  (h < NCPU)%nat → (h' < NCPU)%nat → Inv s → locked (code s h) = true → locked (code s h') = true → h = h'.
Proof.
  intros Hh Hh' HI Hl Hl'. destruct (inv_lock _ HI) as [[_ Hno]|(_ & h0 & _ & _ & Huniq)].
  - by rewrite Hno in Hl.
  - rewrite (Huniq h), (Huniq h'); done.
Qed.

(** ** Running the holder of the lock *)

Lemma spin_get h n off s : hart_spin (spins s) h n off →
  ∃ c, cpus (spins s) !! h = Some c ∧ noff c = n.
Proof. intros (c & b & ? & _ & ? & _). by exists c. Qed.

Lemma wp_release_pt h n off s (Q : unit → sys W I → Prop) :
  hart_spin (spins s) h n off →
  (∀ sp, word_of pt_lock (words sp) = 0 → Q tt (put_spins sp s)) → wp (release_pt h) Q s.
Proof.
  intros Hsp HQ. pose proof (wlp_release_pt h n off s Q Hsp) as Hw.
  destruct (spin_get h n off s Hsp) as (c & Hc & _).
  assert (∃ sp, pop_off h (lock_release pt_lock (spins s)) = Some sp) as [sp Ep].
  { unfold pop_off, mycpu. simpl. rewrite Hc. by eexists. }
  assert (release_pt h s = Done tt (put_spins sp s)) as E by (unfold release_pt, mbind, M_bind, gets; by rewrite Ep).
  unfold wlp in Hw. unfold wp. rewrite E in *. apply Hw. intros sp' Hz _ _. by apply HQ.
Qed.

(** The steps left for the holder: per slot of the scan at most four, and one
    per character in the console buffer. *)
Definition phase (c : hcode) (i : nat) : nat :=
  match c with
  | Scan j => 4 * (NPROC - j)
  | At (Some _) _ => 4 * (NPROC - 1 - i) + 3
  | Wait _ | Read _ _ _ => 4 * (NPROC - 1 - i) + 2
  | At None _ => 4 * (NPROC - 1 - i) + 1
  | _ => 0
  end.
Definition round_of (k : point) : nat := match k with InSched i => i | _ => 0 end.
Definition waiting_chars (k : console) : nat := Z.to_nat (in_w k - in_r k).
Definition steps_left s h : nat :=
  let c := code s h in
  (phase c (match c with At None k => round_of k | _ => round_of (cpu_sched s h) end) + waiting_chars (con s))%nat.

(** [proc_freeimage] returns for every process that [proc_wait] may reap. *)
Definition freeable s : Prop := ∀ q, (q < NPROC)%nat → state (procs s q) = ZOMBIE →
  ∃ i' w', free_image (image (procs s q)) (mem_world s) = Done i' w'.

(** Neither memory nor zombies change. *)
Definition quiet s t : Prop := mem_world t = mem_world s ∧
  ∀ q, state (procs t q) = ZOMBIE → state (procs s q) = ZOMBIE ∧ image (procs t q) = image (procs s q).

Lemma quiet_freeable s t : quiet s t → freeable s → freeable t.
Proof. intros [Hw Hz] Hf q Hq Ez. destruct (Hz q Ez) as [Ez' ->]. rewrite Hw. by apply Hf. Qed.

Lemma quiet_procs s t : mem_world t = mem_world s → procs t = procs s → quiet s t.
Proof. intros Hw Hp. split; [done|]. intros q. by rewrite Hp. Qed.

Lemma quiet_put s t p x :
  mem_world t = mem_world s → procs t = <[p := x]> (procs s) →
  (state x = ZOMBIE → state (procs s p) = ZOMBIE ∧ image x = image (procs s p)) → quiet s t.
Proof.
  intros Hw Hp Hx. split; [done|]. intros q. rewrite Hp. destruct (decide (q = p)) as [->|Hne].
  - by rewrite fn_lookup_insert.
  - by rewrite fn_lookup_insert_ne.
Qed.

Definition towards_release (h : nat) s t : Prop :=
  (locked (code t h) = false ∧ lock_word t = 0) ∨
  (locked (code t h) = true ∧ console_ok (con t) ∧ quiet s t ∧ (steps_left t h < steps_left s h)%nat).

Lemma wp_leave h p n off s (Q : option Z → sys W I → Prop) a :
  hart_spin (spins s) h n off → (∀ sp, word_of pt_lock (words sp) = 0 → Q a (put_code (<[h := Free p]> (code s)) (put_spins sp s))) →
  wp (release_pt h;; goto h (Free p);; mret a) Q s.
Proof. intros Hsp HQ. wp_step. eapply wp_release_pt; [done|]. intros sp Hw. unfold goto. wp_steps. by apply HQ. Qed.

Lemma left_leave h p sp s : word_of pt_lock (words sp) = 0 → ∀ u, towards_release h u (put_code (<[h := Free p]> (code s)) (put_spins sp s)).
Proof. intros Hw u. left. look. done. Qed.

Lemma sleep_done h c k s p (Q : unit → sys W I → Prop) :
  cpu_proc s h = Some p →
  (∀ f, (∀ q, state (f q) = ZOMBIE → state (procs s q) = ZOMBIE ∧ image (f q) = image (procs s q)) →
     Q tt (put_code (<[h := At None (cpu_sched s h)]> (code s)) (put_procs f s))) → wp (sleep h c k) Q s.
Proof.
  intros E HQ. unfold sleep. prims. do 2 wp_step. rewrite E. wp_steps. apply HQ. sys_simpl. intros q.
  destruct (decide (q = p)) as [->|Hne]; [by rewrite !fn_lookup_insert|by rewrite !fn_lookup_insert_ne].
Qed.

Lemma holder_scan h s i :
  (h < NCPU)%nat → Inv s → code s h = Scan i → console_ok (con s) → wp (sched_scan h i) (λ _ t, towards_release h s t) s.
Proof.
  intros Hh HI Ec Hcon. pose proof (inv_harts _ HI h Hh) as [Hsp Hc]. rewrite Ec in Hsp, Hc. simpl in Hsp.
  unfold sched_scan. prims. destruct (Nat.ltb_spec i NPROC) as [Hlt|Hge].
  - do 2 wp_step. unfold NPROC in *. case_decide; wp_steps; right; look; (split; [done|]; split; [done|]; split; [by (apply quiet_procs + (eapply quiet_put; [done..|]))|]);
      unfold steps_left; look; rewrite Ec; unfold phase, round_of, NPROC; lia.
  - wp_step. eapply wp_release_pt; [done|]. intros sp Hw. wp_steps. left. by look.
Qed.

Lemma holder_back h s i :
  (h < NCPU)%nat → Inv s → code s h = At None (InSched i) → console_ok (con s) → wp (sched_back h i) (λ _ t, towards_release h s t) s.
Proof.
  intros Hh HI Ec Hcon. pose proof (inv_harts _ HI h Hh) as [_ Hc]. rewrite Ec in Hc. destruct Hc as (i' & [= <-] & Hi).
  unfold sched_back. prims. wp_steps. right. look. split; [done|]. split; [done|]. split; [by apply quiet_procs|].
  unfold steps_left. look. rewrite Ec. unfold phase, round_of, NPROC in *. lia.
Qed.

(** [sleep] hands the lock to the scheduler. *)
Lemma holder_sleep h c k s p (a : option Z) :
  (h < NCPU)%nat → Inv s → owner (code s h) = Some p → (match code s h with Wait _ | Read _ _ _ => True | _ => False end) →
  console_ok (con s) → wp (sleep h c k;; mret a) (λ _ t, towards_release h s t) s.
Proof.
  intros Hh HI Ho Hcode Hcon. destruct (runs_owner h s p Hh HI Ho) as (R1 & R2 & R3 & R4 & i & R5 & R6).
  wp_step. apply (sleep_done h c k s p); [done|]. intros f Hf. wp_step. right. look. split; [done|]. split; [done|]. split; [by split|].
  unfold steps_left. look. destruct (code s h); try done; rewrite R5; unfold phase, round_of, NPROC in *; lia.
Qed.

Lemma holder_wait h s p :
  freeable s → (h < NCPU)%nat → Inv s → code s h = Wait p → console_ok (con s) → wp (wait_round h p) (λ _ t, towards_release h s t) s.
Proof.
  intros Hfree Hh HI Ec Hcon. pose proof (inv_harts _ HI h Hh) as [Hsp _]. rewrite Ec in Hsp. simpl in Hsp.
  pose proof (wait_scan_spec (procs s) p NPROC 0 false) as Hs.
  unfold wait_round. do 2 wp_step. destruct (wait_scan _ _ _ _ _) as [[]|q].
  - apply (holder_sleep _ _ _ _ p); rewrite ?Ec; done.
  - eapply wp_leave; [done|]. intros sp Hw. by apply left_leave.
  - unfold on_world, upd_proc, get_proc, set_proc. do 4 wp_step.
    destruct Hs as (Hq & _ & Ez). destruct (Hfree q ltac:(lia) Ez) as (i' & w' & E). apply (wp_done _ _ _ _ _ E).
    wp_steps. sys_simpl. eapply wp_release_pt; [done|]. intros sp Hw. unfold goto. wp_steps. left. by look.
Qed.

Lemma holder_read h s p got n :
  (h < NCPU)%nat → Inv s → code s h = Read p got n → console_ok (con s) → wp (read_round h p got n) (λ _ t, towards_release h s t) s.
Proof.
  intros Hh HI Ec Hcon. pose proof (inv_harts _ HI h Hh) as [Hsp _]. rewrite Ec in Hsp. simpl in Hsp.
  destruct (runs_owner h s p Hh HI ltac:(by rewrite Ec)) as (R1 & R2 & R3 & R4 & i & R5 & R6).
  unfold read_round. destruct (_ <? n).
  2: { eapply wp_leave; [done|]. intros sp Hw. by apply left_leave. }
  do 2 wp_step. destruct (console_empty (con s)) eqn:Ee.
  - apply (holder_sleep _ _ _ _ p); rewrite ?Ec; done.
  - do 4 wp_step. pose proof Hcon as [C1 C2 C3 C4]. unfold console_empty in Ee. apply Z.eqb_neq in Ee.
    destruct (_ =? 10).
    + eapply wp_leave; [done|]. intros sp Hw. by apply left_leave.
    + unfold goto. wp_steps. right. look. split; [done|].
      unfold console_take. cbn [snd]. rewrite u64_small by lia. split_and!.
      * split; cbn [inbuf in_w in_r]; [done|lia|lia|lia].
      * by apply quiet_procs.
      * unfold steps_left. look. rewrite Ec, R5. unfold waiting_chars, phase, round_of. cbn [in_w in_r]. lia.
Qed.

(** Every step of the holder goes through, and is one step closer. *)
Lemma holder_step h s :
  freeable s → (h < NCPU)%nat → Inv s → locked (code s h) = true → console_ok (con s) →
  wp (exec h Go) (λ _ t, towards_release h s t) s.
Proof.
  intros Hfree Hh HI Hl Hcon. pose proof (inv_harts _ HI h Hh) as [Hsp Hc]. rewrite Hl in Hsp.
  unfold exec. do 2 wp_step. destruct (code s h) as [|i|[p|] k|p|p got n|p] eqn:Ec; try done.
  - wp_step. eapply wp_mono; [by apply holder_scan|]. intros [] t Ht. by wp_step.
  - destruct Hc as [_ Hres]. destruct (runs_owner h s p Hh HI ltac:(by rewrite Ec)) as (R1 & R2 & R3 & R4 & i & R5 & R6).
    assert (∀ c, match c with Wait q | Read q _ _ => q = p | _ => False end →
      wp (sleep_back p;; goto h c;; mret None) (λ (_ : option Z) t, towards_release h s t) s) as Hback.
    { intros c Hcc. unfold sleep_back. prims. wp_steps. right. look. split; [by destruct c|]. split; [done|].
      split; [by (eapply quiet_put; [done..|])|].
      unfold steps_left. look. rewrite Ec, R5. destruct c; try done; unfold phase, round_of, NPROC in *; lia. }
    destruct k; try done; simpl in Hres; subst; try by apply Hback.
    + unfold thread_start. wp_step. wp_step. eapply wp_release_pt; [done|]. intros sp Hw. unfold set_sie, goto. wp_steps. left. by look.
    + unfold enter_user. wp_step. wp_step. eapply wp_release_pt; [done|]. intros sp Hw. unfold goto. wp_steps. left. by look.
    + unfold forkret. wp_step. wp_step. eapply wp_release_pt; [done|]. intros sp Hw. unfold goto. wp_steps. left. by look.
    + unfold yield_back. wp_step. wp_step. eapply wp_release_pt; [done|]. intros sp Hw. unfold goto. wp_steps. left. by look.
  - destruct Hc as (i & -> & Hi). wp_step. eapply wp_mono; [by apply holder_back|]. intros [] t Ht. by wp_step.
  - by apply holder_wait.
  - by apply holder_read.
Qed.

Lemma holder_runs h n s :
  freeable s → (h < NCPU)%nat → Inv s → locked (code s h) = true → console_ok (con s) → (steps_left s h ≤ n)%nat →
  ∃ k vs t, (k ≤ S n)%nat ∧ run (replicate k (h, Go)) s = Done vs t ∧ locked (code t h) = false ∧ lock_word t = 0.
Proof.
  intros Hfree Hh. revert s Hfree. induction n as [n IH] using lt_wf_ind. intros s Hfree HI Hl Hcon Hn.
  destruct (wp_run _ _ _ (holder_step h s Hfree Hh HI Hl Hcon)) as (v & t & Hrun & Ht).
  pose proof (wlp_run _ _ _ _ _ (exec_Inv h Go s Hh HI) Hrun) as HI'.
  destruct Ht as [[Hl' Hw]|(Hl' & Hcon' & Hquiet & Hlt)].
  - exists 1%nat, [v], t. split; [lia|]. split; [|done]. cbn [replicate run]. unfold mbind, M_bind. by rewrite Hrun.
  - destruct (IH (n - 1)%nat ltac:(lia) t (quiet_freeable _ _ Hquiet Hfree) HI' Hl' Hcon' ltac:(lia)) as (k & vs & u & Hk & Hrun' & Hu).
    exists (S k), (v :: vs), u. split; [lia|]. split; [|done]. cbn [replicate run]. unfold mbind, M_bind. by rewrite Hrun, Hrun'.
Qed.

(** ** Interrupts *)

Lemma wp_acquire_pt h s (Q : unit → sys W I → Prop) :
  hart_spin (spins s) h 0 false → lock_word s = 0 →
  (∀ sp, word_of pt_lock (words sp) = 1 → spin_elsewhere h (spins s) sp → hart_spin sp h 1 true →
     (∀ b, sie (spins s) !! h = Some b → cpus sp !! h = Some (Cpu 1 b)) → Q tt (put_spins sp s)) →
  wp (acquire_pt h) Q s.
Proof.
  intros Hsp Hz HQ. pose proof (wlp_acquire_pt h 0 false s Q Hsp) as Hw. destruct Hsp as (c & b & Hc & Hb & Hn & _).
  set (sp := Spin (tp (spins s)) (<[h := Cpu 1 b]> (cpus (spins s))) (<[h := false]> (sie (spins s)))
    (set_word pt_lock 1 (words (spins s)))).
  assert (acquire_pt h s = Done tt (put_spins sp s)) as E.
  { unfold acquire_pt, mbind, M_bind, gets. unfold push_off, intr_get, intr_off, mycpu. simpl. rewrite Hb. simpl. rewrite Hc. simpl.
    rewrite Hn. simpl. unfold test_and_set, with_cpu, with_words. simpl. unfold lock_word, word_of in Hz. by rewrite Hz. }
  unfold wlp in Hw. unfold wp. rewrite E in *. apply HQ.
  - by destruct (words (spins s)).
  - intros h' Hne. cbn. by rewrite !list_lookup_insert_ne.
  - eexists _, _. cbn. rewrite !list_lookup_insert_eq by (by eapply lookup_lt_Some). done.
  - intros b' Hb'. cbn. rewrite list_lookup_insert_eq by (by eapply lookup_lt_Some). congruence.
Qed.

Lemma wp_wakeup c s (Q : unit → sys W I → Prop) :
  (∀ f, woken c (procs s) f → Q tt (put_procs f s)) → wp (wakeup c) Q s.
Proof.
  intros HQ. pose proof (wlp_wakeup c s Q HQ) as Hw. destruct (wakeup_loop_eq NPROC 0 c s) as (f & E & _).
  unfold wlp, wp, wakeup in *. by rewrite E in *.
Qed.

Lemma put_wakes c k : (console_put c k).2 = true ↔ (c = 10 ∨ c = 13) ∧ u64 (in_w k - in_r k) < INBUF.
Proof.
  unfold console_put. cbn zeta. destruct (Z.eqb_spec c 13) as [->|H13].
  - cbn. destruct (Z.leb_spec INBUF (u64 (in_w k - in_r k))); cbn; [|naive_solver]. split; [done|]. lia.
  - destruct (Z.eqb_spec c 127) as [->|]; [cbn; destruct (_ && _); cbn; naive_solver lia|].
    destruct (Z.eqb_spec c 8) as [->|]; [cbn; destruct (_ && _); cbn; naive_solver lia|]. cbn.
    destruct (Z.leb_spec INBUF (u64 (in_w k - in_r k))); cbn; [split; [done|lia]|]. rewrite Z.eqb_eq. naive_solver.
Qed.

Lemma wp_console_intr h c s :
  hart_spin (spins s) h 0 false → lock_word s = 0 →
  wp (console_intr h c) (λ _ t, con t = (console_put c (con s)).1.1 ∧
    if (console_put c (con s)).2 then woken OnInbuf (procs s) (procs t) else procs t = procs s) s.
Proof.
  intros Hsp Hz. unfold console_intr. wp_step. apply wp_acquire_pt; [done|done|]. intros sp Hw Hel Hsp' _.
  do 6 wp_step. sys_simpl. wp_step. unfold when. destruct (console_put c (con s)).2.
  - apply wp_wakeup. intros f Hf. eapply wp_release_pt; [exact Hsp'|]. intros sp' _. by split.
  - wp_step. eapply wp_release_pt; [exact Hsp'|]. intros sp' _. by split.
Qed.
End facts.

(** ** Sequences of steps *)

Lemma run_steps {W I} `{Images W I} l (s : sys W I) vs t :
  Forall (λ x, (x.1 < NCPU)%nat) l → run l s = Done vs t → rtc sched_step s t.
Proof.
  intros Hl. revert s vs. induction Hl as [|[h e] l Hh _ IH]; intros s vs Hrun.
  - injection Hrun as _ <-. done.
  - cbn [run] in Hrun. unfold mbind, M_bind in Hrun. destruct (exec h e s) as [v u| |] eqn:Ee; try done.
    destruct (run l u) as [vs' u'| |] eqn:Er; try done. injection Hrun as _ <-.
    apply rtc_l with u; [by apply (sched_step_exec h e v)|by eapply IH].
Qed.

(** ** Resuming a process that was preempted *)

Section resume.
Context {W I : Type} `{Images W I} (h p : nat) (Hp : (p < NPROC)%nat).
Implicit Types s t : sys W I.

Lemma run_cons e l s v u vs t :
  exec h e s = Done v u → run l u = Done vs t → run ((h, e) :: l) s = Done (v :: vs) t.
Proof. intros E1 E2. cbn [run]. unfold mbind, M_bind. by rewrite E1, E2. Qed.

Lemma exec_top s :
  code s h = Top → hart_spin (spins s) h 0 false → lock_word s = 0 →
  ∃ t, exec h Go s = Done None t ∧ code t h = Scan 0 ∧ procs t = procs s ∧
    cpus (spins t) !! h = Some (Cpu 1 true) ∧ sie (spins t) !! h = Some false.
Proof.
  intros Ec (c & b & Hc & Hb & Hn & _) Hz. set (s1 := put_spins (with_sie h true (spins s)) s).
  assert (sie (spins s1) !! h = Some true) as Hon by (cbn; by rewrite list_lookup_insert_eq by (by eapply lookup_lt_Some)).
  enough (wp (exec h Go) (λ a t, a = None ∧ code t h = Scan 0 ∧ procs t = procs s ∧
    cpus (spins t) !! h = Some (Cpu 1 true) ∧ sie (spins t) !! h = Some false) s) as Hw.
  { apply wp_run in Hw as (a & t & E & -> & Ht). by exists t. }
  unfold exec. do 2 wp_step. rewrite Ec. wp_step. unfold sched_top, set_sie. do 2 wp_step. wp_step. fold s1.
  apply wp_acquire_pt; [exists c, true; done|done|]. intros sp _ _ (c' & b' & _ & Hb' & _ & Hoff) Hcpu.
  unfold goto. wp_steps. look. split_and!; [done|done|done|by apply Hcpu|]. rewrite Hb'. by rewrite Hoff.
Qed.

Lemma exec_skip s i :
  code s h = Scan i → (i < NPROC)%nat → state (procs s i) ≠ RUNNABLE →
  exec h Go s = Done None (put_code (<[h := Scan (S i)]> (code s)) s).
Proof.
  intros Ec Hi Hs. unfold exec, mbind, M_bind, gets. rewrite Ec. unfold sched_scan. rewrite (proj2 (Nat.ltb_lt _ _)) by done.
  unfold get_proc, mbind, M_bind, gets. by rewrite decide_False.
Qed.

Lemma exec_dispatch s i :
  code s h = Scan i → (i < NPROC)%nat → state (procs s i) = RUNNABLE →
  ∃ t, exec h Go s = Done None t ∧ code t h = At (Some i) (context (procs s i)) ∧ spins t = spins s.
Proof.
  intros Ec Hi Hs. unfold exec, mbind, M_bind, gets. rewrite Ec. unfold sched_scan. rewrite (proj2 (Nat.ltb_lt _ _)) by done.
  prims. unfold mbind, M_bind, gets. rewrite decide_True by done. eexists. split; [done|]. by look.
Qed.

Lemma exec_yield_back s b :
  code s h = At (Some p) InYield → cpus (spins s) !! h = Some (Cpu 1 b) → sie (spins s) !! h = Some false →
  ∃ t, exec h Go s = Done None t ∧ code t h = Free p ∧ sie (spins t) !! h = Some b.
Proof.
  intros Ec Hc Hb. unfold exec, mbind, M_bind, gets. rewrite Ec. unfold yield_back, release_pt, goto, mbind, M_bind, gets.
  unfold pop_off, mycpu. cbn [cpus lock_release with_words]. simpl. rewrite Hc. simpl. eexists. split; [done|]. look. split; [done|].
  destruct b; simpl; [by rewrite list_lookup_insert_eq by (by eapply lookup_lt_Some)|done].
Qed.

Lemma run_scan k i s :
  code s h = Scan i → (i + k = p)%nat → state (procs s p) = RUNNABLE → context (procs s p) = InYield →
  (∀ q, (q < p)%nat → state (procs s q) ≠ RUNNABLE) →
  cpus (spins s) !! h = Some (Cpu 1 true) → sie (spins s) !! h = Some false →
  ∃ vs t, run (replicate (k + 2) (h, Go)) s = Done vs t ∧ code t h = Free p ∧ sie (spins t) !! h = Some true.
Proof.
  revert i s. induction k as [|k IH]; intros i s Ec Hik Hr Hctx Hno Hc Hb.
  - assert (i = p) as -> by lia. destruct (exec_dispatch s p Ec Hp Hr) as (t & E1 & Ec1 & Es). rewrite Hctx in Ec1.
    destruct (exec_yield_back t true Ec1 ltac:(by rewrite Es) ltac:(by rewrite Es)) as (u & E2 & Ec2 & Hs).
    exists [None; None], u. split; [|done]. eapply run_cons; [exact E1|]. by eapply run_cons; [exact E2|].
  - pose proof (exec_skip s i Ec ltac:(lia) (Hno i ltac:(lia))) as E1.
    destruct (IH (S i) (put_code (<[h := Scan (S i)]> (code s)) s)) as (vs & t & E & Ht); try done; [by look|lia|].
    exists (None :: vs), t. split; [|done]. by eapply run_cons.
Qed.
End resume.

(** ** A machine with one process, [sh] *)

#[export] Instance unit_images : Images unit unit := {|
  thread_image i := mret tt; new_image i := mret (Some tt); fork_image i j f := mret tt; free_image i := mret tt
|}.

Definition empty_slot : proc unit := Proc unit UNUSED Zeroed 0 0 (replicate 8 0) false 0 None None 0 tt.
Definition power_up : sys unit unit :=
  Sys unit unit (λ _, empty_slot) (λ _, None) (λ _, Zeroed) 1
    (Spin 0 (replicate NCPU (Cpu 0 false)) (replicate NCPU false) (LockWords 0 0 0 0))
    console_zero [] (λ _, None) (λ _, Top) tt.
Definition demo_boot : sys unit unit :=
  match (procinit;; make_user_proc [115; 104]) power_up with Done _ s => s | _ => power_up end.

Lemma demo_booted : booted demo_boot.
Proof.
  split.
  - done.
  - split; [done|]. split; [done|]. intros h c Hc. apply (list_elem_of_lookup_2 _ h) in Hc.
    by repeat (apply elem_of_cons in Hc as [->|Hc]; [done|]); apply elem_of_nil in Hc.
  - done.
  - intros p Hp. do 8 (destruct p as [|p]; [split; [done|vm_compute; set_solver]|]). unfold NPROC in Hp. lia.
  - intros p q Hp Hq Hs Hs' _ _.
    do 8 (destruct p as [|p]; [do 8 (destruct q as [|q]; [first [done|by destruct Hs|by destruct Hs']|]); unfold NPROC in Hq; lia|]).
    unfold NPROC in Hp. lia.
Qed.

(** The state after a sequence of steps from there. *)
Definition demo_run (l : list (nat * event unit unit)) : outcome (sys unit unit) (list (option Z)) := run l demo_boot.
Definition demo_state l : sys unit unit := match demo_run l with Done _ t => t | _ => power_up end.

Definition demo_check l : bool :=
  forallb (λ x, (x.1 <? NCPU)%nat) l && (if demo_run l is Done _ _ then true else false).

Lemma demo_reachable l : demo_check l = true → reachable demo_boot (demo_state l).
Proof.
  unfold demo_check. rewrite andb_true_iff, forallb_forall. intros [Hl Hd].
  assert (Forall (λ x, (x.1 < NCPU)%nat) l) as Hl' by (apply Forall_forall; intros x Hx; apply Nat.ltb_lt, Hl; by apply list_elem_of_In).
  clear Hl. split; [apply demo_booted|]. unfold demo_state, demo_run in *.
  destruct (run l demo_boot) as [vs t| |] eqn:E; try done. by eapply run_steps.
Qed.

(** [go n]: [n] steps of hart 0 in the scheduler. *)
Definition go (n : nat) : list (nat * event unit unit) := replicate n (0%nat, Go).
Definition ev (e : event unit unit) : list (nat * event unit unit) := [(0%nat, e)].

(** ** The theorems *)

Section claims.
Context {W I : Type} `{Images W I}.
Implicit Types s t : sys W I.

(** C4: processes and harts. Whatever the harts do, the process a hart executes is
    RUNNING and is the hart's [cpu_proc] and address space; every RUNNING process
    is executed by exactly one hart; a hart in a section of [pt_lock] has
    interrupts off and is the only one; user processes have different pids. *)
Theorem sched_processes s0 s :
  reachable s0 s →
  (∀ h p, (h < NCPU)%nat → owner (code s h) = Some p →
     (p < NPROC)%nat ∧ state (procs s p) = RUNNING ∧ cpu_proc s h = Some p ∧ satps s h = Some p) ∧
  (∀ p, (p < NPROC)%nat → state (procs s p) = RUNNING →
     ∃ h, (h < NCPU)%nat ∧ owner (code s h) = Some p ∧
       ∀ h', (h' < NCPU)%nat → owner (code s h') = Some p → h' = h) ∧
  (∀ h, (h < NCPU)%nat → locked (code s h) = true →
     lock_word s = 1 ∧ sie (spins s) !! h = Some false ∧
     ∀ h', (h' < NCPU)%nat → locked (code s h') = true → h' = h) ∧
  (∀ p q, (p < NPROC)%nat → (q < NPROC)%nat → state (procs s p) ≠ UNUSED → state (procs s q) ≠ UNUSED →
     is_user (procs s p) = true → is_user (procs s q) = true → pid (procs s p) = pid (procs s q) → p = q).
Proof.
  intros HI%reachable_Inv. split_and!.
  - intros h p Hh Ho. destruct (runs_owner h s p Hh HI Ho) as (R1 & R2 & R3 & R4 & _). done.
  - intros p Hp Hr. pose proof (inv_slots _ HI p Hp) as Hs. unfold slot_ok in Hs. rewrite Hr in Hs.
    destruct Hs as (h & Hh & Ho). exists h. split_and!; [done|done|]. intros h' Hh' Ho'. by eapply (inv_owner _ HI).
  - intros h Hh Hl. split; [by eapply lock_word_held|]. split.
    + pose proof (inv_harts _ HI h Hh) as [(c & b & _ & -> & _ & Hoff) _]. by rewrite Hoff.
    + intros h' Hh' Hl'. by apply (lock_holder h' h s).
  - intros p q Hp Hq Hup Huq Hip Hiq E. by apply (inv_pids _ HI p).
Qed.

(** C14: no lost wake-up of parents. A process asleep in [proc_wait] has a child,
    and none of its children is a zombie it missed; and when one of them calls
    [proc_exit], the step that makes it a zombie makes the parent RUNNABLE. *)
Theorem no_lost_wakeup s0 s p :
  reachable s0 s → (p < NPROC)%nat → state (procs s p) = SLEEPING → chan (procs s p) = Some (OnProc p) →
  (∃ q, (q < NPROC)%nat ∧ parent (procs s q) = Some p ∧ state (procs s q) ∉ [UNUSED; ZOMBIE]) ∧
  (∀ q, (q < NPROC)%nat → parent (procs s q) = Some p → state (procs s q) ≠ ZOMBIE) ∧
  (∀ h q v t, (h < NCPU)%nat → code s h = Free q → parent (procs s q) = Some p → exec h Exit s = Done v t →
     state (procs t q) = ZOMBIE ∧ state (procs t p) = RUNNABLE).
Proof.
  intros HI%reachable_Inv Hp Hst Hch. destruct (inv_waits _ HI p Hp Hst Hch) as [(q & Hq & Hqp) Hz]. split_and!.
  - exists q. split_and!; [done|done|]. rewrite !not_elem_of_cons. split_and!; [|by apply Hz|apply not_elem_of_nil].
    intros Hu. pose proof (inv_slots _ HI q Hq) as Hs. unfold slot_ok in Hs. rewrite Hu in Hs. congruence.
  - done.
  - intros h r v t Hh Ec Hpar Hrun. destruct (runs_owner h s r Hh HI ltac:(by rewrite Ec)) as (R1 & R2 & R3 & R4 & _).
    assert (p ≠ r) as Hne by congruence.
    revert Hrun. apply (wlp_run _ (λ _ u, state (procs u r) = ZOMBIE ∧ state (procs u p) = RUNNABLE)). unfold exec. do 2 wlp_step. rewrite Ec. wlp_step. unfold proc_exit. prims. do 4 wlp_step.
    assert (a = r) as -> by congruence. wlp_step. pose proof (inv_harts _ HI h Hh) as [Hsp _]. rewrite Ec in Hsp.
    eapply wlp_acquire_pt; [exact Hsp|]. intros sp _ _ _ _. do 3 wlp_step. sys_simpl. rewrite Hpar.
    apply wlp_wakeup. intros f Hf. wlp_steps. look. rewrite !fn_lookup_insert_ne by done.
    split; [done|]. rewrite Hf. sys_simpl. rewrite bool_decide_true by done.
    by rewrite (proj2 (asleep_on_iff _ _)).
Qed.

(** C17: [proc_wait]. When it returns -1 there is no child; otherwise it returns the
    pid of a child that had exited and frees exactly that slot. At that moment no
    hart executes the child, has it as its current process, or is still on its
    page table: its memory may be reused. *)
Theorem wait_reaps s0 s h p v t :
  reachable s0 s → (h < NCPU)%nat → code s h = Wait p → exec h Go s = Done (Some v) t →
  (v = -1 ∧ procs t = procs s ∧ ∀ q, (q < NPROC)%nat → parent (procs s q) ≠ Some p) ∨
  ∃ q, (q < NPROC)%nat ∧ parent (procs s q) = Some p ∧ state (procs s q) = ZOMBIE ∧ v = pid (procs s q) ∧
    (state (procs t q) = UNUSED ∧ parent (procs t q) = None) ∧ (∀ r, r ≠ q → procs t r = procs s r) ∧
    ∀ h', (h' < NCPU)%nat → owner (code s h') ≠ Some q ∧ cpu_proc s h' ≠ Some q ∧ satps s h' ≠ Some q.
Proof.
  intros HI%reachable_Inv Hh Ec Hrun. pose proof (wait_scan_spec (procs s) p NPROC 0 false) as Hs.
  pose proof (runs_owner h s p Hh HI ltac:(by rewrite Ec)) as (R1 & _).
  pose proof (inv_harts _ HI h Hh) as [Hsp _]. rewrite Ec in Hsp. simpl in Hsp.
  assert (exec h Go s = wait_round h p s) as Eexec by (unfold exec, mbind, M_bind, gets; by rewrite Ec).
  rewrite Eexec in Hrun. pattern t.
  match goal with |- ?X t => apply (wlp_run (wait_round h p) (λ a u, a = Some v → X u) s (Some v) t); [|exact Hrun|done] end.
  cbv beta. unfold wait_round. do 2 wlp_step.
  destruct (wait_scan (procs s) p NPROC 0 false) as [kids|q].
  - destruct Hs as [Hkids Hz]. destruct kids.
    + wlp_step. unfold sleep. prims. do 2 wlp_step. rewrite R1. by wlp_steps.
    + wlp_step. eapply wlp_release_pt; [exact Hsp|]. intros sp _ _ _. unfold goto. wlp_steps. intros [= <-]. left.
      split_and!; [done|done|]. intros q Hq Hpar. enough (false = true) by done. apply Hkids. right. exists q. split; [lia|done].
  - destruct Hs as (Hq & Hpar & Hzq). prims. wlp_steps. eapply wlp_release_pt; [exact Hsp|]. intros sp _ _ _. wlp_steps.
    intros [= <-]. right. exists q. look. split_and!; try done; [lia| |].
    + intros r Hr. by rewrite !fn_lookup_insert_ne.
    + intros h' Hh'. pose proof (inv_harts _ HI h' Hh') as [_ Hc].
      destruct (code s h') as [|i|[r|] k|r|r got n|r] eqn:Ec'; simpl.
      2: by destruct Hc as (_ & -> & ->). 1: by destruct Hc as (-> & ->).
      2: { assert (h' = h) as -> by (apply (lock_holder h' h s); rewrite ?Ec, ?Ec'; done). congruence. }
      all: destruct (runs_owner h' s r Hh' HI ltac:(by rewrite Ec')) as (E1 & E2 & _ & E4 & _);
        rewrite E1, E2; split_and!; congruence.
Qed.

(** C24: [pt_lock] is always given up. From every state in which hart [h] is inside a
    section of the lock (handed over between scheduler and processes by [swtch]),
    at most 161 steps of that hart alone release it: 32 for the scan of the table
    and one per buffered character. [proc_wait] frees the memory of a child inside
    the section; the condition is that [proc_freeimage] returns for every zombie
    in the table, from the memory of that state. *)
Theorem lock_released s0 s h :
  reachable s0 s →
  (∀ q, (q < NPROC)%nat → state (procs s q) = ZOMBIE → ∃ i' w', free_image (image (procs s q)) (mem_world s) = Done i' w') →
  (h < NCPU)%nat →
  locked (code s h) = true → console_ok (con s) →
  ∃ k vs t, (k ≤ 161)%nat ∧ run (replicate k (h, Go)) s = Done vs t ∧ locked (code t h) = false ∧ lock_word t = 0.
Proof.
  intros HI%reachable_Inv Hfree Hh Hl Hcon.
  destruct (holder_runs h 160 s Hfree Hh HI Hl Hcon) as (k & vs & t & Hk & Hx); [|by exists k, vs, t].
  unfold steps_left, waiting_chars, phase, round_of, NPROC. pose proof Hcon as [_ _ Hr _]. unfold INBUF in Hr.
  destruct (code s h) as [|i|[r|] [| | | | | | |i'| ]|r|r got n|r]; try lia.
Qed.

(** Waking readers. A received character wakes the processes asleep in
    [console_read] exactly when it ends a line and the buffer has room for it:
    with 128 unread characters the newline itself is dropped, and the readers
    stay asleep. *)
Theorem console_wakes s0 s h c :
  reachable s0 s → (h < NCPU)%nat → outside (code s h) → lock_word s = 0 →
  ∃ t, console_intr h c s = Done tt t ∧
    ∀ p, (p < NPROC)%nat → state (procs s p) = SLEEPING → chan (procs s p) = Some OnInbuf →
      state (procs t p) = if decide ((c = 10 ∨ c = 13) ∧ u64 (in_w (con s) - in_r (con s)) < INBUF) then RUNNABLE else SLEEPING.
Proof.
  intros HI%reachable_Inv Hh Ho Hz. destruct (outside_spin h s Hh HI Ho) as [Hsp _].
  destruct (wp_run _ _ _ (wp_console_intr h c s Hsp Hz)) as ([] & t & Hrun & _ & Hw). exists t. split; [done|].
  intros p Hp Hst Hch. pose proof (put_wakes c (con s)) as Hiff. destruct (console_put c (con s)).2; case_decide as E.
  - rewrite Hw, bool_decide_true by done. by rewrite (proj2 (asleep_on_iff _ _)).
  - destruct E. by apply Hiff.
  - by apply Hiff in E.
  - by rewrite Hw.
Qed.

End claims.

(** ** Witnesses *)

(** Hart 0 runs [sh] (slot 0); it forks (slot 1) and waits; hart 0 runs the child. *)
Definition to_wait : list (nat * event unit unit) := go 3 ++ ev (Fork 0x4f00) ++ ev WaitChild ++ go 4.
Definition waiting : sys unit unit := demo_state to_wait.

Lemma waiting_reachable : reachable demo_boot waiting.
Proof. apply demo_reachable. vm_compute. reflexivity. Qed.

Lemma no_lost_wakeup_witness :
  (∃ q, (q < NPROC)%nat ∧ parent (procs waiting q) = Some 0%nat ∧ state (procs waiting q) ∉ [UNUSED; ZOMBIE]) ∧
  (∀ q, (q < NPROC)%nat → parent (procs waiting q) = Some 0%nat → state (procs waiting q) ≠ ZOMBIE) ∧
  (∀ h q v t, (h < NCPU)%nat → code waiting h = Free q → parent (procs waiting q) = Some 0%nat → exec h Exit waiting = Done v t →
     state (procs t q) = ZOMBIE ∧ state (procs t 0%nat) = RUNNABLE).
Proof.
  apply (no_lost_wakeup demo_boot waiting 0 waiting_reachable); [unfold NPROC; lia|vm_compute; reflexivity|vm_compute; reflexivity].
Defined.

Lemma sched_processes_witness :
  state (procs waiting 1%nat) = RUNNING ∧ owner (code waiting 0) = Some 1%nat ∧
  ∀ h p, (h < NCPU)%nat → owner (code waiting h) = Some p →
     (p < NPROC)%nat ∧ state (procs waiting p) = RUNNING ∧ cpu_proc waiting h = Some p ∧ satps waiting h = Some p.
Proof.
  destruct (sched_processes demo_boot waiting waiting_reachable) as (H1 & _).
  split; [vm_compute; reflexivity|]. split; [vm_compute; reflexivity|exact H1].
Defined.

(** The child exits; the parent is resumed and holds the lock in [proc_wait]. *)
Definition to_reap : list (nat * event unit unit) := to_wait ++ ev Exit ++ go 11.
Definition reaping : sys unit unit := demo_state to_reap.

Lemma reaping_reachable : reachable demo_boot reaping.
Proof. apply demo_reachable. vm_compute. reflexivity. Qed.
Lemma reaping_code : code reaping 0 = Wait 0.
Proof. vm_compute. reflexivity. Qed.

Lemma wait_reaps_witness :
  ∃ t, exec 0 Go reaping = Done (Some 2) t ∧
  (2 = -1 ∧ procs t = procs reaping ∧ (∀ q, (q < NPROC)%nat → parent (procs reaping q) ≠ Some 0%nat) ∨
  ∃ q, (q < NPROC)%nat ∧ parent (procs reaping q) = Some 0%nat ∧ state (procs reaping q) = ZOMBIE ∧ 2 = pid (procs reaping q) ∧
    (state (procs t q) = UNUSED ∧ parent (procs t q) = None) ∧ (∀ r, r ≠ q → procs t r = procs reaping r) ∧
    ∀ h', (h' < NCPU)%nat → owner (code reaping h') ≠ Some q ∧ cpu_proc reaping h' ≠ Some q ∧ satps reaping h' ≠ Some q).
Proof.
  assert ((if exec 0 Go reaping is Done v _ then v else None) = Some 2) as E by (vm_compute; reflexivity).
  destruct (exec 0 Go reaping) as [v t| |] eqn:Er; [|discriminate E|discriminate E]. subst v. exists t. split; [reflexivity|].
  apply (wait_reaps demo_boot reaping 0 0 2 t reaping_reachable); [unfold NCPU; lia|apply reaping_code|exact Er].
Defined.

(** [sh] asleep in [console_read], and hart 0 back at the top of [scheduler]. *)
Definition to_read : list (nat * event unit unit) := go 3 ++ ev (ReadLine 64) ++ go 10.
Definition asleep : sys unit unit := demo_state to_read.

Lemma asleep_reachable : reachable demo_boot asleep.
Proof. apply demo_reachable. vm_compute. reflexivity. Qed.

Lemma console_wakes_witness :
  ∃ t, console_intr 0 10 asleep = Done tt t ∧
    ∀ p, (p < NPROC)%nat → state (procs asleep p) = SLEEPING → chan (procs asleep p) = Some OnInbuf →
      state (procs t p) = if decide ((10 = 10 ∨ 10 = 13) ∧ u64 (in_w (con asleep) - in_r (con asleep)) < INBUF) then RUNNABLE else SLEEPING.
Proof.
  apply (console_wakes demo_boot asleep 0 10 asleep_reachable);
    [unfold NCPU; lia|left; vm_compute; reflexivity|vm_compute; reflexivity].
Defined.

(** [sh] preempted by the timer, and hart 0 back at the top of [scheduler]. *)
Definition to_preempt : list (nat * event unit unit) := go 3 ++ ev Timer ++ go 9.
Definition preempted : sys unit unit := demo_state to_preempt.

Lemma preempted_reachable : reachable demo_boot preempted.
Proof. apply demo_reachable. vm_compute. reflexivity. Qed.


(** ** Slots are not re-parented *)

(** What [fork] ([false]) and [wait] ([true]) returned along a run, with the pid
    of the process that called them. *)
Definition returned (h : nat) (e : event unit unit) (s : sys unit unit) (v : option Z) : list (Z * bool * Z) :=
  match owner (code s h), v with
  | Some p, Some v =>
      match e, code s h with
      | Fork _, _ => [(pid (procs s p), false, v)]
      | _, Wait _ => [(pid (procs s p), true, v)]
      | _, _ => []
      end
  | _, _ => []
  end.

Fixpoint call_log (l : list (nat * event unit unit)) (s : sys unit unit) : list (Z * bool * Z) :=
  match l with
  | [] => []
  | (h, e) :: l =>
      match exec h e s with
      | Done v t => returned h e s v ++ call_log l t
      | _ => []
      end
  end.

(** [sh] (pid 1) forks 2, and waits; 2 forks 3 and exits; 1 reaps 2, forks 4 into
    the slot of 2, and waits; 4 waits without having forked; 3 exits. *)
Definition orphan_trace : list (nat * event unit unit) :=
  go 3 ++ ev (Fork 0) ++ ev WaitChild ++ go 4 ++ ev (Fork 0) ++ ev Exit ++ go 3 ++ ev Timer ++ go 11 ++
  ev (Fork 0) ++ ev WaitChild ++ go 4 ++ ev WaitChild ++ go 4 ++ ev Exit ++ go 12.

(** A process can be handed the child of another. [proc_exit] does not reparent
    the children of the process that ends, so when its slot is used again they
    count as children of the new process: in this run pid 4 never calls fork, and
    its [proc_wait] returns 3, which was forked by pid 2. *)
Theorem wait_returns_stranger :
  ∃ l, demo_check l = true ∧ (4, true, 3) ∈ call_log l demo_boot ∧ (2, false, 3) ∈ call_log l demo_boot ∧
    ∀ v, (4, false, v) ∉ call_log l demo_boot.
Proof.
  exists orphan_trace. assert (call_log orphan_trace demo_boot = [(1, false, 2); (2, false, 3); (1, true, 2); (1, false, 4); (4, true, 3)])
    as -> by (vm_compute; reflexivity).
  split; [vm_compute; reflexivity|]. split_and!; [set_solver..|]. intros v Hv. set_solver.
Qed.
