(* ===== verification/Elf.v ===== *)
(** * The ELF loader (src/elf.c)

    The program image is an object of its own, a list of bytes; reading behind
    its end is undefined. The code page is in physical memory, so what the
    loader writes outside of the page is visible. *)
From S2P Require Import Prelude Spinlock Uart Mem Kalloc Vm.

Definition PT_LOAD : Z := 1.

(** The [n] bytes of the image at offset [off], and the number they encode. *)
Definition img_bytes (off n : Z) (img : list Z) : option (list Z) :=
  if (0 <=? off) && (off + n <=? Z.of_nat (length img)) then Some (slice (Z.to_nat off) (Z.to_nat n) img) else None.
Definition img_word (off n : Z) (img : list Z) : option Z := le_val <$> img_bytes off n img.

(** Offsets in [struct elf64_ehdr] and [struct elf64_phdr]. *)
Definition E_ENTRY : Z := 24.
Definition E_PHOFF : Z := 32.
Definition E_PHENTSIZE : Z := 54.
Definition E_PHNUM : Z := 56.
Definition P_TYPE : Z := 0.
Definition P_OFFSET : Z := 8.
Definition P_VADDR : Z := 16.
Definition P_FILESZ : Z := 32.
Definition P_MEMSZ : Z := 40.

Definition field (off n : Z) (img : list Z) : M machine Z := of_option (img_word off n img).

(** [copyb(d, img + src, n)] *)
Definition copyb (d : Z) (img : list Z) (src n : Z) : M machine unit :=
  if n =? 0 then mret tt
  else
    l ← of_option (img_bytes src n img);
    assertb (in_ram d n);;
    modify (λ s, with_mem (write_bytes (mem s) d l) s).

(** One program header, at offset [ph]: whether to go on. *)
Definition load_segment (img : list Z) (codepage ph : Z) : M machine bool :=
  t ← field (ph + P_TYPE) 4 img;
  if negb (t =? PT_LOAD) then mret true
  else
    vaddr ← field (ph + P_VADDR) 8 img;
    let off := u64 (vaddr - USERVA) in
    memsz ← field (ph + P_MEMSZ) 8 img;
    if PGSIZE <? u64 (off + memsz) then uart_line "[elf] segment too big (>1 page)";; mret false
    else
      src ← field (ph + P_OFFSET) 8 img;
      filesz ← field (ph + P_FILESZ) 8 img;
      copyb (u64 (codepage + off)) img src filesz;;
      mret true.

(** [for (int i = 0; i < eh->e_phnum; i++)], from header [i] on. *)
Fixpoint load_segments (n : nat) (i : Z) (img : list Z) (codepage phoff phentsize : Z) : M machine Z :=
  match n with
  | O => mret 0
  | S n =>
      go ← load_segment img codepage (u64 (phoff + i * phentsize));
      if go : bool then load_segments n (i + 1) img codepage phoff phentsize else mret (-1)
  end.

(** The result, and the entry point when it is set. *)
Definition load_elf (img : list Z) (codepage : Z) : M machine (Z * option Z) :=
  magic ← of_option (img_bytes 0 4 img);
  if negb (bool_decide (magic = [0x7f; 69; 76; 70])) then uart_line "[elf] bad magic";; mret (-1, None)
  else
    entry ← field E_ENTRY 8 img;
    phnum ← field E_PHNUM 2 img;
    phoff ← field E_PHOFF 8 img;
    phentsize ← field E_PHENTSIZE 2 img;
    r ← load_segments (Z.to_nat phnum) 0 img codepage phoff phentsize;
    mret (r, Some entry).

(** ** Specification *)

(** A header that is no PT_LOAD, or one whose segment fits the page and the
    file: where in the page its bytes go. *)
Definition segment_of (img : list Z) (ph : Z) : option (option (nat * list Z)) :=
  t ← img_word (ph + P_TYPE) 4 img;
  if negb (t =? PT_LOAD) then Some None
  else
    vaddr ← img_word (ph + P_VADDR) 8 img;
    memsz ← img_word (ph + P_MEMSZ) 8 img;
    src ← img_word (ph + P_OFFSET) 8 img;
    filesz ← img_word (ph + P_FILESZ) 8 img;
    data ← img_bytes src filesz img;
    if (USERVA <=? vaddr) && (vaddr + memsz <=? USERVA + PGSIZE) && (filesz <=? memsz)
    then Some (Some (Z.to_nat (vaddr - USERVA), data)) else None.

Definition segments_of (img : list Z) : option (list (nat * list Z)) :=
  phnum ← img_word E_PHNUM 2 img;
  phoff ← img_word E_PHOFF 8 img;
  phentsize ← img_word E_PHENTSIZE 2 img;
  l ← mapM (λ i, segment_of img (u64 (phoff + Z.of_nat i * phentsize))) (seq 0 (Z.to_nat phnum));
  Some (omap id l).

(** The page after the segments are put there, one after the other. *)
Definition placed (segs : list (nat * list Z)) (page : list Z) : list Z :=
  fold_left (λ pg s, default pg (overwrite s.1 s.2 pg)) segs page.

(** ** Lemmas *)

Lemma img_bytes_length off n img l : 0 ≤ n → img_bytes off n img = Some l → Z.of_nat (length l) = n.
Proof.
  unfold img_bytes. intros Hn. destruct (_ && _) eqn:E; [|done]. intros [= <-]. bsimp. rewrite length_slice; lia.
Qed.

Lemma img_bytes_byte off n img l : Forall is_byte img → img_bytes off n img = Some l → Forall is_byte l.
Proof. unfold img_bytes. destruct (_ && _); [|done]. intros Hi [= <-]. by apply Forall_take, Forall_drop. Qed.

Lemma img_word_bound off n img v : Forall is_byte img → 0 ≤ n → img_word off n img = Some v → 0 ≤ v < 256 ^ n.
Proof.
  intros Hi Hn. unfold img_word. destruct (img_bytes off n img) as [l|] eqn:E; [|done]. intros [= <-].
  rewrite <- (img_bytes_length off n img l Hn E) at 1. apply le_val_bound. by eapply img_bytes_byte.
Qed.

Lemma read_bytes_app a b m p : read_bytes (a + b) m p = read_bytes a m p ++ read_bytes b m (p + Z.of_nat a).
Proof.
  revert p. induction a as [|a IH]; intros p; simpl; [by rewrite Z.add_0_r|]. rewrite IH. do 3 f_equal. lia.
Qed.

Lemma read_overwrite m p n off data :
  Forall is_byte data → (off + length data ≤ n)%nat →
  overwrite off data (read_bytes n m p) = Some (read_bytes n (write_bytes m (p + Z.of_nat off) data) p).
Proof.
  intros Hd Hn. replace n with (off + (length data + (n - off - length data)))%nat by lia.
  rewrite !read_bytes_app. rewrite (overwrite_at off) by (rewrite ?length_app, ?length_read_bytes; lia).
  rewrite drop_app_length' by (by rewrite length_read_bytes). f_equal. f_equal; [|f_equal].
  - symmetry. apply read_write_ne. lia.
  - symmetry. by apply read_write_eq.
  - symmetry. apply read_write_ne. lia.
Qed.

(** Writing one segment. *)
Definition wrote (page : Z) (seg : option (nat * list Z)) (m : gmap Z Z) : gmap Z Z :=
  match seg with Some (off, data) => write_bytes m (page + Z.of_nat off) data | None => m end.

Definition seg_fits (seg : option (nat * list Z)) : Prop :=
  match seg with Some (off, data) => (off + length data ≤ Z.to_nat PGSIZE)%nat ∧ Forall is_byte data | None => True end.

Lemma with_mem_self s : with_mem (mem s) s = s.
Proof. by destruct s. Qed.

Section load.
Context (img : list Z) (page : Z) (Himg : Forall is_byte img) (Hpage : ram_page page).

Lemma wp_field off n v Q s : img_word off n img = Some v → Q v s → wp (field off n img) Q s.
Proof. intros E HQ. by apply (wp_of_option _ v). Qed.

Lemma wp_load_segment ph seg Q s :
  segment_of img ph = Some seg → (seg_fits seg → Q true (with_mem (wrote page seg (mem s)) s)) →
  wp (load_segment img page ph) Q s.
Proof.
  intros E HQ. unfold segment_of in E. unfold load_segment.
  destruct (img_word (ph + P_TYPE) 4 img) as [t|] eqn:Et; [|done]. cbn [mbind option_bind] in E.
  wp_step. apply (wp_field _ _ _ _ _ Et). destruct (negb (t =? PT_LOAD)).
  { injection E as <-. wp_step. rewrite <- (with_mem_self s). by apply HQ. }
  destruct (img_word (ph + P_VADDR) 8 img) as [vaddr|] eqn:Ev; [|done]. cbn [mbind option_bind] in E.
  destruct (img_word (ph + P_MEMSZ) 8 img) as [memsz|] eqn:Em; [|done]. cbn [mbind option_bind] in E.
  destruct (img_word (ph + P_OFFSET) 8 img) as [src|] eqn:Es; [|done]. cbn [mbind option_bind] in E.
  destruct (img_word (ph + P_FILESZ) 8 img) as [filesz|] eqn:Ef; [|done]. cbn [mbind option_bind] in E.
  destruct (img_bytes src filesz img) as [data|] eqn:Ed; [|done]. cbn [mbind option_bind] in E.
  destruct ((USERVA <=? vaddr) && (vaddr + memsz <=? USERVA + PGSIZE) && (filesz <=? memsz)) eqn:Ec; [|done].
  injection E as <-. bsimp. pose proof (img_word_bound _ 8 _ _ Himg ltac:(lia) Em) as Bm.
  pose proof (img_word_bound _ 8 _ _ Himg ltac:(lia) Ef) as Bf.
  unfold USERVA, PGSIZE in *. wp_step. apply (wp_field _ _ _ _ _ Ev). cbv zeta. wp_step. apply (wp_field _ _ _ _ _ Em).
  destruct Hpage as (_ & Hlo & Hhi). unfold RAMBASE, PHYSTOP, PGSIZE in Hlo, Hhi.
  rewrite (u64_small (vaddr - 4096)), (u64_small (vaddr - 4096 + memsz)) by lia. rewrite (proj2 (Z.ltb_ge _ _)) by lia.
  wp_step. apply (wp_field _ _ _ _ _ Es). wp_step. apply (wp_field _ _ _ _ _ Ef). rewrite u64_small by lia.
  pose proof (img_bytes_length _ filesz _ _ ltac:(lia) Ed) as Hl.
  assert (seg_fits (Some (Z.to_nat (vaddr - 4096), data))) as Hfit.
  { split; [unfold PGSIZE; lia|]. by eapply img_bytes_byte. }
  specialize (HQ Hfit). cbn [wrote] in HQ. rewrite Z2Nat.id in HQ by lia.
  wp_step. unfold copyb. destruct (Z.eqb_spec filesz 0) as [E0|E0].
  - wp_steps. destruct data; [|simpl in Hl; lia]. cbn [write_bytes] in HQ. by rewrite with_mem_self in HQ.
  - wp_step. apply (wp_of_option _ data); [done|]. wp_steps; [|done]. apply in_ram_iff. unfold RAMBASE, PHYSTOP. lia.
Qed.

Lemma wp_load_segments n i phoff phentsize segs Q s :
  0 ≤ i →
  mapM (λ j, segment_of img (u64 (phoff + Z.of_nat j * phentsize))) (seq (Z.to_nat i) n) = Some segs →
  (Forall seg_fits segs → Q 0 (with_mem (fold_left (λ m sg, wrote page sg m) segs (mem s)) s)) →
  wp (load_segments n i img page phoff phentsize) Q s.
Proof.
  revert i segs s. induction n as [|n IH]; intros i segs s Hi Hs HQ; cbn [load_segments seq mapM] in *.
  - injection Hs as <-. wp_step. specialize (HQ (Forall_nil_2 _)). cbn [fold_left] in HQ. by rewrite with_mem_self in HQ.
  - rewrite Z2Nat.id in Hs by lia. destruct (segment_of img (u64 (phoff + i * phentsize))) as [sg|] eqn:Esg; [|done].
    cbn [mbind option_bind] in Hs. replace (S (Z.to_nat i)) with (Z.to_nat (i + 1)) in Hs by lia.
    destruct (mapM _ (seq (Z.to_nat (i + 1)) n)) as [segs'|] eqn:Em; [|done]. injection Hs as <-.
    wp_step. eapply wp_load_segment; [done|]. intros Hfit. apply (IH (i + 1) segs'); [lia|exact Em|]. intros Hfits.
    apply HQ. by constructor.
Qed.
End load.

Lemma placed_page page segs m :
  Forall seg_fits segs →
  read_bytes (Z.to_nat PGSIZE) (fold_left (λ m sg, wrote page sg m) segs m) page =
    placed (omap id segs) (read_bytes (Z.to_nat PGSIZE) m page) ∧
  ∀ a, a < page ∨ page + PGSIZE ≤ a → ld8 (fold_left (λ m sg, wrote page sg m) segs m) a = ld8 m a.
Proof.
  intros Hs. revert m. induction Hs as [|sg segs Hsg _ IH]; intros m; [done|]. cbn [fold_left].
  destruct (IH (wrote page sg m)) as [E1 E2]. destruct sg as [[off data]|]; [|by split].
  destruct Hsg as [Hfit Hb]. cbn [wrote] in *. change (omap id (Some (off, data) :: segs)) with ((off, data) :: omap id segs).
  split.
  - rewrite E1. unfold placed. cbn [fold_left fst snd]. by rewrite read_overwrite by done.
  - intros a Ha. rewrite E2 by done. apply ld8_write_ne. unfold PGSIZE in *. lia.
Qed.

(** A program whose segments all fit. *)
Lemma wp_load_elf img page segs entry s (Q : Z * option Z → machine → Prop) :
  Forall is_byte img → ram_page page → img_word E_ENTRY 8 img = Some entry →
  img_bytes 0 4 img = Some [0x7f; 69; 76; 70] → segments_of img = Some segs →
  (∀ m, read_bytes (Z.to_nat PGSIZE) m page = placed segs (read_bytes (Z.to_nat PGSIZE) (mem s) page) →
     (∀ a, a < page ∨ page + PGSIZE ≤ a → ld8 m a = ld8 (mem s) a) → Q (0, Some entry) (with_mem m s)) →
  wp (load_elf img page) Q s.
Proof.
  intros Himg Hpage Hentry Hmagic Hsegs HQ. unfold segments_of in Hsegs.
  destruct (img_word E_PHNUM 2 img) as [phnum|] eqn:En; [|done]. cbn [mbind option_bind] in Hsegs.
  destruct (img_word E_PHOFF 8 img) as [phoff|] eqn:Eo; [|done]. cbn [mbind option_bind] in Hsegs.
  destruct (img_word E_PHENTSIZE 2 img) as [phent|] eqn:Ee; [|done]. cbn [mbind option_bind] in Hsegs.
  destruct (mapM _ (seq 0 (Z.to_nat phnum))) as [l|] eqn:Em; [|done]. injection Hsegs as <-.
  unfold load_elf. wp_step. apply (wp_of_option _ _ _ _ Hmagic). rewrite bool_decide_true by done. cbn [negb].
  wp_step. apply (wp_field img _ _ _ _ _ Hentry). wp_step. apply (wp_field img _ _ _ _ _ En).
  wp_step. apply (wp_field img _ _ _ _ _ Eo). wp_step. apply (wp_field img _ _ _ _ _ Ee). wp_step.
  apply (wp_load_segments img page Himg Hpage _ 0 phoff phent l); [lia|exact Em|]. intros Hfit. wp_steps.
  destruct (placed_page page l (mem s) Hfit) as [H1 H2]. by apply HQ.
Qed.

(** C32: loading a program. When every loadable segment lies within the code page
    and the file, [load_elf] returns 0 and the entry point of the header; the code
    page holds the segments at their addresses, in order, over what it held before
    (zeros, so the rest of a segment is its .bss), and no other byte changes. Without
    the ELF magic it prints a message, returns -1 and changes no memory. *)
Theorem load_elf_loads img page segs entry s :
  Forall is_byte img → ram_page page → dev_ready (dev_of s) → img_word E_ENTRY 8 img = Some entry →
  (img_bytes 0 4 img = Some [0x7f; 69; 76; 70] → segments_of img = Some segs →
     ∃ m, load_elf img page s = Done (0, Some entry) (with_mem m s) ∧
       read_bytes (Z.to_nat PGSIZE) m page = placed segs (read_bytes (Z.to_nat PGSIZE) (mem s) page) ∧
       ∀ a, a < page ∨ page + PGSIZE ≤ a → ld8 m a = ld8 (mem s) a) ∧
  (∀ magic, img_bytes 0 4 img = Some magic → magic ≠ [0x7f; 69; 76; 70] →
     ∃ s', load_elf img page s = Done (-1, None) s' ∧ mem s' = mem s ∧ km s' = km s).
Proof.
  intros Himg Hpage Hrdy Hentry. split.
  - intros Hmagic Hsegs.
    assert (wp (load_elf img page) (λ r s', r = (0, Some entry) ∧ ∃ m, s' = with_mem m s ∧
      read_bytes (Z.to_nat PGSIZE) m page = placed segs (read_bytes (Z.to_nat PGSIZE) (mem s) page) ∧
      ∀ a, a < page ∨ page + PGSIZE ≤ a → ld8 m a = ld8 (mem s) a) s) as Hwp.
    { eapply wp_load_elf; [done..|]. eauto. }
    apply wp_run in Hwp as (r & s' & Hrun & -> & m & -> & H). by exists m.
  - intros magic Hmagic Hne.
    assert (wp (load_elf img page) (λ r s', r = (-1, None) ∧ mem s' = mem s ∧ km s' = km s) s) as Hwp.
    { unfold load_elf. wp_step. apply (wp_of_option _ _ _ _ Hmagic). rewrite bool_decide_false by done. cbn [negb].
      wp_step. apply wp_puts; [done|]. by wp_steps. }
    apply wp_run in Hwp as (r & s' & Hrun & -> & Hx). by exists s'.
Qed.

(** The size check is on [p_memsz], the copy is of [p_filesz]. A segment that
    claims to fit the page but has more bytes in the file than in memory is
    accepted, and the page behind the code page is overwritten with the rest. *)
Theorem load_segment_overruns img page ph vaddr memsz src filesz data s :
  Forall is_byte img → ram_page page →
  img_word (ph + P_TYPE) 4 img = Some PT_LOAD → img_word (ph + P_VADDR) 8 img = Some vaddr →
  img_word (ph + P_MEMSZ) 8 img = Some memsz → img_word (ph + P_OFFSET) 8 img = Some src →
  img_word (ph + P_FILESZ) 8 img = Some filesz → img_bytes src filesz img = Some data →
  USERVA ≤ vaddr → vaddr + memsz ≤ USERVA + PGSIZE → USERVA + PGSIZE < vaddr + filesz →
  page + (vaddr - USERVA) + filesz ≤ PHYSTOP →
  ∃ m, load_segment img page ph s = Done true (with_mem m s) ∧
    ∀ i b, data !! i = Some b → ld8 m (page + (vaddr - USERVA) + Z.of_nat i) = b.
Proof.
  intros Himg Hpage Et Ev Em Es Ef Ed H1 H2 H3 H4.
  pose proof (img_word_bound _ 8 _ _ Himg ltac:(lia) Em) as Bm. pose proof (img_word_bound _ 8 _ _ Himg ltac:(lia) Ef) as Bf.
  unfold USERVA, PGSIZE in *. set (m := write_bytes (mem s) (page + (vaddr - 4096)) data).
  assert (wp (load_segment img page ph) (λ r s', r = true ∧ s' = with_mem m s) s) as Hwp.
  { unfold load_segment. wp_step. apply (wp_field _ _ _ _ _ _ Et). change (negb (PT_LOAD =? PT_LOAD)) with false; cbv iota.
    wp_step. apply (wp_field _ _ _ _ _ _ Ev). cbv zeta. wp_step. apply (wp_field _ _ _ _ _ _ Em). unfold USERVA, PGSIZE.
    destruct Hpage as (_ & Hlo & _). unfold RAMBASE, PHYSTOP in *.
    rewrite (u64_small (vaddr - 4096)), (u64_small (vaddr - 4096 + memsz)) by lia. rewrite (proj2 (Z.ltb_ge _ _)) by lia.
    wp_step. apply (wp_field _ _ _ _ _ _ Es). wp_step. apply (wp_field _ _ _ _ _ _ Ef). rewrite u64_small by lia.
    wp_step. unfold copyb. rewrite (proj2 (Z.eqb_neq filesz 0)) by lia. wp_step. apply (wp_of_option _ data); [done|].
    wp_steps; [apply in_ram_iff; unfold RAMBASE, PHYSTOP; lia|done]. }
  apply wp_run in Hwp as (r & s' & Hrun & -> & ->). exists m. split; [done|].
  intros i b Hi. apply ld8_write_in; [by eapply img_bytes_byte|done].
Qed.

(** ** Witnesses *)

(** An image of one segment: [vaddr], [filesz] and [memsz] as given, the bytes
    at offset 120. *)
Definition demo_elf (filesz memsz : Z) (data : list Z) : list Z :=
  [0x7f; 69; 76; 70] ++ replicate 20 0 ++ le_bytes 8 USERVA ++ le_bytes 8 64 ++ replicate 14 0 ++
  le_bytes 2 56 ++ le_bytes 2 1 ++ replicate 6 0 ++
  le_bytes 4 PT_LOAD ++ replicate 4 0 ++ le_bytes 8 120 ++ le_bytes 8 USERVA ++ replicate 8 0 ++
  le_bytes 8 filesz ++ le_bytes 8 memsz ++ replicate 8 0 ++ data.

Definition demo_page : Z := 0x80400000.
Definition demo_machine : machine :=
  Machine (Dev (Spin 0 (replicate NCPU (Cpu 0 false)) (replicate NCPU false) (LockWords 0 0 0 0)) []) ∅ (Kmem 0 0 ∅) 0 0 0.

Lemma demo_page_ok : ram_page demo_page.
Proof. unfold ram_page, page_aligned, demo_page, RAMBASE, PHYSTOP, PGSIZE. split; [reflexivity|lia]. Qed.

Lemma demo_machine_ready : dev_ready (dev_of demo_machine).
Proof. split; [|reflexivity]. exists (Cpu 0 false), false. split_and!; done. Qed.

Lemma is_bytes_dec l : forallb (λ b, (0 <=? b) && (b <? 256)) l = true → Forall is_byte l.
Proof. rewrite forallb_forall, Forall_forall. intros Hl x Hx%list_elem_of_In%Hl. bsimp. unfold is_byte. lia. Qed.

Lemma load_elf_loads_witness :
  ∃ m, load_elf (demo_elf 2 16 [1; 2]) demo_page demo_machine = Done (0, Some USERVA) (with_mem m demo_machine) ∧
    read_bytes (Z.to_nat PGSIZE) m demo_page =
      placed [(0%nat, [1; 2])] (read_bytes (Z.to_nat PGSIZE) (mem demo_machine) demo_page) ∧
    ∀ a, a < demo_page ∨ demo_page + PGSIZE ≤ a → ld8 m a = ld8 (mem demo_machine) a.
Proof.
  apply (load_elf_loads (demo_elf 2 16 [1; 2]) demo_page [(0%nat, [1; 2])] USERVA demo_machine);
    [apply is_bytes_dec; vm_compute; reflexivity|apply demo_page_ok|apply demo_machine_ready|vm_compute; reflexivity..].
Defined.

Definition big_data : list Z := replicate 5000 7.
Lemma load_segment_overruns_witness :
  ∃ m, load_segment (demo_elf 5000 16 big_data) demo_page 64 demo_machine = Done true (with_mem m demo_machine) ∧
    ∀ i b, big_data !! i = Some b → ld8 m (demo_page + (USERVA - USERVA) + Z.of_nat i) = b.
Proof.
  apply (load_segment_overruns (demo_elf 5000 16 big_data) demo_page 64 USERVA 16 120 5000 big_data demo_machine);
    first [apply demo_page_ok|apply is_bytes_dec; vm_compute; reflexivity|vm_compute; reflexivity|vm_compute; discriminate].
Defined.
