(* ===== verification/Proc.v ===== *)
(** * The memory of processes (src/proc.c)

    The part of proc.c that works on page tables, pages and files: the images
    that [make_user_proc] and [proc_fork] build and [proc_freeimage] takes down
    (the implementation of the interface [Images] of Sched.v), [proc_exec],
    [proc_sbrk], [proc_mmap] and the page fault handler. The linker symbol
    [etext] and the embedded program are arguments. *)
From S2P Require Import Prelude Spinlock Uart Mem Kalloc Vm PageTable Disk Fs Elf Console Sched.

(** The fields of [struct proc] about memory. *)
Record image := Image {
  kstack : Z; pagetable : Z; ucode : Z; ustack : Z;
  heap_top : Z; mmap_base : Z; mmap_start : Z; mmap_size : Z;
}.
Definition set_heap_top x i := Image (kstack i) (pagetable i) (ucode i) (ustack i) x (mmap_base i) (mmap_start i) (mmap_size i).
Definition set_mmap x st sz i := Image (kstack i) (pagetable i) (ucode i) (ustack i) (heap_top i) x st sz.
Definition set_ucode x i := Image (kstack i) (pagetable i) x (ustack i) (heap_top i) (mmap_base i) (mmap_start i) (mmap_size i).

(** [mmap_base + ((mmap_size + PGSIZE - 1) & ~(uint64)(PGSIZE - 1))]; the sum is
    of 32 bits. *)
Definition mmap_end (i : image) : Z :=
  u64 (mmap_base i + Z.land (u32 (mmap_size i + PGSIZE - 1)) (u64 (Z.lnot (PGSIZE - 1)))).

(** Offsets in [struct regframe] (trap.h). *)
Definition F_A0 : Z := 64.
Definition F_SEPC : Z := 240.

(** ** Images, on the memory of the machine *)

Section images.
Context (etext : Z) (initcode : list Z).

(** make_thread: a kernel stack, and the kernel's page table. *)
Definition make_thread_image (i : image) : M machine image :=
  ks ← kalloc;
  kpt ← kernel_pt;
  mret (Image ks kpt (ucode i) (ustack i) (heap_top i) (mmap_base i) (mmap_start i) (mmap_size i)).

(** make_user_proc: the embedded program, a user stack, a table, a kernel stack. *)
Definition make_user_image (i : image) : M machine (option image) :=
  code ← kalloc;
  zero code PGSIZE;;
  r ← load_elf initcode code;
  if negb (r.1 =? 0) then mret None
  else
    entry ← of_option r.2;
    when (negb (entry =? USERVA)) (uart_line "[warn] elf entry != USERVA");;
    us ← kalloc;
    pt ← proc_pagetable etext code us;
    ks ← kalloc;
    mret (Some (Image ks pt code us HEAPBASE 0 (mmap_start i) (mmap_size i))).

(** A 64-bit word of user memory, read through the page table [pt] (the kernel
    runs with SUM set); undefined where the hardware would fault. *)
Definition load_user (pt va : Z) : M machine Z :=
  pte ← gets (λ s, sv39 (mem s) pt va);
  pte ← of_option pte;
  load64 (PTE2PA pte + va mod PGSIZE).

(** proc_fork: the code page shared, the stack page copied, the heap shared
    copy-on-write; in the copy of the frame the child returns 0, behind the
    [ecall]. *)
Definition fork_user_image (i par : image) (f : Z) : M machine image :=
  us ← kalloc;
  memcopy us (ustack par) PGSIZE;;
  kref_inc (ucode par);;
  pt ← proc_pagetable etext (ucode par) us;
  r ← uvm_cow_share (pagetable par) pt HEAPBASE (heap_top par);
  let off := u64 (f - USERSTACK) in
  store64 (u64 (us + off) + F_A0) 0;;
  sepc ← load_user (pagetable par) (f + F_SEPC);
  store64 (u64 (us + off) + F_SEPC) (sepc + 4);;
  mret (Image 0 pt (ucode par) us (heap_top par) 0 (mmap_start i) (mmap_size i)).

Definition proc_freeimage (i : image) : M machine image :=
  when (negb (pagetable i =? 0))
    (vm_free_range (pagetable i) HEAPBASE (heap_top i);;
     when (negb (mmap_base i =? 0)) (vm_free_range (pagetable i) (mmap_base i) (mmap_end i)));;
  when (negb (ucode i =? 0)) (kfree (ucode i));;
  when (negb (ustack i =? 0)) (kfree (ustack i));;
  when (negb (kstack i =? 0)) (kfree (kstack i));;
  when (negb (pagetable i =? 0)) (free_pagetable (pagetable i));;
  mret (Image 0 0 0 0 HEAPBASE 0 (mmap_start i) (mmap_size i)).
End images.

(** The scheduler's interface, on the machine. *)
Definition machine_images (etext : Z) (initcode : list Z) : Images machine image := {|
  thread_image := make_thread_image;
  new_image := make_user_image etext initcode;
  fork_image := fork_user_image etext;
  free_image := proc_freeimage;
|}.

(** [proc_dump], a line per slot in use; the name is a C string. *)
Definition dump_proc (x : proc image) : M machine unit :=
  if decide (state x = UNUSED) then mret tt
  else
    uart_str "  ";;
    nm ← of_option (c_string (name x));
    uart_puts nm;;
    uart_str (if is_user x then " (user pid=" else " (kernel pid=");;
    uart_dec (u64 (pid x));;
    uart_str "): ticks=";;
    uart_dec (counter x);;
    uart_putc 10.

Fixpoint dump_loop (f : nat → proc image) (n i : nat) : M machine unit :=
  match n with O => mret tt | S n => dump_proc (f i);; dump_loop f n (S i) end.
Definition proc_dump (f : nat → proc image) : M machine unit := dump_loop f NPROC 0.

(** ** States that contain the machine *)

Class HasMachine (D : Type) := {
  mach_of : D → machine;
  set_mach : machine → D → D;
}.
Class HasMachineLaws (D : Type) `{HasMachine D, HasDev D} := {
  mach_of_set k d : mach_of (set_mach k d) = k;
  set_mach_set k k' d : set_mach k (set_mach k' d) = set_mach k d;
  set_mach_of d : set_mach (mach_of d) d = d;
  mach_dev d : dev_of d = mdev (mach_of d);
}.

Section kernel.
Context {D : Type} `{HasDev D, !BlockDev D, !HasMachine D}.

Definition mach (s : fs D) : machine := mach_of (low s).
Definition put_mach (k : machine) (s : fs D) : fs D := FsOn (fm s) (set_mach k (low s)).
Definition on_mach {A} (m : M machine A) : M (fs D) A := zoom mach put_mach m.

(** Returns the break before the call. *)
Definition proc_sbrk (n : Z) (i : image) : Z * image :=
  (heap_top i, if 0 <? n then set_heap_top (u64 (heap_top i + n)) i else i).

Definition proc_mmap (path : list Z) (i : image) : M (fs D) (Z * image) :=
  r ← fs_stat path;
  match r with
  | None => mret (u64 (-1), i)
  | Some (start, size) => mret (MMAPBASE, set_mmap MMAPBASE start size i)
  end.

(** What the handlers print: a message, the address, a newline. *)
Definition say_va (m : string) (a : Z) : M machine unit := uart_str m;; uart_hex a;; uart_putc 10.

(** A page of the heap, on demand. *)
Definition heap_fault (pt a : Z) : M machine Z :=
  p ← kalloc;
  if p =? 0 then mret 0
  else
    zero p PGSIZE;;
    r ← uvm_map pt a p (Z.lor (Z.lor PTE_R PTE_W) PTE_U);
    if negb (r =? 0) then kfree p;; mret 0
    else say_va "[pagefault] demand-allocated a heap page at va=" a;; mret 1.

(** A page of the mapped file. The page is read block by block into memory. *)
Definition mmap_fault (i : image) (a : Z) : M (fs D) Z :=
  p ← on_mach kalloc;
  if p =? 0 then mret 0
  else
    page ← on_mach (assertb (in_ram p PGSIZE);; gets (λ s, read_bytes (Z.to_nat PGSIZE) (mem s) p));
    page ← fs_read_page (mmap_start i) (mmap_size i) (u32 (a - mmap_base i)) page;
    on_mach (modify (λ s, with_mem (write_bytes (mem s) p page) s));;
    r ← on_mach (uvm_map (pagetable i) a p (Z.lor PTE_R PTE_U));
    if negb (r =? 0) then on_mach (kfree p);; mret 0
    else on_mach (say_va "[pagefault] mmap loaded a file page at va=" a);; mret 1.

(** [proc_pagefault] for the current process [cur]: its [is_user] and image. *)
Definition proc_pagefault (cur : option (bool * image)) (va : Z) (store : bool) : M (fs D) Z :=
  match cur with
  | Some (true, i) =>
      let a := PGROUNDDOWN va in
      c ← (if store then on_mach (uvm_cow_fault (pagetable i) a) else mret 0);
      if negb (c =? 0) then on_mach (say_va "[cow] copied a shared page on write at va=" a);; mret 1
      else if (HEAPBASE <=? a) && (a <? heap_top i) then on_mach (heap_fault (pagetable i) a)
      else if negb (mmap_base i =? 0) && (mmap_base i <=? a) && (a <? mmap_end i) then mmap_fault i a
      else mret 0
  | _ => mret 0
  end.

(** [proc_exec] for the current process [cur]; [elfbuf] is the static buffer.
    [Some entry]: the new program runs, from [entry] with an empty stack;
    [None]: -1 is returned to the old one. *)
Definition proc_exec (path elfbuf : list Z) (i : image) : M (fs D) (option Z * image * list Z) :=
  r ← fs_read path elfbuf 32768;
  let '(sz, elfbuf) := r in
  if sz <? 0 then mret (None, i, elfbuf)
  else
    newcode ← on_mach kalloc;
    on_mach (zero newcode PGSIZE);;
    r ← on_mach (load_elf elfbuf newcode);
    if negb (r.1 =? 0) then on_mach (kfree newcode);; mret (None, i, elfbuf)
    else
      entry ← of_option r.2;
      on_mach (vm_free_range (pagetable i) HEAPBASE (heap_top i));;
      when (negb (mmap_base i =? 0)) (on_mach (vm_free_range (pagetable i) (mmap_base i) (mmap_end i)));;
      let i' := set_mmap 0 (mmap_start i) (mmap_size i) (set_heap_top HEAPBASE i) in
      on_mach (remap_user_code (pagetable i) newcode);;
      when (negb (ucode i =? 0)) (on_mach (kfree (ucode i)));;
      mret (Some entry, set_ucode newcode i', elfbuf).
End kernel.
