(* ===== verification/Image.v ===== *)
(** * The memory of the first process (src/proc.c: make_user_proc)

    Building the image of a process from the embedded program only allocates
    ([took]), and gives exactly the address space of [space_entry]. *)
From S2P Require Import Prelude Spinlock Uart Mem Kalloc Vm PageTable AddrSpace Took Disk Fs Elf Console Sched Proc.

(** An embedded program whose segments all fit its page. *)
Record loadable (img : list Z) (segs : list (nat * list Z)) (entry : Z) : Prop := {
  ld_bytes : Forall is_byte img;
  ld_entry : img_word E_ENTRY 8 img = Some entry;
  ld_magic : img_bytes 0 4 img = Some [0x7f; 69; 76; 70];
  ld_segs : segments_of img = Some segs;
}.

(** The image [i] of a process that was built on the pages [l], with [l'] left. *)
Record fresh_image (rg : Z * Z) (etext : Z) (segs : list (nat * list Z)) (l l' : list Z) (k k' : machine) (i : image) : Prop := {
  fi_took : took rg l l' k k';
  fi_pages : NoDup [ucode i; ustack i; kstack i];
  fi_in p : p ∈ [ucode i; ustack i; kstack i] → p ∈ l ∧ p ∉ l';
  fi_table : ∃ T, aspace rg k' (pagetable i) T ∧ ∀ p, node T p → p ∈ l ∧ p ∉ l' ∧ p ∉ [ucode i; ustack i; kstack i];
  fi_space va : 0 ≤ va → sv39 (mem k') (pagetable i) va = space_entry etext (ucode i) (ustack i) va;
  fi_code : read_bytes (Z.to_nat PGSIZE) (mem k') (ucode i) = placed segs (replicate (Z.to_nat PGSIZE) 0);
  fi_heap : heap_top i = HEAPBASE;
  fi_mmap : mmap_base i = 0;
}.

Lemma zero_page_bytes p m : read_bytes (Z.to_nat PGSIZE) (memset_loop (Z.to_nat PGSIZE) p 0 m) p = replicate (Z.to_nat PGSIZE) 0.
Proof.
  rewrite memset_write. pose proof (read_write_eq m p (replicate (Z.to_nat PGSIZE) (u8 0))) as H.
  rewrite length_replicate in H. apply H, Forall_replicate. by split.
Qed.

#[local] Opaque memset_loop read_bytes.

Lemma wp_entry_warning rg l l' k k' entry (Q : unit → machine → Prop) :
  took rg l l' k k' → (∀ k'', took rg l l' k k'' → mem k'' = mem k' → Q tt k'') →
  wp (when (negb (entry =? USERVA)) (uart_line "[warn] elf entry != USERVA")) Q k'.
Proof.
  intros Ht HQ. unfold when. destruct (negb _); [|by apply HQ]. apply wp_puts; [apply ready_dev, Ht|].
  apply HQ; [|done]. eapply took_heard; [exact Ht|apply heard_said].
Qed.

Lemma wp_make_user_image rg etext initcode segs entry i l k :
  etext_ok etext → loadable initcode segs entry → kinv rg k l → ready k → (73 ≤ length l)%nat →
  wp (make_user_image etext initcode i) (λ r k', ∃ img l', r = Some img ∧
    (length l ≤ length l' + 73)%nat ∧ fresh_image rg etext segs l l' k k' img) k.
Proof.
  intros Het [B1 B2 B3 B4] Hk Hr Hlen. pose proof (took_refl _ _ _ Hk Hr) as K0. pose proof (kinv_nodup _ _ _ Hk) as Hnd.
  unfold make_user_image. wp_steps. eapply wp_kalloc_took; [exact K0|by intros ->; simpl in Hlen; lia|].
  intros code l1 -> K1. set (k1 := after_alloc _ _ _) in *. destruct (free_page _ _ _ code Hk ltac:(by left)) as (C1 & C2 & C3).
  pose proof Hnd as [Nc Nd1]%NoDup_cons. simpl length in Hlen.
  wp_steps. apply wp_memset; [apply ram_page_in_ram; [done|unfold PGSIZE; lia]|]. wp_steps.
  set (k2 := with_mem _ k1). assert (took rg (code :: l1) l1 k k2) as K2.
  { apply (took_write _ _ _ code); [done|by left|done|done|]. intros x Hx. apply ld8_memset_ne. unfold in_page, PGSIZE in *. lia. }
  apply (wp_load_elf _ _ segs entry); [done..|]. intros m Em Hm. cbn [fst snd negb Z.eqb].
  assert (read_bytes (Z.to_nat PGSIZE) m code = placed segs (replicate (Z.to_nat PGSIZE) 0)) as Ecode.
  { rewrite Em. unfold k2. cbn [mem with_mem]. by rewrite zero_page_bytes. }
  clear Em. set (k3 := with_mem m k2). assert (took rg (code :: l1) l1 k k3) as K3.
  { apply (took_write _ _ _ code); [done|by left|done|done|]. intros x Hx. apply Hm. unfold in_page, PGSIZE in *. lia. }
  change m with (mem k3) in Ecode. clearbody k3. clear dependent m. clear k1 k2 K1 K2. wp_steps.
  apply wp_bind, (wp_entry_warning rg (code :: l1) l1 k k3); [done|]. intros k4 K4 E4. rewrite <- E4 in Ecode. clear K3 E4 k3.
  wp_steps. eapply wp_kalloc_took; [exact K4|by intros ->; simpl in Hlen; lia|]. intros us l2 -> K5.
  change (mem k4) with (mem (after_alloc us (ld64 (mem k4) us) k4)) in Ecode. set (k5 := after_alloc us _ _) in *. clearbody k5. clear K4 k4.
  destruct (free_page _ _ _ us Hk ltac:(right; by left)) as (U1 & U2 & U3). simpl length in Hlen.
  wp_steps. eapply (wp_proc_pagetable rg); [exact Het|apply K5|apply K5|exact C3|exact U3|lia|]. intros pt k6 l3 T Hpt Hv.
  destruct (took_vstep _ _ _ _ _ _ _ _ _ _ _ K5 Hv) as (K6 & Hnode & Hsz & Hsub). pose proof (vstep_size _ _ _ _ _ _ _ _ Hv) as H70.
  wp_steps. eapply wp_kalloc_took; [exact K6|intros ->; simpl in *; lia|]. intros ks l4 -> K7. wp_steps.
  eexists _, l4. split; [done|]. split; [simpl in *; lia|].
  assert (us ∉ l2 ∧ ks ∉ l4 ∧ ks ∈ l2) as (Nu & Nk & Ik).
  { apply NoDup_cons in Nd1 as [? _]. pose proof (tk_inv _ _ _ _ _ K6) as K. apply kinv_nodup, NoDup_cons in K as [? _].
    split_and!; [done..|]. apply Hsub. by left. }
  assert (∀ p, p ∈ l4 → p ∈ l2) as Hsub4 by (intros; apply Hsub; by right).
  rewrite not_elem_of_cons in Nc. destruct Nc as [Ncu Nc].
  split; cbn [ucode ustack kstack pagetable heap_top mmap_base]; try done.
  - rewrite !NoDup_cons, !not_elem_of_cons. split_and!; try done; try apply not_elem_of_nil; [by intros ->..|apply NoDup_nil_2].
  - intros p Hp. rewrite !elem_of_cons, elem_of_nil in Hp. rewrite !elem_of_cons. destruct Hp as [->|[->|[->|[]]]]; split; auto.
  - exists T. split.
    + destruct (vs_ok _ _ _ _ _ _ _ _ _ _ Hv) as [_ _ [R1 R2 R3]]. split; [done|done|]. intros p Hp. destruct (R3 p Hp) as [Hm <-].
      split; [done|]. destruct (Hnode p Hp) as [_ Hp2]. unfold rc, after_alloc. simpl. rewrite rc_get_set_ne; [done|].
      intros E. apply pidx_inj in E; [|by eapply managed_aligned|by eapply (free_page rg k6); [apply K6|left]]. subst. apply Hp2. by left.
    + intros p Hp. destruct (Hnode p Hp) as [I1 I2]. rewrite !not_elem_of_cons, !elem_of_cons. rewrite not_elem_of_cons in I2.
      split_and!; [by auto|by intros ?; apply I2|by intros ->|by intros ->|apply I2|apply not_elem_of_nil].
  - intros va Hva. change (mem (after_alloc _ _ k6)) with (mem k6). by eapply space_view.
  - rewrite <- Ecode. change (mem (after_alloc _ _ k6)) with (mem k6). apply read_bytes_ext. intros x Hx.
    apply (vs_frame _ _ _ _ _ _ _ _ _ _ Hv). intros p Hp. destruct (Hnode p Hp) as [I1 _].
    eapply (in_page_ne code p); [done|eapply (free_page rg k); [exact Hk|rewrite !elem_of_cons; auto]| |unfold in_page, PGSIZE in *; lia].
    by intros ->.
Qed.

(** C28: the memory of the first process. With 73 free pages and an embedded program
    whose segments fit, building the image succeeds: the code page holds the
    segments over zeros, the hardware sees the kernel at its own addresses, the
    code page read-execute at [USERVA] and a stack page below [USERSTACKTOP], and
    nothing else; code, stack, kernel stack and tables are distinct pages taken
    from the free list, and no other byte of memory or count changed. *)
Theorem user_image_built rg etext initcode segs entry i l k :
  etext_ok etext → loadable initcode segs entry → kinv rg k l → ready k → (73 ≤ length l)%nat →
  ∃ img k' l', make_user_image etext initcode i k = Done (Some img) k' ∧ (length l ≤ length l' + 73)%nat ∧
    fresh_image rg etext segs l l' k k' img.
Proof.
  intros Het Hld Hk Hr Hlen.
  destruct (wp_run _ _ _ (wp_make_user_image rg etext initcode segs entry i l k Het Hld Hk Hr Hlen)) as (r & k' & Hrun & img & l' & -> & H).
  by exists img, k', l'.
Qed.

Lemma demo_loadable : loadable (demo_elf 2 16 [1; 2]) [(0%nat, [1; 2])] USERVA.
Proof. split; [apply is_bytes_dec; vm_compute; reflexivity|vm_compute; reflexivity..]. Qed.

Lemma user_image_built_witness :
  ∃ k img k', make_user_image 0x80210000 (demo_elf 2 16 [1; 2]) (Image 0 0 0 0 0 0 0 0) k = Done (Some img) k' ∧
    sv39 (mem k') (pagetable img) 0x1004 = Some (mk_pte (ucode img) URX) ∧ sv39 (mem k') (pagetable img) 0x5000 = None.
Proof.
  destruct (demo_pages 100 ltac:(lia)) as (k & l & Hk & Hr & Hl).
  destruct (user_image_built (PHYSTOP - PGSIZE * Z.of_nat 100, PHYSTOP) 0x80210000 (demo_elf 2 16 [1; 2]) [(0%nat, [1; 2])] USERVA
    (Image 0 0 0 0 0 0 0 0) l k) as (img & k' & l' & Hrun & _ & Hi);
    [split; [reflexivity|unfold KERNBASE, PHYSTOP; lia]|exact demo_loadable|exact Hk|exact Hr|lia|].
  exists k, img, k'. split; [exact Hrun|]. rewrite !(fi_space _ _ _ _ _ _ _ _ Hi) by lia. split; reflexivity.
Defined.
