(* ===== verification/Reap.v ===== *)
(** * Taking a finished process down (src/proc.c: proc_freeimage, proc_wait)

    [proc_freeimage] on an orderly image returns: every page the process had
    mapped loses the reference of that mapping, its code, stack and kernel stack
    pages lose one, and the pages of its table become free. Hence the condition
    of [SchedSpec.lock_released] holds for the images of the kernel. *)
From stdpp Require Import functions relations.
From S2P Require Import Prelude Spinlock Uart Mem Kalloc Vm PageTable AddrSpace Took Uvm Teardown Disk Fs Elf Console Sched SchedInv SchedSpec Proc Image.

(** The references a process holds: its heap, its mapped file, its three pages. *)
Definition heap_pages (m : gmap Z Z) (T : gmap (list Z) Z) (i : image) : list Z :=
  mapped m T HEAPBASE (page_count HEAPBASE (heap_top i)).
Definition mmap_pages (m : gmap Z Z) (T : gmap (list Z) Z) (i : image) : list Z :=
  if mmap_base i =? 0 then [] else mapped m T (mmap_base i) (page_count (mmap_base i) (mmap_end i)).
Definition page_or_none (p : Z) : list Z := if p =? 0 then [] else [p].
Definition own_pages (i : image) : list Z := page_or_none (ucode i) ++ page_or_none (ustack i) ++ page_or_none (kstack i).
Definition references (m : gmap Z Z) (T : gmap (list Z) Z) (i : image) : list Z :=
  heap_pages m T i ++ mmap_pages m T i ++ own_pages i.

(** An image whose table, counts and ranges are in order. *)
Record orderly (rg : Z * Z) (s : machine) (l : list Z) (T : gmap (list Z) Z) (i : image) : Prop := {
  od_vok : vok rg s l (pagetable i) T;
  od_perm va e : 0 ≤ va → sv39 (mem s) (pagetable i) va = Some e → Z.land e (Z.lor (Z.lor PTE_R PTE_W) PTE_X) ≠ 0;
  od_heap : heap_top i + PGSIZE < 2 ^ 38;
  od_mmap : mmap_base i ≠ 0 →
    page_aligned (mmap_base i) ∧ HEAPBASE ≤ mmap_base i ∧ heap_top i ≤ mmap_base i ∧ mmap_end i + PGSIZE < 2 ^ 38;
  od_drop : droppable rg s T (references (mem s) T i);
}.

Lemma occ_nodup q L : NoDup L → occ q L ≤ 1.
Proof.
  induction 1 as [|p L Hp _ IH]; [done|]. change (p :: L) with ([p] ++ L). rewrite occ_app, occ_single. unfold only.
  destruct (decide (q = p)) as [->|]; [rewrite occ_notin by done|]; lia.
Qed.

Section free.
Context (rg : Z * Z) (T : gmap (list Z) Z) (i : image).
Implicit Types (s : machine) (l : list Z).

Lemma page_count_end start end_ : page_aligned end_ → start ≤ end_ → page_aligned start →
  start + PGSIZE * Z.of_nat (page_count start end_) = end_.
Proof. unfold page_aligned, page_count, PGSIZE. intros. Z.to_euclidean_division_equations. lia. Qed.

(** Clearing the heap leaves the entries of the mapped file. *)
Lemma mmap_pages_kept s l s' l' :
  orderly rg s l T i →
  gave_up rg (pagetable i) T (heap_pages (mem s) T i) (clear HEAPBASE (page_count HEAPBASE (heap_top i))) s l s' l' →
  mmap_pages (mem s') T i = mmap_pages (mem s) T i.
Proof.
  intros Ho Hg. unfold mmap_pages. destruct (Z.eqb_spec (mmap_base i) 0) as [|Hne]; [done|].
  destruct (od_mmap _ _ _ _ _ Ho Hne) as (Hal & Hhb & Hht & Hend).
  set (b := mmap_base i) in *. set (e := mmap_end i) in *. clearbody b e.
  apply mapped_ext. intros k Hk. assert (0 ≤ b + PGSIZE * Z.of_nat k) by (unfold HEAPBASE, PGSIZE in *; lia).
  rewrite (us_leaf _ _ _ _ _ _ _ _ _ _ _ Hg) by done. unfold clear. rewrite decide_False; [done|].
  assert (b + PGSIZE * Z.of_nat k < 2 ^ 38) as Hb.
  { unfold page_count, PGSIZE in *. Z.to_euclidean_division_equations. lia. }
  rewrite vpn_step by (unfold HEAPBASE, PGSIZE in *; done || lia).
  unfold page_count, page_aligned, HEAPBASE, PGSIZE in *. Z.to_euclidean_division_equations. lia.
Qed.

Lemma wp_free_page root p L s0 l0 s l f (Q : unit → machine → Prop) :
  gave_up rg root T L f s0 l0 s l → droppable rg s0 T (L ++ page_or_none p) →
  (∀ s' l', gave_up rg root T (L ++ page_or_none p) f s0 l0 s' l' → Q tt s') →
  wp (when (negb (p =? 0)) (kfree p)) Q s.
Proof.
  intros Hg Hd HQ. unfold page_or_none in *. pose proof (us_ok _ _ _ _ _ _ _ _ _ _ _ Hg) as Hok.
  destruct (p =? 0); cbn [negb] in *.
  - apply wp_when; [done|intros _]. rewrite app_nil_r in *. by eapply HQ.
  - apply wp_when; [intros _|done]. eapply wp_drop; [exact Hok|by eapply gave_up_droppable|].
    intros s' l' Hg'. eapply HQ. apply (gave_up_trans _ _ _ _ _ _ keep _ _ _ _ _ _ Hd Hg Hg').
Qed.

(** The entries that are left. *)
Definition after_unmap (va v : Z) : Z :=
  let v := clear HEAPBASE (page_count HEAPBASE (heap_top i)) va v in
  if mmap_base i =? 0 then v else clear (mmap_base i) (page_count (mmap_base i) (mmap_end i)) va v.

Lemma after_unmap_cases va v : after_unmap va v = v ∨ after_unmap va v = 0.
Proof. unfold after_unmap, clear. repeat destruct (decide _); repeat destruct (_ =? _); repeat destruct (has _ _); auto. Qed.

(** Everything the process held is given back. *)
Record released s l s' l' : Prop := {
  rl_kinv : kinv rg s' l';
  rl_ready : ready s';
  rl_free p : p ∈ l' ↔ p ∈ l ∨ node T p ∨ exhausted s (references (mem s) T i) p;
  rl_rc q : page_aligned q → ¬ node T q → rc s' q = rc s q - occ q (references (mem s) T i);
  rl_frame x : (∀ p, node T p ∨ exhausted s (references (mem s) T i) p → ¬ in_page p x) → ld8 (mem s') x = ld8 (mem s) x;
}.

Lemma released_both s l s1 l1 s' l' :
  orderly rg s l T i → gave_up rg (pagetable i) T (references (mem s) T i) after_unmap s l s1 l1 →
  torn_down rg T s1 l1 s' l' → released s l s' l'.
Proof.
  intros Ho Hg [T1 T2 T3 T4 T5]. pose proof (od_drop _ _ _ _ _ Ho) as Hd. set (L := references (mem s) T i) in *.
  destruct (us_ok _ _ _ _ _ _ _ _ _ _ _ Hg) as [Hk1 _ [_ _ Hlive]]. destruct (od_vok _ _ _ _ _ Ho) as [Hk _ [_ _ Hlive0]].
  assert (∀ q, page_aligned q → ¬ node T q → rc s1 q = rc s q - occ q L) as Hrc.
  { intros q Hq Hn. rewrite (us_rc _ _ _ _ _ _ _ _ _ _ _ Hg) by done. lia. }
  split; [done|done| | |].
  - intros p. rewrite T3. cut (p ∈ l1 ↔ p ∈ l ∨ exhausted s L p); [naive_solver|].
    rewrite (kinv_free _ _ _ Hk1), (kinv_free _ _ _ Hk). unfold exhausted. pose proof (occ_notin p L) as Hno. split.
    + intros [Hm Hz]. assert (¬ node T p) as Hn by (intros [_ ?]%Hlive; lia).
      rewrite Hrc in Hz by (done || by eapply managed_aligned).
      destruct (decide (p ∈ L)) as [Hin|Hni]; [right; split; [done|lia]|left; split; [done|]]. rewrite Hno in Hz by done. lia.
    + intros [[Hm Hz]|[Hin Hz]].
      * assert (¬ node T p) as Hn by (intros [_ ?]%Hlive0; lia). split; [done|].
        rewrite Hrc, Hno by (done || (by eapply managed_aligned) || (intros Hin; destruct (Hd p Hin) as (_ & _ & Hle); pose proof (occ_pos p L Hin); lia)).
        lia.
      * destruct (Hd p Hin) as (Hm & Hn & _). split; [done|]. rewrite Hrc by (done || by eapply managed_aligned). lia.
  - intros q Hq Hn. rewrite T4 by done. by apply Hrc.
  - intros x Hx. rewrite T5 by auto. by apply (us_frame _ _ _ _ _ _ _ _ _ _ _ Hg).
Qed.

Lemma after_unmap_perms s l s1 l1 L :
  orderly rg s l T i → gave_up rg (pagetable i) T L after_unmap s l s1 l1 → perms_ok (mem s1) T.
Proof.
  intros Ho Hg. destruct (us_ok _ _ _ _ _ _ _ _ _ _ _ Hg) as [_ _ [_ Hrep1 _]].
  destruct (od_vok _ _ _ _ _ Ho) as [_ _ [Hroot Hrep _]]. apply perms_ok_leaf; [done|]. intros va Hva.
  rewrite (us_leaf _ _ _ _ _ _ _ _ _ _ _ Hg) by done.
  destruct (after_unmap_cases va (leaf (mem s) T va)) as [-> | ->]; [|by rewrite has_0].
  intros HV. eapply (od_perm _ _ _ _ _ Ho va); [done|]. by rewrite (sv39_leaf _ _ _ _ Hrep Hroot), HV.
Qed.

Lemma wp_unmap s l (Q : unit → machine → Prop) :
  orderly rg s l T i →
  (∀ s' l', gave_up rg (pagetable i) T (heap_pages (mem s) T i ++ mmap_pages (mem s) T i) after_unmap s l s' l' → Q tt s') →
  wp (vm_free_range (pagetable i) HEAPBASE (heap_top i);;
      when (negb (mmap_base i =? 0)) (vm_free_range (pagetable i) (mmap_base i) (mmap_end i))) Q s.
Proof.
  intros Ho HQ. pose proof (od_drop _ _ _ _ _ Ho) as Hd. unfold references in Hd. rewrite app_assoc in Hd.
  assert (droppable rg s T (heap_pages (mem s) T i ++ mmap_pages (mem s) T i)) as Hd2.
  { intros q Hq. destruct (Hd q ltac:(set_solver)) as (? & ? & Hle). rewrite occ_app in Hle.
    pose proof (occ_nonneg q (own_pages i)). split_and!; [done|done|lia]. }
  wp_steps. eapply wp_vm_free_range; [apply Ho|done|unfold HEAPBASE; lia|apply Ho| |].
  { intros q Hq. destruct (Hd2 q ltac:(set_solver)) as (? & ? & Hle). rewrite occ_app in Hle.
    pose proof (occ_nonneg q (mmap_pages (mem s) T i)). split_and!; [done|done|]. unfold heap_pages in Hle. lia. }
  intros s1 l1 Hg. pose proof (mmap_pages_kept _ _ _ _ Ho Hg) as Em.
  unfold when, mmap_pages, after_unmap in *. destruct (Z.eqb_spec (mmap_base i) 0) as [|Hne]; cbn [negb].
  - wp_steps. apply (HQ _ l1). by rewrite app_nil_r.
  - destruct (od_mmap _ _ _ _ _ Ho Hne) as (Hal & Hhb & Hht & Hend).
    eapply wp_vm_free_range; [apply (us_ok _ _ _ _ _ _ _ _ _ _ _ Hg)|done|unfold HEAPBASE in *; lia|done| |].
    + rewrite Em. by eapply gave_up_droppable.
    + rewrite Em. intros s2 l2 Hg2. apply (HQ _ l2). by apply (gave_up_trans _ _ _ _ _ _ _ _ _ _ _ _ _ Hd2 Hg Hg2).
Qed.

Definition no_image : image := Image 0 0 0 0 HEAPBASE 0 (mmap_start i) (mmap_size i).

Lemma wp_proc_freeimage s l (Q : image → machine → Prop) :
  orderly rg s l T i → (∀ s' l', released s l s' l' → Q no_image s') → wp (proc_freeimage i) Q s.
Proof.
  intros Ho HQ. pose proof (od_drop _ _ _ _ _ Ho) as Hd. unfold references, own_pages in Hd.
  assert (pagetable i ≠ 0) as Hpt.
  { destruct (od_vok _ _ _ _ _ Ho) as [_ _ Has]. pose proof (ram_page_pos _ (node_ram _ _ _ _ _ _ Has (as_root _ _ _ _ Has))). lia. }
  unfold proc_freeimage. rewrite (proj2 (Z.eqb_neq _ _) Hpt). cbn [negb].
  apply wp_bind, wp_when; [intros _|done]. eapply wp_unmap; [done|]. intros s1 l1 H1.
  apply wp_bind. eapply (wp_free_page _ (ucode i)); [exact H1| |].
  { intros q Hq. destruct (Hd q ltac:(set_solver)) as (? & ? & Hle). rewrite !occ_app in *.
    pose proof (occ_nonneg q (page_or_none (ustack i))). pose proof (occ_nonneg q (page_or_none (kstack i))).
    split_and!; [done|done|lia]. }
  intros s2 l2 H2. apply wp_bind. eapply (wp_free_page _ (ustack i)); [exact H2| |].
  { intros q Hq. destruct (Hd q ltac:(set_solver)) as (? & ? & Hle). rewrite !occ_app in *.
    pose proof (occ_nonneg q (page_or_none (kstack i))). split_and!; [done|done|lia]. }
  intros s3 l3 H3. apply wp_bind. eapply (wp_free_page _ (kstack i)); [exact H3|by rewrite <- !app_assoc|].
  intros s4 l4 H4. rewrite <- !app_assoc in H4. change (heap_pages _ _ _ ++ _) with (references (mem s) T i) in H4.
  apply wp_bind, wp_when; [intros _|done]. eapply wp_free_pagetable; [apply (us_ok _ _ _ _ _ _ _ _ _ _ _ H4)|by eapply after_unmap_perms|].
  intros s5 l5 H5. apply wp_ret. by eapply HQ, released_both.
Qed.

(** C26: taking a process down. [proc_freeimage] returns on every orderly image:
    the slot is cleared, the pages of the table are free, and every other page
    loses one reference for each place the process held it: a mapping of its
    heap or of its mapped file, its code, its stack, its kernel stack. A page
    shared with another process survives with its contents; the pages that
    become free are exactly the tables and those that lost their last
    reference, and no other byte of memory changes. *)
Theorem proc_freeimage_frees s l :
  orderly rg s l T i →
  let refs := references (mem s) T i in
  ∃ s' l', proc_freeimage i s = Done (Image 0 0 0 0 HEAPBASE 0 (mmap_start i) (mmap_size i)) s' ∧
    kinv rg s' l' ∧ ready s' ∧
    (∀ p, p ∈ l' ↔ p ∈ l ∨ node T p ∨ p ∈ refs ∧ rc s p = occ p refs) ∧
    (∀ q, page_aligned q → ¬ node T q → rc s' q = rc s q - occ q refs) ∧
    (∀ x, (∀ p, node T p ∨ p ∈ refs ∧ rc s p = occ p refs → ¬ in_page p x) → ld8 (mem s') x = ld8 (mem s) x).
Proof.
  intros Ho refs.
  destruct (wp_run (proc_freeimage i) (λ r s', r = no_image ∧ ∃ l', released s l s' l') s) as (r & s' & Hrun & -> & l' & []).
  { eapply wp_proc_freeimage; eauto. }
  by exists s', l'.
Qed.
End free.

(** ** A kernel with one process, on any images *)

Section one_process.
Context {W I : Type} `{Images W I} (idle used : I) (w : W).

Definition slot_of (st : proc_state) (k : point) (im : I) : proc I :=
  Proc I st k 0 0 (replicate 8 0) true 1 None None 0 im.
Definition started : sys W I :=
  Sys W I (λ p, if (p =? 0)%nat then slot_of RUNNABLE Enter_user used else slot_of UNUSED Zeroed idle)
    (λ _, None) (λ _, Zeroed) 2 (Spin 0 (replicate NCPU (Cpu 0 false)) (replicate NCPU false) (LockWords 0 0 0 0))
    console_zero [] (λ _, None) (λ _, Top) w.

Lemma started_booted : booted started.
Proof.
  split.
  - done.
  - split; [done|]. split; [done|]. intros h c Hc. apply (list_elem_of_lookup_2 _ h) in Hc.
    by repeat (apply elem_of_cons in Hc as [->|Hc]; [done|]); apply elem_of_nil in Hc.
  - done.
  - intros [|p] Hp; (split; [done|]); [right|by left]. split; [done|]. set_solver.
  - intros [|p] [|q] Hp Hq Hs Hs' _ _; done.
Qed.

(** It runs and exits: hart 0 is back in the scheduler, with the lock. *)
Lemma exit_run :
  ∃ vs t, run [(0%nat, Go); (0%nat, Go); (0%nat, Go); (0%nat, Exit)] started = Done vs t ∧
    code t 0 = At None (InSched 0) ∧ con t = console_zero ∧ mem_world t = w ∧ state (procs t 0%nat) = ZOMBIE ∧
    ∀ q, state (procs t q) = ZOMBIE → Sched.image (procs t q) = used.
Proof.
  eexists _, _. split; [cbv; reflexivity|]. split_and!; [done..|]. intros [|q]; done.
Qed.
End one_process.

(** The image of a process that was just made is orderly. *)
Lemma fresh_orderly rg etext segs l l' k k' i :
  etext_ok etext → kinv rg k l → fresh_image rg etext segs l l' k k' i → ∃ T, orderly rg k' l' T i.
Proof.
  intros Het Hk [F1 F2 F3 (T & F4 & F5) F6 F7 F8 F9]. exists T. pose proof F1 as [Hk' Hr' _ _ _ _].
  assert (∀ p, p ∈ [ucode i; ustack i; kstack i] → live rg k' p ∧ ¬ node T p) as Hlive.
  { intros p Hp. destruct (F3 p Hp) as [Hl Hl']. split; [|by intros (_ & _ & ?)%F5].
    apply (kinv_free _ _ _ Hk) in Hl as [Hm _]. split; [done|]. pose proof (kinv_rc _ _ _ Hk' p).
    destruct (decide (rc k' p = 0)) as [E|]; [|lia]. destruct Hl'. by apply (kinv_free _ _ _ Hk'). }
  assert (own_pages i = [ucode i; ustack i; kstack i]) as Eown.
  { assert (∀ p, p ∈ [ucode i; ustack i; kstack i] → page_or_none p = [p]) as Hone.
    { intros p [[Hm _] _]%Hlive. apply managed_ram, ram_page_pos in Hm. unfold page_or_none. by rewrite (proj2 (Z.eqb_neq p 0)) by lia. }
    unfold own_pages. by rewrite !Hone by (rewrite !elem_of_cons; auto). }
  split.
  - by split.
  - intros va e Hva. rewrite F6 by done. unfold space_entry, kernel_entry.
    assert (∀ p, p ∈ [ucode i; ustack i; kstack i] → pte_page p) as Hpte.
    { intros p [[Hm _] _]%Hlive. by eapply ram_pte_page, managed_ram. }
    assert (pte_page (vpage va)) as Hpage.
    { unfold pte_page, page_aligned, vpage, vpn, PGSIZE. pose proof (Z.mod_pos_bound (va / 4096) (2 ^ 27)).
      split; [by rewrite Z.mod_mul|lia]. }
    assert (∀ p f, pte_page p → f ∈ [URX; URW; RW; RX] → Z.land (mk_pte p f) (Z.lor (Z.lor PTE_R PTE_W) PTE_X) ≠ 0) as Hf.
    { intros p f Hp Hin. rewrite !elem_of_cons, elem_of_nil in Hin. 
      destruct Hin as [->|[->|[->|[->|[]]]]]; rewrite land_mk_pte by (done || (unfold flag_word; vm_compute; split; [discriminate|reflexivity])); discriminate. }
    repeat case_decide; intros [= <-]; apply Hf; first [done|apply Hpte|idtac]; rewrite !elem_of_cons; auto.
  - rewrite F8. reflexivity.
  - by rewrite F9.
  - unfold references, heap_pages, mmap_pages. rewrite F8, F9, Eown. change (page_count HEAPBASE HEAPBASE) with 0%nat.
    cbn [mapped app Z.eqb]. intros q Hq. destruct (Hlive q Hq) as [[Hm Hpos] Hn]. split_and!; [done|done|].
    pose proof (occ_nodup q _ F2). lia.
Qed.

(** ** Witnesses: the first process of the kernel, on the kernel's own images *)

Definition demo_initcode : list Z := demo_elf 2 16 [1; 2].
Definition blank : image := Image 0 0 0 0 0 0 0 0.

Lemma demo_process : ∃ rg k l T i, orderly rg k l T i ∧ ucode i ≠ 0.
Proof.
  destruct (demo_pages 100 ltac:(lia)) as (k & l & Hk & Hr & Hl). set (rg := (PHYSTOP - PGSIZE * Z.of_nat 100, PHYSTOP)) in *.
  assert (etext_ok 0x80210000) as Het by (split; [reflexivity|unfold KERNBASE, PHYSTOP; lia]).
  destruct (wp_run _ _ _ (wp_make_user_image rg 0x80210000 _ _ _ blank l k Het demo_loadable Hk Hr ltac:(lia)))
    as (r & k' & _ & i & l' & _ & _ & Hi).
  destruct (fresh_orderly _ _ _ _ _ _ _ _ Het Hk Hi) as [T Ho]. exists rg, k', l', T, i. split; [done|].
  destruct (fi_in _ _ _ _ _ _ _ _ Hi (ucode i) ltac:(by left)) as [Hin _].
  destruct (free_page _ _ _ _ Hk Hin) as [Hram _]. pose proof (ram_page_pos _ Hram). lia.
Qed.

Lemma proc_freeimage_frees_witness :
  ∃ k i k', proc_freeimage i k = Done (Image 0 0 0 0 HEAPBASE 0 (mmap_start i) (mmap_size i)) k' ∧
    rc k (pagetable i) = 1 ∧ rc k' (pagetable i) = 0 ∧ rc k' (ucode i) < rc k (ucode i).
Proof.
  destruct demo_process as (rg & k & l & T & i & Ho & Hu).
  destruct (proc_freeimage_frees rg T i k l Ho) as (k' & l' & H1 & H2 & _ & H3 & H4 & _). exists k, i, k'.
  pose proof (od_vok _ _ _ _ _ Ho) as [_ _ [Hroot _ Hlive]].
  assert (node T (pagetable i)) as Hn by (exists []; exact Hroot). split; [exact H1|]. split; [apply Hlive, Hn|].
  split; [apply (kinv_free _ _ _ H2), H3; right; left; exact Hn|].
  assert (ucode i ∈ references (mem k) T i) as Hin.
  { unfold references, own_pages, page_or_none. rewrite (proj2 (Z.eqb_neq _ _) Hu). rewrite !elem_of_app. right. right. left. by left. }
  destruct (od_drop _ _ _ _ _ Ho _ Hin) as (Hm & Hnn & _). rewrite H4; [|eapply managed_aligned, Hm|exact Hnn].
  pose proof (occ_pos _ _ Hin). lia.
Defined.

(** The first process has exited; hart 0 is in the scheduler with the lock held.
    The memory of the process can be freed, so the lock is released. *)
Lemma lock_released_witness :
  ∃ (k : machine) (i : image) (s : sys machine image), state (procs s 0%nat) = ZOMBIE ∧ Sched.image (procs s 0%nat) = i ∧
    mem_world s = k ∧ pagetable i ≠ 0 ∧ ∃ n vs t, (n ≤ 161)%nat ∧
    @run machine image (machine_images 0x80210000 demo_initcode) (replicate n (0%nat, Go)) s = Done vs t ∧
    locked (code t 0%nat) = false ∧ lock_word t = 0.
Proof.
  destruct demo_process as (rg & k & l & T & i & Ho & Hu).
  destruct (@exit_run machine image (machine_images 0x80210000 demo_initcode) blank i k) as (vs & s & Hrun & Hc & Hcon & Hw & Hz & Hi).
  exists k, i, s. split; [exact Hz|]. split; [apply Hi, Hz|]. split; [exact Hw|]. split.
  { destruct (od_vok _ _ _ _ _ Ho) as [_ _ Has]. pose proof (ram_page_pos _ (node_ram _ _ _ _ _ _ Has (as_root _ _ _ _ Has))). lia. }
  apply (@lock_released machine image (machine_images 0x80210000 demo_initcode) (started blank i k) s 0%nat).
  - split; [apply started_booted|]. eapply run_steps; [|exact Hrun]. repeat constructor; unfold NCPU; simpl; lia.
  - intros q _ Ez. rewrite (Hi q Ez), Hw.
    destruct (wp_run (proc_freeimage i) (λ _ _, True) k) as (i' & k' & Hf & _); [|exists i', k'; exact Hf].
    eapply wp_proc_freeimage; [exact Ho|done].
  - unfold NCPU. lia.
  - rewrite Hc. reflexivity.
  - rewrite Hcon. apply console_zero_ok.
Defined.
