(* ===== verification/ProcSpec.v ===== *)
(** * Page faults of processes

    Demand paging of the heap, on the address spaces of PageTable.v. *)
From S2P Require Import Prelude Spinlock Uart Mem Kalloc Vm PageTable AddrSpace Uvm Disk Fs Elf Console Sched Proc.

(** ** Steps on an address space *)

Lemma ustep_said rg root s l T m :
  vok rg s l root T → ustep rg root (λ _, False) (λ _, 0) keep s l T (set_dev (said m (mdev s)) s) l T.
Proof. intros Hok. by apply (vstep_ustep _ _ (λ _, False)), vstep_said. Qed.

Lemma wp_uvm_map rg root a pa perm s l T (Q : Z → machine → Prop) :
  flag_word perm → vok rg s l root T → page_aligned a → 0 ≤ a → a + PGSIZE ≤ 2 ^ 38 → pte_page pa →
  (∀ s' l' T', ustep rg root (λ _, False) (λ _, 0) keep s l T s' l' T' → has (leaf (mem s) T a) PTE_V = true ∨ l' = [] → Q (-1) s') →
  (∀ s' l' T', ustep rg root (λ _, False) (λ _, 0) (upd a (mk_pte pa (perm_flags perm))) s l T s' l' T' → Q 0 s') →
  wp (uvm_map root a pa perm) Q s.
Proof.
  intros Hperm Hok Hal Ha Hb Hpa Hfail Hdone. unfold uvm_map. wp_steps. eapply wp_mappages_page; [done..| | |].
  - intros s' T' Hv. wp_steps. eapply Hfail; [by eapply vstep_ustep|by right].
  - intros s' l' T' HV Hv. wp_steps. eapply Hfail; [by eapply vstep_ustep|by left].
  - intros s' l' T' _ Hv. unfold sfence_vma. wp_steps. eapply Hdone.
    eapply ustep_weaken; [eapply ustep_trans; [by eapply vstep_ustep|apply ustep_fence; by destruct Hv]|by intros p [[]|[]]|done|done].
Qed.

Lemma wp_say_va rg root s l T m a (Q : unit → machine → Prop) :
  vok rg s l root T → 0 ≤ a →
  (∀ s', ustep rg root (λ _, False) (λ _, 0) keep s l T s' l T → mem s' = mem s → Q tt s') → wp (say_va m a) Q s.
Proof.
  intros Hok Ha HQ. pose proof (ready_dev _ (vok_ready _ _ _ _ _ Hok)) as Hr. unfold say_va. wp_steps.
  apply wp_str; [done|]. wp_steps. apply wp_hex; [done|by apply said_ready|]. wp_steps. apply wp_putc; [by repeat apply said_ready|].
  cbn [set_dev dev_of machine_has_dev mdev mem km kernel_pagetable satp fences]. rewrite !said_said by (destruct Hr; simpl; auto using passed_ok).
  apply HQ; [by apply ustep_said|done].
Qed.

(** The page [q] was free, is now zero and has one reference. *)
Record zero_page (rg : Z * Z) (s s' : machine) (q : Z) : Prop := {
  zp_fresh : managed rg q ∧ rc s q = 0;
  zp_bytes i : 0 ≤ i < PGSIZE → ld8 (mem s') (q + i) = 0;
}.

(** At most one page is free. *)
Definition out_of_pages (rg : Z * Z) (s : machine) : Prop :=
  ∃ q, ∀ p, managed rg p → rc s p = 0 → p = q.

Lemma no_pages rg s p : kinv rg s [] → managed rg p → rc s p = 0 → False.
Proof. intros Hk Hm Hz. apply (elem_of_nil p). by apply (kinv_free _ _ _ Hk). Qed.

Lemma wp_heap_fault rg root T s l a (Q : Z → machine → Prop) :
  vok rg s l root T → page_aligned a → 0 ≤ a → a + PGSIZE ≤ 2 ^ 38 → has (leaf (mem s) T a) PTE_V = false →
  (l = [] → Q 0 (touched s)) →
  (∀ s' l' T' q, ustep rg root (.= q) (λ _, 0) keep s l T s' l' T' → managed rg q → rc s q = 0 → out_of_pages rg s' → Q 0 s') →
  (∀ s' l' T' q, ustep rg root (.= q) (only q 1) (upd a (mk_pte q URW)) s l T s' l' T' → zero_page rg s s' q →
     ¬ node T' q → Q 1 s') →
  wp (heap_fault root a) Q s.
Proof.
  intros Hok Hal Ha Hb HV Hnone Hfail Hdone. pose proof Hok as [Hk Hr Has]. unfold heap_fault. wp_steps.
  eapply wp_kalloc; [done|done| |].
  { intros ->. wp_steps. by apply Hnone. }
  intros q l1 ->. destruct (fresh_managed _ _ _ _ Hk) as [Hm Hz].
  pose proof (managed_ram _ _ Hm) as Hram. pose proof (ram_page_pos _ Hram). destruct (Z.eqb_spec q 0); [lia|].
  assert (¬ node T q) as Hnq by (intros [_ ?]%(as_live _ _ _ _ Has); lia).
  pose proof (ustep_alloc rg s root T q l1 Hok) as S1. set (s1 := after_alloc q (ld64 (mem s) q) s) in *.
  pose proof (us_ok _ _ _ _ _ _ _ _ _ _ _ S1) as Hok1.
  unfold zero. wp_steps. apply wp_memset; [apply ram_page_in_ram; [done|unfold PGSIZE; lia]|].
  set (m2 := memset_loop _ _ _ _).
  assert (rc s1 q = 1) as Hrc1.
  { rewrite (us_rc _ _ _ _ _ _ _ _ _ _ _ S1) by (done || by eapply managed_aligned). unfold only. rewrite decide_True by done. lia. }
  assert (ustep rg root (.= q) (λ _, 0) keep s1 l1 T (with_mem m2 s1) l1 T) as S2.
  { apply ustep_write; [done|by split; [|lia]|done|]. intros x Hx. unfold m2. apply ld8_memset_ne. unfold in_page, PGSIZE in *. lia. }
  assert (∀ i, 0 ≤ i < PGSIZE → ld8 m2 (q + i) = 0) as Hzero.
  { intros i Hi. unfold m2. rewrite ld8_memset_in by (unfold PGSIZE in *; lia). done. }
  pose proof (ustep_trans _ _ _ _ _ _ _ _ _ _ _ _ _ _ _ _ _ S1 S2) as S12.
  set (s2 := with_mem m2 s1) in *. pose proof (us_ok _ _ _ _ _ _ _ _ _ _ _ S2) as Hok2.
  wp_steps. eapply (wp_uvm_map rg root a q); [done|exact Hok2|done|done|done|by apply ram_pte_page| |].
  - intros s3 l3 T3 S3 Hwhy. pose proof (us_ok _ _ _ _ _ _ _ _ _ _ _ S3) as Hok3.
    assert (l3 = []) as ->.
    { destruct Hwhy as [Hwhy|]; [|done]. rewrite (us_leaf _ _ _ _ _ _ _ _ _ _ _ S12) in Hwhy by done. unfold keep in Hwhy. congruence. }
    assert (¬ node T3 q) as Hn3.
    { intros [|[|[]]]%(us_fresh _ _ _ _ _ _ _ _ _ _ _ S3); [done|]. change (rc s2 q) with (rc s1 q) in *. lia. }
    assert (rc s3 q = 1) as Hrc3.
    { rewrite (us_rc _ _ _ _ _ _ _ _ _ _ _ S3) by (done || by eapply managed_aligned). change (rc s2 q) with (rc s1 q). lia. }
    cbn [negb]. change (negb (-1 =? 0)) with true. cbv iota. wp_steps.
    eapply (wp_kfree_user rg s3 [] root T3 q); [done|by split; [|lia]|done|]. intros s4 l4 S4. wp_steps.
    eapply (Hfail _ l4 T3 q); [|done|done|].
    2: { exists q. intros p Hp Hz4. destruct (us_ok _ _ _ _ _ _ _ _ _ _ _ S4) as [_ _ Has4].
      assert (¬ node T3 p) as Hn by (intros [_ ?]%(as_live _ _ _ _ Has4); lia).
      destruct (us_zero _ _ _ _ _ _ _ _ _ _ _ S4 p Hp Hn Hz4) as [Hz3|[? _]]; [|done].
      destruct Hok3 as [Hk3 _ _]. destruct (no_pages _ _ _ Hk3 Hp Hz3). }
    eapply ustep_weaken; [eapply ustep_trans; [eapply ustep_trans; [exact S12|exact S3]|exact S4]| | |done].
    { by intros p [[[[]|?]|[]]|[? _]]. }
    intros p. unfold only. destruct (decide _); lia.
  - intros s3 l3 T3 S3. pose proof (us_ok _ _ _ _ _ _ _ _ _ _ _ S3) as Hok3.
    assert (¬ node T3 q) as Hn3.
    { intros [|[|[]]]%(us_fresh _ _ _ _ _ _ _ _ _ _ _ S3); [done|]. change (rc s2 q) with (rc s1 q) in *. lia. }
    change (negb (0 =? 0)) with false. cbv iota. wp_steps. eapply wp_say_va; [exact Hok3|done|]. intros s4 S4 Em4. wp_steps.
    eapply (Hdone _ l3 T3 q); [|split; [done|]|done].
    + eapply ustep_weaken; [eapply ustep_trans; [eapply ustep_trans; [exact S12|exact S3]|exact S4]| | |done].
      { by intros p [[[[]|?]|[]]|[]]. }
      intros p. unfold only. destruct (decide _); lia.
    + intros i Hi. rewrite Em4, (us_frame _ _ _ _ _ _ _ _ _ _ _ S3); [by apply Hzero|].
      intros p [Hp|[]] Hin. assert (p ≠ q) as Hpq by (by intros ->).
      apply (in_page_ne p q (q + i)); [|by eapply managed_aligned|done|done|unfold in_page; lia].
      destruct Hok3 as [_ _ Has3]. eapply managed_aligned. by apply (as_live _ _ _ _ Has3).
Qed.

Lemma PGROUNDDOWN_vpn va : 0 ≤ va < 2 ^ 38 →
  page_aligned (PGROUNDDOWN va) ∧ 0 ≤ PGROUNDDOWN va ∧ PGROUNDDOWN va + PGSIZE ≤ 2 ^ 38 ∧ vpn (PGROUNDDOWN va) = vpn va.
Proof.
  intros Hva. rewrite PGROUNDDOWN_spec by lia. unfold page_aligned, vpn, PGSIZE.
  Z.to_euclidean_division_equations. lia.
Qed.

Section fault.
Context {D : Type} `{HasDev D, !BlockDev D, !HasMachine D, !HasMachineLaws D}.

Lemma mach_put k (s : fs D) : mach (put_mach k s) = k.
Proof. unfold mach, put_mach. cbn. apply mach_of_set. Qed.

Lemma put_put k k' (s : fs D) : put_mach k (put_mach k' s) = put_mach k s.
Proof. unfold put_mach. cbn. by rewrite set_mach_set. Qed.

Lemma put_mach_same (s : fs D) : put_mach (mach s) s = s.
Proof. unfold mach, put_mach. rewrite set_mach_of. by destruct s. Qed.

Lemma wp_on_mach {A} (m : M machine A) Q (s : fs D) :
  wp m (λ a k, Q a (put_mach k s)) (mach s) → wp (on_mach m) Q s.
Proof. apply wp_zoom. Qed.

(** A page that is not mapped is not a copy-on-write page. *)
Lemma wp_no_cow rg T l pt va (store : bool) (s : fs D) (Q : Z → fs D → Prop) :
  vok rg (mach s) l pt T → 0 ≤ va < 2 ^ 38 → has (leaf (mem (mach s)) T va) PTE_V = false →
  Q 0 s → wp (if store then on_mach (uvm_cow_fault pt va) else mret 0) Q s.
Proof.
  intros Hok Hva HV HQ. destruct store; [|by wp_steps]. apply wp_on_mach.
  eapply wp_uvm_cow_fault; [done|done| |rewrite HV; done]. intros _. by rewrite put_mach_same.
Qed.

(** C18: demand paging of the heap. A process that touches a page below its break
    that is not mapped, reading or writing, gets a page that was free, filled
    with zeros, readable and writable for it, and the access is to be repeated
    (1); no other address translates differently. If the pages run out the
    handler returns 0 (trap.c then reports the exception and stops) and all
    translations are as before. In both cases the pages in use outside this page
    table keep their bytes and counts, and the new tables come from free pages. *)
Theorem heap_fault_maps rg T l i va store (s : fs D) :
  vok rg (mach s) l (pagetable i) T → 0 ≤ va < 2 ^ 38 → HEAPBASE ≤ PGROUNDDOWN va < heap_top i →
  sv39 (mem (mach s)) (pagetable i) va = None →
  ∃ r s' l' T', proc_pagefault (Some (true, i)) va store s = Done r (put_mach s' s) ∧
    vok rg s' l' (pagetable i) T' ∧ T ⊆ T' ∧
    (r = 1 ∧ (∃ q, zero_page rg (mach s) s' q ∧ rc s' q = 1 ∧ ¬ node T' q ∧
       ∀ va', 0 ≤ va' → sv39 (mem s') (pagetable i) va' =
         if decide (vpn va' = vpn va) then Some (mk_pte q URW) else sv39 (mem (mach s)) (pagetable i) va') ∨
     r = 0 ∧ out_of_pages rg s' ∧
       ∀ va', 0 ≤ va' → sv39 (mem s') (pagetable i) va' = sv39 (mem (mach s)) (pagetable i) va') ∧
    (∀ p, node T' p → node T p ∨ rc (mach s) p = 0) ∧
    (∀ p, live rg (mach s) p → ¬ node T' p → rc s' p = rc (mach s) p ∧
       ∀ x, in_page p x → ld8 (mem s') x = ld8 (mem (mach s)) x).
Proof.
  intros Hok Hva Hheap Hview. destruct (PGROUNDDOWN_vpn va Hva) as (Hal & Ha & Hb & Hvpn).
  set (a := PGROUNDDOWN va) in *. set (pt := pagetable i) in *. pose proof Hok as [Hk Hr [R1 R2 _]].
  assert (has (leaf (mem (mach s)) T a) PTE_V = false) as HV.
  { rewrite (leaf_vpn _ _ a va) by (done || lia). rewrite (sv39_leaf _ _ _ _ R2 R1) in Hview. by destruct (has _ PTE_V). }
  cut (wp (proc_pagefault (Some (true, i)) va store) (λ r s2, ∃ s' l' T' q, s2 = put_mach s' s ∧
    (l' = l ∧ T' = T ∧ r = 0 ∧ l = [] ∧ s' = touched (mach s) ∨
     managed rg q ∧ rc (mach s) q = 0 ∧
     (r = 0 ∧ ustep rg pt (.= q) (λ _, 0) keep (mach s) l T s' l' T' ∧ out_of_pages rg s' ∨
      r = 1 ∧ ustep rg pt (.= q) (only q 1) (upd a (mk_pte q URW)) (mach s) l T s' l' T' ∧
        zero_page rg (mach s) s' q ∧ ¬ node T' q))) s).
  { intros (r & s2 & Hrun & s' & l' & T' & q & -> & H1)%wp_run. exists r, s', l', T'. split; [done|].
    destruct H1 as [(-> & -> & -> & -> & ->)|(Hm & Hz & H1)].
    - split_and!; [by apply vok_touched|done| |by left|done]. right. split_and!; [done| |done].
      exists 0. intros p H1 H2. destruct (no_pages _ _ _ Hk H1 H2).
    - assert (∃ d f, ustep rg pt (.= q) (only q d) f (mach s) l T s' l' T') as (d & f & S).
      { destruct H1 as [(_ & S & _)|(_ & S & _)]; [exists 0, keep|by eexists _, _].
        eapply ustep_weaken; [exact S|done| |done]. intros p. unfold only. by destruct (decide _). }
      pose proof (us_fresh _ _ _ _ _ _ _ _ _ _ _ S) as Hfresh.
      split_and!; [apply (us_ok _ _ _ _ _ _ _ _ _ _ _ S)|apply (us_sub _ _ _ _ _ _ _ _ _ _ _ S)| |by intros p [|[| ->]]%Hfresh; auto|].
      + destruct H1 as [(-> & S1 & Hout)|(-> & S1 & Hzp & Hn)]; [right|left]; (split; [done|]).
        * split; [done|]. intros va' Hva'. by destruct (ustep_sv39 _ _ _ _ _ _ _ _ _ _ _ va' Hok S1 Hva') as [-> ->].
        * exists q. split_and!; [done| |done|].
          { rewrite (us_rc _ _ _ _ _ _ _ _ _ _ _ S1) by (done || by eapply managed_aligned). unfold only. rewrite decide_True; lia. }
          intros va' Hva'. destruct (ustep_sv39 _ _ _ _ _ _ _ _ _ _ _ va' Hok S1 Hva') as [-> ->].
          unfold upd. rewrite Hvpn. destruct (decide _); [|done]. by apply valid_mk_pte.
      + intros p [Hmp Hp] Hnp. pose proof (managed_aligned _ _ Hmp) as Halp. split.
        * rewrite (us_rc _ _ _ _ _ _ _ _ _ _ _ S) by done. unfold only. rewrite decide_False by (intros ->; lia). lia.
        * intros x Hx. apply (us_frame _ _ _ _ _ _ _ _ _ _ _ S). intros p' Hp' Hx'. revert Hx'.
          destruct (us_ok _ _ _ _ _ _ _ _ _ _ _ S) as [_ _ Has'].
          apply (in_page_ne p p'); [done| |intros <-; destruct Hp' as [Hp'| ->]; [done|lia]|done].
          destruct Hp' as [[Hp' _]%(as_live _ _ _ _ Has')| ->]; by eapply managed_aligned. }
  assert (0 ≤ a < 2 ^ 38) by (change PGSIZE with 4096 in Hb; lia).
  unfold proc_pagefault. fold a. wp_steps. eapply wp_no_cow; [done|done|done|].
  wp_steps. rewrite (proj2 (andb_true_iff _ _)) by (split; bsimp; lia). change (negb (0 =? 0)) with false. cbv iota.
  apply wp_on_mach. fold pt. eapply wp_heap_fault; [done..| | |].
  - intros ->. exists (touched (mach s)), [], T, 0. split; [done|]. by left.
  - intros s' l' T' q S Hm Hz Hout. exists s', l', T', q. split; [done|]. right. split_and!; [done..|]. by left.
  - intros s' l' T' q S Hzp Hn. exists s', l', T', q. split; [done|]. right. destruct (zp_fresh _ _ _ _ Hzp). split_and!; [done..|]. by right.
Qed.
End fault.

(** ** The machine with a disk held in memory *)

(** No file system mounted. *)
Definition unmounted : fsmem := FsMem [] 0 false 0 0 [] ∅ [] 0 false.

(** What a buffer is for the device: 512 bytes. *)
Definition as_sector (l : list Z) : list Z := u8 <$> take (Z.to_nat BSIZE) (l ++ replicate (Z.to_nat BSIZE) 0).

Lemma as_sector_ok l : is_sector (as_sector l).
Proof.
  split.
  - unfold as_sector. rewrite length_fmap, length_take, length_app, length_replicate. lia.
  - apply Forall_fmap, Forall_forall. intros x _. apply u8_byte.
Qed.

Lemma as_sector_id l : is_sector l → as_sector l = l.
Proof.
  intros [Hl Hb]. unfold as_sector. rewrite take_app_le, take_ge by lia.
  rewrite <- (list_fmap_id l) at 2. apply list_fmap_ext. intros i x Hx. by apply u8_small, (Forall_lookup_1 _ _ _ _ Hb Hx).
Qed.

Record hw := Hw { hw_mach : machine; hw_disk : ramdisk }.

#[export] Instance hw_has_dev : HasDev hw := {| dev_of d := mdev (hw_mach d); set_dev x d := Hw (set_dev x (hw_mach d)) (hw_disk d) |}.
#[export] Instance hw_rw : BlockDev hw := {| virtio_disk_rw b buf w := zoom hw_disk (λ k d, Hw (hw_mach d) k) (virtio_disk_rw b (as_sector buf) w) |}.
#[export] Instance hw_machine : HasMachine hw := {| mach_of := hw_mach; set_mach k d := Hw k (hw_disk d) |}.
#[export] Instance hw_machine_laws : HasMachineLaws hw.
Proof. by split; intros; try destruct d. Qed.

(** A process with one heap page and a break two pages behind HEAPBASE touches
    the second page: it is mapped, or the pages ran out. *)
Lemma heap_fault_maps_witness :
  ∃ (s : fs hw) i r s', proc_pagefault (Some (true, i)) (HEAPBASE + 5000) true s = Done r s' ∧
    (r = 1 → is_Some (sv39 (mem (mach s')) (pagetable i) (HEAPBASE + 5000)) ∧
             sv39 (mem (mach s')) (pagetable i) HEAPBASE = sv39 (mem (mach s)) (pagetable i) HEAPBASE).
Proof.
  destruct demo_space as (rg & k & l & root & T & q & Hok & _ & _ & _ & Hleaf & _).
  set (i := Image 0 root 0 0 (HEAPBASE + 8192) 0 0 0).
  set (s := FsOn unmounted (Hw k (RamDisk (mdev k) 0 (λ _, []) [])) : fs hw).
  destruct (heap_fault_maps rg T l i (HEAPBASE + 5000) true s) as (r & s' & l' & T' & H1 & _ & _ & H2 & _).
  - exact Hok.
  - unfold HEAPBASE. lia.
  - change (PGROUNDDOWN (HEAPBASE + 5000)) with (HEAPBASE + 4096). unfold i. simpl. lia.
  - destruct Hok as [_ _ [R1 R2 _]]. unfold s, i. cbn. rewrite (sv39_leaf _ _ _ _ R2 R1), Hleaf by (unfold HEAPBASE; lia).
    unfold upd. by rewrite decide_False.
  - exists s, i, r, (put_mach s' s). split; [exact H1|]. intros ->. destruct H2 as [(_ & x & _ & _ & _ & H2)|(H2 & _)]; [|discriminate H2].
    rewrite mach_put, !H2 by (unfold HEAPBASE; lia). split; [by eexists|]. by rewrite decide_False.
Defined.
