(* ===== verification/Virtio.v ===== *)
(** * The block device driver (src/virtio.c)

    The driver works on memory shared with a device. The device is an
    interface, [VirtioDev]: registers that are read and written, and [dma], what
    the device does to memory when it gets to act (NetDriver.v uses it too). The driver polls, so it is
    enough that the device acts between two looks at the used ring. The
    addresses of the statics [breq] and [bstatus] are symbols. *)
From S2P Require Import Prelude Spinlock Uart Mem Kalloc Disk.

(** ** Loads and stores of [n] bytes *)

Definition ldn (n : nat) (m : gmap Z Z) (a : Z) : Z := le_val (read_bytes n m a).
Definition stn (n : nat) (m : gmap Z Z) (a v : Z) : gmap Z Z := write_bytes m a (le_bytes n v).

Definition load_n (n : nat) (a : Z) : M machine Z :=
  assertb (in_ram a (Z.of_nat n));; gets (λ s, ldn n (mem s) a).
Definition store_n (n : nat) (a v : Z) : M machine unit :=
  assertb (in_ram a (Z.of_nat n));; modify (λ s, with_mem (stn n (mem s) a (v mod 256 ^ Z.of_nat n)) s).

(** ** Constants of virtio.c *)

Definition MMIO_MAGIC : Z := 0x000.
Definition MMIO_VERSION : Z := 0x004.
Definition MMIO_DEVICE_ID : Z := 0x008.
Definition MMIO_VENDOR_ID : Z := 0x00c.
Definition MMIO_DEVICE_FEAT : Z := 0x010.
Definition MMIO_DEVICE_FEAT_SEL : Z := 0x014.
Definition MMIO_DRIVER_FEAT : Z := 0x020.
Definition MMIO_DRIVER_FEAT_SEL : Z := 0x024.
Definition MMIO_QUEUE_SEL : Z := 0x030.
Definition MMIO_QUEUE_NUM_MAX : Z := 0x034.
Definition MMIO_QUEUE_NUM : Z := 0x038.
Definition MMIO_QUEUE_READY : Z := 0x044.
Definition MMIO_QUEUE_NOTIFY : Z := 0x050.
Definition MMIO_STATUS : Z := 0x070.
Definition MMIO_QUEUE_DESC_LO : Z := 0x080.
Definition MMIO_QUEUE_DESC_HI : Z := 0x084.
Definition MMIO_DRIVER_DESC_LO : Z := 0x090.
Definition MMIO_DRIVER_DESC_HI : Z := 0x094.
Definition MMIO_DEVICE_DESC_LO : Z := 0x0a0.
Definition MMIO_DEVICE_DESC_HI : Z := 0x0a4.

Definition S_ACKNOWLEDGE : Z := 1.
Definition S_DRIVER : Z := 2.
Definition S_DRIVER_OK : Z := 4.
Definition S_FEATURES_OK : Z := 8.

Definition VIRTIO_BLK_F_RO : Z := 5.
Definition VIRTIO_BLK_F_SCSI : Z := 7.
Definition VIRTIO_BLK_F_CONFIG_WCE : Z := 11.
Definition VIRTIO_BLK_F_MQ : Z := 12.
Definition VIRTIO_F_ANY_LAYOUT : Z := 27.
Definition VIRTIO_RING_F_INDIRECT : Z := 28.
Definition VIRTIO_RING_F_EVENT_IDX : Z := 29.

Definition NUM : Z := 8.
Definition VRING_DESC_F_NEXT : Z := 1.
Definition VRING_DESC_F_WRITE : Z := 2.
Definition VIRTIO_BLK_T_IN : Z := 0.
Definition VIRTIO_BLK_T_OUT : Z := 1.

(** ** The device *)

Class VirtioDev (V : Type) := {
  reg_read : Z → V → Z;
  reg_write : Z → Z → V → V;
  dma : V → gmap Z Z → V * gmap Z Z;
}.

(** The addresses of [breq], [bstatus] and of the caller's buffer. *)
Class Statics := { breq : Z; bstatus : Z; bufaddr : Z }.

(** The statics of virtio.c that only the driver uses. *)
Record vstat := VStat { desc : Z; avail : Z; used : Z; used_seen : Z; disk_ok : Z }.

Record virt (V : Type) := Virt { vmach : machine; device : V; vst : vstat }.
Arguments Virt {V}.
Arguments vmach {V}.
Arguments device {V}.
Arguments vst {V}.

Section driver.
Context {V : Type} `{!VirtioDev V, !Statics}.

Definition vm {A} (m : M machine A) : M (virt V) A := zoom vmach (λ k s, Virt k (device s) (vst s)) m.
Definition vget (f : vstat → Z) : M (virt V) Z := gets (λ s, f (vst s)).
Definition vset (f : vstat → vstat) : M (virt V) unit := modify (λ s, Virt (vmach s) (device s) (f (vst s))).

(** [R32(off)] as a value, and as the target of an assignment. *)
Definition R32 (off : Z) : M (virt V) Z := gets (λ s, u32 (reg_read off (device s))).
Definition W32 (off v : Z) : M (virt V) unit := modify (λ s, Virt (vmach s) (reg_write off (u32 v) (device s)) (vst s)).
(** The device gets to act. *)
Definition device_acts : M (virt V) unit := modify (λ s,
  let r := dma (device s) (mem (vmach s)) in Virt (with_mem r.2 (vmach s)) r.1 (vst s)).

(** [feat &= ~(1u << b)] *)
Definition without (b feat : Z) : Z := Z.land feat (u32 (Z.lnot (Z.shiftl 1 b))).

(** Reset, acknowledge, negotiate the features; the status written, and whether
    the device accepted. *)
Definition negotiate : M (virt V) (Z * bool) :=
  W32 MMIO_STATUS 0;;
  let status := S_ACKNOWLEDGE in W32 MMIO_STATUS status;;
  let status := Z.lor status S_DRIVER in W32 MMIO_STATUS status;;
  W32 MMIO_DEVICE_FEAT_SEL 0;;
  feat_lo ← R32 MMIO_DEVICE_FEAT;
  let feat_lo := without VIRTIO_BLK_F_RO feat_lo in
  let feat_lo := without VIRTIO_BLK_F_SCSI feat_lo in
  let feat_lo := without VIRTIO_BLK_F_CONFIG_WCE feat_lo in
  let feat_lo := without VIRTIO_BLK_F_MQ feat_lo in
  let feat_lo := without VIRTIO_F_ANY_LAYOUT feat_lo in
  let feat_lo := without VIRTIO_RING_F_EVENT_IDX feat_lo in
  let feat_lo := without VIRTIO_RING_F_INDIRECT feat_lo in
  W32 MMIO_DRIVER_FEAT_SEL 0;;
  W32 MMIO_DRIVER_FEAT feat_lo;;
  W32 MMIO_DEVICE_FEAT_SEL 1;;
  feat_hi ← R32 MMIO_DEVICE_FEAT;
  W32 MMIO_DRIVER_FEAT_SEL 1;;
  W32 MMIO_DRIVER_FEAT feat_hi;;
  let status := Z.lor status S_FEATURES_OK in W32 MMIO_STATUS status;;
  accepted ← R32 MMIO_STATUS;
  mret (status, negb (Z.land accepted S_FEATURES_OK =? 0)).

(** Three pages for the rings, and their addresses to the device. *)
Definition setup_queue (status : Z) : M (virt V) unit :=
  W32 MMIO_QUEUE_NUM NUM;;
  d ← vm kalloc; vset (λ t, VStat d (avail t) (used t) (used_seen t) (disk_ok t));;
  a ← vm kalloc; vset (λ t, VStat (desc t) a (used t) (used_seen t) (disk_ok t));;
  u ← vm kalloc; vset (λ t, VStat (desc t) (avail t) u (used_seen t) (disk_ok t));;
  vm (zero d 4096);; vm (zero a 4096);; vm (zero u 4096);;
  W32 MMIO_QUEUE_DESC_LO d;; W32 MMIO_QUEUE_DESC_HI (Z.shiftr d 32);;
  W32 MMIO_DRIVER_DESC_LO a;; W32 MMIO_DRIVER_DESC_HI (Z.shiftr a 32);;
  W32 MMIO_DEVICE_DESC_LO u;; W32 MMIO_DEVICE_DESC_HI (Z.shiftr u 32);;
  W32 MMIO_QUEUE_READY 1;;
  W32 MMIO_STATUS (Z.lor status S_DRIVER_OK);;
  vset (λ t, VStat (desc t) (avail t) (used t) 0 1).

Definition virtio_disk_init : M (virt V) unit :=
  magic ← R32 MMIO_MAGIC; version ← R32 MMIO_VERSION; id ← R32 MMIO_DEVICE_ID; vendor ← R32 MMIO_VENDOR_ID;
  if negb (magic =? 0x74726976) || negb (version =? 2) || negb (id =? 2) || negb (vendor =? 0x554d4551) then
    vm (uart_line "[virtio] no disk at 0x10001000")
  else
    r ← negotiate;
    if negb r.2 then vm (uart_line "[virtio] FEATURES_OK rejected")
    else
      W32 MMIO_QUEUE_SEL 0;;
      max ← R32 MMIO_QUEUE_NUM_MAX;
      if (max =? 0) || (max <? NUM) then vm (uart_line "[virtio] bad queue size")
      else
        setup_queue r.1;;
        vm (uart_line "[ok] virtio-blk disk ready").

(** [desc[i] = { addr, len, flags, next }] *)
Definition put_desc (d i addr len flags next : Z) : M machine unit :=
  store_n 8 (d + 16 * i) addr;; store_n 4 (d + 16 * i + 8) len;;
  store_n 2 (d + 16 * i + 12) flags;; store_n 2 (d + 16 * i + 14) next.

(** [breq = { type, 0, sector }] *)
Definition put_header (block : Z) (write : bool) : M machine unit :=
  store_n 4 breq (if write then VIRTIO_BLK_T_OUT else VIRTIO_BLK_T_IN);;
  store_n 4 (breq + 4) 0;;
  store_n 8 (breq + 8) block.

(** The chain: request header, data buffer, status byte; its head goes into the
    available ring. *)
Definition post_request (t : vstat) (block buf : Z) (write : bool) : M machine unit :=
  put_header block write;;
  put_desc (desc t) 0 breq 16 VRING_DESC_F_NEXT 1;;
  put_desc (desc t) 1 buf BSIZE (Z.lor (if write then 0 else VRING_DESC_F_WRITE) VRING_DESC_F_NEXT) 2;;
  store_n 1 bstatus 0xff;;
  put_desc (desc t) 2 bstatus 1 VRING_DESC_F_WRITE 0;;
  idx ← load_n 2 (avail t + 2);
  store_n 2 (avail t + 4 + 2 * (idx mod NUM)) 0;;
  idx ← load_n 2 (avail t + 2);
  store_n 2 (avail t + 2) (idx + 1).

(** [while (used->idx == used_seen)], at most [patience] times. *)
Definition poll_used (patience : nat) : M (virt V) unit :=
  loop patience (λ _ : unit,
    device_acts;;
    t ← gets vst;
    idx ← vm (load_n 2 (used t + 2));
    mret (if idx =? used_seen t then inl tt else inr tt)) tt.

Definition virtio_disk_rw (patience : nat) (block buf : Z) (write : bool) : M (virt V) Z :=
  t ← gets vst;
  if disk_ok t =? 0 then mret (-1)
  else
    vm (post_request t block buf write);;
    W32 MMIO_QUEUE_NOTIFY 0;;
    poll_used patience;;
    idx ← vm (load_n 2 (used t + 2));
    vset (λ t, VStat (desc t) (avail t) (used t) idx (disk_ok t));;
    st ← vm (load_n 1 bstatus);
    mret (if st =? 0 then 0 else -1).
End driver.
