(* ===== verification/VirtioSpec.v ===== *)
(** * The block device driver implements the block device interface

    [VirtioBlkLaws] states what the virtio specification promises of the device:
    after the notification it serves the request at the head of the available
    ring, in some finite number of its steps, and then advances the used ring.
    From that, [virtio_disk_rw] returns, transfers one sector, and touches
    nothing but its rings, its request and the buffer; so it satisfies
    [BlockDevLaws], and the theorems on the file system hold on top of it. *)
From S2P Require Import Prelude Spinlock Uart Mem Kalloc PageTable AddrSpace Disk Virtio.

(** ** Loads after stores *)

Lemma ldn_stn_eq n m a v : 0 ≤ v < 256 ^ Z.of_nat n → ldn n (stn n m a v) a = v.
Proof.
  intros Hv. unfold ldn, stn. pose proof (read_write_eq m a _ (le_bytes_byte n v)) as H.
  rewrite length_le_bytes in H. rewrite H. by apply le_val_bytes.
Qed.

Lemma ldn_stn_ne n k m a v x : x + Z.of_nat n ≤ a ∨ a + Z.of_nat k ≤ x → ldn n (stn k m a v) x = ldn n m x.
Proof. intros. unfold ldn, stn. rewrite read_write_ne; [done|]. by rewrite length_le_bytes. Qed.

Lemma ld8_stn_ne n m a v x : x < a ∨ a + Z.of_nat n ≤ x → ld8 (stn n m a v) x = ld8 m x.
Proof. intros. unfold stn. rewrite ld8_write_ne; [done|]. by rewrite length_le_bytes. Qed.

Lemma ldn_ext n m m' a : (∀ x, a ≤ x < a + Z.of_nat n → ld8 m x = ld8 m' x) → ldn n m a = ldn n m' a.
Proof. intros. unfold ldn. f_equal. by apply read_bytes_ext. Qed.

Lemma ldn_bound n m a : 0 ≤ ldn n m a < 256 ^ Z.of_nat n.
Proof. pose proof (le_val_bound _ (read_bytes_byte n m a)) as H. by rewrite length_read_bytes in H. Qed.

Lemma ldn_1 m a : ldn 1 m a = ld8 m a.
Proof. unfold ldn. simpl. lia. Qed.

Lemma wp_load_n n a Q s : in_ram a (Z.of_nat n) = true → Q (ldn n (mem s) a) s → wp (load_n n a) Q s.
Proof. intros. unfold load_n. by wp_steps. Qed.

Lemma wp_store_n n a v Q s :
  in_ram a (Z.of_nat n) = true → Q tt (with_mem (stn n (mem s) a (v mod 256 ^ Z.of_nat n)) s) → wp (store_n n a v) Q s.
Proof. intros. unfold store_n. by wp_steps. Qed.

(** The byte ranges do not overlap. *)
Definition sep (a n b k : Z) : Prop := a + n ≤ b ∨ b + k ≤ a.

(** Solves [sep] from one hypothesis of that form. *)
Ltac sep_lia := unfold sep; match goal with
  | _ => lia
  | H : sep _ _ _ _ |- _ => unfold sep in H; lia
  end.

(** From [m] to [m'] only bytes of the range changed. *)
Definition wrote (a n : Z) (m m' : gmap Z Z) : Prop := ∀ x, x < a ∨ a + n ≤ x → ld8 m' x = ld8 m x.

Lemma wrote_stn n m a v : wrote a (Z.of_nat n) m (stn n m a v).
Proof. intros x Hx. by apply ld8_stn_ne. Qed.

Lemma wrote_within a n b k m m' : wrote a n m m' → b ≤ a → a + n ≤ b + k → wrote b k m m'.
Proof. intros Hw H1 H2 x Hx. apply Hw. lia. Qed.

Lemma wrote_trans a n m m' m'' : wrote a n m m' → wrote a n m' m'' → wrote a n m m''.
Proof. intros H1 H2 x Hx. by rewrite H2, H1. Qed.

Lemma ldn_wrote n a k m m' x : wrote a k m m' → sep x (Z.of_nat n) a k → ldn n m' x = ldn n m x.
Proof. intros Hw Hs. apply ldn_ext. intros y Hy. apply Hw. unfold sep in Hs. lia. Qed.

(** Descriptor [i] of the table at [d]: address, length, flags, next. *)
Definition desc_at (m : gmap Z Z) (d i : Z) : Z * Z * Z * Z :=
  (ldn 8 m (d + 16 * i), ldn 4 m (d + 16 * i + 8), ldn 2 m (d + 16 * i + 12), ldn 2 m (d + 16 * i + 14)).

Lemma desc_wrote a k m m' d i : wrote a k m m' → sep (d + 16 * i) 16 a k → desc_at m' d i = desc_at m d i.
Proof. intros Hw Hs. unfold desc_at. rewrite !(ldn_wrote _ _ _ _ _ _ Hw); [done|unfold sep in *; lia..]. Qed.

(** Takes a load back to before the stores elsewhere. *)
Ltac unwrite := repeat first [erewrite ldn_wrote; [|eassumption|sep_lia] | erewrite desc_wrote; [|eassumption|sep_lia]].

Lemma wp_put_desc d i addr len flags next (Q : unit → machine → Prop) s :
  in_ram (d + 16 * i) 16 = true → 0 ≤ addr < 2 ^ 64 → 0 ≤ len < 2 ^ 32 → 0 ≤ flags < 2 ^ 16 → 0 ≤ next < 2 ^ 16 →
  (∀ m', wrote (d + 16 * i) 16 (mem s) m' → desc_at m' d i = (addr, len, flags, next) → Q tt (with_mem m' s)) →
  wp (put_desc d i addr len flags next) Q s.
Proof.
  intros Hram Ha Hl Hf Hn HQ. unfold in_ram in Hram. bsimp. unfold put_desc.
  set (b := d + 16 * i) in *.
  assert (∀ j n, 0 ≤ j → j + Z.of_nat n ≤ 16 → in_ram (b + j) (Z.of_nat n) = true) as Hin.
  { intros j n Hj Hjn. apply in_ram_iff. lia. }
  rewrite <- (Z.add_0_r b) at 1. wp_steps.
  do 4 (apply wp_store_n; [apply Hin; lia|]; rewrite Z.mod_small by lia; wp_steps).
  cbn [with_mem mem mdev km kernel_pagetable satp fences]. rewrite Z.add_0_r. apply HQ.
  - repeat (eapply wrote_trans; [|eapply wrote_within; [apply wrote_stn|lia..]]). by intros x.
  - unfold desc_at. fold b. repeat f_equal; repeat (rewrite ldn_stn_ne by lia); apply ldn_stn_eq; lia.
Qed.

(** ** What the device promises *)

(** Request number [k] is in the available ring: the chain of descriptors 0, 1
    and 2 for the header at [hdr], the buffer at [buf], the status byte at [st]. *)
Record posted (m : gmap Z Z) (d a k hdr st sec buf : Z) (w : bool) : Prop := {
  po_idx : ldn 2 m (a + 2) = u16 (k + 1);
  po_ring : ldn 2 m (a + 4 + 2 * (k mod NUM)) = 0;
  po_hdr : desc_at m d 0 = (hdr, 16, VRING_DESC_F_NEXT, 1);
  po_buf : desc_at m d 1 = (buf, BSIZE, if w then VRING_DESC_F_NEXT else 3, 2);
  po_st : desc_at m d 2 = (st, 1, VRING_DESC_F_WRITE, 0);
  po_type : ldn 4 m hdr = if w then VIRTIO_BLK_T_OUT else VIRTIO_BLK_T_IN;
  po_sector : ldn 8 m (hdr + 8) = sec;
}.

(** The device acts [n] times. *)
Fixpoint acts `{VirtioDev V} (n : nat) (v : V) (m : gmap Z Z) : V * gmap Z Z :=
  match n with O => (v, m) | S n => let r := dma v m in acts n r.1 r.2 end.

(** A sequence of register writes. *)
Fixpoint reg_writes `{VirtioDev V} (l : list (Z * Z)) (v : V) : V :=
  match l with [] => v | (off, x) :: l => reg_writes l (reg_write off x v) end.

(** The used ring of the queue: flags, index, eight elements of eight bytes. *)
Definition USEDSIZE : Z := 68.

(** The registers that identify a block device of the modern interface. *)
Definition present `{VirtioDev V} (v : V) : Prop :=
  u32 (reg_read MMIO_MAGIC v) = 0x74726976 ∧ u32 (reg_read MMIO_VERSION v) = 2 ∧
  u32 (reg_read MMIO_DEVICE_ID v) = 2 ∧ u32 (reg_read MMIO_VENDOR_ID v) = 0x554d4551.

Class BlkContents (V : Type) := {
  blk_good : V → Prop;
  blk_capacity : V → Z;
  blk_origin : V → sectors;
  blk_history : V → list (Z * list Z);
}.

(** The content is untouched. *)
Definition blk_same `{BlkContents V} (v v' : V) : Prop :=
  blk_good v' ∧ blk_capacity v' = blk_capacity v ∧ blk_origin v' = blk_origin v ∧ blk_history v' = blk_history v.

Class VirtioBlkLaws (V : Type) `{VirtioDev V, BlkContents V} := {
  (** The rings of the queue in use, and how many requests it has served. *)
  live : V → option (Z * Z * Z * Z);
  latency : nat;
  (** The size of queue 0 the device allows. *)
  queue_max : V → Z;
  (** Initialisation, as the specification lays it down: reset, acknowledge, a
      subset of the features offered, then the queue. *)
  blk_init v lo : blk_good v → present v →
    let v1 := reg_writes [(MMIO_STATUS, 0); (MMIO_STATUS, 1); (MMIO_STATUS, 3); (MMIO_DEVICE_FEAT_SEL, 0)] v in
    Z.land lo (u32 (reg_read MMIO_DEVICE_FEAT v1)) = lo →
    let v2 := reg_writes [(MMIO_DRIVER_FEAT_SEL, 0); (MMIO_DRIVER_FEAT, lo); (MMIO_DEVICE_FEAT_SEL, 1)] v1 in
    let hi := u32 (reg_read MMIO_DEVICE_FEAT v2) in
    let v3 := reg_writes [(MMIO_DRIVER_FEAT_SEL, 1); (MMIO_DRIVER_FEAT, hi); (MMIO_STATUS, 11)] v2 in
    let v4 := reg_writes [(MMIO_QUEUE_SEL, 0)] v3 in
    blk_same v v3 ∧ blk_same v v4 ∧ Z.land (u32 (reg_read MMIO_STATUS v3)) S_FEATURES_OK ≠ 0 ∧
    u32 (reg_read MMIO_QUEUE_NUM_MAX v4) = queue_max v ∧
    ∀ d a u, 0 ≤ d < 2 ^ 64 → 0 ≤ a < 2 ^ 64 → 0 ≤ u < 2 ^ 64 → NUM ≤ queue_max v →
      let v5 := reg_writes [(MMIO_QUEUE_NUM, NUM);
        (MMIO_QUEUE_DESC_LO, u32 d); (MMIO_QUEUE_DESC_HI, u32 (Z.shiftr d 32));
        (MMIO_DRIVER_DESC_LO, u32 a); (MMIO_DRIVER_DESC_HI, u32 (Z.shiftr a 32));
        (MMIO_DEVICE_DESC_LO, u32 u); (MMIO_DEVICE_DESC_HI, u32 (Z.shiftr u 32));
        (MMIO_QUEUE_READY, 1); (MMIO_STATUS, 15)] v4 in
      blk_same v v5 ∧ live v5 = Some (d, a, u, 0);
  blk_sector v b : blk_good v → is_sector (played (blk_origin v) (blk_history v) b);
  blk_small v : blk_good v → blk_capacity v ≤ 2 ^ 64;
  blk_serves v m d a u k hdr st sec buf w :
    blk_good v → live v = Some (d, a, u, k) → posted m d a k hdr st sec buf w → ldn 2 m (u + 2) = k → 0 ≤ sec →
    sep st 1 u USEDSIZE → sep buf BSIZE u USEDSIZE → sep st 1 buf BSIZE →
    ∃ n v' m', (n ≤ latency)%nat ∧ acts (S n) (reg_write MMIO_QUEUE_NOTIFY 0 v) m = (v', m') ∧
      (∀ j, (1 ≤ j ≤ n)%nat → ldn 2 (acts j (reg_write MMIO_QUEUE_NOTIFY 0 v) m).2 (u + 2) = k) ∧
      blk_good v' ∧ live v' = Some (d, a, u, u16 (k + 1)) ∧ ldn 2 m' (u + 2) = u16 (k + 1) ∧
      blk_capacity v' = blk_capacity v ∧ blk_origin v' = blk_origin v ∧
      (if sec <? blk_capacity v then
         ld8 m' st = 0 ∧
         blk_history v' = blk_history v ++ (if w then [(sec, read_bytes (Z.to_nat BSIZE) m buf)] else []) ∧
         (w = false → read_bytes (Z.to_nat BSIZE) m' buf = played (blk_origin v) (blk_history v) sec)
       else ld8 m' st ≠ 0 ∧ blk_history v' = blk_history v) ∧
      ∀ x, x ≠ st → (x < u ∨ u + USEDSIZE ≤ x) → (w = false → x < buf ∨ buf + BSIZE ≤ x) → ld8 m' x = ld8 m x;
}.

(** ** The driver's invariant *)

Section driver.
Context {V : Type} `{VirtioDev V, BlkContents V, !VirtioBlkLaws V, !Statics}.

(** The rings are pages of their own, the statics are elsewhere in RAM. *)
Record rings_ok (d a u : Z) : Prop := {
  ro_d : ram_page d; ro_a : ram_page a; ro_u : ram_page u;
  ro_da : sep d PGSIZE a PGSIZE; ro_du : sep d PGSIZE u PGSIZE; ro_au : sep a PGSIZE u PGSIZE;
  ro_breq : in_ram breq 16 = true; ro_bstatus : in_ram bstatus 1 = true;
  ro_bd : sep breq 16 d PGSIZE; ro_ba : sep breq 16 a PGSIZE; ro_bu : sep breq 16 u PGSIZE;
  ro_sd : sep bstatus 1 d PGSIZE; ro_sa : sep bstatus 1 a PGSIZE; ro_su : sep bstatus 1 u PGSIZE;
  ro_bs : sep breq 16 bstatus 1;
}.

(** A buffer the driver may be given. *)
Record buf_ok (t : vstat) (b : Z) : Prop := {
  bo_ram : in_ram b BSIZE = true;
  bo_d : sep b BSIZE (desc t) PGSIZE; bo_a : sep b BSIZE (avail t) PGSIZE; bo_u : sep b BSIZE (used t) PGSIZE;
  bo_breq : sep b BSIZE breq 16; bo_st : sep bstatus 1 b BSIZE;
}.

Record drv_ok (s : virt V) : Prop := {
  dk_ok : disk_ok (vst s) ≠ 0;
  dk_good : blk_good (device s);
  dk_live : live (device s) = Some (desc (vst s), avail (vst s), used (vst s), used_seen (vst s));
  dk_used : ldn 2 (mem (vmach s)) (used (vst s) + 2) = used_seen (vst s);
  dk_avail : ldn 2 (mem (vmach s)) (avail (vst s) + 2) = used_seen (vst s);
  dk_rings : rings_ok (desc (vst s)) (avail (vst s)) (used (vst s));
}.
(** The bytes a request for [w]riting or reading may change: the descriptors, the
    available ring, the request header and the status byte. *)
Definition outside_request (t : vstat) (x : Z) : Prop :=
  (x < desc t ∨ desc t + PGSIZE ≤ x) ∧ (x < avail t ∨ avail t + PGSIZE ≤ x) ∧
  (x < breq ∨ breq + 16 ≤ x) ∧ x ≠ bstatus.

Lemma wp_put_header sec (w : bool) s (Q : unit → machine → Prop) :
  in_ram breq 16 = true → 0 ≤ sec < 2 ^ 64 →
  (∀ m', wrote breq 16 (mem s) m' → ldn 4 m' breq = (if w then VIRTIO_BLK_T_OUT else VIRTIO_BLK_T_IN) →
     ldn 8 m' (breq + 8) = sec → Q tt (with_mem m' s)) →
  wp (put_header sec w) Q s.
Proof.
  intros Hram Hsec HQ. unfold in_ram in Hram. bsimp.
  assert (∀ j n, 0 ≤ j → j + n ≤ 16 → in_ram (breq + j) n = true) as Hin by (intros; apply in_ram_iff; lia).
  unfold put_header. set (ty := if w then _ else _). assert (0 ≤ ty < 2 ^ 32) by (by destruct w).
  wp_steps. apply wp_store_n; [rewrite <- (Z.add_0_r breq); apply Hin; lia|].
  do 2 (wp_steps; apply wp_store_n; [apply Hin; lia|]). rewrite !Z.mod_small by lia.
  cbn [with_mem mem mdev km kernel_pagetable satp fences]. apply HQ.
  - repeat (eapply wrote_trans; [|eapply wrote_within; [apply wrote_stn|lia..]]). by intros x.
  - repeat (rewrite ldn_stn_ne by lia); apply ldn_stn_eq; lia.
  - apply ldn_stn_eq; lia.
Qed.

Lemma wp_post_request t sec buf w k s (Q : unit → machine → Prop) :
  rings_ok (desc t) (avail t) (used t) → buf_ok t buf → ldn 2 (mem s) (avail t + 2) = k → 0 ≤ sec < 2 ^ 64 →
  (∀ m', posted m' (desc t) (avail t) k breq bstatus sec buf w →
     (∀ x, outside_request t x → ld8 m' x = ld8 (mem s) x) → Q tt (with_mem m' s)) →
  wp (post_request t sec buf w) Q s.
Proof.
  intros [(_ & Hd & Hd') (_ & Ha & Ha') _ Hda _ _ Hb1 Hb2 Hbd Hba _ Hsd Hsa _ Hbs] [Hb3 Hfd Hfa _ Hfb Hfs] Hk Hsec HQ.
  pose proof (ldn_bound 2 (mem s) (avail t + 2)) as Hkb. rewrite Hk in Hkb.
  set (d := desc t) in *. set (a := avail t) in *.
  assert (0 ≤ k mod NUM < 8) as Hmod by (apply Z.mod_pos_bound; done).
  unfold BSIZE, PGSIZE, RAMBASE, PHYSTOP in *.
  assert (∀ x n, 0x80000000 ≤ x → x + n ≤ 0x88000000 → in_ram x n = true) as Hin by (intros; by apply in_ram_iff).
  unfold post_request. fold d a. wp_steps. apply wp_put_header; [done|done|]. intros m1 W1 Hty Hse.
  unfold in_ram, RAMBASE, PHYSTOP in Hb1, Hb2, Hb3. bsimp.
  assert (∀ b x, x = VRING_DESC_F_NEXT ∨ x = VRING_DESC_F_WRITE ∨ x = Z.lor (if b : bool then 0 else VRING_DESC_F_WRITE) VRING_DESC_F_NEXT →
    0 ≤ x < 2 ^ 16) as Hfl by (by intros [] x [-> |[-> | ->]]).
  wp_steps. apply wp_put_desc; [apply Hin; lia|lia|done|apply (Hfl w); auto|done|]. intros m2 W2 D0.
  wp_steps. apply wp_put_desc; [apply Hin; lia|lia|done|apply (Hfl w); auto|done|]. intros m3 W3 D1.
  wp_steps. apply wp_store_n; [apply Hin; lia|]. cbn [with_mem mem]. set (m4 := stn 1 _ _ _).
  pose proof (wrote_stn 1 m3 bstatus (255 mod 256 ^ Z.of_nat 1) : wrote bstatus 1 m3 m4) as W4. clearbody m4.
  wp_steps. apply wp_put_desc; [apply Hin; lia|lia|done|apply (Hfl w); auto|done|]. cbn [with_mem mem]. intros m5 W5 D2.
  assert (ldn 2 m5 (a + 2) = k) as Hk5.
  { unwrite. exact Hk. }
  wp_steps. apply wp_load_n; [apply Hin; lia|]. cbn [with_mem mem]. rewrite Hk5.
  wp_steps. apply wp_store_n; [apply Hin; lia|]. cbn [with_mem mem]. set (m6 := stn 2 m5 _ _).
  pose proof (wrote_stn 2 m5 (a + 4 + 2 * (k mod NUM)) (0 mod 256 ^ Z.of_nat 2) : wrote (a + 4 + 2 * (k mod NUM)) 2 m5 m6) as W6.
  assert (ldn 2 m6 (a + 4 + 2 * (k mod NUM)) = 0) as Hring by (unfold m6; by rewrite ldn_stn_eq). clearbody m6.
  wp_steps. apply wp_load_n; [apply Hin; lia|]. cbn [with_mem mem]. rewrite (ldn_wrote _ _ _ _ _ _ W6), Hk5 by sep_lia.
  wp_steps. apply wp_store_n; [apply Hin; lia|]. cbn [with_mem mem]. set (m7 := stn 2 m6 _ _).
  pose proof (wrote_stn 2 m6 (a + 2) ((k + 1) mod 256 ^ Z.of_nat 2) : wrote (a + 2) 2 m6 m7) as W7.
  assert (ldn 2 m7 (a + 2) = u16 (k + 1)) as Hidx by (unfold m7; rewrite ldn_stn_eq; [done|apply Z.mod_pos_bound; done]). clearbody m7.
  apply (HQ m7).
  - split.
    + done.
    + by unwrite.
    + by unwrite.
    + unwrite. rewrite D1. by destruct w.
    + by unwrite.
    + by unwrite.
    + by unwrite.
  - cbn [with_mem mem] in *. intros x (X1 & X2 & X3 & X4). unfold PGSIZE in *. fold d in X1. fold a in X2. rewrite (W7 x), (W6 x), (W5 x), (W4 x), (W3 x), (W2 x), (W1 x) by lia. done.
Qed.
Lemma wp_vm {A} (m : M machine A) Q (s : virt V) :
  wp m (λ a k, Q a (Virt k (device s) (vst s))) (vmach s) → wp (vm m) Q s.
Proof. apply (wp_zoom vmach (λ k s, Virt k (device s) (vst s))). Qed.

Lemma wp_poll n patience s v' m' (Q : unit → virt V → Prop) :
  let u := used (vst s) in
  (n < patience)%nat → in_ram (u + 2) 2 = true → acts (S n) (device s) (mem (vmach s)) = (v', m') →
  (∀ j, (1 ≤ j ≤ n)%nat → ldn 2 (acts j (device s) (mem (vmach s))).2 (u + 2) = used_seen (vst s)) →
  ldn 2 m' (u + 2) ≠ used_seen (vst s) →
  Q tt (Virt (with_mem m' (vmach s)) v' (vst s)) → wp (poll_used patience) Q s.
Proof.
  intros u. revert patience s u. induction n as [|n IH]; intros patience s u Hp Hram Hacts Hbusy Hdone HQ;
    (destruct patience as [|patience]; [lia|]); unfold poll_used; rewrite loop_S; wp_steps;
    unfold device_acts; wp_steps; apply wp_vm, wp_load_n; try exact Hram; cbn [vst vmach mem with_mem device].
  - injection Hacts as E1 E2. rewrite E1, E2. fold u.
    rewrite (proj2 (Z.eqb_neq _ _)) by done. wp_steps. exact HQ.
  - pose proof (Hbusy 1%nat ltac:(lia)) as B1. cbn [acts snd] in B1. fold u. rewrite B1, Z.eqb_refl. wp_steps.
    apply (IH patience (Virt (with_mem (dma (device s) (mem (vmach s))).2 (vmach s)) (dma (device s) (mem (vmach s))).1 (vst s)));
      cbn [vst vmach mem with_mem device]; [lia|done|done| |done|done].
    intros j Hj. apply (Hbusy (S j)). lia.
Qed.

(** What one transfer does: the result, and the state after it. *)
Record transferred (s : virt V) (sec buf : Z) (w : bool) (r : Z) (s' : virt V) : Prop := {
  tr_drv : drv_ok s';
  tr_result : r = if sec <? blk_capacity (device s) then 0 else -1;
  tr_capacity : blk_capacity (device s') = blk_capacity (device s);
  tr_origin : blk_origin (device s') = blk_origin (device s);
  tr_history : blk_history (device s') =
    blk_history (device s) ++ if w && (sec <? blk_capacity (device s)) then [(sec, read_bytes (Z.to_nat BSIZE) (mem (vmach s)) buf)] else [];
  tr_buffer : sec < blk_capacity (device s) → read_bytes (Z.to_nat BSIZE) (mem (vmach s')) buf =
    if w then read_bytes (Z.to_nat BSIZE) (mem (vmach s)) buf else played (blk_origin (device s)) (blk_history (device s)) sec;
  tr_frame x : outside_request (vst s) x → (x < used (vst s) ∨ used (vst s) + PGSIZE ≤ x) →
    (w = false → x < buf ∨ buf + BSIZE ≤ x) → ld8 (mem (vmach s')) x = ld8 (mem (vmach s)) x;
  tr_machine : vmach s' = with_mem (mem (vmach s')) (vmach s);
  tr_static : ∃ k, vst s' = VStat (desc (vst s)) (avail (vst s)) (used (vst s)) k (disk_ok (vst s));
}.

Lemma in_range_sep x a n b k : sep a n b k → a ≤ x < a + n → x < b ∨ b + k ≤ x.
Proof. unfold sep. lia. Qed.

Lemma buf_outside t buf x : buf_ok t buf → buf ≤ x < buf + BSIZE →
  outside_request t x ∧ (x < used t ∨ used t + PGSIZE ≤ x) ∧ x ≠ bstatus.
Proof.
  intros [_ B1 B2 B3 B4 B5] Hx. unfold outside_request.
  split_and!; try (eapply in_range_sep; [eassumption|lia]); clear B1 B2 B3 B4; unfold sep in B5; lia.
Qed.

Lemma used_outside t x : rings_ok (desc t) (avail t) (used t) → used t ≤ x < used t + PGSIZE → outside_request t x.
Proof.
  intros [_ _ _ _ B1 B2 _ _ _ _ B3 _ _ B4 _] Hx. unfold outside_request.
  assert (∀ a n b k, sep a n b k → sep b k a n) as Hsym by (unfold sep; lia).
  split_and!; try (eapply in_range_sep; [apply Hsym; eassumption|lia]); clear B1 B2 B3; unfold sep in B4; lia.
Qed.

Lemma page_in_ram2 p : ram_page p → in_ram (p + 2) 2 = true.
Proof. intros (_ & ? & ?). unfold PGSIZE in *. apply in_ram_iff. lia. Qed.

Lemma u16_next k : 0 ≤ k < 2 ^ 16 → u16 (k + 1) ≠ k.
Proof. unfold u16. intros. destruct (decide (k = 2 ^ 16 - 1)) as [->|]; [done|]. rewrite Z.mod_small; lia. Qed.

Lemma wp_virtio_disk_rw patience s sec buf w (Q : Z → virt V → Prop) :
  drv_ok s → buf_ok (vst s) buf → 0 ≤ sec < 2 ^ 64 → (latency < patience)%nat →
  (∀ r s', transferred s sec buf w r s' → Q r s') → wp (virtio_disk_rw patience sec buf w) Q s.
Proof.
  intros Hdrv Hbuf Hsec Hpat HQ. pose proof Hdrv as [Hok Hgood Hlive Hus Hav Hro].
  unfold virtio_disk_rw. wp_steps. rewrite (proj2 (Z.eqb_neq _ _)) by done.
  wp_steps. apply wp_vm. eapply wp_post_request; [done..|]. intros m Hpo Hframe.
  pose proof Hro as [Hd Ha Hu Hda Hdu Hau Hb1 Hb2 Hbd Hba Hbu Hsd Hsa Hsu Hbs].
  pose proof Hbuf as [Hb3 Hfd Hfa Hfu Hfb Hfs].
  assert (ldn 2 m (used (vst s) + 2) = used_seen (vst s)) as Hus'.
  { rewrite <- Hus. apply ldn_ext. intros x Hx. apply Hframe, used_outside; [done|unfold PGSIZE; lia]. }
  assert (sep bstatus 1 (used (vst s)) USEDSIZE) as Hsu' by (clear - Hsu; unfold sep, USEDSIZE, PGSIZE in *; lia).
  assert (sep buf BSIZE (used (vst s)) USEDSIZE) as Hfu' by (clear - Hfu; unfold sep, USEDSIZE, PGSIZE in *; lia).
  destruct (blk_serves (device s) m _ _ _ _ _ _ _ _ _ Hgood Hlive Hpo Hus' ltac:(lia) Hsu' Hfu' Hfs)
    as (n & v' & m' & Hn & Hacts & Hbusy & Hgood' & Hlive' & Hus2 & Hcap & Horg & Hout & Hfr).
  wp_steps. unfold W32. wp_steps. change (u32 0) with 0. apply (wp_poll n _ _ v' m');
    cbn [vst vmach device with_mem mem]; [lia|by apply page_in_ram2|done|done| |].
  { rewrite Hus2. apply u16_next. rewrite <- Hus. apply ldn_bound. }
  wp_steps. apply wp_vm, wp_load_n; [by apply page_in_ram2|].
  unfold vset. wp_steps. apply wp_vm, wp_load_n; [done|].
  cbn [vst vmach device with_mem mem]. wp_steps. rewrite ldn_1, Hus2. apply HQ.
  assert (∀ x, outside_request (vst s) x → x < used (vst s) ∨ used (vst s) + PGSIZE ≤ x → (w = false → x < buf ∨ buf + BSIZE ≤ x) →
    ld8 m' x = ld8 (mem (vmach s)) x) as Hall.
  { intros x X1 X2 X3. rewrite Hfr, Hframe; [done|done|apply X1|unfold USEDSIZE, PGSIZE in *; lia|done]. }
  assert (read_bytes (Z.to_nat BSIZE) m buf = read_bytes (Z.to_nat BSIZE) (mem (vmach s)) buf) as Hbytes.
  { apply read_bytes_ext. intros x Hx. apply Hframe. apply (buf_outside _ _ _ Hbuf). unfold BSIZE in *. lia. }
  split; cbn [vst vmach device with_mem mem desc avail used used_seen disk_ok]; [| |exact Hcap|exact Horg| | |exact Hall|done|by eexists].
  - split; cbn [vst vmach device with_mem mem desc avail used used_seen disk_ok]; [done..| |done].
    rewrite <- (po_idx _ _ _ _ _ _ _ _ _ Hpo). apply ldn_ext. intros x Hx.
    assert (avail (vst s) ≤ x < avail (vst s) + PGSIZE) as Hx' by (unfold PGSIZE; lia).
    pose proof (in_range_sep _ _ _ _ _ Hau Hx'). apply Hfr.
    + clear - Hsa Hx'. unfold sep in Hsa. lia.
    + unfold USEDSIZE, PGSIZE in *; lia.
    + intros _. clear - Hfa Hx'. unfold sep in Hfa. lia.
  - destruct (sec <? _); [by rewrite (proj1 Hout)|]. by rewrite (proj2 (Z.eqb_neq _ _)) by apply Hout.
  - destruct (sec <? _); destruct Hout as [_ Hout]; [|rewrite Hout, andb_false_r; by rewrite app_nil_r].
    rewrite (proj1 Hout). destruct w; cbn [andb]; by rewrite ?Hbytes.
  - intros Hlt. apply Z.ltb_lt in Hlt. rewrite Hlt in Hout. destruct w; [|by apply Hout].
    apply read_bytes_ext. intros x Hx. destruct (buf_outside _ _ x Hbuf) as (? & ? & ?); [unfold BSIZE in *; lia|]. by apply Hall.
Qed.

(** C7: one transfer. The request returns; a sector the device has is read into
    the buffer, or written from it, and the result is 0; a sector behind the end
    gives -1 and changes nothing on the device. Outside the rings, the request
    header, the status byte and (for a read) the buffer no byte of memory
    changes, and the driver is ready for the next request, whatever the count of
    requests so far (the 16-bit indices wrap around). *)
Theorem virtio_disk_rw_transfers patience s sec buf w :
  drv_ok s → buf_ok (vst s) buf → 0 ≤ sec < 2 ^ 64 → (latency < patience)%nat →
  ∃ r s', virtio_disk_rw patience sec buf w s = Done r s' ∧ transferred s sec buf w r s'.
Proof. intros. apply wp_run. apply wp_virtio_disk_rw; eauto. Qed.
End driver.

(** ** The driver as a block device *)

#[export] Instance virt_has_dev {V} : HasDev (virt V) := {|
  dev_of s := mdev (vmach s); set_dev d s := Virt (set_dev d (vmach s)) (device s) (vst s)
|}.
#[export] Instance virt_has_dev_laws {V} : HasDevLaws (virt V).
Proof. by split; intros; try destruct s as [[] ? ?]. Qed.

Section block.
Context {V : Type} `{VirtioDev V, BlkContents V, !VirtioBlkLaws V, !Statics}.

(** The contents of the caller's buffer, one sector, are passed by value here,
    and the buffer is at [bufaddr]. *)
#[export] Instance virt_block : BlockDev (virt V) := {|
  Disk.virtio_disk_rw b buf w :=
    vm (modify (λ k, with_mem (write_bytes (mem k) bufaddr (take (Z.to_nat BSIZE) buf)) k));;
    r ← virtio_disk_rw (S latency) (u64 b) bufaddr w;
    out ← gets (λ s, read_bytes (Z.to_nat BSIZE) (mem (vmach s)) bufaddr);
    mret (r, out)
|}.

Definition virt_good (s : virt V) : Prop := drv_ok s ∧ buf_ok (vst s) bufaddr.

Lemma virt_good_write s l : virt_good s → (length l ≤ Z.to_nat BSIZE)%nat →
  virt_good (Virt (with_mem (write_bytes (mem (vmach s)) bufaddr l) (vmach s)) (device s) (vst s)).
Proof.
  intros [[? ? ? Hu Ha Hr] Hb] Hl. split; [|done]. pose proof Hb as [_ _ Hba Hbu _ _].
  split; cbn [vst vmach device with_mem mem]; try done; [etrans; [|exact Hu]|etrans; [|exact Ha]];
    apply ldn_ext; intros x Hx; apply ld8_write_ne; unfold sep, BSIZE, PGSIZE in *; lia.
Qed.

Lemma wp_virt_rw b buf w (s : virt V) (Q : Z * list Z → virt V → Prop) :
  virt_good s → 0 ≤ b < blk_capacity (device s) → length buf = Z.to_nat BSIZE → (w = true → Forall is_byte buf) →
  (∀ s', virt_good s' → blk_capacity (device s') = blk_capacity (device s) → blk_origin (device s') = blk_origin (device s) →
     blk_history (device s') = blk_history (device s) ++ (if w then [(b, buf)] else []) → dev_of s' = dev_of s →
     Q (0, if w then buf else played (blk_origin (device s)) (blk_history (device s)) b) s') →
  wp (Disk.virtio_disk_rw b buf w) Q s.
Proof.
  intros Hg Hb Hl Hbytes HQ. pose proof (virt_good_write s buf Hg (Nat.eq_le_incl _ _ Hl)) as [Hd1 Hb1].
  pose proof (blk_small _ (dk_good _ (proj1 Hg))).
  cbn [Disk.virtio_disk_rw virt_block]. rewrite take_ge by lia. wp_steps. apply wp_vm. wp_steps. unfold u64. rewrite Z.mod_small by lia.
  eapply wp_virtio_disk_rw; [exact Hd1|exact Hb1|lia|lia|].
  intros r s' [T1 T2 T3 T4 T5 T6 T7 T8 [k T9]]. cbn [vst vmach device with_mem mem] in *. wp_steps.
  pose proof (proj2 (Z.ltb_lt _ _) (proj2 Hb)) as Hlt. rewrite Hlt in T2, T5. subst r.
  assert (w = true → read_bytes (Z.to_nat BSIZE) (write_bytes (mem (vmach s)) bufaddr buf) bufaddr = buf) as Hrd.
  { intros Hw. rewrite <- Hl. by apply read_write_eq, Hbytes. }
  assert (read_bytes (Z.to_nat BSIZE) (mem (vmach s')) bufaddr =
    if w then buf else played (blk_origin (device s)) (blk_history (device s)) b) as ->.
  { rewrite T6 by apply Hb. destruct w; [by apply Hrd|done]. }
  apply HQ.
  - split; [done|]. rewrite T9. destruct Hb1. by split.
  - done.
  - done.
  - rewrite T5. destruct w; [by rewrite Hrd|done].
  - cbn. rewrite T8. done.
Qed.

(** The driver and its device are what the file system relies on. *)
#[export] Instance virt_block_laws : BlockDevLaws (virt V).
Proof.
  refine {| disk_good := virt_good; capacity s := blk_capacity (device s);
            origin s := blk_origin (device s); history s := blk_history (device s) |}.
  - intros x d. split_and!; try done. by intros [[] []].
  - intros d b [Hd _]. apply blk_sector, Hd.
  - intros d b buf Q Hd Hb Hl HQ. apply wp_virt_rw; [done..|]. intros. rewrite app_nil_r in *. by apply HQ.
  - intros d b buf Q Hd Hb [Hl Hbytes] HQ. by apply wp_virt_rw.
Defined.
End block.

(** ** A device *)

(** The registers as last written, a notification not yet seen, the number of
    requests served, and the disk. *)
Record simblk := SimBlk {
  sb_regs : gmap Z Z; sb_note : bool; sb_served : Z;
  sb_cap : Z; sb_origin : sectors; sb_log : list (Z * list Z)
}.

Definition sb_reg (off : Z) (v : simblk) : Z := default 0 (sb_regs v !! off).

Definition sb_live (v : simblk) : option (Z * Z * Z * Z) :=
  if (sb_reg MMIO_STATUS v =? 15) && (sb_reg MMIO_QUEUE_READY v =? 1) then
    Some (sb_reg MMIO_QUEUE_DESC_LO v + 2 ^ 32 * sb_reg MMIO_QUEUE_DESC_HI v,
          sb_reg MMIO_DRIVER_DESC_LO v + 2 ^ 32 * sb_reg MMIO_DRIVER_DESC_HI v,
          sb_reg MMIO_DEVICE_DESC_LO v + 2 ^ 32 * sb_reg MMIO_DEVICE_DESC_HI v, sb_served v)
  else None.

Definition sb_read (off : Z) (v : simblk) : Z :=
  if off =? MMIO_MAGIC then 0x74726976 else if off =? MMIO_VERSION then 2 else if off =? MMIO_DEVICE_ID then 2
  else if off =? MMIO_VENDOR_ID then 0x554d4551 else if off =? MMIO_QUEUE_NUM_MAX then 1024
  else if off =? MMIO_DEVICE_FEAT then (if sb_reg MMIO_DEVICE_FEAT_SEL v =? 1 then 1 else 0x31006ed4)
  else sb_reg off v.

Definition sb_write (off x : Z) (v : simblk) : simblk :=
  if (off =? MMIO_STATUS) && (x =? 0) then SimBlk ∅ false 0 (sb_cap v) (sb_origin v) (sb_log v)
  else SimBlk (<[off := x]> (sb_regs v)) (sb_note v || (off =? MMIO_QUEUE_NOTIFY)) (sb_served v) (sb_cap v) (sb_origin v) (sb_log v).

(** Serves the request at the head of the available ring. *)
Definition sb_dma (v : simblk) (m : gmap Z Z) : simblk * gmap Z Z :=
  match sb_live v with
  | Some (d, a, u, k) =>
      if sb_note v then
        let head := ldn 2 m (a + 4 + 2 * (k mod NUM)) in
        let '(hdr, _, _, n1) := desc_at m d head in
        let '(buf, len, _, n2) := desc_at m d n1 in
        let '(st, _, _, _) := desc_at m d n2 in
        let sec := ldn 8 m (hdr + 8) in
        let ok := sec <? sb_cap v in
        let out := ldn 4 m hdr =? VIRTIO_BLK_T_OUT in
        let m1 := if ok && negb out then write_bytes m buf (played (sb_origin v) (sb_log v) sec) else m in
        let m2 := stn 1 m1 st (if ok then 0 else 1) in
        let m3 := stn 2 m2 (u + 2) (u16 (k + 1)) in
        (SimBlk (sb_regs v) false (u16 (k + 1)) (sb_cap v) (sb_origin v)
           (if ok && out then sb_log v ++ [(sec, read_bytes (Z.to_nat len) m buf)] else sb_log v), m3)
      else (v, m)
  | None => (v, m)
  end.

#[export] Instance sim_blk : VirtioDev simblk := {| reg_read := sb_read; reg_write := sb_write; dma := sb_dma |}.
#[export] Instance sim_contents : BlkContents simblk := {|
  blk_good v := (∀ b, is_sector (played (sb_origin v) (sb_log v) b)) ∧ sb_cap v ≤ 2 ^ 64;
  blk_capacity := sb_cap; blk_origin := sb_origin; blk_history := sb_log
|}.

Lemma sb_live_notify v : sb_live (sb_write MMIO_QUEUE_NOTIFY 0 v) = sb_live v.
Proof. unfold sb_live, sb_reg, sb_write. cbn. by rewrite !lookup_insert_ne. Qed.

Lemma sb_dma_request v m d a u k hdr st sec buf w :
  sb_live v = Some (d, a, u, k) → sb_note v = true → posted m d a k hdr st sec buf w →
  let ok := sec <? sb_cap v in
  sb_dma v m =
    (SimBlk (sb_regs v) false (u16 (k + 1)) (sb_cap v) (sb_origin v)
       (if ok && w then sb_log v ++ [(sec, read_bytes (Z.to_nat BSIZE) m buf)] else sb_log v),
     stn 2 (stn 1 (if ok && negb w then write_bytes m buf (played (sb_origin v) (sb_log v) sec) else m)
       st (if ok then 0 else 1)) (u + 2) (u16 (k + 1))).
Proof.
  intros Hlive Hn [_ P2 P3 P4 P5 P6 P7] ok. unfold sb_dma. rewrite Hlive, Hn, P2, P3, P4, P5, P6, P7. fold ok.
  by destruct w.
Qed.

Lemma sb_sector v sec buf m w :
  (∀ b, is_sector (played (sb_origin v) (sb_log v) b)) →
  ∀ b, is_sector (played (sb_origin v) (if w : bool then sb_log v ++ [(sec, read_bytes (Z.to_nat BSIZE) m buf)] else sb_log v) b).
Proof.
  intros Hg b. destruct w; [|apply Hg]. rewrite played_app. cbn. unfold put_sector. destruct (b =? sec); [|apply Hg].
  split; [apply length_read_bytes|apply read_bytes_byte].
Qed.

Lemma u32_halves d : 0 ≤ d < 2 ^ 64 → u32 d + 2 ^ 32 * u32 (Z.shiftr d 32) = d.
Proof.
  intros Hd. rewrite Z.shiftr_div_pow2 by lia. unfold u32. rewrite (Z.mod_small (d / 2 ^ 32)).
  - pose proof (Z.div_mod d (2 ^ 32)). lia.
  - split; [apply Z.div_pos; lia|apply Z.div_lt_upper_bound; lia].
Qed.

Lemma sb_live_served v d a u k n s c o l :
  sb_live v = Some (d, a, u, k) → sb_live (SimBlk (sb_regs v) n s c o l) = Some (d, a, u, s).
Proof. unfold sb_live, sb_reg. cbn [sb_regs sb_served]. intros H. destruct (_ && _); [|done]. by injection H as -> -> ->. Qed.

#[export] Instance sim_blk_laws : VirtioBlkLaws simblk.
Proof.
  refine {| live := sb_live; latency := 0; queue_max _ := 1024 |}.
  - intros v lo Hg _ v1 _ v2 hi v3 v4. split_and!; try done. intros d a u Hd Ha Hu _ v5. split; [done|].
    transitivity (Some (u32 d + 2 ^ 32 * u32 (Z.shiftr d 32), u32 a + 2 ^ 32 * u32 (Z.shiftr a 32), u32 u + 2 ^ 32 * u32 (Z.shiftr u 32), 0));
      [reflexivity|]. by rewrite !u32_halves.
  - intros v b [Hg _]. apply Hg.
  - by intros v [_ ?].
  - intros v m d a u k hdr st sec buf w [Hg Hc] Hlive Hpo Hu Hsec Hs1 Hs2 Hs3. exists 0%nat.
    cbn [acts]. change dma with sb_dma. change reg_write with sb_write.
    set (v0 := sb_write MMIO_QUEUE_NOTIFY 0 v).
    assert (sb_live v0 = Some (d, a, u, k)) as Hlive0 by (by rewrite <- Hlive; apply sb_live_notify).
    rewrite (sb_dma_request v0 m d a u k hdr st sec buf w) by (done || apply orb_true_r). cbn [fst snd].
    pose proof (proj1 (Hg sec)) as Hlen. set (data := played (sb_origin v0) (sb_log v0) sec).
    change (sb_cap v0) with (sb_cap v). change (blk_capacity v) with (sb_cap v).
    assert (∀ x, x ≠ st → x < u ∨ u + USEDSIZE ≤ x → ∀ m0, ld8 (stn 2 (stn 1 m0 st (if sec <? sb_cap v then 0 else 1)) (u + 2) (u16 (k + 1))) x = ld8 m0 x) as Hst.
    { intros x X1 X2 m0. unfold USEDSIZE in *. rewrite !ld8_stn_ne by lia. done. }
    eexists _, _. split; [lia|]. split; [done|]. split; [lia|]. split; [by split; [apply (sb_sector v0)|]|].
    split.
    { by eapply sb_live_served. }
    split; [rewrite ldn_stn_eq; [done|apply Z.mod_pos_bound; done]|]. do 2 (split; [done|]). split.
    + assert (∀ m0 x, ld8 (stn 2 (stn 1 m0 st x) (u + 2) (u16 (k + 1))) st = u8 x) as Hres.
      { intros m0 x. rewrite ld8_stn_ne by (unfold sep, USEDSIZE in *; lia). rewrite <- ldn_1.
        unfold stn, ldn. cbn. unfold ld8. rewrite lookup_insert_eq. cbn. unfold u8. rewrite Zmod_mod. lia. }
      rewrite Hres. cbn [blk_history sim_contents sb_log]. destruct (sec <? sb_cap v); [|done].
      split; [done|]. split; [destruct w; [done|by rewrite app_nil_r]|]. intros ->. cbn [andb negb].
      change (blk_origin v) with (sb_origin v). change (blk_history v) with (sb_log v). fold data.
      transitivity (read_bytes (length data) (write_bytes m buf data) buf); [|by apply read_write_eq, Hg].
      change (length data) with (length (played (sb_origin v) (sb_log v) sec)). rewrite Hlen.
      apply read_bytes_ext. intros x Hx. apply Hst; unfold sep, USEDSIZE, BSIZE in *; lia.
    + intros x X1 X2 X3. rewrite Hst by done. destruct (_ && _) eqn:E; [|done]. apply andb_prop in E as [_ E]. destruct w; [done|].
      apply ld8_write_ne. change data with (played (sb_origin v) (sb_log v) sec). rewrite Hlen. specialize (X3 eq_refl). unfold BSIZE in *. lia.
Defined.

(** ** A transfer at the point where the 16-bit indices wrap around *)

#[local] Instance demo_statics : Statics := {| breq := 0x80020000; bstatus := 0x80020010; bufaddr := 0x80020200 |}.

Definition demo_disk : simblk := SimBlk
  (list_to_map [(MMIO_STATUS, 15); (MMIO_QUEUE_READY, 1); (MMIO_QUEUE_DESC_LO, 0x80010000);
    (MMIO_DRIVER_DESC_LO, 0x80011000); (MMIO_DEVICE_DESC_LO, 0x80012000)])
  false 65535 64 (λ b, replicate 512 (u8 b)) [].

Definition demo_rings : vstat := VStat 0x80010000 0x80011000 0x80012000 65535 1.

Definition demo_virt (d : dev) : virt simblk := Virt
  (Machine d (stn 2 (stn 2 ∅ 0x80011002 65535) 0x80012002 65535) (Kmem 0 0 ∅) 0 0 0) demo_disk demo_rings.

Lemma demo_virt_ok d : virt_good (demo_virt d).
Proof.
  split; split; try reflexivity; try done.
  - split; [|unfold demo_virt, demo_disk; cbn; lia]. intros b. change (played _ _ b) with (replicate 512 (u8 b)).
    split; [by rewrite length_replicate|]. by apply Forall_replicate, u8_byte.
  - split; try reflexivity; try (split; [reflexivity|unfold RAMBASE, PHYSTOP, PGSIZE; cbn; lia]);
      unfold sep, PGSIZE; cbn; lia.
  - unfold sep, BSIZE, PGSIZE; cbn; lia.
  - unfold sep, BSIZE, PGSIZE; cbn; lia.
  - unfold sep, BSIZE, PGSIZE; cbn; lia.
  - unfold sep, BSIZE; cbn; lia.
  - unfold sep, BSIZE; cbn; lia.
Qed.

(** Writing sector 3, then sector 64, which is behind the end: the counter goes
    from 65535 to 0 to 1. *)
Lemma virtio_disk_rw_transfers_witness :
  ∃ s1 s2, virtio_disk_rw 1 3 bufaddr true (demo_virt demo_dev) = Done 0 s1 ∧ used_seen (vst s1) = 0 ∧
    blk_history (device s1) = [(3, replicate 512 0)] ∧
    virtio_disk_rw 1 64 bufaddr true s1 = Done (-1) s2 ∧ blk_history (device s2) = blk_history (device s1).
Proof.
  destruct (demo_virt_ok demo_dev) as [Hd Hb].
  destruct (virtio_disk_rw_transfers 1 (demo_virt demo_dev) 3 bufaddr true Hd Hb) as (r1 & s1 & H1 & T1); [lia|cbn; lia|].
  pose proof (tr_drv _ _ _ _ _ _ T1) as Hd1. destruct (tr_static _ _ _ _ _ _ T1) as [k Hk].
  destruct (virtio_disk_rw_transfers 1 s1 64 bufaddr true Hd1) as (r2 & s2 & H2 & T2);
    [rewrite Hk; destruct Hb; by split|lia|cbn; lia|].
  pose proof (tr_result _ _ _ _ _ _ T1) as R1. pose proof (tr_history _ _ _ _ _ _ T1) as L1.
  pose proof (tr_result _ _ _ _ _ _ T2) as R2. pose proof (tr_history _ _ _ _ _ _ T2) as L2.
  rewrite (tr_capacity _ _ _ _ _ _ T1) in R2, L2. cbn in R1, R2, L2. subst r1 r2. rewrite app_nil_r in L2.
  exists s1, s2. split_and!; [exact H1| |rewrite L1; vm_compute; reflexivity|exact H2|exact L2].
  apply (f_equal (λ o, match o with Done _ s => used_seen (vst s) | _ => -1 end)) in H1. rewrite <- H1. vm_compute. reflexivity.
Defined.
