(* ===== verification/VirtioInit.v ===== *)
(** * Bringing the block device up (src/virtio.c: virtio_disk_init)

    From a device as the specification describes it and an allocator with three
    free pages, initialisation ends in the driver's invariant, which is what
    [virtio_disk_rw] needs. *)
From S2P Require Import Prelude Spinlock Uart Mem Kalloc PageTable AddrSpace Took Disk Virtio VirtioSpec.

(** ** Three pages for the rings *)

(** Pages [d], [a] and [u] allocated, then zeroed. *)
Definition three_pages (d a u : Z) (s : machine) : machine :=
  let s1 := after_alloc d (ld64 (mem s) d) s in
  let s2 := after_alloc a (ld64 (mem s1) a) s1 in
  let s3 := after_alloc u (ld64 (mem s2) u) s2 in
  with_mem (memset_loop (Z.to_nat 4096) u 0 (memset_loop (Z.to_nat 4096) a 0 (memset_loop (Z.to_nat 4096) d 0 (mem s3)))) s3.

Lemma kinv_zero rg s l p : kinv rg s l → ram_page p → p ∉ l →
  kinv rg (with_mem (memset_loop (Z.to_nat 4096) p 0 (mem s)) s) l.
Proof.
  intros Hk [Hp _] Hpl. apply (kinv_ext rg s); [done| |done]. intros q Hq. apply ld64_ext. intros x Hx.
  symmetry. apply ld8_memset_ne. cbn [with_mem mem].
  assert (page_aligned q) by (eapply managed_aligned; by apply (kinv_free _ _ _ Hk) in Hq as []).
  assert (q ≠ p) by (by intros ->). unfold page_aligned, PGSIZE in *. Z.to_euclidean_division_equations. lia.
Qed.

Lemma pages_sep p q : page_aligned p → page_aligned q → p ≠ q → sep p PGSIZE q PGSIZE.
Proof. intros. unfold sep. destruct (pages_disjoint p q); try done; lia. Qed.

#[local] Opaque memset_loop.

Lemma three_pages_kinv rg s d a u l : kinv rg s (d :: a :: u :: l) → ready s →
  kinv rg (three_pages d a u s) l ∧ ready (three_pages d a u s).
Proof.
  intros Hk Hr. split.
  - unfold three_pages. set (s1 := after_alloc d _ s). set (s2 := after_alloc a _ s1). set (s3 := after_alloc u _ s2).
    pose proof (kinv_after_alloc _ _ _ _ Hk) as K1. pose proof (kinv_after_alloc _ _ _ _ K1) as K2.
    pose proof (kinv_after_alloc _ _ _ _ K2) as K3. fold s1 in K1. fold s2 in K2. fold s3 in K3.
    pose proof (kinv_nodup _ _ _ Hk) as Hnd. rewrite !NoDup_cons, !not_elem_of_cons in Hnd. destruct Hnd as ((_ & _ & Hd) & (_ & Ha) & Hu & _).
    assert (Forall ram_page [d; a; u]) as Hram.
    { apply Forall_forall. intros p Hp. eapply managed_ram. apply (kinv_free _ _ _ Hk). change (d :: a :: u :: l) with ([d; a; u] ++ l).
      apply elem_of_app. by left. }
    rewrite !Forall_cons in Hram. destruct Hram as (Rd & Ra & Ru & _).
    apply (kinv_zero rg (with_mem (memset_loop (Z.to_nat 4096) a 0 (memset_loop (Z.to_nat 4096) d 0 (mem s3))) s3)); [|done|done].
    apply (kinv_zero rg (with_mem (memset_loop (Z.to_nat 4096) d 0 (mem s3)) s3)); [|done|done].
    by apply kinv_zero.
  - do 3 (eapply ready_spin; [reflexivity|]). done.
Qed.

(** The three pages are zero. *)
(** The pages of a queue leave the free list. *)
Lemma three_pages_took rg L k0 k d a u l : took rg L (d :: a :: u :: l) k0 k → took rg L l k0 (three_pages d a u k).
Proof.
  intros K. pose proof (kinv_nodup _ _ _ (tk_inv _ _ _ _ _ K)) as Hnd. pose proof (tk_sub _ _ _ _ _ K) as Hsub.
  assert (∀ p, p ∈ [d; a; u] → page_aligned p ∧ p ∈ L) as Hp.
  { intros p Hp. assert (p ∈ d :: a :: u :: l) as Hin by (rewrite !elem_of_cons, elem_of_nil in *; tauto).
    split; [eapply free_page; [apply K|exact Hin]|by apply Hsub]. }
  rewrite !NoDup_cons, !not_elem_of_cons in Hnd. destruct Hnd as ((_ & _ & Nd) & (_ & Na) & Nu & _). do 3 apply took_alloc in K.
  assert (∀ p m k', p ∈ [d; a; u] → took rg L l k0 k' → m = memset_loop (Z.to_nat 4096) p 0 (mem k') → took rg L l k0 (with_mem m k')) as Hzero.
  { intros p m k' Hin Ht ->. eapply (took_write _ _ _ p); [exact Ht|by apply Hp| |by apply Hp|].
    - rewrite !elem_of_cons, elem_of_nil in Hin. by destruct Hin as [->|[->|[->|[]]]].
    - intros x Hx. apply ld8_memset_ne. unfold in_page, PGSIZE in Hx. lia. }
  unfold three_pages. set (s3 := after_alloc u _ _) in *.
  apply (Hzero u _ (with_mem (memset_loop (Z.to_nat 4096) a 0 (memset_loop (Z.to_nat 4096) d 0 (mem s3))) s3)); [rewrite !elem_of_cons; auto| |done].
  apply (Hzero a _ (with_mem (memset_loop (Z.to_nat 4096) d 0 (mem s3)) s3)); [rewrite !elem_of_cons; auto| |done].
  apply (Hzero d _ s3); [by left|exact K|done].
Qed.

Lemma three_pages_zero rg s d a u l x : kinv rg s (d :: a :: u :: l) →
  in_page d x ∨ in_page a x ∨ in_page u x → ld8 (mem (three_pages d a u s)) x = 0.
Proof.
  intros _ Hx. unfold three_pages. cbn [mem with_mem].
  assert (∀ p m, in_page p x → ld8 (memset_loop (Z.to_nat 4096) p 0 m) x = 0) as Hin.
  { intros p m Hp. rewrite ld8_memset_in; [done|]. unfold in_page, PGSIZE in Hp. lia. }
  assert (∀ p m, ld8 m x = 0 → ld8 (memset_loop (Z.to_nat 4096) p 0 m) x = 0) as Hout.
  { intros p m Hm. destruct (decide (p ≤ x < p + 4096)); [rewrite ld8_memset_in by lia; done|].
    by rewrite ld8_memset_ne by lia. }
  destruct Hx as [Hx|[Hx|Hx]]; auto.
Qed.

Lemma ldn_zero n m a : (∀ x, a ≤ x < a + Z.of_nat n → ld8 m x = 0) → ldn n m a = 0.
Proof.
  revert a. induction n as [|n IH]; intros a Hz; [done|]. unfold ldn in *. cbn [read_bytes le_val].
  rewrite Hz, IH by lia || (intros; apply Hz; lia). done.
Qed.

Section init.
Context {V : Type} `{VirtioDev V, BlkContents V, !VirtioBlkLaws V, !Statics}.

Definition statics_ok (rg : Z * Z) : Prop :=
  in_ram breq 16 = true ∧ in_ram bstatus 1 = true ∧ in_ram bufaddr BSIZE = true ∧
  breq + 16 ≤ rg.1 ∧ bstatus + 1 ≤ rg.1 ∧ bufaddr + BSIZE ≤ rg.1 ∧
  sep breq 16 bstatus 1 ∧ sep bufaddr BSIZE breq 16 ∧ sep bstatus 1 bufaddr BSIZE.

(** The features the driver accepts. *)
Definition accepted (x : Z) : Z :=
  foldl (λ y b, without b y) x [VIRTIO_BLK_F_RO; VIRTIO_BLK_F_SCSI; VIRTIO_BLK_F_CONFIG_WCE; VIRTIO_BLK_F_MQ;
    VIRTIO_F_ANY_LAYOUT; VIRTIO_RING_F_EVENT_IDX; VIRTIO_RING_F_INDIRECT].

Lemma without_all bs x y : 0 ≤ y < 2 ^ 32 → Z.land y x = y →
  let z := foldl (λ y b, without b y) y bs in 0 ≤ z < 2 ^ 32 ∧ Z.land z x = z.
Proof.
  revert y. induction bs as [|b bs IH]; intros y Hy Hsub; [done|]. cbn [foldl]. apply IH.
  - assert (0 ≤ u32 (Z.lnot (Z.shiftl 1 b))) by (unfold u32; apply Z.mod_pos_bound; done).
    unfold without. split; [by apply Z.land_nonneg; left; lia|].
    destruct (decide (y = 0)) as [->|]; [by rewrite Z.land_0_l|].
    apply Z.log2_lt_cancel. rewrite Z.log2_pow2 by lia. eapply Z.le_lt_trans; [apply Z.log2_land; lia|].
    apply Z.min_lt_iff. left. apply Z.log2_lt_pow2; lia.
  - unfold without. rewrite <- Z.land_assoc, (Z.land_comm _ x), Z.land_assoc. by rewrite Hsub.
Qed.

Lemma accepted_ok x : 0 ≤ x < 2 ^ 32 → u32 (accepted x) = accepted x ∧ Z.land (accepted x) x = accepted x.
Proof.
  intros Hx. destruct (without_all _ x x Hx (Z.land_diag x) : let z := accepted x in 0 ≤ z < 2 ^ 32 ∧ Z.land z x = z) as [B1 B2].
  split; [|done]. by apply Z.mod_small.
Qed.

(** Steps of the driver on an explicit state, which keep it small. *)
Lemma wp_W32 off x k v t (Q : unit → virt V → Prop) : Q tt (Virt k (reg_write off (u32 x) v) t) → wp (W32 off x) Q (Virt k v t).
Proof. done. Qed.
Lemma wp_R32 off k v t (Q : Z → virt V → Prop) : Q (u32 (reg_read off v)) (Virt k v t) → wp (R32 off) Q (Virt k v t).
Proof. done. Qed.
Lemma wp_vset f k v t (Q : unit → virt V → Prop) : Q tt (Virt k v (f t)) → wp (vset f) Q (Virt k v t).
Proof. done. Qed.
Ltac virt_step := lazymatch goal with
  | |- wp (_ ≫= _) _ _ => apply wp_bind
  | |- wp (W32 _ _) _ _ => apply wp_W32
  | |- wp (R32 _) _ _ => apply wp_R32
  | |- wp (vset _) _ _ => apply wp_vset; cbn [desc avail used used_seen disk_ok]
  | |- wp (mret _) _ _ => apply wp_ret
  end.
Ltac virt_steps := repeat virt_step.

#[export] Instance present_dec (v : V) : Decision (present v).
Proof. unfold present. apply _. Defined.

(** What [virtio_disk_init] leaves. *)
Definition init_outcome (rg : Z * Z) (l l' : list Z) (s s' : virt V) : Prop :=
  blk_same (device s) (device s') ∧
  if bool_decide (present (device s)) && (NUM <=? queue_max (device s)) then
    virt_good s' ∧ kinv rg (vmach s') l' ∧ ready (vmach s') ∧
    ∃ d a u, l = d :: a :: u :: l' ∧ vst s' = VStat d a u 0 1 ∧ heard (three_pages d a u (vmach s)) (vmach s')
  else vst s' = vst s ∧ heard (vmach s) (vmach s').

Lemma wp_virt_line m (s : virt V) (Q : unit → virt V → Prop) :
  ready (vmach s) → (∀ k, heard (vmach s) k → Q tt (Virt k (device s) (vst s))) →
  wp (vm (uart_line m)) Q s.
Proof. intros Hr HQ. apply wp_vm, wp_puts; [by apply ready_dev|]. apply HQ. apply heard_said. Qed.

(** The device after negotiation. *)
Record negotiated (v v3 : V) : Prop := {
  ng_same : blk_same v v3;
  ng_sel : blk_same v (reg_write MMIO_QUEUE_SEL 0 v3);
  ng_max : u32 (reg_read MMIO_QUEUE_NUM_MAX (reg_write MMIO_QUEUE_SEL 0 v3)) = queue_max v;
  ng_queue d a u : 0 ≤ d < 2 ^ 64 → 0 ≤ a < 2 ^ 64 → 0 ≤ u < 2 ^ 64 → NUM ≤ queue_max v →
    let v5 := reg_writes [(MMIO_QUEUE_NUM, NUM);
      (MMIO_QUEUE_DESC_LO, u32 d); (MMIO_QUEUE_DESC_HI, u32 (Z.shiftr d 32));
      (MMIO_DRIVER_DESC_LO, u32 a); (MMIO_DRIVER_DESC_HI, u32 (Z.shiftr a 32));
      (MMIO_DEVICE_DESC_LO, u32 u); (MMIO_DEVICE_DESC_HI, u32 (Z.shiftr u 32));
      (MMIO_QUEUE_READY, 1); (MMIO_STATUS, 15)] (reg_write MMIO_QUEUE_SEL 0 v3) in
    blk_same v v5 ∧ live v5 = Some (d, a, u, 0);
}.

Lemma wp_negotiate k v t (Q : Z * bool → virt V → Prop) :
  present v → blk_good v → (∀ v3, negotiated v v3 → Q (11, true) (Virt k v3 t)) → wp negotiate Q (Virt k v t).
Proof.
  intros Hp Hgood HQ. unfold negotiate. virt_steps.
  match goal with |- context [without VIRTIO_BLK_F_RO ?y] => set (x := y) end.
  match goal with |- context [u32 (without VIRTIO_RING_F_INDIRECT ?y)] =>
    change (without VIRTIO_RING_F_INDIRECT y) with (accepted x) end.
  assert (0 ≤ x < 2 ^ 32) as Hx by (by apply Z.mod_pos_bound).
  destruct (accepted_ok x Hx) as [Hl1 Hl2].
  destruct (blk_init v (accepted x) Hgood Hp Hl2) as (S3 & S4 & Hok & Hmax & Hq).
  rewrite Hl1.
  match goal with |- context [u32 (u32 ?y)] => replace (u32 (u32 y)) with (u32 y) by (symmetry; apply Zmod_mod) end.
  match goal with |- Q (_, negb (Z.land (u32 (reg_read _ ?v3)) _ =? 0)) _ => rewrite (proj2 (Z.eqb_neq _ _) Hok : (Z.land (u32 (reg_read MMIO_STATUS v3)) S_FEATURES_OK =? 0) = false); apply (HQ v3) end.
  by split.
Qed.

Definition queue_writes (d a u : Z) : list (Z * Z) :=
  [(MMIO_QUEUE_NUM, NUM);
   (MMIO_QUEUE_DESC_LO, u32 d); (MMIO_QUEUE_DESC_HI, u32 (Z.shiftr d 32));
   (MMIO_DRIVER_DESC_LO, u32 a); (MMIO_DRIVER_DESC_HI, u32 (Z.shiftr a 32));
   (MMIO_DEVICE_DESC_LO, u32 u); (MMIO_DEVICE_DESC_HI, u32 (Z.shiftr u 32));
   (MMIO_QUEUE_READY, 1); (MMIO_STATUS, 15)].

Lemma wp_vm_kalloc rg p l k v t (Q : Z → virt V → Prop) :
  kinv rg k (p :: l) → ready k → Q p (Virt (after_alloc p (ld64 (mem k) p) k) v t) → wp (vm kalloc) Q (Virt k v t).
Proof. intros Hk Hr HQ. apply wp_vm. eapply wp_kalloc; [done|done|done|]. by intros p' l' [= <- <-]. Qed.

Lemma wp_vm_zero p k v t (Q : unit → virt V → Prop) :
  ram_page p → Q tt (Virt (with_mem (memset_loop (Z.to_nat 4096) p 0 (mem k)) k) v t) → wp (vm (zero p 4096)) Q (Virt k v t).
Proof. intros Hp HQ. apply wp_vm, wp_memset; [by apply ram_page_in_ram|done]. Qed.

Lemma wp_setup_queue rg l k v t d a u (Q : unit → virt V → Prop) :
  kinv rg k (d :: a :: u :: l) → ready k →
  Q tt (Virt (three_pages d a u k) (reg_writes (queue_writes d a u) v) (VStat d a u 0 1)) →
  wp (setup_queue 11) Q (Virt k v t).
Proof.
  intros Hk Hr HQ. pose proof (kinv_after_alloc _ _ _ _ Hk) as K1. pose proof (kinv_after_alloc _ _ _ _ K1) as K2.
  assert (∀ p, p ∈ d :: a :: u :: l → ram_page p) as Hram.
  { intros p Hp. eapply managed_ram. by apply (kinv_free _ _ _ Hk). }
  unfold setup_queue. virt_steps. eapply wp_vm_kalloc; [exact Hk|done|]. virt_steps.
  eapply wp_vm_kalloc; [exact K1|by eapply ready_spin|]. virt_steps.
  eapply wp_vm_kalloc; [exact K2|by do 2 (eapply ready_spin; [reflexivity|])|]. virt_steps.
  apply wp_vm_zero; [apply Hram; by left|]. virt_steps. apply wp_vm_zero; [apply Hram; right; by left|]. virt_steps.
  apply wp_vm_zero; [apply Hram; do 2 right; by left|]. virt_steps. exact HQ.
Qed.

(** The driver's invariant once the pages are distinct pages above the statics. *)
Lemma virt_good_fresh rg s l k v d a u :
  kinv rg s (d :: a :: u :: l) → statics_ok rg → blk_good v → live v = Some (d, a, u, 0) →
  mem k = mem (three_pages d a u s) → virt_good (Virt k v (VStat d a u 0 1)).
Proof.
  intros Hk (B1 & B2 & B3 & B4 & B5 & B6 & B7 & B8 & B9) Hgood Hlive Em.
  pose proof (kinv_nodup _ _ _ Hk) as Hnd. rewrite !NoDup_cons, !not_elem_of_cons in Hnd.
  destruct Hnd as ((Nda & Ndu & _) & (Nau & _) & _).
  assert (∀ p, p = d ∨ p = a ∨ p = u → managed rg p) as Hm.
  { intros p Hp. apply (kinv_free _ _ _ Hk). rewrite !elem_of_cons. tauto. }
  assert (∀ p, p = d ∨ p = a ∨ p = u → ram_page p) as Hram by (intros; by eapply managed_ram, Hm).
  assert (∀ p, p = d ∨ p = a ∨ p = u → page_aligned p) as Hal by (intros; by eapply managed_aligned, Hm).
  assert (∀ p x n, p = d ∨ p = a ∨ p = u → x + n ≤ rg.1 → sep x n p PGSIZE) as Hlow.
  { intros p x n Hp Hx. left. destruct (Hm p Hp) as [_ ?]. lia. }
  assert (∀ p, p = a ∨ p = u → ldn 2 (mem k) (p + 2) = 0) as Hzero.
  { intros p Hp. rewrite Em. apply ldn_zero. intros x Hx. eapply three_pages_zero; [exact Hk|].
    unfold in_page, PGSIZE. destruct Hp as [-> | ->]; [right; left|right; right]; lia. }
  split; split; cbn [vst vmach device desc avail used used_seen disk_ok]; auto.
  split; auto; apply pages_sep; auto.
Qed.

Lemma init_up rg l k v v5 t d a u k' :
  kinv rg k (d :: a :: u :: l) → ready k → statics_ok rg → blk_same v v5 → live v5 = Some (d, a, u, 0) →
  present v → NUM ≤ queue_max v → heard (three_pages d a u k) k' →
  init_outcome rg (d :: a :: u :: l) l (Virt k v t) (Virt k' v5 (VStat d a u 0 1)).
Proof.
  intros Hk Hr Hst Hsame Hlive Hp Hq Hh. destruct (three_pages_kinv _ _ _ _ _ _ Hk Hr) as [Hk3 Hr3].
  destruct (heard_mem _ _ Hh) as [Em Ek]. unfold init_outcome. cbn [device vmach vst]. split; [done|].
  rewrite bool_decide_eq_true_2 by done. rewrite (proj2 (Z.leb_le _ _)) by done. cbn [andb]. split_and!.
  - eapply virt_good_fresh; [exact Hk|exact Hst|apply Hsame|exact Hlive|exact Em].
  - apply (kinv_ext rg (three_pages d a u k)); [exact Ek|by rewrite Em|exact Hk3].
  - exact (heard_ready _ _ Hr3 Hh).
  - exists d, a, u. split; [done|]. split; [done|exact Hh].
Qed.

Lemma wp_virtio_disk_init rg l k v t d a u :
  kinv rg k (d :: a :: u :: l) → ready k → blk_good v → statics_ok rg →
  wp virtio_disk_init (λ _, init_outcome rg (d :: a :: u :: l) l (Virt k v t)) (Virt k v t).
Proof.
  intros Hk Hr Hgood Hst. unfold virtio_disk_init. virt_steps.
  destruct (decide (present v)) as [Hp|Hp].
  2: { unfold init_outcome. cbn [device vmach vst]. rewrite bool_decide_eq_false_2 by done.
    destruct (negb _ || _ || _ || _) eqn:E.
    - apply wp_virt_line; [done|]. intros. by split.
    - exfalso. apply Hp. unfold present. bsimp. lia. }
  pose proof Hp as (-> & -> & -> & ->). cbn [negb Z.eqb Pos.eqb orb andb]. virt_steps.
  apply wp_negotiate; [done..|]. intros v3 Hng. cbn [fst snd negb]. virt_steps.
  change (u32 0) with 0. rewrite (ng_max _ _ Hng).
  destruct (Z.leb_spec NUM (queue_max v)) as [Hq|Hq].
  - rewrite (proj2 (orb_false_iff _ _)) by (unfold NUM in *; split; bsimp; lia).
    virt_steps. eapply wp_setup_queue; [exact Hk|exact Hr|].
    apply wp_virt_line; [by eapply three_pages_kinv|]. intros k' Hh.
    assert (∀ p, p ∈ d :: a :: u :: l → 0 ≤ p < 2 ^ 64) as Hb.
    { intros q Hq'. apply (kinv_free _ _ _ Hk) in Hq' as [(_ & B1 & B2)%managed_ram _]. unfold PHYSTOP, PGSIZE, RAMBASE in *. lia. }
    destruct (ng_queue _ _ Hng d a u) as [Hsame Hlive]; [apply Hb; rewrite !elem_of_cons; auto..|done|].
    by apply init_up.
  - rewrite (proj2 (orb_true_iff _ _)) by (unfold NUM in *; right; bsimp; lia).
    apply wp_virt_line; [done|]. intros. unfold init_outcome. cbn [device vmach vst].
    rewrite (proj2 (Z.leb_gt _ _)), andb_false_r by done. split; [apply Hng|done].
Qed.

(** C20: initialisation. If the registers identify a block device whose queue 0
    has at least eight entries, the driver ends with three zeroed pages as its
    rings, known to the device, and its invariant holds, so every later transfer
    works ([virtio_disk_rw_transfers]); the allocator gave exactly these pages.
    Otherwise the driver stays off and memory and the allocator are unchanged.
    In no case the content of the disk changes. *)
Theorem virtio_disk_init_ready rg l s d a u :
  kinv rg (vmach s) (d :: a :: u :: l) → ready (vmach s) → blk_good (device s) → statics_ok rg →
  ∃ s', virtio_disk_init s = Done tt s' ∧ init_outcome rg (d :: a :: u :: l) l s s'.
Proof.
  intros Hk Hr Hg Hst. destruct s as [k v t].
  destruct (wp_run _ _ _ (wp_virtio_disk_init rg l k v t d a u Hk Hr Hg Hst)) as ([] & s' & E & O). eauto.
Qed.
End init.

#[local] Existing Instance demo_statics.

(** On the device of VirtioSpec.v, straight after reset. *)
Lemma virtio_disk_init_ready_witness :
  ∃ s s' : virt simblk, disk_ok (vst s) = 0 ∧ virtio_disk_init s = Done tt s' ∧ virt_good s' ∧
    blk_history (device s') = blk_history (device s).
Proof.
  destruct (demo_pages 100 ltac:(lia)) as (k & l & Hk & Hr & Hl).
  destruct l as [|d [|a [|u l]]]; [simpl in Hl; lia..|].
  set (s := Virt k (SimBlk ∅ false 0 64 (λ b, replicate 512 (u8 b)) []) (VStat 0 0 0 0 0)).
  destruct (virtio_disk_init_ready (PHYSTOP - PGSIZE * Z.of_nat 100, PHYSTOP) l s d a u) as (s' & H1 & (_ & _ & _ & H2) & H3).
  - exact Hk.
  - exact Hr.
  - apply (dk_good _ (proj1 (demo_virt_ok demo_dev))).
  - unfold statics_ok, sep, BSIZE, PHYSTOP, PGSIZE. split_and!; try reflexivity; cbn; lia.
  - exists s, s'. split; [reflexivity|]. split; [exact H1|].
    assert (bool_decide (present (device s)) && (NUM <=? queue_max (device s)) = true) as Hb by reflexivity.
    rewrite Hb in H3. split; [apply H3|exact H2].
Defined.

