(* ===== verification/NetDriver.v ===== *)
(** * The network device driver (src/net.c, the first half)

    The registers are those of Virtio.v, at an address that [net_init] finds by
    probing eight slots, so the offsets [reg_read] and [reg_write] get here are
    whole addresses. The receive queue owns eight buffers that the device fills
    whenever it likes; the driver looks when [eth_rx] is called. *)
From S2P Require Import Prelude Spinlock Uart Mem Kalloc Packet Net Virtio.

Definition MMIO_CONFIG : Z := 0x100.
Definition VIRTIO_NET_F_MAC : Z := 5.

(** [struct vq] *)
Record vq := Vq { q_desc : Z; q_avail : Z; q_used : Z; q_seen : Z }.

(** The statics of the driver. *)
Record nstat := NStat {
  net_base : Z; net_ok : Z; rxq : vq; txq : vq; rxbuf : list Z; txframe : Z; mac : list Z
}.

Definition with_net_base x t := NStat x (net_ok t) (rxq t) (txq t) (rxbuf t) (txframe t) (mac t).
Definition with_net_ok x t := NStat (net_base t) x (rxq t) (txq t) (rxbuf t) (txframe t) (mac t).
Definition with_rxq x t := NStat (net_base t) (net_ok t) x (txq t) (rxbuf t) (txframe t) (mac t).
Definition with_txq x t := NStat (net_base t) (net_ok t) (rxq t) x (rxbuf t) (txframe t) (mac t).
Definition with_rxbuf x t := NStat (net_base t) (net_ok t) (rxq t) (txq t) x (txframe t) (mac t).
Definition with_txframe x t := NStat (net_base t) (net_ok t) (rxq t) (txq t) (rxbuf t) x (mac t).
Definition with_mac x t := NStat (net_base t) (net_ok t) (rxq t) (txq t) (rxbuf t) (txframe t) x.
Definition with_seen x q := Vq (q_desc q) (q_avail q) (q_used q) x.

Record vnet (V : Type) := Vnet { nmach : machine; ndev : V; nst : nstat }.
Arguments Vnet {V}.
Arguments nmach {V}.
Arguments ndev {V}.
Arguments nst {V}.

#[export] Instance vnet_has_dev {V} : HasDev (vnet V) := {|
  dev_of s := mdev (nmach s); set_dev d s := Vnet (set_dev d (nmach s)) (ndev s) (nst s)
|}.
#[export] Instance vnet_has_dev_laws {V} : HasDevLaws (vnet V).
Proof. by split; intros; try destruct s as [[] ? ?]. Qed.

Section driver.
Context {V : Type} `{!VirtioDev V}.

Definition nm {A} (m : M machine A) : M (vnet V) A := zoom nmach (λ k s, Vnet k (ndev s) (nst s)) m.
Definition nset (f : nstat → nstat) : M (vnet V) unit := modify (λ s, Vnet (nmach s) (ndev s) (f (nst s))).

(** A 32-bit register at an absolute address, and [NR32(off)]. *)
Definition abs_R32 (a : Z) : M (vnet V) Z := gets (λ s, u32 (reg_read a (ndev s))).
Definition NR32 (off : Z) : M (vnet V) Z := gets (λ s, u32 (reg_read (net_base (nst s) + off) (ndev s))).
Definition NW32 (off v : Z) : M (vnet V) unit :=
  modify (λ s, Vnet (nmach s) (reg_write (net_base (nst s) + off) (u32 v) (ndev s)) (nst s)).
Definition net_acts : M (vnet V) unit := modify (λ s,
  let r := dma (ndev s) (mem (nmach s)) in Vnet (with_mem r.2 (nmach s)) r.1 (nst s)).

(** [copy(d, l, n)] for bytes that are passed by value, and back. *)
Definition copy_out (a : Z) (l : list Z) : M machine unit :=
  assertb (in_ram a (Z.of_nat (length l)));; modify (λ s, with_mem (write_bytes (mem s) a l) s).
Definition copy_in (a n : Z) : M machine (list Z) :=
  assertb ((0 <=? n) && in_ram a n);; gets (λ s, read_bytes (Z.to_nat n) (mem s) a).

(** The rings of queue [qidx]. *)
Definition setup_queue (qidx : Z) : M (vnet V) vq :=
  NW32 MMIO_QUEUE_SEL qidx;;
  d ← nm kalloc; a ← nm kalloc; u ← nm kalloc;
  nm (zero d 4096);; nm (zero a 4096);; nm (zero u 4096);;
  NW32 MMIO_QUEUE_NUM NUM;;
  NW32 MMIO_QUEUE_DESC_LO d;; NW32 MMIO_QUEUE_DESC_HI (Z.shiftr d 32);;
  NW32 MMIO_DRIVER_DESC_LO a;; NW32 MMIO_DRIVER_DESC_HI (Z.shiftr a 32);;
  NW32 MMIO_DEVICE_DESC_LO u;; NW32 MMIO_DEVICE_DESC_HI (Z.shiftr u 32);;
  NW32 MMIO_QUEUE_READY 1;;
  mret (Vq d a u 0).

Definition slot_base (i : Z) : Z := u64 (0x10001000 + i * 0x1000).

(** The loop over the slots, from slot [i] on. *)
Fixpoint find_net (n : nat) (i : Z) : M (vnet V) unit :=
  match n with
  | O => mret tt
  | S n =>
      let base := slot_base i in
      magic ← abs_R32 (base + MMIO_MAGIC); version ← abs_R32 (base + MMIO_VERSION); id ← abs_R32 (base + MMIO_DEVICE_ID);
      if negb (magic =? 0x74726976) || negb (version =? 2) || negb (id =? 1) then find_net n (i + 1)
      else nset (with_net_base base)
  end.

(** Reset, acknowledge, negotiate; the status written, and whether it was accepted. *)
Definition net_negotiate : M (vnet V) (Z * bool) :=
  NW32 MMIO_STATUS 0;;
  let status := S_ACKNOWLEDGE in NW32 MMIO_STATUS status;;
  let status := Z.lor status S_DRIVER in NW32 MMIO_STATUS status;;
  NW32 MMIO_DEVICE_FEAT_SEL 0;;
  lo ← NR32 MMIO_DEVICE_FEAT;
  let lo := Z.land lo (Z.shiftl 1 VIRTIO_NET_F_MAC) in
  NW32 MMIO_DRIVER_FEAT_SEL 0;;
  NW32 MMIO_DRIVER_FEAT lo;;
  NW32 MMIO_DEVICE_FEAT_SEL 1;;
  hi ← NR32 MMIO_DEVICE_FEAT;
  let hi := Z.land hi 1 in
  NW32 MMIO_DRIVER_FEAT_SEL 1;;
  NW32 MMIO_DRIVER_FEAT hi;;
  let status := Z.lor status S_FEATURES_OK in NW32 MMIO_STATUS status;;
  accepted ← NR32 MMIO_STATUS;
  mret (status, negb (Z.land accepted S_FEATURES_OK =? 0)).

(** Buffer [i] for receiving: into the descriptor and the available ring. *)
Definition give_buffer (q : vq) (i : Z) : M (vnet V) unit :=
  b ← nm kalloc;
  nset (λ t, with_rxbuf (<[Z.to_nat i := b]> (rxbuf t)) t);;
  nm (put_desc (q_desc q) i b (Z.of_nat BUFSZ) VRING_DESC_F_WRITE 0);;
  nm (store_n 2 (q_avail q + 4 + 2 * i) i).

Definition net_init : M (vnet V) Z :=
  find_net 8 0;;
  base ← gets (λ s, net_base (nst s));
  if base =? 0 then uart_line "[net] no virtio-net device";; mret (-1)
  else
    r ← net_negotiate;
    if negb r.2 then uart_line "[net] FEATURES_OK rejected";; mret (-1)
    else
      m ← gets (λ s, map (λ i, u8 (reg_read (net_base (nst s) + MMIO_CONFIG + i) (ndev s))) (seqZ 0 6));
      nset (with_mac m);;
      rq ← setup_queue 0; nset (with_rxq rq);;
      tq ← setup_queue 1; nset (with_txq tq);;
      for_n (Z.to_nat NUM) 0 (give_buffer rq);;
      nm (store_n 2 (q_avail rq + 2) NUM);;
      f ← nm kalloc; nset (with_txframe f);;
      NW32 MMIO_STATUS (Z.lor r.1 S_DRIVER_OK);;
      NW32 MMIO_QUEUE_NOTIFY 0;;
      nset (with_net_ok 1);;
      uart_str "[ok] virtio-net ready, mac ";; print_mac m;; uart_putc 10;;
      mret 0.

(** The frame behind the header of [virtio_net_hdr], in [txframe]. *)
Definition build_frame (t : nstat) (dst : list Z) (ethertype : Z) (payload : list Z) : M machine unit :=
  let eth := txframe t + Z.of_nat NETHDR in
  zero (txframe t) (Z.of_nat NETHDR);;
  copy_out eth (take 6 dst);;
  copy_out (eth + 6) (take 6 (mac t));;
  copy_out (eth + 12) (be16 (u16 ethertype));;
  copy_out (eth + 14) payload.

(** Index [v] at the next entry of the available ring. *)
Definition post (q : vq) (v : Z) : M machine unit :=
  idx ← load_n 2 (q_avail q + 2);
  store_n 2 (q_avail q + 4 + 2 * (idx mod NUM)) v;;
  idx ← load_n 2 (q_avail q + 2);
  store_n 2 (q_avail q + 2) (idx + 1).

Definition post_frame (t : nstat) (plen : Z) : M machine unit :=
  put_desc (q_desc (txq t)) 0 (txframe t) (Z.of_nat NETHDR + 14 + plen) 0 0;;
  post (txq t) 0.

(** Polls before [eth_tx] gives up. *)
Definition TX_SPINS : Z := 200000000.

(** [for (spin = 0; used->idx == used_seen; spin++) if (spin > ...) return -1;]
    and the result is whether the frame was sent. *)
Definition wait_sent : M (vnet V) bool :=
  loop (Z.to_nat TX_SPINS + 2) (λ spin,
    net_acts;;
    q ← gets (λ s, txq (nst s));
    idx ← nm (load_n 2 (q_used q + 2));
    mret (if idx =? q_seen q then if TX_SPINS <? spin then inr false else inl (spin + 1) else inr true)) 0.

Definition eth_tx (dst : list Z) (ethertype : Z) (payload : list Z) : M (vnet V) Z :=
  t ← gets nst;
  if net_ok t =? 0 then mret (-1)
  else
    nm (build_frame t dst ethertype payload);;
    nm (post_frame t (Z.of_nat (length payload)));;
    NW32 MMIO_QUEUE_NOTIFY 1;;
    sent ← wait_sent;
    if negb sent then mret (-1)
    else
      idx ← nm (load_n 2 (q_used (txq t) + 2));
      nset (λ t, with_txq (with_seen idx (txq t)) t);;
      mret 0.

(** [out] before, and the length and [out] after. *)
Definition eth_rx (out : list Z) (max : nat) : M (vnet V) (Z * list Z) :=
  t ← gets nst;
  if net_ok t =? 0 then mret (-1, out)
  else
    net_acts;;
    let q := rxq t in
    idx ← nm (load_n 2 (q_used q + 2));
    if idx =? q_seen q then mret (0, out)
    else
      let e := q_used q + 4 + 8 * (q_seen q mod NUM) in
      id ← nm (load_n 4 e);
      len ← nm (load_n 4 (e + 4));
      r ← (if Z.of_nat NETHDR <? len then
             let flen := Z.min (i32 (len - Z.of_nat NETHDR)) (Z.of_nat max) in
             b ← of_option (rxbuf t !! Z.to_nat id);
             l ← nm (copy_in (b + Z.of_nat NETHDR) flen);
             mret (flen, l ++ drop (length l) out)
           else mret (0, out));
      nset (λ t, with_rxq (with_seen (u16 (q_seen q + 1)) (rxq t)) t);;
      nm (post q id);;
      NW32 MMIO_QUEUE_NOTIFY 0;;
      mret r.
End driver.
