(* ===== verification/NetDriverSpec.v ===== *)
(** * The network device driver implements a queue in and a queue out

    [nstep] is what the virtio specification lets a network device do to memory:
    take a buffer the driver offers, fill one it has taken, send the frame the
    driver posted. Every act of the device is a sequence of such steps, in an
    order the driver does not control. Against any such device [eth_rx] returns
    the frames in the order they arrived and [eth_tx] puts exactly one frame on
    the wire, for ever: buffers are recycled and the 16-bit indices wrap. *)
From stdpp Require Import relations.
From S2P Require Import Prelude Spinlock Uart Mem Kalloc PageTable AddrSpace Packet Net Virtio VirtioSpec NetDriver.

(** ** The device *)

(** What the device knows: where its registers and the two queues are, how many
    entries of the receive queue it has taken and which of their buffers it
    still holds, and all data received and sent so far. *)
Record netdev := NetDev {
  g_base : Z; g_rx : Z * Z * Z; g_tx : Z * Z * Z;
  g_next : Z; g_held : list Z; g_log : list (list Z); g_wire : list (list Z)
}.

(** Element [k] of the used ring at [u], and its index behind it. *)
Definition used_put (u k id len : Z) (m : gmap Z Z) : gmap Z Z :=
  stn 2 (stn 4 (stn 4 m (u + 4 + 8 * (k mod NUM)) id) (u + 4 + 8 * (k mod NUM) + 4) len) (u + 2) (u16 (k + 1)).

Inductive nstep : netdev * gmap Z Z → netdev * gmap Z Z → Prop :=
| ns_take b d a u tx n held log wire m :
    ldn 2 m (a + 2) ≠ u16 n →
    nstep (NetDev b (d, a, u) tx n held log wire, m)
          (NetDev b (d, a, u) tx (n + 1) (held ++ [ldn 2 m (a + 4 + 2 * (n mod NUM))]) log wire, m)
| ns_recv b d a u tx n h1 id h2 log wire m addr len next l :
    desc_at m d id = (addr, len, VRING_DESC_F_WRITE, next) → Forall is_byte l → Z.of_nat (length l) ≤ len →
    nstep (NetDev b (d, a, u) tx n (h1 ++ id :: h2) log wire, m)
          (NetDev b (d, a, u) tx n (h1 ++ h2) (log ++ [l]) wire,
           used_put u (Z.of_nat (length log)) id (Z.of_nat (length l)) (write_bytes m addr l))
| ns_send b rx d a u n held log wire m addr len next :
    ldn 2 m (a + 2) ≠ u16 (Z.of_nat (length wire)) →
    let head := ldn 2 m (a + 4 + 2 * (Z.of_nat (length wire) mod NUM)) in
    desc_at m d head = (addr, len, 0, next) →
    nstep (NetDev b rx (d, a, u) n held log wire, m)
          (NetDev b rx (d, a, u) n held log (wire ++ [read_bytes (Z.to_nat len) m addr]),
           used_put u (Z.of_nat (length wire)) head 0 m).

(** ** Pages *)

Definition same_on (P : list Z) (m m' : gmap Z Z) : Prop := ∀ p x, p ∈ P → in_page p x → ld8 m' x = ld8 m x.
(** Only bytes of the page changed. *)
Definition inside (p : Z) (m m' : gmap Z Z) : Prop := ∀ x, ¬ in_page p x → ld8 m' x = ld8 m x.

#[export] Instance inside_preorder p : PreOrder (inside p).
Proof. split; [by intros m x|]. intros m1 m2 m3 H1 H2 x Hx. by rewrite H2, H1. Qed.
#[export] Instance same_on_preorder P : PreOrder (same_on P).
Proof. split; [by intros m p x|]. intros m1 m2 m3 H1 H2 p x Hp Hx. by rewrite (H2 p), (H1 p). Qed.

Lemma inside_same p P m m' : page_aligned p → Forall page_aligned P → p ∉ P → inside p m m' → same_on P m m'.
Proof.
  intros Hp HP Hn Hi q x Hq Hx. apply Hi. rewrite Forall_forall in HP.
  apply (in_page_ne q p); [by apply HP|done|by intros ->|done].
Qed.

Lemma inside_write p m a l : p ≤ a → a + Z.of_nat (length l) ≤ p + PGSIZE → inside p m (write_bytes m a l).
Proof. intros H1 H2 x Hx. apply ld8_write_ne. unfold in_page in Hx. lia. Qed.

Lemma inside_stn p n m a v : p ≤ a → a + Z.of_nat n ≤ p + PGSIZE → inside p m (stn n m a v).
Proof. intros H1 H2. apply inside_write; [done|]. by rewrite length_le_bytes. Qed.

Lemma mod8 k : 0 ≤ k mod NUM < 8.
Proof. by apply Z.mod_pos_bound. Qed.

Lemma inside_used u k id len m : inside u m (used_put u k id len m).
Proof.
  pose proof (mod8 k). unfold used_put. repeat (etrans; [|apply inside_stn; unfold PGSIZE; lia]). done.
Qed.

Lemma ldn_same n P p o m m' : same_on P m m' → p ∈ P → 0 ≤ o → o + Z.of_nat n ≤ PGSIZE → ldn n m' (p + o) = ldn n m (p + o).
Proof. intros Hs Hp H1 H2. apply ldn_ext. intros x Hx. apply (Hs p); [done|]. unfold in_page. lia. Qed.

Lemma same_on_sub P Q m m' : Q ⊆ P → same_on P m m' → same_on Q m m'.
Proof. intros HQ Hs p x Hp. apply Hs. by apply HQ. Qed.

Lemma u16_mod8 k : u16 k mod NUM = k mod NUM.
Proof. unfold u16, NUM. apply Z.mod_mod_divide. by exists 8192. Qed.

Lemma u16_near x y : x ≤ y → y ≤ x + 8 → u16 x = u16 y → x = y.
Proof. unfold u16. intros. Z.to_euclidean_division_equations. lia. Qed.

(** The used ring after an element was put. *)
Lemma used_idx u k id len m : ldn 2 (used_put u k id len m) (u + 2) = u16 (k + 1).
Proof. apply ldn_stn_eq. by apply Z.mod_pos_bound. Qed.

Lemma used_elem u k id len m : 0 ≤ id < 2 ^ 32 → 0 ≤ len < 2 ^ 32 →
  ldn 4 (used_put u k id len m) (u + 4 + 8 * (k mod NUM)) = id ∧ ldn 4 (used_put u k id len m) (u + 4 + 8 * (k mod NUM) + 4) = len.
Proof.
  intros H1 H2. pose proof (mod8 k). unfold used_put. rewrite !(ldn_stn_ne 4 2) by lia. split.
  - rewrite ldn_stn_ne by lia. by apply ldn_stn_eq.
  - by apply ldn_stn_eq.
Qed.

Lemma used_other u k id len m j n o : j mod NUM ≠ k mod NUM → 0 ≤ o → o + Z.of_nat n ≤ 8 →
  ldn n (used_put u k id len m) (u + 4 + 8 * (j mod NUM) + o) = ldn n m (u + 4 + 8 * (j mod NUM) + o).
Proof. intros Hj H1 H2. pose proof (mod8 k). pose proof (mod8 j). unfold used_put. rewrite !ldn_stn_ne by lia. done. Qed.

Lemma mod8_ne j k : j < k → k < j + 8 → j mod NUM ≠ k mod NUM.
Proof. unfold NUM. intros. Z.to_euclidean_division_equations. lia. Qed.

(** ** The driver's invariant *)

Definition rx_pages (t : nstat) : list Z := q_desc (rxq t) :: q_avail (rxq t) :: q_used (rxq t) :: rxbuf t.
Definition tx_pages (t : nstat) : list Z := [q_desc (txq t); q_avail (txq t); q_used (txq t); txframe t].
Definition net_pages (t : nstat) : list Z := rx_pages t ++ tx_pages t.

Record pages_ok (t : nstat) : Prop := {
  pg_ram : Forall ram_page (net_pages t);
  pg_nodup : NoDup (net_pages t);
  pg_bufs : length (rxbuf t) = 8%nat;
}.

Definition buf (t : nstat) (id : Z) : Z := default 0 (rxbuf t !! Z.to_nat id).

(** The buffers in entries [n] to [n + c - 1] of the available ring, and of the
    used ring. *)
Definition av_ids (a : Z) (m : gmap Z Z) (n c : Z) : list Z := (λ k, ldn 2 m (a + 4 + 2 * (k mod NUM))) <$> seqZ n c.
Definition us_ids (u : Z) (m : gmap Z Z) (n c : Z) : list Z := (λ k, ldn 4 m (u + 4 + 8 * (k mod NUM))) <$> seqZ n c.

Lemma av_ids_ext a m m' n c :
  (∀ k, n ≤ k < n + c → ldn 2 m' (a + 4 + 2 * (k mod NUM)) = ldn 2 m (a + 4 + 2 * (k mod NUM))) → av_ids a m' n c = av_ids a m n c.
Proof. intros Hk. apply list_fmap_ext. intros i k Hi%list_elem_of_lookup_2. apply elem_of_seqZ in Hi. by apply Hk. Qed.

Lemma us_ids_ext u m m' n c :
  (∀ k, n ≤ k < n + c → ldn 4 m' (u + 4 + 8 * (k mod NUM)) = ldn 4 m (u + 4 + 8 * (k mod NUM))) → us_ids u m' n c = us_ids u m n c.
Proof. intros Hk. apply list_fmap_ext. intros i k Hi%list_elem_of_lookup_2. apply elem_of_seqZ in Hi. by apply Hk. Qed.

(** The receive queue after [d] frames were delivered: each of the eight buffers
    is held by the device, or offered, or filled and not delivered yet, and those
    hold the data behind the first [d] of the log. *)
Record rx_ok (t : nstat) (n : Z) (held : list Z) (log : list (list Z)) (d : nat) (m : gmap Z Z) : Prop := {
  rx_avail : ldn 2 m (q_avail (rxq t) + 2) = u16 (Z.of_nat d + 8);
  rx_used : ldn 2 m (q_used (rxq t) + 2) = u16 (Z.of_nat (length log));
  rx_next : n ≤ Z.of_nat d + 8;
  rx_done : (d ≤ length log)%nat;
  rx_desc i : 0 ≤ i < 8 → desc_at m (q_desc (rxq t)) i = (buf t i, Z.of_nat BUFSZ, VRING_DESC_F_WRITE, 0);
  rx_ids : held ++ av_ids (q_avail (rxq t)) m n (Z.of_nat d + 8 - n)
    ++ us_ids (q_used (rxq t)) m (Z.of_nat d) (Z.of_nat (length log) - Z.of_nat d) ≡ₚ seqZ 0 8;
  rx_elem k l : (d ≤ k)%nat → log !! k = Some l →
    let e := q_used (rxq t) + 4 + 8 * (Z.of_nat k mod NUM) in
    ldn 4 m (e + 4) = Z.of_nat (length l) ∧ (length l ≤ BUFSZ)%nat ∧ read_bytes (length l) m (buf t (ldn 4 m e)) = l;
  rx_bytes : Forall (Forall is_byte) log;
}.

(** The send queue at rest, with [sent] sent. *)
Record tx_idle (t : nstat) (sent wire : list (list Z)) (m : gmap Z Z) : Prop := {
  ti_wire : wire = sent;
  ti_avail : ldn 2 m (q_avail (txq t) + 2) = u16 (Z.of_nat (length wire));
  ti_used : ldn 2 m (q_used (txq t) + 2) = u16 (Z.of_nat (length wire));
}.

(** The data [l] posted behind [w], sent or not. *)
Record tx_busy (t : nstat) (w : list (list Z)) (l : list Z) (wire : list (list Z)) (m : gmap Z Z) : Prop := {
  tb_avail : ldn 2 m (q_avail (txq t) + 2) = u16 (Z.of_nat (length w) + 1);
  tb_used : ldn 2 m (q_used (txq t) + 2) = u16 (Z.of_nat (length wire));
  tb_ring : ldn 2 m (q_avail (txq t) + 4 + 2 * (Z.of_nat (length w) mod NUM)) = 0;
  tb_desc : desc_at m (q_desc (txq t)) 0 = (txframe t, Z.of_nat (length l), 0, 0);
  tb_data : read_bytes (length l) m (txframe t) = l;
  tb_fits : (length l ≤ Z.to_nat PGSIZE)%nat;
  tb_wire : wire = w ∨ wire = w ++ [l];
}.

Section pages.
Context (t : nstat) (Hpg : pages_ok t).

Lemma net_aligned : Forall page_aligned (net_pages t).
Proof. eapply Forall_impl; [apply (pg_ram _ Hpg)|]. by intros p []. Qed.

Lemma inside_net p P m m' : p ∈ net_pages t → P ⊆ net_pages t → p ∉ P → inside p m m' → same_on P m m'.
Proof.
  intros Hp HP Hn. pose proof net_aligned as Hal. rewrite Forall_forall in Hal.
  apply inside_same; [by apply Hal| |done]. apply Forall_forall. intros q Hq. by apply Hal, HP.
Qed.

Lemma rx_sub : rx_pages t ⊆ net_pages t.
Proof. intros p Hp. unfold net_pages. apply elem_of_app. by left. Qed.
Lemma tx_sub : tx_pages t ⊆ net_pages t.
Proof. intros p Hp. unfold net_pages. apply elem_of_app. by right. Qed.

Lemma rx_not_tx p : p ∈ rx_pages t → p ∉ tx_pages t.
Proof. pose proof (pg_nodup _ Hpg) as Hnd. apply NoDup_app in Hnd as (_ & H & _). apply H. Qed.

Lemma buf_in i : 0 ≤ i < 8 → buf t i ∈ rxbuf t.
Proof.
  intros Hi. pose proof (pg_bufs _ Hpg). unfold buf. destruct (lookup_lt_is_Some_2 (rxbuf t) (Z.to_nat i)) as [b Hb]; [lia|].
  rewrite Hb. by eapply list_elem_of_lookup_2.
Qed.

Lemma buf_inj i j : 0 ≤ i < 8 → 0 ≤ j < 8 → buf t i = buf t j → i = j.
Proof.
  intros Hi Hj. pose proof (pg_bufs _ Hpg). unfold buf.
  destruct (lookup_lt_is_Some_2 (rxbuf t) (Z.to_nat i)) as [b Hb]; [lia|].
  destruct (lookup_lt_is_Some_2 (rxbuf t) (Z.to_nat j)) as [b' Hb']; [lia|]. rewrite Hb, Hb'. simpl. intros <-.
  pose proof (pg_nodup _ Hpg) as Hnd. apply NoDup_app in Hnd as (Hnd & _). unfold rx_pages in Hnd.
  rewrite !NoDup_cons in Hnd. destruct Hnd as (_ & _ & _ & Hnd).
  enough (Z.to_nat i = Z.to_nat j) by lia. by eapply NoDup_lookup.
Qed.

Lemma buf_page i : 0 ≤ i < 8 → buf t i ∈ rx_pages t.
Proof. intros. unfold rx_pages. rewrite !elem_of_cons. right; right; right. by apply buf_in. Qed.

Lemma rx_id_range n held log d m id : rx_ok t n held log d m →
  id ∈ held ++ av_ids (q_avail (rxq t)) m n (Z.of_nat d + 8 - n)
    ++ us_ids (q_used (rxq t)) m (Z.of_nat d) (Z.of_nat (length log) - Z.of_nat d) → 0 ≤ id < 8.
Proof. intros Hrx. rewrite (rx_ids _ _ _ _ _ _ Hrx), elem_of_seqZ. lia. Qed.

(** The id of a filled buffer. *)
Lemma us_id_range n held log d m k : rx_ok t n held log d m → (d ≤ k < length log)%nat →
  0 ≤ ldn 4 m (q_used (rxq t) + 4 + 8 * (Z.of_nat k mod NUM)) < 8.
Proof.
  intros Hrx Hk. eapply rx_id_range; [exact Hrx|]. rewrite !elem_of_app. right; right.
  unfold us_ids. apply list_elem_of_fmap. exists (Z.of_nat k). split; [done|]. apply elem_of_seqZ. lia.
Qed.

(** How the eight buffers are spread. *)
Lemma rx_count n held log d m : rx_ok t n held log d m →
  Z.of_nat (length held) + (Z.of_nat d + 8 - n) + (Z.of_nat (length log) - Z.of_nat d) = 8.
Proof.
  intros Hrx. pose proof (Permutation_length (rx_ids _ _ _ _ _ _ Hrx)) as Hlen.
  unfold av_ids, us_ids in Hlen. rewrite !length_app, !length_fmap, !length_seqZ in Hlen. pose proof (rx_next _ _ _ _ _ _ Hrx). pose proof (rx_done _ _ _ _ _ _ Hrx). lia.
Qed.

Lemma same_desc P m m' d i : same_on P m m' → d ∈ P → 0 ≤ i < 8 → desc_at m' d i = desc_at m d i.
Proof. intros Hs Hd Hi. unfold desc_at. rewrite <- !Z.add_assoc. by rewrite !(ldn_same _ P _ _ m m') by (done || unfold PGSIZE; lia). Qed.

Lemma same_bytes P m m' p n : same_on P m m' → p ∈ P → (n ≤ Z.to_nat PGSIZE)%nat → read_bytes n m' p = read_bytes n m p.
Proof. intros Hs Hp Hn. apply read_bytes_ext. intros x Hx. apply (Hs p); [done|]. unfold in_page, PGSIZE in *. lia. Qed.

Lemma rx_ok_ext n held log d m m' : same_on (rx_pages t) m m' → rx_ok t n held log d m → rx_ok t n held log d m'.
Proof.
  intros Hs Hrx. pose proof Hrx as [R1 R2 R3 R4 R5 R6 R7 R8].
  assert (∀ p, p ∈ [q_desc (rxq t); q_avail (rxq t); q_used (rxq t)] → p ∈ rx_pages t) as Hin.
  { intros p. unfold rx_pages. rewrite !elem_of_cons, elem_of_nil. tauto. }
  assert (∀ n p o, p ∈ [q_desc (rxq t); q_avail (rxq t); q_used (rxq t)] → 0 ≤ o → o + Z.of_nat n ≤ PGSIZE → ldn n m' (p + o) = ldn n m (p + o)) as Hld.
  { intros. eapply ldn_same; [exact Hs|by apply Hin|done..]. }
  assert (∀ k, ldn 2 m' (q_avail (rxq t) + 4 + 2 * (k mod NUM)) = ldn 2 m (q_avail (rxq t) + 4 + 2 * (k mod NUM))) as Hav.
  { intros k. pose proof (mod8 k). rewrite <- !Z.add_assoc. apply Hld; [set_solver|lia|unfold PGSIZE; lia]. }
  assert (∀ k, ldn 4 m' (q_used (rxq t) + 4 + 8 * (k mod NUM)) = ldn 4 m (q_used (rxq t) + 4 + 8 * (k mod NUM))) as Hus.
  { intros k. pose proof (mod8 k). rewrite <- !Z.add_assoc. apply Hld; [set_solver|lia|unfold PGSIZE; lia]. }
  split; try done.
  - rewrite Hld; [done|set_solver|lia|unfold PGSIZE; lia].
  - rewrite Hld; [done|set_solver|lia|unfold PGSIZE; lia].
  - intros i Hi. rewrite <- R5 by done. eapply same_desc; [exact Hs|apply Hin; set_solver|done].
  - rewrite <- R6. by rewrite (av_ids_ext _ m m'), (us_ids_ext _ m m') by auto.
  - intros k l Hk Hl e. destruct (R7 k l Hk Hl) as (E1 & E2 & E3). pose proof (mod8 (Z.of_nat k)). unfold e. rewrite Hus. split_and!; [|done|].
    + rewrite <- E1, <- !Z.add_assoc. apply Hld; [set_solver|lia|unfold PGSIZE; lia].
    + rewrite <- E3 at 2. eapply same_bytes; [exact Hs| |unfold BUFSZ, PGSIZE in *; lia].
      eapply buf_page, us_id_range; [exact Hrx|]. apply lookup_lt_Some in Hl. lia.
Qed.
End pages.

Lemma seqZ_first n c : 0 < c → seqZ n c = n :: seqZ (n + 1) (c - 1).
Proof. intros. rewrite seqZ_cons by done. f_equal. Qed.
Lemma seqZ_last n c : 0 ≤ c → seqZ n (c + 1) = seqZ n c ++ [n + c].
Proof. intros. replace (c + 1) with (Z.of_nat (S (Z.to_nat c))) by lia. rewrite seqZ_S. by rewrite !Z2Nat.id. Qed.

(** ** A step of the device keeps the invariant *)

Section steps.
Context (t : nstat) (Hpg : pages_ok t).

Lemma rx_take n held log d m : rx_ok t n held log d m → ldn 2 m (q_avail (rxq t) + 2) ≠ u16 n →
  rx_ok t (n + 1) (held ++ [ldn 2 m (q_avail (rxq t) + 4 + 2 * (n mod NUM))]) log d m.
Proof.
  intros [R1 R2 R3 R4 R5 R6 R7 R8] Hn. rewrite R1 in Hn.
  assert (n < Z.of_nat d + 8) by (destruct (decide (n = Z.of_nat d + 8)) as [->|]; [done|lia]).
  split; try done; [lia|]. rewrite <- R6, <- app_assoc. f_equiv. unfold av_ids. rewrite (seqZ_first n) by lia.
  cbn [fmap list_fmap app]. by replace (Z.of_nat d + 8 - (n + 1)) with (Z.of_nat d + 8 - n - 1) by lia.
Qed.

Lemma used_in_page k : q_used (rxq t) ∈ rx_pages t ∧ 0 ≤ 4 + 8 * (k mod NUM) ∧ 4 + 8 * (k mod NUM) + 8 ≤ PGSIZE.
Proof. pose proof (mod8 k). split; [unfold rx_pages; rewrite !elem_of_cons; auto|]. unfold PGSIZE. lia. Qed.

Lemma rx_distinct id : 0 ≤ id < 8 →
  q_desc (rxq t) ≠ q_used (rxq t) ∧ q_avail (rxq t) ≠ q_used (rxq t) ∧ q_desc (rxq t) ≠ q_avail (rxq t) ∧
  q_desc (rxq t) ≠ buf t id ∧ q_avail (rxq t) ≠ buf t id ∧ q_used (rxq t) ≠ buf t id.
Proof.
  intros Hid. pose proof (buf_in t Hpg id Hid) as Hb. pose proof (pg_nodup _ Hpg) as Hnd.
  apply NoDup_app in Hnd as (Hnd & _). unfold rx_pages in Hnd. rewrite !NoDup_cons, !not_elem_of_cons in Hnd.
  destruct Hnd as ((? & ? & H1) & (? & H2) & H3 & _). split_and!; try done; intros E; [apply H1|apply H2|apply H3]; by rewrite E.
Qed.

(** Data arrives: what it leaves of the pages. *)
Lemma recv_same_on k D id l m p : 0 ≤ id < 8 → (length l ≤ BUFSZ)%nat → p ∈ net_pages t → p ≠ q_used (rxq t) → p ≠ buf t id →
  same_on [p] m (used_put (q_used (rxq t)) D id k (write_bytes m (buf t id) l)).
Proof.
  intros Hid Hl Hp N1 N2. assert (∀ x, x ∈ [p] → x ∈ net_pages t) as Hin by (by intros x ->%list_elem_of_singleton).
  transitivity (write_bytes m (buf t id) l).
  - apply (inside_net t Hpg (buf t id)); [by apply rx_sub, buf_page|done|by rewrite list_elem_of_singleton|].
    apply inside_write; unfold BUFSZ, PGSIZE in *; lia.
  - apply (inside_net t Hpg (q_used (rxq t))); [apply rx_sub, (used_in_page 0)|done|by rewrite list_elem_of_singleton|apply inside_used].
Qed.

Lemma recv_same k D id l m p o n : 0 ≤ id < 8 → (length l ≤ BUFSZ)%nat → p ∈ net_pages t → p ≠ q_used (rxq t) → p ≠ buf t id →
  0 ≤ o → o + Z.of_nat n ≤ PGSIZE →
  ldn n (used_put (q_used (rxq t)) D id k (write_bytes m (buf t id) l)) (p + o) = ldn n m (p + o).
Proof. intros. eapply (ldn_same n [p]); [by apply recv_same_on|by left|done|done]. Qed.

(** The data is in the buffer. *)
Lemma recv_data k D id l m : 0 ≤ id < 8 → (length l ≤ BUFSZ)%nat → Forall is_byte l →
  read_bytes (length l) (used_put (q_used (rxq t)) D id k (write_bytes m (buf t id) l)) (buf t id) = l.
Proof.
  intros Hid Hl Hb. rewrite <- (read_write_eq m (buf t id) l Hb) at 3.
  eapply (same_bytes [buf t id]); [|by left|unfold BUFSZ, PGSIZE in *; lia].
  apply (inside_net t Hpg (q_used (rxq t))); [apply rx_sub, (used_in_page 0)| | |apply inside_used].
  - intros x ->%list_elem_of_singleton. by apply rx_sub, buf_page.
  - rewrite list_elem_of_singleton. by apply (rx_distinct id Hid).
Qed.

(** The other elements of the used ring. *)
Lemma recv_elem j D id len l m n o : 0 ≤ id < 8 → (length l ≤ BUFSZ)%nat → j mod NUM ≠ D mod NUM → 0 ≤ o → o + Z.of_nat n ≤ 8 →
  ldn n (used_put (q_used (rxq t)) D id len (write_bytes m (buf t id) l)) (q_used (rxq t) + 4 + 8 * (j mod NUM) + o) =
  ldn n m (q_used (rxq t) + 4 + 8 * (j mod NUM) + o).
Proof.
  intros Hid Hl Hj O1 O2. rewrite used_other by done. pose proof (mod8 j). rewrite <- !Z.add_assoc.
  eapply (ldn_same n [q_used (rxq t)]); [|by left|lia|unfold PGSIZE; lia].
  apply (inside_net t Hpg (buf t id)); [by apply rx_sub, buf_page| | |apply inside_write; unfold BUFSZ, PGSIZE in *; lia].
  - intros x ->%list_elem_of_singleton. apply rx_sub, (used_in_page 0).
  - rewrite list_elem_of_singleton. intros E. by apply (rx_distinct id Hid).
Qed.

(** A buffer with data is not one the device holds. *)
Lemma us_held n held log d m id k : rx_ok t n held log d m → id ∈ held → (d ≤ k < length log)%nat →
  ldn 4 m (q_used (rxq t) + 4 + 8 * (Z.of_nat k mod NUM)) ≠ id.
Proof.
  intros Hrx Hid Hk E. assert (NoDup (seqZ 0 8)) as Hnd by apply NoDup_seqZ.
  rewrite <- (rx_ids _ _ _ _ _ _ Hrx) in Hnd. apply NoDup_app in Hnd as (_ & Hn & _). apply (Hn id Hid).
  apply elem_of_app. right. unfold us_ids. rewrite list_elem_of_fmap. exists (Z.of_nat k). split; [done|]. apply elem_of_seqZ. lia.
Qed.

Lemma rx_recv n h1 id h2 log d m l : rx_ok t n (h1 ++ id :: h2) log d m → Forall is_byte l → (length l ≤ BUFSZ)%nat →
  rx_ok t n (h1 ++ h2) (log ++ [l]) d
    (used_put (q_used (rxq t)) (Z.of_nat (length log)) id (Z.of_nat (length l)) (write_bytes m (buf t id) l)).
Proof.
  intros Hrx Hb Hl. pose proof (rx_count t _ _ _ _ _ Hrx) as Hcount. rewrite length_app in Hcount. cbn [length] in Hcount.
  assert (0 ≤ id < 8) as Hid by (eapply rx_id_range; [exact Hrx|rewrite !elem_of_app; left; right; by left]).
  destruct (rx_distinct id Hid) as (N1 & N2 & _ & N3 & N4 & N5). pose proof Hrx as [R1 R2 R3 R4 R5 R6 R7 R8].
  set (u := q_used (rxq t)) in *. set (D := Z.of_nat (length log)) in *. set (m' := used_put u D id _ _).
  assert (q_desc (rxq t) ∈ net_pages t ∧ q_avail (rxq t) ∈ net_pages t) as [I1 I2] by (split; apply rx_sub; unfold rx_pages; rewrite !elem_of_cons; auto).
  assert (∀ k, Z.of_nat d ≤ k < D → k mod NUM ≠ D mod NUM) as Hslot by (intros; apply mod8_ne; lia).
  assert (Z.of_nat (length l) < 2 ^ 32) as Hl32 by (unfold BUFSZ in Hl; lia).
  destruct (used_elem u D id (Z.of_nat (length l)) (write_bytes m (buf t id) l)) as [E1 E2]; [lia|lia|]. fold m' in E1, E2.
  split; rewrite ?length_app; cbn [length].
  - unfold m'. by rewrite recv_same by (done || unfold PGSIZE; lia).
  - unfold m'. rewrite used_idx. f_equal. lia.
  - done.
  - lia.
  - intros i Hi. unfold m', desc_at. rewrite <- !Z.add_assoc. rewrite !recv_same by (done || unfold PGSIZE; lia).
    rewrite !Z.add_assoc. by apply R5.
  - rewrite (av_ids_ext _ m) by (intros k _; pose proof (mod8 k); unfold m'; rewrite <- !Z.add_assoc; apply recv_same; done || unfold PGSIZE; lia).
    replace (Z.of_nat (length log + 1) - Z.of_nat d) with (D - Z.of_nat d + 1) by lia.
    unfold us_ids. rewrite seqZ_last, fmap_app by lia. cbn [fmap list_fmap]. replace (Z.of_nat d + (D - Z.of_nat d)) with D by lia.
    fold u; fold (us_ids u m' (Z.of_nat d) (D - Z.of_nat d)). rewrite E1.
    rewrite (us_ids_ext _ m).
    + rewrite <- R6. rewrite <- !app_assoc. solve_Permutation.
    + intros k Hk. unfold m'. rewrite <- (Z.add_0_r (u + 4 + _)). apply recv_elem; try done. apply Hslot. lia.
  - intros k x Hk Hx. fold u. set (e := u + 4 + 8 * (Z.of_nat k mod NUM)). apply lookup_app_Some in Hx as [Hx|[Hx1 Hx2]].
    + pose proof (lookup_lt_Some _ _ _ Hx) as Hlt. assert (Z.of_nat k mod NUM ≠ D mod NUM) as Hs by (apply Hslot; lia).
      destruct (R7 k x Hk Hx) as (F1 & F2 & F3). assert (ldn 4 m' e = ldn 4 m e) as He.
      { unfold e, m'. rewrite <- (Z.add_0_r (u + 4 + _)). by apply recv_elem. }
      split_and!; [unfold e, m'; rewrite recv_elem; done|done|]. rewrite He.
      transitivity (read_bytes (length x) m (buf t (ldn 4 m e))); [|exact F3].
      pose proof (us_id_range t _ _ _ _ _ k Hrx ltac:(lia)) as Hr. fold u e in Hr.
      assert (ldn 4 m e ≠ id) as Hne by (apply (us_held _ _ _ _ _ _ k Hrx); [apply elem_of_app; right; by left|lia]).
      assert (buf t (ldn 4 m e) ≠ buf t id) as Hbn by (intros E; by apply Hne, (buf_inj t Hpg)).
      eapply (same_bytes [buf t (ldn 4 m e)]); [|by left|unfold BUFSZ, PGSIZE in *; lia].
      apply recv_same_on; try done; [by apply rx_sub, buf_page|]. intros E. by destruct (rx_distinct _ Hr) as (_ & _ & _ & _ & _ & []).
    + apply list_lookup_singleton_Some in Hx2 as [Hx2 <-]. assert (k = length log) as -> by lia. fold D in e.
      unfold e. rewrite E2, E1. split_and!; [done|done|]. by apply recv_data.
  - apply Forall_app. auto.
Qed.

Lemma tx_page p : p ∈ [q_desc (txq t); q_avail (txq t); txframe t] → p ∈ tx_pages t ∧ p ≠ q_used (txq t).
Proof.
  intros Hp. pose proof (pg_nodup _ Hpg) as Hnd. apply NoDup_app in Hnd as (_ & _ & Hnd). unfold tx_pages in *.
  rewrite !NoDup_cons, !not_elem_of_cons in Hnd. rewrite !elem_of_cons in Hp |- *. rewrite elem_of_nil in Hp.
  destruct Hnd as ((? & ? & ? & _) & (? & ? & _) & (? & _) & _). destruct Hp as [->|[->|[->|[]]]]; rewrite ?list_elem_of_singleton; auto 6.
Qed.

Lemma tx_idle_ext sent w m m' : same_on (tx_pages t) m m' → tx_idle t sent w m → tx_idle t sent w m'.
Proof.
  intros Hs [T0 T1 T2]. split; [done|..]; (etrans; [eapply ldn_same; [exact Hs| |lia|unfold PGSIZE; lia]|eassumption]);
    unfold tx_pages; rewrite !elem_of_cons; auto.
Qed.

(** Everything but the used index is in the other pages. *)
Lemma tx_busy_ext w l wire wire' m m' :
  same_on [q_desc (txq t); q_avail (txq t); txframe t] m m' → tx_busy t w l wire m →
  ldn 2 m' (q_used (txq t) + 2) = u16 (Z.of_nat (length wire')) → wire' = w ∨ wire' = w ++ [l] → tx_busy t w l wire' m'.
Proof.
  intros Hs [T1 T2 T3 T4 T5 T6 T7] Hu Hw. pose proof (mod8 (Z.of_nat (length w))). split; try done.
  - etrans; [eapply ldn_same; [exact Hs| |lia|unfold PGSIZE; lia]|exact T1]. rewrite !elem_of_cons; auto.
  - etrans; [|exact T3]. rewrite <- !Z.add_assoc. eapply ldn_same; [exact Hs| |lia|unfold PGSIZE; lia]. rewrite !elem_of_cons; auto.
  - etrans; [|exact T4]. eapply same_desc; [exact Hs| |lia]. by left.
  - etrans; [|exact T5]. eapply same_bytes; [exact Hs| |done]. rewrite !elem_of_cons; auto.
Qed.

(** Sending touches the used ring of the send queue only. *)
Lemma send_same k id len m : same_on (rx_pages t ++ [q_desc (txq t); q_avail (txq t); txframe t]) m (used_put (q_used (txq t)) k id len m).
Proof.
  assert (q_used (txq t) ∈ tx_pages t) as Hin by (unfold tx_pages; rewrite !elem_of_cons; auto).
  apply (inside_net t Hpg (q_used (txq t))); [by apply tx_sub| | |apply inside_used].
  - intros p [Hp|Hp%tx_page]%elem_of_app; [by apply rx_sub|apply tx_sub, Hp].
  - intros [Hp|Hp%tx_page]%elem_of_app; [by apply (rx_not_tx t Hpg _ Hp)|by apply Hp].
Qed.

(** Receiving touches the pages of the receive queue only. *)
Lemma recv_tx k D id l m : 0 ≤ id < 8 → (length l ≤ BUFSZ)%nat →
  same_on (tx_pages t) m (used_put (q_used (rxq t)) D id k (write_bytes m (buf t id) l)).
Proof.
  intros Hid Hl. transitivity (write_bytes m (buf t id) l).
  - apply (inside_net t Hpg (buf t id)); [by apply rx_sub, buf_page|apply tx_sub|by apply (rx_not_tx t Hpg), buf_page|].
    apply inside_write; unfold BUFSZ, PGSIZE in *; lia.
  - apply (inside_net t Hpg (q_used (rxq t))); [apply rx_sub, (used_in_page 0)|apply tx_sub|apply (rx_not_tx t Hpg), (used_in_page 0)|apply inside_used].
Qed.
End steps.

(** ** Acts of the device *)

Definition rings (q : vq) : Z * Z * Z := (q_desc q, q_avail q, q_used q).

(** The state of device and memory while the driver is not looking: [d] frames
    delivered; the send queue is described by [tx]. *)
Record link (t : nstat) (d : nat) (tx : list (list Z) → gmap Z Z → Prop) (g : netdev) (m : gmap Z Z) : Prop := {
  ln_base : g_base g = net_base t;
  ln_rx : g_rx g = rings (rxq t);
  ln_tx : g_tx g = rings (txq t);
  ln_ok : rx_ok t (g_next g) (g_held g) (g_log g) d m;
  ln_sent : tx (g_wire g) m;
}.

(** A description of the send queue that survives whatever the device does. *)
Record tx_stable (t : nstat) (tx : list (list Z) → gmap Z Z → Prop) : Prop := {
  st_ext w m m' : same_on (tx_pages t) m m' → tx w m → tx w m';
  st_send w m addr len next : let a := q_avail (txq t) in tx w m →
    ldn 2 m (a + 2) ≠ u16 (Z.of_nat (length w)) →
    let head := ldn 2 m (a + 4 + 2 * (Z.of_nat (length w) mod NUM)) in desc_at m (q_desc (txq t)) head = (addr, len, 0, next) →
    tx (w ++ [read_bytes (Z.to_nat len) m addr]) (used_put (q_used (txq t)) (Z.of_nat (length w)) head 0 m);
}.

Section acts.
Context (t : nstat) (Hpg : pages_ok t).

Lemma idle_stable sent : tx_stable t (tx_idle t sent).
Proof.
  split; [by apply tx_idle_ext|]. intros w m addr len next a [_ T1 _] Hne. unfold a in Hne. by rewrite T1 in Hne.
Qed.

Lemma busy_stable w l : tx_stable t (tx_busy t w l).
Proof.
  split.
  - intros x m m' Hs Hb. eapply tx_busy_ext; [|exact Hb| |apply (tb_wire _ _ _ _ _ Hb)].
    + eapply same_on_sub; [|exact Hs]. intros p Hp%(tx_page t Hpg). apply Hp.
    + etrans; [eapply ldn_same; [exact Hs| |lia|unfold PGSIZE; lia]|apply Hb]. unfold tx_pages. rewrite !elem_of_cons; auto.
  - intros x m addr len next a Hb Hne head Hd. unfold head, a in *. pose proof Hb as [T1 T2 T3 T4 T5 T6 T7].
    destruct T7 as [-> | ->].
    2: { rewrite length_app in Hne. cbn [length] in Hne. rewrite Nat2Z.inj_add in Hne. by rewrite T1 in Hne. }
    rewrite T3, T4 in Hd. injection Hd as <- <- <-. rewrite Nat2Z.id, T5.
    eapply tx_busy_ext; [|exact Hb| |by right].
    + eapply same_on_sub; [|apply (send_same t Hpg)]. intros p Hp. apply elem_of_app. by right.
    + rewrite used_idx, length_app. cbn [length]. f_equal. lia.
Qed.

Lemma nstep_link d tx g m g' m' : tx_stable t tx → link t d tx g m → nstep (g, m) (g', m') → link t d tx g' m'.
Proof.
  intros Hst [L1 L2 L3 L4 L5] Hstep. inversion Hstep; subst; cbn in *.
  - injection L2 as -> -> ->. split; cbn; [done..| |done]. by apply rx_take.
  - injection L2 as -> -> ->.
    assert (0 ≤ id < 8) as Hid by (eapply rx_id_range; [exact L4|rewrite !elem_of_app; left; right; by left]).
    match goal with H : desc_at _ _ _ = _ |- _ => rewrite (rx_desc _ _ _ _ _ _ L4) in H by done; injection H as <- <- <- end.
    split; cbn; [done..| |].
    + apply rx_recv; [done..|lia].
    + eapply (st_ext _ _ Hst); [|exact L5]. apply recv_tx; [done..|lia].
  - injection L3 as -> -> ->. split; cbn; [done..| |by eapply (st_send _ _ Hst)].
    eapply (rx_ok_ext t Hpg); [|exact L4]. eapply same_on_sub; [|apply (send_same t Hpg)]. intros p Hp. apply elem_of_app. by left.
Qed.

Lemma nsteps_link d tx x y : tx_stable t tx → rtc nstep x y → link t d tx x.1 x.2 → link t d tx y.1 y.2.
Proof. intros Hst. induction 1 as [|[g m] [g' m'] z Hs _ IH]; [done|]. intros Hl. apply IH. by eapply nstep_link. Qed.

(** The device only writes to the pages of the driver. *)
Definition outside_net (x : Z) : Prop := ∀ p, p ∈ net_pages t → ¬ in_page p x.

Lemma nstep_frame d tx g m g' m' x : link t d tx g m → nstep (g, m) (g', m') → outside_net x → ld8 m' x = ld8 m x.
Proof.
  intros [L1 L2 L3 L4 L5] Hstep Hx. inversion Hstep; subst; cbn in *; [done| |].
  - injection L2 as -> -> ->.
    assert (0 ≤ id < 8) as Hid by (eapply rx_id_range; [exact L4|rewrite !elem_of_app; left; right; by left]).
    match goal with H : desc_at _ _ _ = _ |- _ => rewrite (rx_desc _ _ _ _ _ _ L4) in H by done; injection H as <- <- <- end.
    etrans; [apply inside_used, Hx, rx_sub, (used_in_page t 0)|].
    apply (inside_write (buf t id)); [lia|unfold BUFSZ, PGSIZE in *; lia|]. by apply Hx, rx_sub, (buf_page t Hpg).
  - injection L3 as -> -> ->. apply inside_used, Hx, tx_sub. unfold tx_pages. rewrite !elem_of_cons. auto.
Qed.

Lemma nsteps_frame d tx y z x : tx_stable t tx → rtc nstep y z → link t d tx y.1 y.2 → outside_net x → ld8 z.2 x = ld8 y.2 x.
Proof.
  intros Hst Hs Hl Hx. revert Hl. induction Hs as [|[g m] [g' m'] z Hs _ IH]; [done|]. intros Hl.
  rewrite IH by (by eapply nstep_link). by eapply nstep_frame.
Qed.

(** Nothing that was received or sent is forgotten. *)
Lemma nsteps_log y z : rtc nstep y z → ∃ more, g_log z.1 = g_log y.1 ++ more.
Proof.
  induction 1 as [|[g m] [g' m'] z Hs _ [more IH]]; [by exists []; rewrite app_nil_r|].
  inversion Hs; subst; cbn in *; [by exists more|eexists; by rewrite IH, <- app_assoc|by exists more].
Qed.
End acts.

(** ** What the device promises *)

Definition nwrites `{VirtioDev V} (b : Z) (l : list (Z * Z)) (v : V) : V := reg_writes (prod_map (Z.add b) u32 <$> l) v.

(** The registers [setup_queue] writes. *)
Definition queue_regs (qidx : Z) (r : Z * Z * Z) : list (Z * Z) :=
  let '(d, a, u) := r in
  [(MMIO_QUEUE_SEL, qidx); (MMIO_QUEUE_NUM, NUM);
   (MMIO_QUEUE_DESC_LO, d); (MMIO_QUEUE_DESC_HI, Z.shiftr d 32);
   (MMIO_DRIVER_DESC_LO, a); (MMIO_DRIVER_DESC_HI, Z.shiftr a 32);
   (MMIO_DEVICE_DESC_LO, u); (MMIO_DEVICE_DESC_HI, Z.shiftr u 32); (MMIO_QUEUE_READY, 1)].

(** A slot with a network device of the modern interface, and the first of them. *)
Definition net_slot `{VirtioDev V} (v : V) (b : Z) : bool :=
  (u32 (reg_read (b + MMIO_MAGIC) v) =? 0x74726976) && (u32 (reg_read (b + MMIO_VERSION) v) =? 2) &&
  (u32 (reg_read (b + MMIO_DEVICE_ID) v) =? 1).
Definition first_slot `{VirtioDev V} (v : V) : option Z := head (filter (λ b, net_slot v b) (slot_base <$> seqZ 0 8)).

(** The device once the driver has negotiated. *)
Definition net_negotiated `{VirtioDev V} (b : Z) (v : V) : V :=
  let v1 := nwrites b [(MMIO_STATUS, 0); (MMIO_STATUS, 1); (MMIO_STATUS, 3); (MMIO_DEVICE_FEAT_SEL, 0)] v in
  let lo := Z.land (u32 (reg_read (b + MMIO_DEVICE_FEAT) v1)) 32 in
  let v2 := nwrites b [(MMIO_DRIVER_FEAT_SEL, 0); (MMIO_DRIVER_FEAT, lo); (MMIO_DEVICE_FEAT_SEL, 1)] v1 in
  let hi := Z.land (u32 (reg_read (b + MMIO_DEVICE_FEAT) v2)) 1 in
  nwrites b [(MMIO_DRIVER_FEAT_SEL, 1); (MMIO_DRIVER_FEAT, hi); (MMIO_STATUS, 11)] v2.

Class VirtioNetLaws (V : Type) `{VirtioDev V} := {
  (** What the device knows once the driver is up. *)
  ghost : V → option netdev;
  net_latency : nat;
  net_patience : Z.of_nat net_latency < TX_SPINS;
  nd_acts v m g : ghost v = Some g → ∃ g', ghost (dma v m).1 = Some g' ∧ rtc nstep (g, m) (g', (dma v m).2);
  nd_notify v g q : ghost v = Some g → ghost (reg_write (g_base g + MMIO_QUEUE_NOTIFY) q v) = Some g;
  (** A frame that was posted is sent after finitely many acts. *)
  nd_sends v m b rx d a u n held log w addr len :
    ghost v = Some (NetDev b rx (d, a, u) n held log w) →
    ldn 2 m (a + 2) = u16 (Z.of_nat (length w) + 1) → ldn 2 m (u + 2) = u16 (Z.of_nat (length w)) →
    desc_at m d (ldn 2 m (a + 4 + 2 * (Z.of_nat (length w) mod NUM))) = (addr, len, 0, 0) →
    ∃ k, (k ≤ net_latency)%nat ∧
      ldn 2 (acts (S k) (reg_write (b + MMIO_QUEUE_NOTIFY) 1 v) m).2 (u + 2) ≠ u16 (Z.of_nat (length w));
  (** Initialisation, as the specification lays it down. *)
  nd_init v b rx tx : first_slot v = Some b → let v3 := net_negotiated b v in
    Z.land (u32 (reg_read (b + MMIO_STATUS) v3)) S_FEATURES_OK ≠ 0 →
    (∀ x, x ∈ [rx.1.1; rx.1.2; rx.2; tx.1.1; tx.1.2; tx.2] → 0 ≤ x < 2 ^ 64) →
    ghost (nwrites b (queue_regs 0 rx ++ queue_regs 1 tx ++ [(MMIO_STATUS, 15); (MMIO_QUEUE_NOTIFY, 0)]) v3) =
      Some (NetDev b rx tx 0 [] [] []);
}.

(** The whole act of a device keeps the link, touches the driver's pages only and
    at most adds to what was received. *)
Lemma act_link `{VirtioNetLaws V} t d tx (v : V) m g : pages_ok t → tx_stable t tx → ghost v = Some g → link t d tx g m →
  ∃ g' more, ghost (dma v m).1 = Some g' ∧ link t d tx g' (dma v m).2 ∧ g_log g' = g_log g ++ more ∧
    ∀ x, outside_net t x → ld8 (dma v m).2 x = ld8 m x.
Proof.
  intros Hpg Hst Hg Hl. destruct (nd_acts v m g Hg) as (g' & Hg' & Hs). destruct (nsteps_log _ _ Hs) as [more Hm].
  exists g', more. split_and!; [done|by apply (nsteps_link t Hpg _ _ _ _ Hst Hs)|done|].
  intros x Hx. by apply (nsteps_frame t Hpg d tx _ _ x Hst Hs).
Qed.

(** ** Stores of the driver *)

Lemma write_bytes_app m a l k : write_bytes m a (l ++ k) = write_bytes (write_bytes m a l) (a + Z.of_nat (length l)) k.
Proof.
  revert m a. induction l as [|b l IH]; intros m a; cbn [app write_bytes length]; [by rewrite Z.add_0_r|].
  rewrite IH. f_equal. lia.
Qed.

Lemma ld8_write_u8 m a l i b : l !! i = Some b → ld8 (write_bytes m a l) (a + Z.of_nat i) = u8 b.
Proof.
  revert m a i. induction l as [|c l IH]; intros m a [|i] Hi; [done..| |].
  - injection Hi as ->. rewrite Z.add_0_r. cbn [write_bytes]. rewrite ld8_write_ne by lia. unfold ld8. by rewrite lookup_insert_eq.
  - cbn [write_bytes]. replace (a + Z.of_nat (S i)) with (a + 1 + Z.of_nat i) by lia. by apply IH.
Qed.

Lemma read_write_u8 m a l : read_bytes (length l) (write_bytes m a l) a = u8 <$> l.
Proof.
  apply list_eq. intros i. rewrite list_lookup_fmap. destruct (l !! i) as [b|] eqn:Hi.
  - rewrite lookup_read_bytes by (by eapply lookup_lt_Some). cbn. f_equal. by apply ld8_write_u8.
  - apply lookup_ge_None_2. rewrite length_read_bytes. by apply lookup_ge_None_1.
Qed.

Lemma page_ram p o n : ram_page p → 0 ≤ o → o + n ≤ PGSIZE → in_ram (p + o) n = true.
Proof. intros (_ & ? & ?) ? ?. apply in_ram_iff. lia. Qed.

Lemma wp_copy_out a l k (Q : unit → machine → Prop) :
  in_ram a (Z.of_nat (length l)) = true → Q tt (with_mem (write_bytes (mem k) a l) k) → wp (copy_out a l) Q k.
Proof. intros. unfold copy_out. by wp_steps. Qed.

(** The data of a frame in the transmit buffer. *)
Definition frame_data (src dst : list Z) (ty : Z) (payload : list Z) : list Z :=
  replicate NETHDR 0 ++ eth_frame dst src ty payload.

Lemma wp_build_frame t dst ty payload k (Q : unit → machine → Prop) :
  ram_page (txframe t) → length dst = 6%nat → length (mac t) = 6%nat → (length payload ≤ BUFSZ)%nat →
  Q tt (with_mem (write_bytes (mem k) (txframe t) (frame_data (mac t) dst ty payload)) k) →
  wp (build_frame t dst ty payload) Q k.
Proof.
  intros Hp Hd Hm Hl HQ. unfold BUFSZ in Hl. assert (∀ o n, 0 ≤ o → o + n ≤ PGSIZE → in_ram (txframe t + o) n = true) as Hram
    by (intros; by apply page_ram). unfold PGSIZE in Hram.
  unfold build_frame. change (Z.of_nat NETHDR) with 12. wp_steps. apply wp_memset; [rewrite <- (Z.add_0_r (txframe t)); by apply Hram|].
  wp_steps. apply wp_copy_out; [apply Hram; rewrite ?length_take; lia|].
  wp_steps. apply wp_copy_out; [rewrite <- Z.add_assoc; apply Hram; rewrite ?length_take; lia|].
  wp_steps. apply wp_copy_out; [rewrite <- Z.add_assoc; apply Hram; cbn; lia|].
  wp_steps. apply wp_copy_out; [rewrite <- Z.add_assoc; apply Hram; lia|].
  cbn [with_mem mem]. rewrite !take_ge by lia. rewrite memset_write. unfold frame_data, eth_frame in HQ.
  rewrite !write_bytes_app, length_replicate, Hd, Hm in HQ. cbn [length be16] in HQ. repeat rewrite <- Z.add_assoc in HQ. rewrite <- !Z.add_assoc. exact HQ.
Qed.

Lemma wp_post q v p k (Q : unit → machine → Prop) :
  ram_page (q_avail q) → ldn 2 (mem k) (q_avail q + 2) = u16 p → 0 ≤ v < 2 ^ 16 →
  (∀ m', inside (q_avail q) (mem k) m' → ldn 2 m' (q_avail q + 2) = u16 (p + 1) →
     ldn 2 m' (q_avail q + 4 + 2 * (p mod NUM)) = v →
     (∀ j, j mod NUM ≠ p mod NUM → ldn 2 m' (q_avail q + 4 + 2 * (j mod NUM)) = ldn 2 (mem k) (q_avail q + 4 + 2 * (j mod NUM))) →
     Q tt (with_mem m' k)) →
  wp (post q v) Q k.
Proof.
  intros Hp Hidx Hv HQ. pose proof (mod8 p). set (a := q_avail q) in *.
  assert (∀ o n, 0 ≤ o → o + n ≤ PGSIZE → in_ram (a + o) n = true) as Hram by (intros; by apply page_ram).
  unfold PGSIZE in Hram. unfold post. fold a. wp_steps. apply wp_load_n; [apply Hram; lia|]. rewrite Hidx, u16_mod8.
  wp_steps. apply wp_store_n; [rewrite <- Z.add_assoc; apply Hram; lia|]. wp_steps.
  apply wp_load_n; [apply Hram; lia|]. cbn [with_mem mem]. rewrite (Z.mod_small v) by lia.
  rewrite ldn_stn_ne, Hidx by lia. wp_steps. apply wp_store_n; [apply Hram; lia|]. cbn [with_mem mem]. apply HQ.
  - repeat (etrans; [|apply inside_stn; unfold PGSIZE; lia]). done.
  - rewrite ldn_stn_eq by (by apply Z.mod_pos_bound). change (256 ^ Z.of_nat 2) with (2 ^ 16). unfold u16. by rewrite Zplus_mod_idemp_l.
  - rewrite ldn_stn_ne by lia. by apply ldn_stn_eq.
  - intros j Hj. pose proof (mod8 j). rewrite !ldn_stn_ne by lia. done.
Qed.
