(* ===== verification/NetDriverOps.v ===== *)
(** * Sending and receiving frames (src/net.c: eth_tx, eth_rx)

    With the invariant of NetDriverSpec.v: [eth_rx] takes the next frame out of
    the queue of those that arrived, [eth_tx] puts one frame on the wire, and the
    pair is the interface the network stack is verified against. *)
From stdpp Require Import relations.
From S2P Require Import Prelude Spinlock Uart Mem Kalloc PageTable AddrSpace Packet Net Virtio VirtioSpec NetDriver NetDriverSpec.

(** ** The driver takes a frame and offers its buffer again *)

Section give.
Context (t : nstat) (Hpg : pages_ok t).

Lemma rx_give n held log d l m m' :
  rx_ok t n held log d m → log !! d = Some l →
  let a := q_avail (rxq t) in let id := ldn 4 m (q_used (rxq t) + 4 + 8 * (Z.of_nat d mod NUM)) in
  inside a m m' → ldn 2 m' (a + 2) = u16 (Z.of_nat d + 8 + 1) → ldn 2 m' (a + 4 + 2 * ((Z.of_nat d + 8) mod NUM)) = id →
  (∀ j, j mod NUM ≠ (Z.of_nat d + 8) mod NUM → ldn 2 m' (a + 4 + 2 * (j mod NUM)) = ldn 2 m (a + 4 + 2 * (j mod NUM))) →
  rx_ok t n held log (S d) m'.
Proof.
  intros Hrx Hl a id Hin Hidx Hnew Hold. pose proof (rx_count t _ _ _ _ _ Hrx) as Hcount.
  pose proof (lookup_lt_Some _ _ _ Hl) as Hlt. pose proof Hrx as [R1 R2 R3 R4 R5 R6 R7 R8].
  assert (∀ p, p ∈ rx_pages t → p ≠ a → same_on [p] m m') as Hsame.
  { intros p Hp Hne. apply (inside_net t Hpg a); [|intros x ->%list_elem_of_singleton; by apply rx_sub|by rewrite list_elem_of_singleton|done].
    apply rx_sub. unfold rx_pages, a. rewrite !elem_of_cons; auto. }
  pose proof (us_id_range t _ _ _ _ _ d Hrx ltac:(lia)) as Hid. fold id in Hid.
  destruct (rx_distinct t Hpg id Hid) as (_ & N2 & N1 & _). fold a in N1, N2.
  assert (∀ k, ldn 4 m' (q_used (rxq t) + 4 + 8 * (k mod NUM)) = ldn 4 m (q_used (rxq t) + 4 + 8 * (k mod NUM))) as Hus.
  { intros k. pose proof (mod8 k). rewrite <- !Z.add_assoc. eapply ldn_same; [apply (Hsame (q_used (rxq t)))|by left|lia|unfold PGSIZE; lia].
    - apply (used_in_page t 0).
    - done. }
  split; try done.
  - fold a. rewrite Hidx. f_equal. lia.
  - rewrite <- R2. eapply ldn_same; [apply (Hsame (q_used (rxq t)))|by left|lia|unfold PGSIZE; lia]; [apply (used_in_page t 0)|done].
  - lia.
  - intros i Hi. rewrite <- R5 by done. eapply same_desc; [apply (Hsame (q_desc (rxq t))); [by left|done]|by left|done].
  - rewrite <- R6. replace (Z.of_nat (S d) + 8 - n) with (Z.of_nat d + 8 - n + 1) by lia.
    unfold av_ids. rewrite seqZ_last, fmap_app by lia. cbn [fmap list_fmap]. replace (n + (Z.of_nat d + 8 - n)) with (Z.of_nat d + 8) by lia.
    fold (av_ids (q_avail (rxq t)) m' n (Z.of_nat d + 8 - n)). fold a. rewrite Hnew, (av_ids_ext _ m m') by (intros; apply Hold, mod8_ne; lia).
    rewrite (us_ids_ext _ m m') by auto.
    unfold us_ids. rewrite (seqZ_first (Z.of_nat d)) by lia. cbn [fmap list_fmap]. fold id.
    replace (Z.of_nat d + 1) with (Z.of_nat (S d)) by lia.
    replace (Z.of_nat (length log) - Z.of_nat d - 1) with (Z.of_nat (length log) - Z.of_nat (S d)) by lia.
    by rewrite <- !app_assoc.
  - intros k x Hk Hx. destruct (R7 k x ltac:(lia) Hx) as (E1 & E2 & E3). pose proof (mod8 (Z.of_nat k)). pose proof (lookup_lt_Some _ _ _ Hx).
    split_and!; [|done|].
    + rewrite <- E1, <- !Z.add_assoc. eapply ldn_same; [apply (Hsame (q_used (rxq t)))|by left|lia|unfold PGSIZE; lia]; [apply (used_in_page t 0)|done].
    + rewrite Hus. etrans; [|exact E3]. pose proof (us_id_range t _ _ _ _ _ k Hrx ltac:(lia)) as Hr.
      eapply same_bytes; [apply Hsame; [by apply (buf_page t Hpg)|]|by left|unfold BUFSZ, PGSIZE in *; lia].
      intros E. by destruct (rx_distinct t Hpg _ Hr) as (_ & _ & _ & _ & [] & _).
Qed.
End give.

(** ** The driver at work *)

Section ops.
Context {V : Type} `{VirtioNetLaws V}.

(** [past] is what was delivered, [inbox] what has arrived since, [sent] what
    went out, all of it with the headers of the device. *)
Record serving (s : vnet V) (past inbox sent : list (list Z)) : Prop := {
  sv_on : net_ok (nst s) ≠ 0;
  sv_mac : length (mac (nst s)) = 6%nat ∧ Forall is_byte (mac (nst s));
  sv_pages : pages_ok (nst s);
  sv_seen : q_seen (rxq (nst s)) = u16 (Z.of_nat (length past)) ∧ q_seen (txq (nst s)) = u16 (Z.of_nat (length sent));
  sv_dev : ∃ g, ghost (ndev s) = Some g ∧ g_log g = past ++ inbox ∧
    link (nst s) (length past) (tx_idle (nst s) sent) g (mem (nmach s));
}.

(** The bytes of the machine that are not the driver's are as before, and so is
    everything else of it. *)
Record net_frame (s s' : vnet V) : Prop := {
  nf_mem x : outside_net (nst s) x → ld8 (mem (nmach s')) x = ld8 (mem (nmach s)) x;
  nf_mach : nmach s' = with_mem (mem (nmach s')) (nmach s);
  nf_mac : mac (nst s') = mac (nst s);
  nf_pages : net_pages (nst s') = net_pages (nst s);
}.

(** The frame in the data of the device, as far as it fits. *)
Definition frame_of (max : nat) (l : list Z) : list Z := take max (drop NETHDR l).

(** Steps of the driver on an explicit state. *)
Lemma wp_nm {A} (m : M machine A) k v t (Q : A → vnet V → Prop) : wp m (λ a k, Q a (Vnet k v t)) k → wp (nm m) Q (Vnet k v t).
Proof. intros Hm. by apply (wp_zoom nmach (λ k s, Vnet k (ndev s) (nst s))). Qed.
Lemma wp_NW32 off x k v t (Q : unit → vnet V → Prop) :
  Q tt (Vnet k (reg_write (net_base t + off) (u32 x) v) t) → wp (NW32 off x) Q (Vnet k v t).
Proof. done. Qed.
Lemma wp_nset f k v t (Q : unit → vnet V → Prop) : Q tt (Vnet k v (f t)) → wp (nset f) Q (Vnet k v t).
Proof. done. Qed.
Lemma wp_net_acts k v t (Q : unit → vnet V → Prop) :
  Q tt (Vnet (with_mem (dma v (mem k)).2 k) (dma v (mem k)).1 t) → wp net_acts Q (Vnet k v t).
Proof. done. Qed.

(** What [eth_rx] copies out of buffer [id]. *)
Lemma wp_copy_frame t n held log d l max k out (Q : Z * list Z → vnet V → Prop) v :
  let id := ldn 4 (mem k) (q_used (rxq t) + 4 + 8 * (Z.of_nat d mod NUM)) in let len := Z.of_nat (length l) in
  pages_ok t → rx_ok t n held log d (mem k) → log !! d = Some l →
  Q (Z.of_nat (length (frame_of max l)), frame_of max l ++ drop (length (frame_of max l)) out) (Vnet k v t) →
  wp (if Z.of_nat NETHDR <? len then
        b ← of_option (rxbuf t !! Z.to_nat id);
        x ← nm (copy_in (b + Z.of_nat NETHDR) (Z.min (i32 (len - Z.of_nat NETHDR)) (Z.of_nat max)));
        mret (Z.min (i32 (len - Z.of_nat NETHDR)) (Z.of_nat max), x ++ drop (length x) out)
      else mret (0, out)) Q (Vnet k v t).
Proof.
  intros id len Hpg Hrx Hl HQ. destruct (rx_elem _ _ _ _ _ _ Hrx d l (le_n d) Hl) as (E1 & E2 & E3). fold id in E3.
  pose proof (us_id_range t _ _ _ _ _ d Hrx (conj (le_n d) (lookup_lt_Some _ _ _ Hl))) as Hid. fold id in Hid.
  assert (length (frame_of max l) = Nat.min max (length l - 12)) as Hlen by (unfold frame_of; rewrite length_take, length_drop; done).
  unfold BUFSZ in E2. change (Z.of_nat NETHDR) with 12 in *.
  destruct (Z.ltb_spec 12 len) as [Hlt|Hge].
  - destruct (lookup_lt_is_Some_2 (rxbuf t) (Z.to_nat id)) as [b Hb]; [rewrite (pg_bufs _ Hpg); lia|].
    wp_steps. eapply wp_of_option; [exact Hb|]. wp_steps. rewrite i32_small by lia. apply wp_nm. unfold copy_in.
    assert (buf t id = b) as Hbuf by (unfold buf; by rewrite Hb). pose proof (pg_ram _ Hpg) as Hram. rewrite Forall_forall in Hram.
    assert (in_ram (b + 12) (Z.min (len - 12) (Z.of_nat max)) = true) as Hin.
    { apply page_ram; [|lia|unfold PGSIZE; lia]. rewrite <- Hbuf. by apply Hram, rx_sub, (buf_page t Hpg). }
    wp_steps; [rewrite Hin; bsimp; lia|]. wp_steps.
    assert (read_bytes (Z.to_nat (Z.min (len - 12) (Z.of_nat max))) (mem k) (b + 12) = frame_of max l) as Hrd.
    { rewrite Hbuf in E3. unfold frame_of. rewrite <- E3. apply list_eq. intros i.
      destruct (decide (i < Z.to_nat (Z.min (len - 12) (Z.of_nat max)))%nat) as [Hi|Hi].
      - rewrite lookup_read_bytes by done. rewrite lookup_take, decide_True, lookup_drop, lookup_read_bytes by (unfold NETHDR; lia).
        do 2 f_equal. unfold NETHDR. lia.
      - rewrite !lookup_ge_None_2; [done|rewrite length_take, length_drop, length_read_bytes; unfold NETHDR; lia|rewrite length_read_bytes; lia]. }
    rewrite Hrd. replace (Z.min (len - 12) (Z.of_nat max)) with (Z.of_nat (length (frame_of max l))) by lia. exact HQ.
  - wp_steps. assert (frame_of max l = []) as E by (apply nil_length_inv; lia). by rewrite E in HQ.
Qed.

(** The counters of the driver do not matter to the queues. *)
Definition same_static (t t' : nstat) : Prop :=
  rings (rxq t') = rings (rxq t) ∧ rings (txq t') = rings (txq t) ∧ rxbuf t' = rxbuf t ∧ txframe t' = txframe t ∧ net_base t' = net_base t.

Lemma static_pages t t' : same_static t t' → net_pages t' = net_pages t.
Proof.
  intros ([= D1 D2 D3] & [= D4 D5 D6] & E1 & E2 & _). unfold net_pages, rx_pages, tx_pages. by rewrite D1, D2, D3, D4, D5, D6, E1, E2.
Qed.

Lemma static_link t t' d sent g m : same_static t t' → link t d (tx_idle t sent) g m → link t' d (tx_idle t' sent) g m.
Proof.
  intros (E1 & E2 & E3 & E4 & E5) [L1 L2 L3 [R1 R2 R3 R4 R5 R6 R7 R8] [T1 T2 T3]].
  pose proof E1 as [= D1 D2 D3]. pose proof E2 as [= D4 D5 D6].
  split; [by rewrite E5|by rewrite E1|by rewrite E2|split|split]; unfold buf; rewrite ?D1, ?D2, ?D3, ?D4, ?D5, ?D6, ?E3; done.
Qed.

Lemma static_pages_ok t t' : same_static t t' → pages_ok t → pages_ok t'.
Proof. intros Hs [P1 P2 P3]. split; rewrite ?(static_pages _ _ Hs); [done|done|]. destruct Hs as (_ & _ & -> & _). done. Qed.

(** The driver's pages other than [p] are as before a store to [p]. *)
Lemma inside_link t d sent g m m' : pages_ok t → inside (q_avail (rxq t)) m m' →
  rx_ok t (g_next g) (g_held g) (g_log g) (S d) m' → link t d (tx_idle t sent) g m → link t (S d) (tx_idle t sent) g m'.
Proof.
  intros Hpg Hin Hrx [L1 L2 L3 _ L5]. split; [done..|]. eapply tx_idle_ext; [|exact L5].
  assert (q_avail (rxq t) ∈ rx_pages t) as Hp by (unfold rx_pages; rewrite !elem_of_cons; auto).
  apply (inside_net t Hpg (q_avail (rxq t))); [by apply rx_sub|apply tx_sub|by apply (rx_not_tx t Hpg)|done].
Qed.

Lemma wp_eth_rx out max past inbox sent s (Q : Z * list Z → vnet V → Prop) :
  serving s past inbox sent →
  (∀ more r s', net_frame s s' →
     match inbox ++ more with
     | [] => r = (0, out) ∧ serving s' past [] sent
     | l :: rest => r = (Z.of_nat (length (frame_of max l)), frame_of max l ++ drop (length (frame_of max l)) out) ∧
                    serving s' (past ++ [l]) rest sent
     end → Q r s') →
  wp (eth_rx out max) Q s.
Proof.
  destruct s as [k v t]. intros [Hon Hmac Hpg [Hs1 Hs2] (g & Hg & Hlog & Hlink)] HQ. cbn [nst ndev nmach] in *.
  unfold eth_rx. wp_steps. cbn [nst]. rewrite (proj2 (Z.eqb_neq _ _)) by done. wp_steps. apply wp_net_acts.
  destruct (act_link t _ _ v (mem k) g Hpg (idle_stable t _) Hg Hlink) as (g' & more & Hg' & Hlink' & Hlog' & Hfr).
  specialize (HQ more). rewrite Hlog, <- app_assoc in Hlog'.
  set (v1 := (dma v (mem k)).1) in *. set (m1 := (dma v (mem k)).2) in *.
  pose proof (ln_ok _ _ _ _ _ Hlink') as Hrx. pose proof (rx_count t _ _ _ _ _ Hrx) as Hcount. pose proof (rx_done _ _ _ _ _ _ Hrx) as Hdone.
  pose proof (rx_next _ _ _ _ _ _ Hrx) as Hnext.
  pose proof (pg_ram _ Hpg) as Hram. rewrite Forall_forall in Hram.
  assert (∀ p o n, p ∈ net_pages t → 0 ≤ o → o + n ≤ PGSIZE → in_ram (p + o) n = true) as Hin by (intros; apply page_ram; auto).
  assert (q_used (rxq t) ∈ net_pages t ∧ q_avail (rxq t) ∈ net_pages t) as [I1 I2]
    by (split; apply rx_sub; unfold rx_pages; rewrite !elem_of_cons; auto).
  wp_steps. apply wp_nm, wp_load_n; [apply Hin; [done|lia|unfold PGSIZE; lia]|]. cbn [mem with_mem].
  rewrite (rx_used _ _ _ _ _ _ Hrx), Hs1. destruct (Z.eqb_spec (u16 (Z.of_nat (length (g_log g')))) (u16 (Z.of_nat (length past)))) as [E|E].
  - symmetry in E. apply u16_near in E; [|lia..]. assert (inbox ++ more = []) as Enil.
    { apply nil_length_inv. rewrite Hlog', !length_app in E. rewrite length_app. lia. }
    rewrite Enil in *. wp_steps. apply HQ; [done|]. split; [done|]. split; cbn [nst ndev nmach]; [done..|]. by exists g'.
  - destruct (inbox ++ more) as [|l rest] eqn:Enew; [by rewrite Hlog', app_nil_r in E|].
    assert (g_log g' !! length past = Some l) as Hl by (rewrite Hlog'; by apply list_lookup_middle).
    destruct (rx_elem _ _ _ _ _ _ Hrx _ _ (le_n _) Hl) as (E1 & E2 & E3).
    pose proof (us_id_range t _ _ _ _ _ _ Hrx (conj (le_n _) (lookup_lt_Some _ _ _ Hl))) as Hid.
    pose proof (mod8 (Z.of_nat (length past))). rewrite u16_mod8.
    wp_steps. apply wp_nm, wp_load_n; [rewrite <- Z.add_assoc; apply Hin; [done|lia|unfold PGSIZE; lia]|].
    wp_steps. apply wp_nm, wp_load_n; [rewrite <- !Z.add_assoc; apply Hin; [done|lia|unfold PGSIZE; lia]|]. cbn [mem with_mem].
    rewrite E1. wp_steps. eapply (wp_copy_frame t _ _ _ _ l max (with_mem m1 k)); [done|exact Hrx|done|].
    wp_steps. apply wp_nset. wp_steps. apply wp_nm. eapply (wp_post (rxq t) _ (Z.of_nat (length past) + 8)).
    { by apply Hram. } { apply Hrx. } { cbn [mem with_mem]. lia. }
    cbn [mem with_mem]. intros m' P1 P2 P3 P4. wp_steps. apply wp_NW32. wp_steps. apply HQ.
    + split; [|done..]. cbn [nst nmach mem with_mem]. intros x Hx. etrans; [apply P1, Hx, I2|by apply Hfr].
    + split; [done|]. set (t' := with_rxq _ t). assert (same_static t t') as Hst by done.
      assert (u16 (u16 (Z.of_nat (length past)) + 1) = u16 (Z.of_nat (length (past ++ [l])))) as Hseen.
      { rewrite length_app. unfold u16. rewrite Zplus_mod_idemp_l. f_equal. cbn [length]. lia. }
      split; cbn [nst ndev nmach mem with_mem]; [exact Hon|exact Hmac|by apply (static_pages_ok t)|split; [exact Hseen|exact Hs2]|].
      exists g'. split_and!.
      * pose proof (nd_notify v1 g' (u32 0) Hg') as Hn. rewrite (ln_base _ _ _ _ _ Hlink') in Hn. exact Hn.
      * by rewrite Hlog', <- app_assoc.
      * rewrite length_app, Nat.add_comm. eapply static_link; [exact Hst|]. eapply inside_link; [done|exact P1| |exact Hlink'].
        by eapply (rx_give t Hpg).
Qed.

(** ** Sending *)

(** The loop around the used ring ends once the device has sent the frame. *)
Lemma wp_wait_sent t d sent l n m v g k fuel spin (Q : bool → vnet V → Prop) :
  pages_ok t → ghost v = Some g → link t d (tx_busy t sent l) g m → g_wire g = sent → q_seen (txq t) = u16 (Z.of_nat (length sent)) →
  ldn 2 (acts (S n) v m).2 (q_used (txq t) + 2) ≠ u16 (Z.of_nat (length sent)) →
  (n < fuel)%nat → spin + Z.of_nat n ≤ TX_SPINS →
  (∀ g' v' m' more, ghost v' = Some g' → link t d (tx_busy t sent l) g' m' → g_wire g' = sent ++ [l] → g_log g' = g_log g ++ more →
     (∀ x, outside_net t x → ld8 m' x = ld8 m x) → Q true (Vnet (with_mem m' k) v' t)) →
  wp (loop fuel (λ spin,
    net_acts;;
    q ← gets (λ s, txq (nst s));
    idx ← nm (load_n 2 (q_used q + 2));
    mret (if idx =? q_seen q then if TX_SPINS <? spin then inr false else inl (spin + 1) else inr true)) spin) Q (Vnet (with_mem m k) v t).
Proof.
  intros Hpg. revert v m g fuel spin. induction n as [|n IH]; intros v m g fuel spin Hg Hlink Hw Hseen Hdone Hfuel Hspin HQ;
    (destruct fuel as [|fuel]; [lia|]); rewrite loop_S; wp_steps; apply wp_net_acts; wp_steps; cbn [mem with_mem nst];
    destruct (act_link t d _ v m g Hpg (busy_stable t Hpg sent l) Hg Hlink) as (g' & more & Hg' & Hlink' & Hlog & Hfr);
    cbn [acts] in Hdone; set (v1 := (dma v m).1) in *; set (m1 := (dma v m).2) in *.
  all: assert (in_ram (q_used (txq t) + 2) 2 = true) as Hram by
    (apply page_ram; [|lia|unfold PGSIZE; lia]; pose proof (pg_ram _ Hpg) as Hp; rewrite Forall_forall in Hp; apply Hp, tx_sub;
     unfold tx_pages; rewrite !elem_of_cons; auto).
  all: apply wp_nm, wp_load_n; [exact Hram|]; cbn [mem with_mem].
  all: pose proof (tb_used _ _ _ _ _ (ln_sent _ _ _ _ _ Hlink')) as Hu; pose proof (tb_wire _ _ _ _ _ (ln_sent _ _ _ _ _ Hlink')) as Hw'.
  all: rewrite Hseen; destruct (Z.eqb_spec (ldn 2 m1 (q_used (txq t) + 2)) (u16 (Z.of_nat (length sent)))) as [E|E].
  all: try (destruct Hw' as [Hw'|Hw']; [by rewrite Hw' in Hu|]; wp_steps; by apply (HQ g' v1 m1 more)).
  - done.
  - destruct (Z.ltb_spec TX_SPINS spin); [lia|]. wp_steps.
    assert (g_wire g' = sent) as Hw1.
    { destruct Hw' as [|Hw']; [done|]. rewrite Hu, Hw', length_app in E. unfold u16 in E. cbn [length] in E. Z.to_euclidean_division_equations. lia. }
    apply (IH v1 m1 g'); [done..|lia|lia|]. intros g2 v2 m2 more2 G1 G2 G3 G4 G5. apply (HQ g2 v2 m2 (more ++ more2)); try done.
    + by rewrite G4, Hlog, app_assoc.
    + intros x Hx. rewrite G5, Hfr; done.
Qed.

Lemma length_frame_data src dst ty payload : length src = 6%nat → length dst = 6%nat →
  length (frame_data src dst ty payload) = (26 + length payload)%nat.
Proof. intros H1 H2. unfold frame_data, eth_frame. rewrite !length_app, length_replicate, H1, H2. cbn [length be16]. unfold NETHDR. lia. Qed.

Lemma busy_done t sent l g m d : link t d (tx_busy t sent l) g m → g_wire g = sent ++ [l] → link t d (tx_idle t (sent ++ [l])) g m.
Proof.
  intros [L1 L2 L3 L4 [T1 T2 _ _ _ _ _]] Hw. split; [done..|]. split; [done| |done].
  rewrite T1, Hw, length_app. f_equal. cbn [length]. lia.
Qed.

(** The frame is in the send queue. *)
Lemma wp_post_frame t d sent g dst ty payload k (Q : unit → machine → Prop) :
  pages_ok t → length (mac t) = 6%nat → length dst = 6%nat → (length payload ≤ BUFSZ)%nat → link t d (tx_idle t sent) g (mem k) →
  (∀ m', link t d (tx_busy t sent (u8 <$> frame_data (mac t) dst ty payload)) g m' →
     (∀ x, outside_net t x → ld8 m' x = ld8 (mem k) x) → Q tt (with_mem m' k)) →
  wp (build_frame t dst ty payload;; post_frame t (Z.of_nat (length payload))) Q k.
Proof.
  intros Hpg Hmac Hdst Hpay [L1 L2 L3 L4 [T0 T1 T2]] HQ. set (l := u8 <$> _) in HQ.
  pose proof (pg_ram _ Hpg) as Hram. rewrite Forall_forall in Hram.
  assert (∀ p, p ∈ [q_desc (txq t); q_avail (txq t); txframe t] → p ∈ net_pages t) as Hin by (intros p Hp%(tx_page t Hpg); apply tx_sub, Hp).
  assert (ram_page (txframe t) ∧ ram_page (q_desc (txq t)) ∧ ram_page (q_avail (txq t))) as (Rf & Rd & Ra)
    by (split_and!; apply Hram, Hin; rewrite !elem_of_cons; auto).
  assert (∀ p q m m', p ∈ net_pages t → q ∈ net_pages t → q ≠ p → inside p m m' → same_on [q] m m') as Hsame.
  { intros p q m m' Hp Hq Hne. apply (inside_net t Hpg p); [done|by intros x ->%list_elem_of_singleton|by rewrite list_elem_of_singleton]. }
  assert (q_desc (txq t) ≠ q_avail (txq t) ∧ q_desc (txq t) ≠ txframe t ∧ q_avail (txq t) ≠ txframe t) as (N1 & N2 & N3).
  { pose proof (pg_nodup _ Hpg) as Hnd. apply NoDup_app in Hnd as (_ & _ & Hnd). unfold tx_pages in Hnd.
    rewrite !NoDup_cons, !not_elem_of_cons in Hnd. tauto. }
  assert (length l = (26 + length payload)%nat) as Hl by (unfold l; rewrite length_fmap; by apply length_frame_data).
  wp_steps. apply wp_build_frame; [done..|]. set (m1 := write_bytes _ _ _).
  assert (inside (txframe t) (mem k) m1) as F1.
  { apply inside_write; [lia|]. rewrite length_frame_data by done. unfold BUFSZ, PGSIZE in *. lia. }
  unfold post_frame. wp_steps. pose proof Rf as (_ & Rf1 & Rf2). unfold PHYSTOP, PGSIZE, RAMBASE, BUFSZ in *.
  apply wp_put_desc; [apply page_ram; [done|lia|unfold PGSIZE; lia]|lia|unfold NETHDR; lia|lia|lia|]. intros m2 W2 D2. cbn [with_mem mem] in *.
  assert (inside (q_desc (txq t)) m1 m2) as F2 by (intros x Hx; apply W2; unfold in_page, PGSIZE in Hx; lia).
  assert (ldn 2 m2 (q_avail (txq t) + 2) = u16 (Z.of_nat (length sent))) as Hidx.
  { rewrite <- T0, <- T1. eapply (ldn_same 2 [q_avail (txq t)]); [|by left|lia|unfold PGSIZE; lia].
    transitivity m1; eapply Hsame; [| | |exact F1| | | |exact F2]; try (apply Hin; rewrite !elem_of_cons; auto); done. }
  wp_steps. eapply wp_post; [done|exact Hidx|done|]. cbn [with_mem mem]. intros m3 F3 P2 P3 _.
  assert (∀ P, P ⊆ net_pages t → (∀ p, p ∈ P → p ∉ [q_desc (txq t); q_avail (txq t); txframe t]) → same_on P (mem k) m3) as Hall.
  { intros P HP Hn. assert (∀ p m m', p ∈ [q_desc (txq t); q_avail (txq t); txframe t] → inside p m m' → same_on P m m') as Hone.
    { intros p m m' Hp. apply (inside_net t Hpg); [by apply Hin|done|]. intros Hp'. by apply (Hn p). }
    transitivity m1; [|transitivity m2]; (eapply Hone; [|eassumption]); rewrite !elem_of_cons; auto. }
  apply HQ.
  - split; [done..| |split; try done].
    + eapply (rx_ok_ext t Hpg); [|exact L4]. apply Hall; [apply rx_sub|].
      intros p Hp Hp'%(tx_page t Hpg). apply (rx_not_tx t Hpg p Hp), Hp'.
    + rewrite <- T2. eapply (ldn_same 2 [q_used (txq t)]); [|by left|lia|unfold PGSIZE; lia]. apply Hall.
      * intros p ->%list_elem_of_singleton. apply tx_sub. unfold tx_pages. rewrite !elem_of_cons; auto.
      * intros p ->%list_elem_of_singleton Hp%(tx_page t Hpg). by apply Hp.
    + rewrite Hl. transitivity (desc_at m2 (q_desc (txq t)) 0); [|rewrite D2; f_equal; f_equal; unfold NETHDR; f_equal; lia].
      eapply (same_desc [q_desc (txq t)]); [|by left|lia]. eapply Hsame; [| | |exact F3]; [apply Hin; rewrite !elem_of_cons; auto..|done].
    + transitivity (read_bytes (length l) m1 (txframe t)).
      * eapply (same_bytes [txframe t]); [|by left|unfold PGSIZE; lia].
        transitivity m2; eapply Hsame; [| | |exact F2| | | |exact F3]; try (apply Hin; rewrite !elem_of_cons; auto); done.
      * unfold l. rewrite length_fmap. apply read_write_u8.
    + rewrite Hl. unfold PGSIZE. lia.
    + left. by rewrite T0.
  - intros x Hx. etrans; [apply F3|etrans; [apply F2|apply F1]]; apply Hx, Hin; rewrite !elem_of_cons; auto.
Qed.

Lemma wp_eth_tx dst ty payload past inbox sent s (Q : Z → vnet V → Prop) :
  serving s past inbox sent → length dst = 6%nat → (length payload ≤ BUFSZ)%nat →
  (∀ more s', net_frame s s' →
     serving s' past (inbox ++ more) (sent ++ [u8 <$> frame_data (mac (nst s)) dst ty payload]) → Q 0 s') →
  wp (eth_tx dst ty payload) Q s.
Proof.
  destruct s as [k v t]. intros [Hon [Hm1 Hm2] Hpg [Hs1 Hs2] (g & Hg & Hlog & Hlink)] Hdst Hpay HQ. cbn [nst ndev nmach] in *.
  set (l := u8 <$> _) in HQ.
  unfold eth_tx. wp_steps. cbn [nst]. rewrite (proj2 (Z.eqb_neq _ _)) by done. wp_steps. apply wp_nm.
  pose proof (wp_post_frame t _ sent g dst ty payload k (λ _ k', wp (NW32 MMIO_QUEUE_NOTIFY 1;;
    sent ← wait_sent;
    if negb sent then mret (-1)
    else
      idx ← nm (load_n 2 (q_used (txq t) + 2));
      nset (λ t, with_txq (with_seen idx (txq t)) t);;
      mret 0) Q (Vnet k' v t)) Hpg Hm1 Hdst Hpay Hlink) as Hpost. apply wp_bind_inv in Hpost.
  { eapply wp_mono; [exact Hpost|]. intros [] k1 H1. wp_steps. by apply wp_nm. }
  clear Hpost. intros m1 Hlink1 F1. fold l in Hlink1. wp_steps. apply wp_NW32. wp_steps.
  pose proof (ln_ok _ _ _ _ _ Hlink) as _. pose proof (ln_sent _ _ _ _ _ Hlink) as Hidle. pose proof (ti_wire _ _ _ _ Hidle) as Hw.
  destruct g as [b rx [[d a] u] n held log w]. cbn in Hw. subst w.
  pose proof (ln_base _ _ _ _ _ Hlink) as Hb. pose proof (ln_tx _ _ _ _ _ Hlink) as [= -> -> ->]. cbn in Hb. subst b.
  pose proof (ln_sent _ _ _ _ _ Hlink1) as [T1 T2 T3 T4 _ _ _]. cbn [g_wire] in T2.
  destruct (nd_sends v m1 _ _ _ _ _ _ _ _ _ (txframe t) (Z.of_nat (length l)) Hg T1 T2) as (c & Hc & Hdone); [by rewrite T3|].
  pose proof (nd_notify v _ 1 Hg) as Hg1. cbn [g_base] in Hg1. change (u32 1) with 1. pose proof net_patience.
  unfold wait_sent. eapply (wp_wait_sent t _ sent l c); [done|exact Hg1|exact Hlink1|done|exact Hs2|exact Hdone|lia|lia|].
  intros g' v' m' more G1 G2 G3 G4 G5. cbn [negb]. wp_steps. apply wp_nm, wp_load_n.
  { apply page_ram; [|lia|unfold PGSIZE; lia]. pose proof (pg_ram _ Hpg) as Hram. rewrite Forall_forall in Hram. apply Hram, tx_sub.
    unfold tx_pages. rewrite !elem_of_cons; auto. }
  cbn [mem with_mem]. rewrite (tb_used _ _ _ _ _ (ln_sent _ _ _ _ _ G2)), G3. wp_steps. apply wp_nset. wp_steps.
  set (t' := with_txq _ t). assert (same_static t t') as Hst by done. apply (HQ more).
  - split; [|done..]. cbn [nst nmach mem with_mem]. intros x Hx. by rewrite G5, F1.
  - split; cbn [nst ndev nmach mem with_mem]; [exact Hon|done|by apply (static_pages_ok t)|by split|].
    exists g'. split_and!; [done|by rewrite G4, app_assoc; f_equal|]. eapply static_link; [exact Hst|]. by apply busy_done.
Qed.

(** C13: the driver is a queue in and a queue out. Sending returns 0, puts exactly one
    frame on the wire, behind those sent before and behind a zero header, and
    loses nothing that arrives meanwhile. Polling returns the first frame that
    was not delivered yet, cut to the room for it, or 0 when there is none.
    Memory outside the driver's pages does not change, and the driver is ready
    for the next call: the eight buffers go round for ever, with 16-bit indices
    that wrap. *)
Theorem nic_queues (past inbox sent : list (list Z)) s :
  serving s past inbox sent →
  (∀ dst ty payload, length dst = 6%nat → (length payload ≤ BUFSZ)%nat →
     ∃ more s', eth_tx dst ty payload s = Done 0 s' ∧ net_frame s s' ∧
       serving s' past (inbox ++ more) (sent ++ [u8 <$> frame_data (mac (nst s)) dst ty payload])) ∧
  (∀ out max, ∃ more r s', eth_rx out max s = Done r s' ∧ net_frame s s' ∧
     match inbox ++ more with
     | [] => r = (0, out) ∧ serving s' past [] sent
     | l :: rest => let f := frame_of max l in
         r = (Z.of_nat (length f), f ++ drop (length f) out) ∧ serving s' (past ++ [l]) rest sent
     end).
Proof.
  intros Hs. split.
  - intros dst ty payload Hd Hp.
    destruct (wp_run (eth_tx dst ty payload) (λ r s', r = 0 ∧ net_frame s s' ∧ ∃ more,
      serving s' past (inbox ++ more) (sent ++ [u8 <$> frame_data (mac (nst s)) dst ty payload])) s) as (r & s' & E & -> & F & more & G).
    { eapply wp_eth_tx; [done..|]. eauto. }
    by exists more, s'.
  - intros out max.
    destruct (wp_run (eth_rx out max) (λ r s', net_frame s s' ∧ ∃ more, match inbox ++ more with
      | [] => r = (0, out) ∧ serving s' past [] sent
      | l :: rest => r = (Z.of_nat (length (frame_of max l)), frame_of max l ++ drop (length (frame_of max l)) out) ∧
                     serving s' (past ++ [l]) rest sent
      end) s) as (r & s' & E & F & more & G).
    { eapply wp_eth_rx; [done..|]. eauto. }
    by exists more, r, s'.
Qed.
End ops.

(** ** The driver under the network stack *)

(** With a record of what the stack sent and got, in order. *)
Record nic (V : Type) := OnNic { nic_net : vnet V; nic_trace : list event }.
Arguments OnNic {V}.
Arguments nic_net {V}.
Arguments nic_trace {V}.

#[export] Instance nic_has_dev {V} : HasDev (nic V) := {|
  dev_of s := dev_of (nic_net s); set_dev d s := OnNic (set_dev d (nic_net s)) (nic_trace s)
|}.
#[export] Instance nic_has_dev_laws {V} : HasDevLaws (nic V).
Proof. by split; intros; try destruct s as [[[] ? ?] ?]. Qed.

Section stack.
Context {V : Type} `{VirtioNetLaws V}.

Definition on_net {A} (m : M (vnet V) A) : M (nic V) A := zoom nic_net (λ k s, OnNic k (nic_trace s)) m.
Definition record (e : event) : M (nic V) unit := modify (λ s, OnNic (nic_net s) (nic_trace s ++ [e])).
Definition rx_seen : M (nic V) Z := gets (λ s, q_seen (rxq (nst (nic_net s)))).

#[export] Instance virt_nic : Nic (nic V) := {|
  nic_ok s := negb (net_ok (nst (nic_net s)) =? 0);
  my_mac s := mac (nst (nic_net s));
  Net.eth_tx dst ty payload :=
    r ← on_net (eth_tx dst ty payload);
    m ← gets (λ s, mac (nst (nic_net s)));
    when (r =? 0) (record (Tx (eth_frame dst m ty payload)));;
    mret r;
  Net.eth_rx out max :=
    before ← rx_seen;
    r ← on_net (eth_rx out max);
    after ← rx_seen;
    when (negb (before =? after)) (record (Rx (take (Z.to_nat r.1) r.2)));;
    mret r
|}.

Definition sent_of (e : event) : option (list Z) := match e with Tx f => Some f | Rx _ => None end.
Definition got_of (e : event) : option (list Z) := match e with Tx _ => None | Rx f => Some f end.

(** The record agrees with the log of the device. *)
Definition recorded (s : nic V) : Prop := ∃ past inbox sent, serving (nic_net s) past inbox sent ∧
  omap got_of (nic_trace s) = frame_of BUFSZ <$> past ∧
  (λ f, u8 <$> f) <$> omap sent_of (nic_trace s) = drop NETHDR <$> sent.

Lemma serving_bytes s past inbox sent : serving s past inbox sent → Forall (Forall is_byte) (past ++ inbox).
Proof. intros [_ _ _ _ (g & _ & <- & Hl)]. apply (rx_bytes _ _ _ _ _ _ (ln_ok _ _ _ _ _ Hl)). Qed.

Lemma frame_bytes n l : Forall is_byte l → Forall is_byte (frame_of n l).
Proof. intros. by apply Forall_take, Forall_drop. Qed.

Lemma net_frame_dev (s s' : vnet V) : net_frame s s' → mdev (nmach s') = mdev (nmach s).
Proof. intros [_ -> _]. done. Qed.

Lemma seen_next (s s' : vnet V) past l inbox inbox' sent sent' : serving s past inbox sent → serving s' (past ++ [l]) inbox' sent' →
  q_seen (rxq (nst s)) ≠ q_seen (rxq (nst s')).
Proof.
  intros [_ _ _ [-> _] _] [_ _ _ [-> _] _]. rewrite length_app. cbn [length]. intros E.
  apply u16_near in E; lia.
Qed.

(** A call of the stack: what it leaves of the machine, and its record. *)
Lemma wp_nic_tx dst ty payload (s : nic V) (Q : Z → nic V → Prop) :
  recorded s → length dst = 6%nat → (length payload ≤ BUFSZ)%nat →
  (∀ s', recorded s' → net_frame (nic_net s) (nic_net s') →
     nic_trace s' = nic_trace s ++ [Tx (eth_frame dst (my_mac s) ty payload)] → Q 0 s') →
  wp (Net.eth_tx dst ty payload) Q s.
Proof.
  intros (past & inbox & sent & Hs & R1 & R2) Hd Hp HQ. cbn [Net.eth_tx virt_nic].
  wp_steps. unfold on_net. wp_steps. eapply wp_eth_tx; [exact Hs|done|done|]. intros more s' Hf Hs'.
  wp_steps. cbn [nic_net nic_trace nst]. rewrite (nf_mac _ _ Hf). change (0 =? 0) with true. cbn [when].
  unfold record. wp_steps. cbn [nic_net nic_trace]. apply HQ; [|done|done].
  exists past, (inbox ++ more), (sent ++ [u8 <$> frame_data (mac (nst (nic_net s))) dst ty payload]).
  cbn [nic_net nic_trace]. split; [done|]. rewrite !omap_app. cbn [omap list_omap got_of sent_of]. rewrite !fmap_app, app_nil_r. split; [done|].
  by rewrite R2.
Qed.

Lemma wp_nic_rx buf (s : nic V) (Q : Z * list Z → nic V → Prop) :
  recorded s →
  (∀ s', recorded s' → net_frame (nic_net s) (nic_net s') → nic_trace s' = nic_trace s → Q (0, buf) s') →
  (∀ f s', recorded s' → net_frame (nic_net s) (nic_net s') → nic_trace s' = nic_trace s ++ [Rx f] →
     Forall is_byte f → (length f ≤ BUFSZ)%nat → Q (Z.of_nat (length f), f ++ drop (length f) buf) s') →
  wp (Net.eth_rx buf BUFSZ) Q s.
Proof.
  intros (past & inbox & sent & Hs & R1 & R2) HQ0 HQ1. cbn [Net.eth_rx virt_nic].
  wp_steps. unfold rx_seen, on_net. wp_steps. eapply wp_eth_rx; [exact Hs|]. intros more r s' Hf Hcase.
  wp_steps. cbn [nic_net nic_trace]. destruct (inbox ++ more) as [|l rest] eqn:E.
  - destruct Hcase as [-> Hs']. rewrite (proj1 (sv_seen _ _ _ _ Hs)), (proj1 (sv_seen _ _ _ _ Hs')), Z.eqb_refl. cbn [negb when]. wp_steps.
    apply HQ0; [|done|done]. by exists past, [], sent.
  - destruct Hcase as [-> Hs']. rewrite (proj2 (Z.eqb_neq _ _)) by (by eapply seen_next). cbn [negb when fst snd]. unfold record. wp_steps.
    rewrite Nat2Z.id, take_app_length. apply HQ1; [|done|done| |].
    + exists (past ++ [l]), rest, sent. split; [done|]. cbn [nic_trace]. rewrite !omap_app, fmap_app, R1. cbn [omap list_omap got_of sent_of].
      rewrite app_nil_r. split; done.
    + apply frame_bytes. pose proof (serving_bytes _ _ _ _ Hs') as HB. rewrite !Forall_app, Forall_singleton in HB. apply HB.
    + unfold frame_of. rewrite length_take. lia.
Qed.

Lemma recorded_mac (s : nic V) : recorded s → length (my_mac s) = 6%nat ∧ Forall is_byte (my_mac s) ∧ nic_ok s = true.
Proof. intros (past & inbox & sent & [H1 [H2 H3] _ _ _] & _). split_and!; [done|done|]. cbn. by rewrite (proj2 (Z.eqb_neq _ _)). Qed.

#[export] Instance virt_nic_laws : NicLaws (nic V).
Proof.
  refine {| trace := nic_trace; nic_good := recorded |}.
  - apply recorded_mac.
  - intros s dst ty payload Q Hs Hd Hp HQ. apply wp_nic_tx; [done..|]. intros s' Hs' Hf T.
    apply HQ; [by left|done|cbn; apply (nf_mac _ _ Hf)|by apply net_frame_dev|done].
  - intros s buf Q Hs Hb HQ0 HQ1. apply wp_nic_rx; [done| |].
    + intros s' Hs' Hf T. apply HQ0; [done|apply (nf_mac _ _ Hf)|by apply net_frame_dev|done].
    + intros f s' Hs' Hf T. apply HQ1; [done|apply (nf_mac _ _ Hf)|by apply net_frame_dev|done].
Defined.

(** The driver's invariant is about its own pages, the card and its statics. *)
Lemma recorded_machine k (s : nic V) :
  recorded s → same_on (net_pages (nst (nic_net s))) (mem (nmach (nic_net s))) (mem k) →
  recorded (OnNic (Vnet k (ndev (nic_net s)) (nst (nic_net s))) (nic_trace s)).
Proof.
  intros (past & inbox & sent & [Hon Hm Hpg Hs (g & Hg & Hlog & [L1 L2 L3 L4 L5])] & R1 & R2) Hsame.
  exists past, inbox, sent. split; [|done]. split; cbn [nic_net nst ndev nmach]; try done. exists g. split_and!; [done|done|].
  split; try done.
  - eapply (rx_ok_ext _ Hpg); [|done]. eapply same_on_sub; [apply rx_sub|done].
  - eapply tx_idle_ext; [|done]. eapply same_on_sub; [apply tx_sub|done].
Qed.
End stack.
