(* ===== verification/NetDriverInit.v ===== *)
(** * Bringing the network device up (src/net.c: net_init)

    With fifteen free pages and a device in one of the eight slots, the driver
    ends in the invariant of NetDriverOps.v. The last part is a device that
    satisfies the promises of the interface. *)
From stdpp Require Import relations.
From S2P Require Import Prelude Spinlock Uart Mem Kalloc PageTable AddrSpace Packet Net Disk Virtio VirtioSpec VirtioInit NetDriver NetDriverSpec NetDriverOps.

#[local] Opaque memset_loop.

(** ** Pages that the allocator gave away *)

Lemma kinv_inside rg k l p m : kinv rg k l → page_aligned p → p ∉ l → inside p (mem k) m → kinv rg (with_mem m k) l.
Proof.
  intros Hk Hp Hn Hi. apply (kinv_ext rg k); [done| |done]. intros q Hq. apply ld64_ext. intros x Hx. symmetry. apply Hi.
  assert (page_aligned q) as Hq' by (eapply managed_aligned; by apply (kinv_free _ _ _ Hk) in Hq as []).
  apply (in_page_ne q p); [done..|by intros ->|]. unfold in_page, PGSIZE. lia.
Qed.

Lemma kinv_page rg k l p : kinv rg k l → p ∈ l → ram_page p ∧ page_aligned p.
Proof. intros Hk Hp. apply (kinv_free _ _ _ Hk) in Hp as [Hm _]. split; [by eapply managed_ram|by eapply managed_aligned]. Qed.

(** The three pages of a queue are zero and nothing else changed. *)
Definition zeroed (P : list Z) (m m' : gmap Z Z) : Prop :=
  (∀ p x, p ∈ P → in_page p x → ld8 m' x = 0) ∧ ∀ x, (∀ p, p ∈ P → ¬ in_page p x) → ld8 m' x = ld8 m x.

Lemma three_pages_zeroed rg s d a u l : kinv rg s (d :: a :: u :: l) → zeroed [d; a; u] (mem s) (mem (three_pages d a u s)).
Proof.
  intros Hk. split.
  - intros p x Hp Hx. eapply three_pages_zero; [exact Hk|]. rewrite !elem_of_cons, elem_of_nil in Hp. destruct Hp as [->|[->|[->|[]]]]; auto.
  - intros x Hx. assert (∀ p m, p ∈ [d; a; u] → ld8 (memset_loop (Z.to_nat 4096) p 0 m) x = ld8 m x) as Hne.
    { intros p m Hp. apply ld8_memset_ne. specialize (Hx p Hp). unfold in_page, PGSIZE in Hx. lia. }
    unfold three_pages. cbn [mem with_mem]. rewrite !Hne by (rewrite !elem_of_cons; auto). done.
Qed.

Section init.
Context {V : Type} `{VirtioNetLaws V}.

(** ** The pieces *)

Lemma wp_nm_kalloc rg p l k v t (Q : Z → vnet V → Prop) :
  kinv rg k (p :: l) → ready k → Q p (Vnet (after_alloc p (ld64 (mem k) p) k) v t) → wp (nm kalloc) Q (Vnet k v t).
Proof. intros Hk Hr HQ. apply wp_nm. eapply wp_kalloc; [done|done|done|]. by intros p' l' [= <- <-]. Qed.

Lemma wp_nm_zero p k v t (Q : unit → vnet V → Prop) :
  ram_page p → Q tt (Vnet (with_mem (memset_loop (Z.to_nat 4096) p 0 (mem k)) k) v t) → wp (nm (zero p 4096)) Q (Vnet k v t).
Proof. intros Hp HQ. apply wp_nm, wp_memset; [by apply ram_page_in_ram|done]. Qed.

Ltac net_step := lazymatch goal with
  | |- wp (_ ≫= _) _ _ => apply wp_bind
  | |- wp (NW32 _ _) _ _ => apply wp_NW32
  | |- wp (nset _) _ _ => apply wp_nset
  | |- wp (gets _) _ _ => apply wp_gets
  | |- wp (mret _) _ _ => apply wp_ret
  end; cbv beta.
Ltac net_steps := repeat net_step.

Lemma wp_net_setup_queue qidx rg d a u l k v t (Q : vq → vnet V → Prop) :
  kinv rg k (d :: a :: u :: l) → ready k →
  (∀ k', kinv rg k' l → ready k' → zeroed [d; a; u] (mem k) (mem k') →
     Q (Vq d a u 0) (Vnet k' (nwrites (net_base t) (queue_regs qidx (d, a, u)) v) t)) →
  wp (setup_queue qidx) Q (Vnet k v t).
Proof.
  intros Hk Hr HQ. pose proof (kinv_after_alloc _ _ _ _ Hk) as K1. pose proof (kinv_after_alloc _ _ _ _ K1) as K2.
  assert (∀ p, p ∈ [d; a; u] → ram_page p) as Hram.
  { intros p Hp. eapply kinv_page; [exact Hk|]. change (d :: a :: u :: l) with ([d; a; u] ++ l). apply elem_of_app. by left. }
  destruct (three_pages_kinv _ _ _ _ _ _ Hk Hr) as [K3 R3]. specialize (HQ _ K3 R3 (three_pages_zeroed _ _ _ _ _ _ Hk)).
  unfold setup_queue. net_steps. eapply wp_nm_kalloc; [exact Hk|done|]. net_steps.
  eapply wp_nm_kalloc; [exact K1|by eapply ready_spin|]. net_steps.
  eapply wp_nm_kalloc; [exact K2|by do 2 (eapply ready_spin; [reflexivity|])|]. net_steps.
  apply wp_nm_zero; [apply Hram; by left|]. net_steps. apply wp_nm_zero; [apply Hram; right; by left|]. net_steps.
  apply wp_nm_zero; [apply Hram; do 2 right; by left|]. net_steps. exact HQ.
Qed.

(** ** Printing the address *)

Fixpoint mac_chars (i : nat) (m : list Z) : list Z :=
  match m with
  | [] => []
  | b :: m => (if Nat.eqb i 0 then [] else [58]) ++ [u8 (hex_char (Z.shiftr b 4)); u8 (hex_char (Z.land b 0xf))] ++ mac_chars (S i) m
  end.

Lemma wp_print_mac_from {S : Type} `{HasDevLaws S} i m (s : S) (Q : unit → S → Prop) :
  dev_ready (dev_of s) → Q tt (match m with [] => s | _ => set_dev (said (mac_chars i m) (dev_of s)) s end) →
  wp (print_mac_from i m) Q s.
Proof.
  revert i s. induction m as [|b m IH]; intros i s Hr HQ; cbn [print_mac_from]; [by wp_steps|].
  assert (∀ l l' (s : S), dev_ready (dev_of s) → set_dev (said l' (dev_of (set_dev (said l (dev_of s)) s))) (set_dev (said l (dev_of s)) s) =
    set_dev (said (l ++ l') (dev_of s)) s) as Hsaid.
  { intros l l' s0 [Hs _]. by rewrite dev_of_set, set_dev_set, said_said. }
  assert (∀ s : S, dev_ready (dev_of s) →
    Q tt (set_dev (said ([u8 (hex_char (Z.shiftr b 4)); u8 (hex_char (Z.land b 0xf))] ++ mac_chars (Datatypes.S i) m) (dev_of s)) s) →
    wp (uart_putc (hex_char (Z.shiftr b 4));; uart_putc (hex_char (Z.land b 0xf));; print_mac_from (Datatypes.S i) m) Q s) as Hrest.
  { intros s0 Hr0 HQ0. wp_steps. apply wp_putc; [done|]. wp_steps. apply wp_putc; [rewrite dev_of_set; by apply said_ready|].
    rewrite Hsaid by done. apply IH; [rewrite dev_of_set; by apply said_ready|]. destruct m; [done|]. by rewrite Hsaid. }
  destruct (Nat.eqb_spec i 0) as [->|Hi].
  - cbn [negb when Nat.eqb mac_chars app] in *. apply wp_bind, wp_ret. by apply Hrest.
  - cbn [negb when]. apply wp_bind. apply wp_putc; [done|].
    apply Hrest; [rewrite dev_of_set; by apply said_ready|]. rewrite Hsaid by done. cbn [mac_chars] in HQ.
    by rewrite (proj2 (Nat.eqb_neq i 0)) in HQ by done.
Qed.

(** ** Probing and negotiation *)

Lemma wp_find_net n i k v t (Q : unit → vnet V → Prop) :
  Q tt (Vnet k v (match head (filter (λ b, net_slot v b) (slot_base <$> seqZ i (Z.of_nat n))) with
                  | Some b => with_net_base b t | None => t end)) →
  wp (find_net n i) Q (Vnet k v t).
Proof.
  revert i. induction n as [|n IH]; intros i HQ; cbn [find_net]; [exact HQ|].
  rewrite seqZ_first in HQ by lia. replace (Z.of_nat (S n) - 1) with (Z.of_nat n) in HQ by lia.
  cbn [fmap list_fmap] in HQ. rewrite filter_cons in HQ. unfold abs_R32. net_steps. cbn [ndev].
  destruct (net_slot v (slot_base i)) eqn:E; unfold net_slot in E.
  - rewrite decide_True in HQ by done. apply andb_prop in E as [[-> ->]%andb_prop ->]. cbn [negb orb]. net_steps. exact HQ.
  - rewrite decide_False in HQ by (by intros ?). rewrite <- !negb_andb, E. cbn [negb]. by apply IH.
Qed.

Lemma wp_net_negotiate k v t (Q : Z * bool → vnet V → Prop) :
  let v3 := net_negotiated (net_base t) v in
  Q (11, negb (Z.land (u32 (reg_read (net_base t + MMIO_STATUS) v3)) S_FEATURES_OK =? 0)) (Vnet k v3 t) →
  wp net_negotiate Q (Vnet k v t).
Proof. intros v3 HQ. unfold net_negotiate, NR32. net_steps. exact HQ. Qed.

(** ** The receive buffers *)

(** [i] buffers were given to the device, from memory [m0] and statics [t0]. *)
Record giving (rg : Z * Z) (q : vq) (bufs rest : list Z) (v : V) (t0 : nstat) (m0 : gmap Z Z) (i : Z) (s : vnet V) : Prop := {
  gv_k : kinv rg (nmach s) (drop (Z.to_nat i) bufs ++ rest);
  gv_ready : ready (nmach s);
  gv_dev : ndev s = v;
  gv_static : nst s = with_rxbuf (take (Z.to_nat i) bufs ++ drop (Z.to_nat i) (rxbuf t0)) t0;
  gv_desc j b : 0 ≤ j < i → bufs !! Z.to_nat j = Some b →
    desc_at (mem (nmach s)) (q_desc q) j = (b, Z.of_nat BUFSZ, VRING_DESC_F_WRITE, 0);
  gv_ring j : 0 ≤ j < i → ldn 2 (mem (nmach s)) (q_avail q + 4 + 2 * j) = j;
  gv_frame x : ¬ in_page (q_desc q) x → ¬ in_page (q_avail q) x → ld8 (mem (nmach s)) x = ld8 m0 x;
}.

Lemma wp_give_buffer rg q bufs rest v t0 m0 i s (Q : unit → vnet V → Prop) :
  giving rg q bufs rest v t0 m0 i s → 0 ≤ i < 8 → length bufs = 8%nat → length (rxbuf t0) = 8%nat →
  (∀ p, p ∈ [q_desc q; q_avail q] → ram_page p ∧ page_aligned p ∧ p ∉ bufs ++ rest) → q_desc q ≠ q_avail q →
  (∀ s', giving rg q bufs rest v t0 m0 (i + 1) s' → Q tt s') →
  wp (give_buffer q i) Q s.
Proof.
  intros [G1 G2 G3 G4 G5 G6 G7] Hi Hbufs Hold Hpg Hne HQ. destruct s as [k v' t]. cbn [nmach ndev nst] in *. subst v' t.
  destruct (lookup_lt_is_Some_2 bufs (Z.to_nat i)) as [b Hb]; [lia|].
  rewrite (drop_S _ _ _ Hb) in G1. cbn [app] in G1.
  destruct (Hpg (q_desc q)) as (D1 & D2 & D3); [by left|]. destruct (Hpg (q_avail q)) as (A1 & A2 & A3); [right; by left|].
  assert (∀ p, p ∉ bufs ++ rest → p ∉ drop (S (Z.to_nat i)) bufs ++ rest) as Hsub.
  { intros p Hp [Hp'|Hp']%elem_of_app; apply Hp, elem_of_app; [left|by right].
    rewrite <- (take_drop (S (Z.to_nat i)) bufs). apply elem_of_app. by right. }
  destruct (kinv_page _ _ _ b G1) as [Bram _]; [by left|]. pose proof Bram as (_ & B1 & B2).
  unfold give_buffer. net_steps. eapply wp_nm_kalloc; [exact G1|done|]. net_steps. set (k1 := after_alloc _ _ _).
  assert (kinv rg k1 (drop (S (Z.to_nat i)) bufs ++ rest)) as K1 by (by eapply kinv_after_alloc).
  assert (ready k1) as R1 by (by eapply ready_spin).
  apply wp_nm. unfold PHYSTOP, RAMBASE, PGSIZE in *.
  apply wp_put_desc; [apply page_ram; [done|lia|unfold PGSIZE; lia]|lia|done|done|done|]. intros m2 W2 E2.
  assert (inside (q_desc q) (mem k) m2) as F2 by (intros x Hx; apply W2; unfold in_page, PGSIZE in Hx; lia).
  net_steps. apply wp_nm, wp_store_n; [rewrite <- Z.add_assoc; apply page_ram; [done|lia|unfold PGSIZE; lia]|].
  cbn [with_mem mem]. rewrite (Z.mod_small i) by lia. set (m3 := stn 2 m2 _ _).
  assert (inside (q_avail q) m2 m3) as F3 by (apply inside_stn; unfold PGSIZE; lia).
  assert (Z.to_nat (i + 1) = S (Z.to_nat i)) as Ei by lia.
  apply HQ. split; cbn [nmach ndev nst]; rewrite ?Ei.
  - apply (kinv_inside rg (with_mem m2 k1) _ (q_avail q)); [|done|by apply Hsub|done].
    apply (kinv_inside rg k1 _ (q_desc q)); [done|done|by apply Hsub|done].
  - done.
  - done.
  - unfold with_rxbuf. cbn. f_equal. rewrite (take_S_r _ _ _ Hb), <- app_assoc.
    destruct (lookup_lt_is_Some_2 (rxbuf t0) (Z.to_nat i)) as [c Hc]; [lia|]. rewrite (drop_S _ _ _ Hc).
    rewrite insert_app_r_alt by (rewrite length_take; lia). rewrite length_take, Nat.min_l, Nat.sub_diag by lia. done.
  - intros j c Hj Hc. cbn [mem with_mem]. etrans; [eapply (same_desc [q_desc q]); [|by left|lia]|].
    { by eapply (inside_same (q_avail q)); [done|by apply Forall_singleton|by rewrite list_elem_of_singleton|exact F3]. }
    destruct (decide (j = i)) as [->|]; [rewrite Hb in Hc; by injection Hc as <-|].
    rewrite (desc_wrote _ _ _ _ _ j W2) by (unfold sep; lia). apply G5; [lia|done].
  - intros j Hj. cbn [mem with_mem]. destruct (decide (j = i)) as [->|]; [unfold m3; apply ldn_stn_eq; change (256 ^ Z.of_nat 2) with 65536; lia|].
    unfold m3. rewrite ldn_stn_ne by lia. etrans; [|by apply (G6 j); lia]. rewrite <- !Z.add_assoc.
    eapply (ldn_same 2 [q_avail q]); [|by left|lia|unfold PGSIZE; lia].
    by eapply (inside_same (q_desc q)); [done|by apply Forall_singleton|by rewrite list_elem_of_singleton|exact F2].
  - intros x X1 X2. cbn [mem with_mem]. rewrite (F3 x), (F2 x) by done. by apply G7.
Qed.

(** ** The invariant at the start *)

Lemma serving_fresh k v t :
  net_ok t ≠ 0 → length (mac t) = 6%nat → Forall is_byte (mac t) → pages_ok t → q_seen (rxq t) = 0 → q_seen (txq t) = 0 →
  ghost v = Some (NetDev (net_base t) (rings (rxq t)) (rings (txq t)) 0 [] [] []) →
  ldn 2 (mem k) (q_avail (rxq t) + 2) = 8 → ldn 2 (mem k) (q_used (rxq t) + 2) = 0 →
  (∀ j, 0 ≤ j < 8 → desc_at (mem k) (q_desc (rxq t)) j = (buf t j, Z.of_nat BUFSZ, VRING_DESC_F_WRITE, 0)) →
  (∀ j, 0 ≤ j < 8 → ldn 2 (mem k) (q_avail (rxq t) + 4 + 2 * j) = j) →
  ldn 2 (mem k) (q_avail (txq t) + 2) = 0 → ldn 2 (mem k) (q_used (txq t) + 2) = 0 →
  serving (Vnet k v t) [] [] [].
Proof.
  intros Hon Hm1 Hm2 Hpg Hs1 Hs2 Hg A1 A2 A3 A4 A5 A6. split; cbn [nst ndev nmach]; [done..|].
  exists (NetDev (net_base t) (rings (rxq t)) (rings (txq t)) 0 [] [] []).
  split_and!; [done|done|]. split; cbn [g_base g_rx g_tx g_next g_held g_log g_wire]; [done..| |by split].
  split; cbn [length]; try done. cbn [app]. rewrite app_nil_r. unfold av_ids.
  apply reflexive_eq. transitivity (id <$> seqZ 0 8); [|apply list_fmap_id].
  apply list_fmap_ext. intros i j Hj%list_elem_of_lookup_2. apply elem_of_seqZ in Hj.
  unfold NUM. rewrite Z.mod_small by lia. by apply A4.
Qed.

(** The fifteen pages. *)
Lemma fresh_pages rg k rd ra ru td ta tu bufs f l t :
  kinv rg k (rd :: ra :: ru :: td :: ta :: tu :: bufs ++ f :: l) → length bufs = 8%nat →
  rings (rxq t) = (rd, ra, ru) → rings (txq t) = (td, ta, tu) → rxbuf t = bufs → txframe t = f → pages_ok t.
Proof.
  intros Hk Hl [= D1 D2 D3] [= D4 D5 D6] D7 D8.
  assert (net_pages t ++ l ≡ₚ rd :: ra :: ru :: td :: ta :: tu :: bufs ++ f :: l) as Hp.
  { unfold net_pages, rx_pages, tx_pages. rewrite D1, D2, D3, D4, D5, D6, D7, D8. cbn [app]. rewrite <- app_assoc. cbn [app]. solve_Permutation. }
  split; [| |by rewrite D7].
  - apply Forall_forall. intros p Hin. eapply kinv_page; [exact Hk|]. rewrite <- Hp. apply elem_of_app. by left.
  - pose proof (kinv_nodup _ _ _ Hk) as Hnd. rewrite <- Hp in Hnd. by apply NoDup_app in Hnd as [? _].
Qed.

(** What [net_init] leaves. *)
Definition net_outcome (rg : Z * Z) (l : list Z) (s : vnet V) (r : Z) (s' : vnet V) : Prop :=
  match first_slot (ndev s) with
  | Some b =>
      let v3 := net_negotiated b (ndev s) in
      if negb (Z.land (u32 (reg_read (b + MMIO_STATUS) v3)) S_FEATURES_OK =? 0) then
        r = 0 ∧ serving s' [] [] [] ∧ kinv rg (nmach s') l ∧ ready (nmach s') ∧
        mac (nst s') = (λ i, u8 (reg_read (b + MMIO_CONFIG + i) v3)) <$> seqZ 0 6
      else r = -1 ∧ net_ok (nst s') = net_ok (nst s) ∧ heard (nmach s) (nmach s')
  | None => r = -1 ∧ net_ok (nst s') = net_ok (nst s) ∧ heard (nmach s) (nmach s')
  end.

Lemma said_machine l k : ready k → ready (set_dev (said l (dev_of k)) k).
Proof. intros (? & ? & ?). split_and!; cbn; auto using passed_ok, passed_free. Qed.

Lemma wp_net_fails m k v t (Q : Z → vnet V → Prop) :
  ready k → (∀ k', heard k k' → Q (-1) (Vnet k' v t)) →
  wp (uart_line m;; mret (-1)) Q (Vnet k v t).
Proof.
  intros Hr HQ. wp_steps. apply wp_puts; [by apply ready_dev|]. wp_steps. apply HQ, heard_said.
Qed.

(** No slot has a network device. *)
Lemma wp_net_absent k v t (Q : Z → vnet V → Prop) :
  first_slot v = None → net_base t = 0 → ready k → (∀ k', heard k k' → Q (-1) (Vnet k' v t)) → wp net_init Q (Vnet k v t).
Proof.
  intros E Hb Hr HQ. unfold net_init. net_steps. apply (wp_find_net 8). change (Z.of_nat 8) with 8.
  change (head (filter (λ b, net_slot v b) (slot_base <$> seqZ 0 8))) with (first_slot v). rewrite E.
  net_steps. cbn [nst]. rewrite Hb. change (0 =? 0) with true. cbv iota. by apply wp_net_fails.
Qed.

(** The queues and buffers: [net_init] between negotiation and DRIVER_OK, in
    memory. *)
Record laid_out (rq tq : vq) (bufs : list Z) (m : gmap Z Z) : Prop := {
  lo_avail : ldn 2 m (q_avail rq + 2) = NUM;
  lo_zero p x : p ∈ [q_used rq; q_avail tq; q_used tq] → in_page p x → ld8 m x = 0;
  lo_desc j b : 0 ≤ j < 8 → bufs !! Z.to_nat j = Some b → desc_at m (q_desc rq) j = (b, Z.of_nat BUFSZ, VRING_DESC_F_WRITE, 0);
  lo_ring j : 0 ≤ j < 8 → ldn 2 m (q_avail rq + 4 + 2 * j) = j;
}.

Lemma wp_lay_out {A} rg rd ra ru td ta tu bufs f l k v t (c : unit → M (vnet V) A) (Q : A → vnet V → Prop) :
  let rq := Vq rd ra ru 0 in let tq := Vq td ta tu 0 in
  NoDup (rd :: ra :: ru :: td :: ta :: tu :: bufs ++ f :: l) → length bufs = 8%nat → length (rxbuf t) = 8%nat →
  Forall (λ p, ram_page p ∧ page_aligned p) [rd; ra; ru; td; ta; tu] →
  kinv rg k (bufs ++ f :: l) → ready k → (∀ p x, p ∈ [ru; ta; tu] → in_page p x → ld8 (mem k) x = 0) →
  (∀ k', kinv rg k' (f :: l) → ready k' → laid_out rq tq bufs (mem k') → wp (c tt) Q (Vnet k' v (with_rxbuf bufs t))) →
  wp (for_n (Z.to_nat NUM) 0 (give_buffer rq)) (λ _, wp (nm (store_n 2 (q_avail rq + 2) NUM) ≫= c) Q) (Vnet k v t).
Proof.
  intros rq tq Hnd Hbufs Hold Hpg Hk Hr Hz HQ. rewrite !Forall_cons in Hpg.
  destruct Hpg as ([D1 D2] & [A1 A2] & [_ U2] & [_ TD2] & [_ TA2] & [_ TU2] & _).
  rewrite !NoDup_cons, !not_elem_of_cons in Hnd. destruct Hnd as ((N1 & N2 & _ & N3 & N4 & N5) & (N6 & _ & N7 & N8 & N9) & _).
  apply (wp_for_n (giving rg rq bufs (f :: l) v t (mem k))).
  - split; cbn [nmach ndev nst]; try done; try lia. by destruct t.
  - intros j s' Hj Hg. eapply wp_give_buffer; [exact Hg|change (Z.of_nat (Z.to_nat NUM)) with 8 in Hj; lia|done|done| |done|done].
    intros p Hp. rewrite !elem_of_cons, elem_of_nil in Hp. destruct Hp as [->|[->|[]]]; done.
  - change (0 + Z.of_nat (Z.to_nat NUM)) with 8. intros [k3 v3 t3] [G1 G2 G3 G4 G5 G6 G7]. cbn [nmach ndev nst] in *. subst v3 t3.
    change (Z.to_nat 8) with 8%nat in *. rewrite !take_ge, !drop_ge, app_nil_r in * by lia. cbn [app] in G1.
    net_steps. apply wp_nm, wp_store_n; [apply page_ram; [done|lia|unfold PGSIZE; cbn; lia]|]. change (NUM mod 256 ^ Z.of_nat 2) with NUM.
    set (m4 := stn 2 _ _ _). assert (inside ra (mem k3) m4) as F4 by (apply inside_stn; unfold PGSIZE; cbn; lia).
    apply HQ; [|done|split; cbn [with_mem mem q_avail q_desc q_used]].
    + eapply kinv_inside; [exact G1|exact A2| |exact F4]. by intros Hin; apply N9, elem_of_app; right.
    + by apply ldn_stn_eq.
    + intros p x Hp Hx. assert (page_aligned p ∧ p ≠ ra ∧ p ≠ rd) as (Xp & X1 & X2).
      { rewrite !elem_of_cons, elem_of_nil in Hp. destruct Hp as [->|[->|[->|[]]]]; auto. }
      assert (¬ in_page ra x ∧ ¬ in_page rd x) as [? ?] by (split; by eapply (in_page_ne p)).
      rewrite (F4 x) by done. rewrite G7 by done. by apply (Hz p).
    + intros j b Hj Hb. rewrite <- (G5 j b) by done. eapply (same_desc [rd]); [|by left|lia].
      by eapply (inside_same ra); [done|by apply Forall_singleton|rewrite list_elem_of_singleton; congruence|].
    + intros j Hj. unfold m4. rewrite ldn_stn_ne by (cbn; lia). by apply G6.
Qed.

Lemma wp_net_greeting m k v t (Q : Z → vnet V → Prop) :
  ready k → (∀ k', mem k' = mem k → km k' = km k → ready k' → Q 0 (Vnet k' v t)) →
  wp (uart_str "[ok] virtio-net ready, mac ";; print_mac m;; uart_putc 10;; mret 0) Q (Vnet k v t).
Proof.
  intros Hr HQ. wp_steps. apply wp_str; [by apply ready_dev|]. wp_steps.
  apply wp_print_mac_from; [apply said_ready; by apply ready_dev|].
  assert (∀ k', mem k' = mem k → km k' = km k → ready k' → wp (uart_putc 10;; mret 0) Q (Vnet k' v t)) as Hlast.
  { intros k' Em Ek Rk. wp_steps. apply wp_putc; [by apply ready_dev|]. wp_steps. apply HQ; [done|done|]. by apply said_machine. }
  destruct (take 6 m); apply Hlast; try done; repeat apply said_machine; done.
Qed.

Lemma slot_nonzero b : b ∈ slot_base <$> seqZ 0 8 → b ≠ 0.
Proof. intros (i & -> & Hi%elem_of_seqZ)%list_elem_of_fmap. unfold slot_base. rewrite u64_small; lia. Qed.

Lemma zeroed_still P P' m m' m'' p x : zeroed P m m' → zeroed P' m' m'' → p ∈ P → in_page p x →
  Forall page_aligned (p :: P') → p ∉ P' → ld8 m'' x = 0.
Proof.
  intros [Hz _] [_ Hf] Hp Hx [Hal Hal']%Forall_cons Hn. rewrite Hf; [by apply (Hz p)|].
  intros q Hq. rewrite Forall_forall in Hal'. eapply (in_page_ne p q); [done|by apply Hal'|by intros ->|done].
Qed.

Lemma serving_up rg b v k m rd ra ru td ta tu bufs f l mc :
  first_slot v = Some b → Z.land (u32 (reg_read (b + MMIO_STATUS) (net_negotiated b v))) S_FEATURES_OK ≠ 0 →
  kinv rg k (rd :: ra :: ru :: td :: ta :: tu :: bufs ++ f :: l) → length bufs = 8%nat →
  mc = map (λ i, u8 (reg_read (b + MMIO_CONFIG + i) (net_negotiated b v))) (seqZ 0 6) →
  laid_out (Vq rd ra ru 0) (Vq td ta tu 0) bufs (mem m) →
  serving (Vnet m (nwrites b (queue_regs 0 (rd, ra, ru) ++ queue_regs 1 (td, ta, tu) ++ [(MMIO_STATUS, 15); (MMIO_QUEUE_NOTIFY, 0)])
    (net_negotiated b v)) (NStat b 1 (Vq rd ra ru 0) (Vq td ta tu 0) bufs f mc)) [] [] [].
Proof.
  intros Eb Eok Hk Hbufs -> [L1 L2 L3 L4]. cbn [q_avail q_desc q_used] in *.
  assert (∀ p, p ∈ [ru; ta; tu] → ldn 2 (mem m) (p + 2) = 0) as Hz.
  { intros p Hp. apply ldn_zero. intros x Hx. apply (L2 p); [done|]. cbn in Hx. unfold in_page, PGSIZE. lia. }
  apply serving_fresh; try done.
  - apply Forall_fmap, Forall_true. intros i. apply u8_byte.
  - by eapply fresh_pages.
  - apply (nd_init v b (rd, ra, ru) (td, ta, tu) Eb Eok). intros x Hx. destruct (kinv_page _ _ _ x Hk) as [(_ & X1 & X2) _].
    + change (rd :: ra :: ru :: td :: ta :: tu :: bufs ++ f :: l) with ([rd; ra; ru; td; ta; tu] ++ bufs ++ f :: l). apply elem_of_app. by left.
    + unfold RAMBASE, PHYSTOP, PGSIZE in *. lia.
  - apply Hz. by left.
  - intros j Hj. apply L3; [done|]. unfold buf. cbn [rxbuf].
    destruct (lookup_lt_is_Some_2 bufs (Z.to_nat j)) as [c Hc]; [lia|]. by rewrite Hc.
  - apply Hz. by right; left.
  - apply Hz. by do 2 right; left.
Qed.

Lemma wp_net_init rg rd ra ru td ta tu bufs f l s :
  kinv rg (nmach s) (rd :: ra :: ru :: td :: ta :: tu :: bufs ++ f :: l) → ready (nmach s) → length bufs = 8%nat →
  length (rxbuf (nst s)) = 8%nat → net_base (nst s) = 0 →
  wp net_init (net_outcome rg l s) s.
Proof.
  destruct s as [k v t]. cbn [nmach nst]. intros Hk Hr Hbufs Hold Hbase. pose proof (kinv_nodup _ _ _ Hk) as Hnd.
  assert (Forall (λ p, ram_page p ∧ page_aligned p) [rd; ra; ru; td; ta; tu]) as Hpg.
  { apply Forall_forall. intros p Hp. eapply kinv_page; [exact Hk|].
    change (rd :: ra :: ru :: td :: ta :: tu :: bufs ++ f :: l) with ([rd; ra; ru; td; ta; tu] ++ bufs ++ f :: l). apply elem_of_app. by left. }
  unfold net_outcome. cbn [ndev nmach nst]. destruct (first_slot v) as [b|] eqn:Eb; [|by apply wp_net_absent].
  unfold net_init. net_steps. apply (wp_find_net 8). change (Z.of_nat 8) with 8.
  change (head (filter (λ b, net_slot v b) (slot_base <$> seqZ 0 8))) with (first_slot v). rewrite Eb. net_steps. cbn [nst].
  assert (b ≠ 0) as Hb0.
  { unfold first_slot in Eb. apply head_Some_elem_of, list_elem_of_filter in Eb as [_ Eb]. by apply slot_nonzero. }
  cbn [net_base with_net_base]. rewrite (proj2 (Z.eqb_neq _ _)) by done. net_steps. apply wp_net_negotiate. cbn [net_base with_net_base fst snd].
  destruct (Z.land _ S_FEATURES_OK =? 0) eqn:Eok; cbn [negb]; [by apply wp_net_fails|]. apply Z.eqb_neq in Eok.
  set (v3 := net_negotiated b v) in *. net_steps. cbn [nst ndev net_base with_net_base with_mac]. set (mc := map _ _).
  eapply wp_net_setup_queue; [exact Hk|done|]. intros k1 K1 R1 Z1. net_steps.
  eapply wp_net_setup_queue; [exact K1|done|]. intros k2 K2 R2 Z2. net_steps.
  rewrite !Forall_cons in Hpg. pose proof Hpg as (Prd & Pra & Pru & Ptd & Pta & Ptu & _).
  assert (∀ p x, p ∈ [ru; ta; tu] → in_page p x → ld8 (mem k2) x = 0) as Hz.
  { intros p x Hp Hx. rewrite !elem_of_cons, elem_of_nil in Hp.
    rewrite !NoDup_cons, !not_elem_of_cons in Hnd. destruct Hnd as (_ & _ & (N1 & N2 & N3 & _) & _).
    destruct Hp as [->|Hp].
    - eapply (zeroed_still _ _ _ _ _ ru); [exact Z1|exact Z2|rewrite !elem_of_cons; auto|done| |].
      + rewrite !Forall_cons. split_and!; try done; [apply Pru|apply Ptd|apply Pta|apply Ptu].
      + rewrite !not_elem_of_cons. split_and!; [done..|apply not_elem_of_nil].
    - apply (proj1 Z2 p); [|done]. rewrite !elem_of_cons, elem_of_nil. destruct Hp as [->|[->|[]]]; auto. }
  eapply (wp_lay_out rg rd ra ru td ta tu bufs f l k2); [exact Hnd|done|done|by rewrite !Forall_cons|exact K2|done|exact Hz|].
  intros k3 K3 R3 L3. cbn [q_avail q_desc q_used] in *. net_steps. eapply wp_nm_kalloc; [exact K3|done|]. net_steps.
  apply wp_bind_inv, wp_net_greeting; [by eapply ready_spin|]. intros k4 E4 Ek4 R4.
  split; [done|]. split; [|split_and!; [|done|done]].
  - apply (serving_up rg b v k k4 rd ra ru td ta tu bufs f l mc Eb Eok Hk Hbufs eq_refl). by rewrite E4.
  - cbn [nmach]. eapply kinv_ext; [exact Ek4| |by eapply kinv_after_alloc]. intros q _. by rewrite E4.
Qed.

(** C21: net_init. If one of the eight slots has a network device and it accepts the
    features, the result is 0 and the driver is ready, with empty queues and the
    device's own address ([nic_queues] says what follows from that); exactly
    fifteen pages were allocated. Otherwise the result is -1, the driver stays
    off, and memory and the allocator are unchanged. *)
Theorem net_init_ready rg rd ra ru td ta tu bufs f l s :
  kinv rg (nmach s) (rd :: ra :: ru :: td :: ta :: tu :: bufs ++ f :: l) → ready (nmach s) → length bufs = 8%nat →
  length (rxbuf (nst s)) = 8%nat → net_base (nst s) = 0 →
  ∃ r s', net_init s = Done r s' ∧ net_outcome rg l s r s'.
Proof. intros. apply wp_run. by eapply wp_net_init. Qed.
End init.
