(* ===== verification/NetSim.v ===== *)
(** * A network device, and the driver at work on it

    The device sits in the second slot. It sends what is posted at once, and
    otherwise delivers frames from a script. It satisfies the promises of
    NetDriverSpec.v, so they can be kept. *)
From stdpp Require Import relations.
From S2P Require Import Prelude Spinlock Uart Mem Kalloc PageTable AddrSpace Packet Net Disk Virtio VirtioSpec VirtioInit NetDriver NetDriverSpec NetDriverOps NetDriverInit.

Definition SIMBASE : Z := 0x10002000.

(** The queue registers as last written, by queue; status and selected queue;
    the progress of the queues; the frames still to come. *)
Record simnet := SimNet {
  sn_regs : gmap (Z * Z) Z; sn_status : Z; sn_sel : Z;
  sn_next : Z; sn_held : list Z; sn_log : list (list Z); sn_wire : list (list Z); sn_in : list (list Z)
}.

Definition sn_reg (q off : Z) (v : simnet) : Z := default 0 (sn_regs v !! (q, off)).
Definition sn_addr (q lo hi : Z) (v : simnet) : Z := sn_reg q lo v + 2 ^ 32 * sn_reg q hi v.
Definition sn_rings (q : Z) (v : simnet) : Z * Z * Z :=
  (sn_addr q MMIO_QUEUE_DESC_LO MMIO_QUEUE_DESC_HI v, sn_addr q MMIO_DRIVER_DESC_LO MMIO_DRIVER_DESC_HI v,
   sn_addr q MMIO_DEVICE_DESC_LO MMIO_DEVICE_DESC_HI v).

Definition sn_ghost (v : simnet) : option netdev :=
  if (sn_status v =? 15) && (sn_reg 0 MMIO_QUEUE_READY v =? 1) && (sn_reg 1 MMIO_QUEUE_READY v =? 1)
  then Some (NetDev SIMBASE (sn_rings 0 v) (sn_rings 1 v) (sn_next v) (sn_held v) (sn_log v) (sn_wire v)) else None.

Definition sn_read (a : Z) (v : simnet) : Z :=
  let off := a - SIMBASE in
  if off =? MMIO_MAGIC then 0x74726976 else if off =? MMIO_VERSION then 2 else if off =? MMIO_DEVICE_ID then 1
  else if off =? MMIO_DEVICE_FEAT then 0xffffffff else if off =? MMIO_STATUS then sn_status v
  else if (MMIO_CONFIG <=? off) && (off <? MMIO_CONFIG + 6) then 0x52 + off - MMIO_CONFIG
  else 0.

Definition sn_write (a x : Z) (v : simnet) : simnet :=
  let off := a - SIMBASE in
  if off =? MMIO_STATUS then
    if x =? 0 then SimNet ∅ 0 0 0 [] [] [] (sn_in v)
    else SimNet (sn_regs v) x (sn_sel v) (sn_next v) (sn_held v) (sn_log v) (sn_wire v) (sn_in v)
  else if off =? MMIO_QUEUE_SEL then
    SimNet (sn_regs v) (sn_status v) x (sn_next v) (sn_held v) (sn_log v) (sn_wire v) (sn_in v)
  else if (MMIO_QUEUE_READY <=? off) && (off <=? MMIO_DEVICE_DESC_HI) && negb (off =? MMIO_QUEUE_NOTIFY) then
    SimNet (<[(sn_sel v, off) := x]> (sn_regs v)) (sn_status v) (sn_sel v) (sn_next v) (sn_held v) (sn_log v) (sn_wire v) (sn_in v)
  else v.

(** A posted frame goes out; otherwise a frame of the script comes in. *)
Definition sn_dma (v : simnet) (m : gmap Z Z) : simnet * gmap Z Z :=
  match sn_ghost v with
  | None => (v, m)
  | Some _ =>
      let '(d, a, u) := sn_rings 1 v in
      let sent := Z.of_nat (length (sn_wire v)) in
      if negb (ldn 2 m (a + 2) =? u16 sent) then
        let head := ldn 2 m (a + 4 + 2 * (sent mod NUM)) in
        let '(addr, len, fl, _) := desc_at m d head in
        if fl =? 0 then
          (SimNet (sn_regs v) (sn_status v) (sn_sel v) (sn_next v) (sn_held v) (sn_log v)
             (sn_wire v ++ [read_bytes (Z.to_nat len) m addr]) (sn_in v), used_put u sent head 0 m)
        else (v, m)
      else
        let '(d, a, u) := sn_rings 0 v in
        match sn_in v with
        | [] => (v, m)
        | f :: fs =>
            let l := u8 <$> f in
            if ldn 2 m (a + 2) =? u16 (sn_next v) then (v, m)
            else
              let id := ldn 2 m (a + 4 + 2 * (sn_next v mod NUM)) in
              let '(addr, len, fl, _) := desc_at m d id in
              if (fl =? VRING_DESC_F_WRITE) && (Z.of_nat (length l) <=? len) then
                (SimNet (sn_regs v) (sn_status v) (sn_sel v) (sn_next v + 1) (sn_held v) (sn_log v ++ [l]) (sn_wire v) fs,
                 used_put u (Z.of_nat (length (sn_log v))) id (Z.of_nat (length l)) (write_bytes m addr l))
              else (v, m)
        end
  end.

#[export] Instance sim_net : VirtioDev simnet := {| reg_read := sn_read; reg_write := sn_write; dma := sn_dma |}.

Lemma sn_ghost_on v g : sn_ghost v = Some g →
  g = NetDev SIMBASE (sn_rings 0 v) (sn_rings 1 v) (sn_next v) (sn_held v) (sn_log v) (sn_wire v) ∧
  ∀ n h l w i, sn_ghost (SimNet (sn_regs v) (sn_status v) (sn_sel v) n h l w i) =
    Some (NetDev SIMBASE (sn_rings 0 v) (sn_rings 1 v) n h l w).
Proof.
  unfold sn_ghost. destruct (_ && _) eqn:E; [|done]. intros [= <-]. split; [done|]. intros n h l w i.
  change (sn_status (SimNet _ _ _ _ _ _ _ _)) with (sn_status v). unfold sn_reg in *. cbn [sn_regs]. by rewrite E.
Qed.

Lemma sn_acts v m g : sn_ghost v = Some g → ∃ g', sn_ghost (sn_dma v m).1 = Some g' ∧ rtc nstep (g, m) (g', (sn_dma v m).2).
Proof.
  intros Hg. destruct (sn_ghost_on v g Hg) as [-> Hon]. unfold sn_dma. rewrite Hg.
  destruct (sn_rings 1 v) as [[d1 a1] u1] eqn:E1. destruct (sn_rings 0 v) as [[d0 a0] u0] eqn:E0.
  destruct (Z.eqb_spec (ldn 2 m (a1 + 2)) (u16 (Z.of_nat (length (sn_wire v))))) as [Et|Et]; cbn [negb].
  - destruct (sn_in v) as [|f fs]; [by eexists|].
    destruct (Z.eqb_spec (ldn 2 m (a0 + 2)) (u16 (sn_next v))) as [Er|Er]; [by eexists|].
    destruct (desc_at m d0 _) as [[[addr len] fl] nx] eqn:Ed.
    destruct ((fl =? VRING_DESC_F_WRITE) && _) eqn:Eb; [|by eexists]. apply andb_prop in Eb as [->%Z.eqb_eq Hlen%Z.leb_le].
    eexists. split; [apply Hon|]. cbn [snd].
    eapply rtc_l; [by apply ns_take|]. rewrite <- (app_nil_r (sn_held v)) at 2.
    apply rtc_once. eapply ns_recv; [exact Ed| |done].
    apply Forall_fmap, Forall_true. intros x. apply u8_byte.
  - destruct (desc_at m d1 _) as [[[addr len] fl] nx] eqn:Ed. destruct (Z.eqb_spec fl 0) as [->|]; [|by eexists].
    eexists. split; [apply Hon|]. cbn [snd]. apply rtc_once. by eapply ns_send.
Qed.

(** The addresses of the rings come through the two halves. *)
Lemma rings_back r : 0 ≤ r.1.1 < 2 ^ 64 → 0 ≤ r.1.2 < 2 ^ 64 → 0 ≤ r.2 < 2 ^ 64 →
  (u32 r.1.1 + 2 ^ 32 * u32 (Z.shiftr r.1.1 32), u32 r.1.2 + 2 ^ 32 * u32 (Z.shiftr r.1.2 32),
   u32 r.2 + 2 ^ 32 * u32 (Z.shiftr r.2 32)) = r.
Proof. destruct r as [[d a] u]. cbn [fst snd]. intros. by rewrite !u32_halves. Qed.

Lemma sn_init v rx tx : (∀ x, x ∈ [rx.1.1; rx.1.2; rx.2; tx.1.1; tx.1.2; tx.2] → 0 ≤ x < 2 ^ 64) →
  sn_ghost (nwrites SIMBASE (queue_regs 0 rx ++ queue_regs 1 tx ++ [(MMIO_STATUS, 15); (MMIO_QUEUE_NOTIFY, 0)])
    (net_negotiated SIMBASE v)) = Some (NetDev SIMBASE rx tx 0 [] [] []).
Proof.
  intros Hx. rewrite <- (rings_back rx) at 2 by (apply Hx; rewrite !elem_of_cons; auto 7).
  rewrite <- (rings_back tx) at 2 by (apply Hx; rewrite !elem_of_cons; auto 7).
  destruct rx as [[d a] u], tx as [[d' a'] u']. reflexivity.
Qed.

#[export] Instance sim_net_laws : VirtioNetLaws simnet.
Proof.
  refine {| ghost := sn_ghost; net_latency := 0 |}.
  - done.
  - apply sn_acts.
  - intros v g q Hg. destruct (sn_ghost_on v g Hg) as [-> _]. exact Hg.
  - intros v m b rx d a u n held log w addr len Hg Ha Hu Hd. exists 0%nat. split; [lia|].
    destruct (sn_ghost_on v _ Hg) as [E _]. pose proof (f_equal g_tx E) as E2. pose proof (f_equal g_wire E) as Ew.
    pose proof (f_equal g_base E) as Eb. cbn [g_tx g_wire g_base] in E2, Ew, Eb. subst b w. cbn [acts snd].
    change (reg_write (SIMBASE + MMIO_QUEUE_NOTIFY) 1 v) with v. change (dma v m) with (sn_dma v m).
    unfold sn_dma. rewrite Hg, <- E2, Ha.
    assert (∀ x, u16 (x + 1) ≠ u16 x) as Hne by (intros x; unfold u16; Z.to_euclidean_division_equations; lia).
    rewrite (proj2 (Z.eqb_neq _ _)) by apply Hne. cbn [negb]. rewrite Hd. cbn [Z.eqb snd]. rewrite used_idx. apply Hne.
  - intros v b rx tx Hb v3 _ Hx. subst v3. assert (first_slot v = Some SIMBASE) as Hb' by reflexivity.
    rewrite Hb in Hb'. injection Hb' as ->. by apply sn_init.
Defined.

(** ** The driver on this device *)

Definition demo_nst : nstat := NStat 0 0 (Vq 0 0 0 0) (Vq 0 0 0 0) (replicate 8 0) 0 [].
Definition demo_net (script : list (list Z)) (k : machine) : vnet simnet :=
  Vnet k (SimNet ∅ 0 0 0 [] [] [] script) demo_nst.

Lemma demo_fifteen : ∃ rg k rd ra ru td ta tu bufs f l,
  kinv rg k (rd :: ra :: ru :: td :: ta :: tu :: bufs ++ f :: l) ∧ ready k ∧ length bufs = 8%nat.
Proof.
  destruct (demo_pages 100 ltac:(lia)) as (k & l & Hk & Hr & Hl).
  do 6 (destruct l as [|? l]; [simpl in Hl; lia|]). do 6 eexists. eexists _, _, (take 8 l).
  destruct (drop 8 l) as [|f l'] eqn:E; [apply (f_equal length) in E; rewrite length_drop in E; simpl in *; lia|].
  exists f, l'. rewrite <- E, take_drop. split_and!; [exact Hk|exact Hr|]. rewrite length_take. simpl in Hl. lia.
Qed.

Lemma net_init_ready_witness : ∃ s s', net_init s = Done 0 s' ∧ serving s' [] [] [] ∧ mac (nst s') = [82; 83; 84; 85; 86; 87].
Proof.
  destruct demo_fifteen as (rg & k & rd & ra & ru & td & ta & tu & bufs & f & l & Hk & Hr & Hl).
  destruct (net_init_ready rg rd ra ru td ta tu bufs f l (demo_net [] k) Hk Hr Hl eq_refl eq_refl) as (r & s' & H1 & H2).
  exists (demo_net [] k), s'. destruct H2 as (-> & H2 & _ & _ & H3). split_and!; [exact H1|exact H2|exact H3].
Defined.

Lemma demo_serving (script : list (list Z)) : ∃ s : vnet simnet, serving s [] [] [].
Proof.
  destruct demo_fifteen as (rg & k & rd & ra & ru & td & ta & tu & bufs & f & l & Hk & Hr & Hl).
  destruct (wp_run _ _ _ (wp_net_init rg rd ra ru td ta tu bufs f l (demo_net script k) Hk Hr Hl eq_refl eq_refl)) as (r & s' & _ & H2).
  destruct H2 as (_ & H2 & _). by exists s'.
Qed.

(** A broadcast goes out while a frame may come in; then a look at the queue. *)
Lemma nic_queues_witness : ∃ s s1 s2 : vnet simnet, ∃ r inbox past,
  eth_tx (replicate 6 255) 0x806 [1; 2; 3] s = Done 0 s1 ∧
  eth_rx (replicate 2048 0) 2048 s1 = Done r s2 ∧
  serving s2 past inbox [u8 <$> frame_data (mac (nst s)) (replicate 6 255) 0x806 [1; 2; 3]].
Proof.
  destruct (demo_serving [replicate 60 7]) as [s Hs].
  destruct (proj1 (nic_queues [] [] [] s Hs) (replicate 6 255) 0x806 [1; 2; 3]) as (more & s1 & E1 & _ & H1);
    [reflexivity|unfold BUFSZ; cbn; lia|].
  destruct (proj2 (nic_queues [] ([] ++ more) _ s1 H1) (replicate 2048 0) 2048%nat) as (more2 & r & s2 & E2 & _ & H2).
  exists s, s1, s2, r. destruct (([] ++ more) ++ more2) as [|x rest]; destruct H2 as [_ H2].
  - by exists [], [].
  - by exists rest, ([] ++ [x]).
Defined.
