(* ===== verification/Frame.v ===== *)
(** * What an operation leaves alone

    [keeps R m]: wherever [m] stops, the state it stops in is related to the one
    it started in. For a preorder that is closed under the primitive operations
    of a component, every operation of the component keeps it; [keep_tac] finds
    the proofs by following the structure of the code. *)
From S2P Require Import Prelude Spinlock Uart Mem Disk Fs Proc.

Section keeps.
Context {S : Type} (R : relation S).

Definition keeps {A} (m : M S A) : Prop := ∀ s, match m s with Done _ t | Halt t => R s t | Undef => True end.

Lemma keeps_done {A} (m : M S A) s a t : keeps m → m s = Done a t → R s t.
Proof. intros Hm E. specialize (Hm s). by rewrite E in Hm. Qed.

(** Beside what a rule shows. *)
Lemma wp_keeps {A} (m : M S A) (P : A → S → Prop) s : keeps m → wp m P s → wp m (λ a t, P a t ∧ R s t) s.
Proof. intros Hm (a & t & E & HP)%wp_run. unfold wp. rewrite E. split; [done|by eapply keeps_done]. Qed.

Context `{!PreOrder R}.

Lemma keeps_ret {A} (a : A) : keeps (mret a). Proof. intros s. exact (reflexivity s). Qed.
Lemma keeps_bind {A B} (m : M S A) (f : A → M S B) : keeps m → (∀ a, keeps (f a)) → keeps (m ≫= f).
Proof.
  intros Hm Hf s. specialize (Hm s). unfold mbind, M_bind. destruct (m s) as [a t|t|]; [|done|done].
  specialize (Hf a t). destruct (f a t); [by etrans|by etrans|done].
Qed.
Lemma keeps_gets {A} (f : S → A) : keeps (gets f). Proof. intros s. exact (reflexivity s). Qed.
Lemma keeps_modify (f : S → S) : (∀ s, R s (f s)) → keeps (modify f). Proof. by intros Hf s; apply Hf. Qed.
Lemma keeps_halt {A} : keeps (halt : M S A). Proof. intros s. exact (reflexivity s). Qed.
Lemma keeps_assertb b : keeps (assertb b). Proof. intros s. destruct b; [exact (reflexivity s)|done]. Qed.
Lemma keeps_of_option {A} (o : option A) : keeps (of_option o). Proof. intros s. destruct o; [exact (reflexivity s)|done]. Qed.
Lemma keeps_when b (m : M S unit) : keeps m → keeps (when b m). Proof. intros Hm. destruct b; [done|apply keeps_ret]. Qed.
Lemma keeps_for_n n i body : (∀ j, keeps (body j)) → keeps (for_n n i body).
Proof. intros Hb. revert i. induction n as [|n IH]; intros i; [apply keeps_ret|apply keeps_bind; auto]. Qed.
Lemma keeps_loop {X A} fuel (body : X → M S (X + A)) x : (∀ y, keeps (body y)) → keeps (loop fuel body x).
Proof.
  intros Hb. revert x. induction fuel as [|fuel IH]; intros x; [apply keeps_halt|].
  apply keeps_bind; [done|]. intros [y|a]; [done|apply keeps_ret].
Qed.
Lemma keeps_zoom {T A} (g : S → T) (p : T → S → S) (m : M T A) :
  (∀ s, match m (g s) with Done _ t | Halt t => R s (p t s) | Undef => True end) → keeps (zoom g p m).
Proof. intros Hm s. specialize (Hm s). unfold zoom. by destruct (m (g s)). Qed.
End keeps.

Create HintDb keeps.

(** One step into the structure of the code; leaves go to the hint database. *)
Ltac keep_step :=
  lazymatch goal with
  | |- keeps _ (mret _) => apply keeps_ret; exact _
  | |- keeps _ (_ ≫= _) => apply keeps_bind; [exact _| |intros ?]
  | |- keeps _ (gets _) => apply keeps_gets; exact _
  | |- keeps _ halt => apply keeps_halt; exact _
  | |- keeps _ (assertb _) => apply keeps_assertb; exact _
  | |- keeps _ (of_option _) => apply keeps_of_option; exact _
  | |- keeps _ (when _ _) => apply keeps_when; [exact _|]
  | |- keeps _ (for_n _ _ _) => apply keeps_for_n; [exact _|intros ?]
  | |- keeps _ (loop _ _ _) => apply keeps_loop; [exact _|intros ?]
  | |- keeps _ (if ?b then _ else _) => destruct b
  | |- keeps _ (match ?x with _ => _ end) => destruct x
  | |- keeps _ _ => solve [eauto with keeps]
  end; cbv beta zeta.
Ltac keep_tac := repeat keep_step.

(** ** The output functions *)

Section uart.
Context {S : Type} `{HasDev S} (R : relation S) `{!PreOrder R} (Hdev : ∀ d s, R s (set_dev d s)).

Lemma keeps_acquire lk : keeps R (acquire lk).
Proof. unfold acquire. keep_tac. all: apply keeps_modify; intros; apply Hdev. Qed.
Lemma keeps_release lk : keeps R (release lk).
Proof. unfold release. keep_tac. all: apply keeps_modify; intros; apply Hdev. Qed.
Lemma keeps_putc_raw c : keeps R (putc_raw c).
Proof. apply keeps_modify. intros. apply Hdev. Qed.
Hint Resolve keeps_acquire keeps_release keeps_putc_raw : keeps.
Lemma keeps_putc c : keeps R (uart_putc c). Proof. unfold uart_putc. keep_tac. Qed.
Lemma keeps_puts l : keeps R (uart_puts l).
Proof.
  unfold uart_puts. keep_tac. match goal with |- keeps _ (puts_loop ?l) => induction l end; cbn [puts_loop]; keep_tac.
Qed.
Lemma keeps_str m : keeps R (uart_str m). Proof. apply keeps_puts. Qed.
Lemma keeps_line m : keeps R (uart_line m). Proof. apply keeps_puts. Qed.
Lemma keeps_dec n : keeps R (uart_dec n).
Proof.
  unfold uart_dec, dec_body. keep_tac. match goal with |- keeps _ (putc_all ?l) => induction l end; cbn [putc_all]; keep_tac.
Qed.
Lemma keeps_hex n : keeps R (uart_hex n).
Proof.
  unfold uart_hex. keep_tac. match goal with |- keeps _ (hex_loop ?k _) => induction k end; cbn [hex_loop]; keep_tac.
Qed.
Lemma keeps_putc_each l : keeps R (putc_each l).
Proof. induction l; cbn [putc_each]; keep_tac. apply keeps_putc. Qed.
End uart.

(** ** The file system *)

Section fs.
Context {D : Type} `{HasDev D, !BlockDev D} (R : relation D) `{!PreOrder R}.
Context (Hdev : ∀ d s, R s (set_dev d s)) (Hdisk : ∀ b buf w, keeps R (virtio_disk_rw b buf w)).

(** Lifted to the file system, whose statics may change. *)
Definition on_low (s t : fs D) : Prop := R (low s) (low t).

#[local] Instance on_low_preorder : PreOrder on_low.
Proof. split; [intros s; apply (reflexivity (R := R))|intros s t u; apply (transitivity (R := R))]. Qed.

Lemma low_dev d s : on_low s (set_dev d s). Proof. apply Hdev. Qed.
Lemma keeps_on_mem f : keeps on_low (on_mem f).
Proof. apply keeps_modify. intros s. apply (reflexivity (R := R)). Qed.
Lemma keeps_mem_get {A} (f : fsmem → A) : keeps on_low (mem_get f). Proof. apply keeps_gets, _. Qed.

Lemma keeps_disk_rw b w : keeps on_low (disk_rw b w).
Proof.
  unfold disk_rw. keep_tac; try apply keeps_mem_get; try apply keeps_on_mem. apply keeps_zoom. intros s.
  pose proof (Hdisk b a w (low s)) as Hd. destruct (virtio_disk_rw b a w (low s)); done.
Qed.
Hint Resolve keeps_mem_get keeps_on_mem keeps_disk_rw : keeps.
Hint Extern 1 (keeps on_low (uart_putc _)) => apply (keeps_putc on_low low_dev) : keeps.
Hint Extern 1 (keeps on_low (uart_puts _)) => apply (keeps_puts on_low low_dev) : keeps.
Hint Extern 1 (keeps on_low (uart_str _)) => apply (keeps_str on_low low_dev) : keeps.
Hint Extern 1 (keeps on_low (uart_line _)) => apply (keeps_line on_low low_dev) : keeps.
Hint Extern 1 (keeps on_low (uart_dec _)) => apply (keeps_dec on_low low_dev) : keeps.
Hint Extern 1 (keeps on_low (putc_each _)) => apply (keeps_putc_each on_low low_dev) : keeps.

Lemma keeps_write_loghdr c n blks : keeps on_low (write_loghdr c n blks).
Proof. unfold write_loghdr. keep_tac. Qed.
Lemma keeps_log_begin : keeps on_low log_begin.
Proof. unfold log_begin. keep_tac. Qed.
Lemma keeps_log_write dst data : keeps on_low (log_write dst data).
Proof. unfold log_write. keep_tac. Qed.
Lemma keeps_log_install n blks : keeps on_low (log_install n blks).
Proof. unfold log_install. keep_tac. Qed.
Hint Resolve keeps_write_loghdr keeps_log_begin keeps_log_write keeps_log_install : keeps.
Lemma keeps_log_commit : keeps on_low log_commit.
Proof. unfold log_commit. keep_tac. Qed.
Lemma keeps_put_used b v : keeps on_low (put_used b v).
Proof. unfold put_used. keep_tac. Qed.
Lemma keeps_dir_at i : keeps on_low (dir_at i).
Proof. unfold dir_at. keep_tac. Qed.
Lemma keeps_put_dir i e : keeps on_low (put_dir i e).
Proof. unfold put_dir. keep_tac. Qed.
Hint Resolve keeps_log_commit keeps_put_used keeps_dir_at keeps_put_dir : keeps.
Lemma keeps_find_file name : keeps on_low (find_file name).
Proof.
  unfold find_file. keep_tac. match goal with |- keeps _ (find_from ?n ?i _) => generalize i; induction n end;
    intros; cbn [find_from]; keep_tac; auto.
Qed.
Lemma keeps_balloc n : keeps on_low (balloc_contig n).
Proof. unfold balloc_contig. keep_tac. Qed.
Lemma keeps_log_dir : keeps on_low log_dir.
Proof. unfold log_dir. keep_tac. Qed.
Lemma keeps_log_super : keeps on_low log_super.
Proof. unfold log_super. keep_tac. Qed.
Hint Resolve keeps_find_file keeps_balloc keeps_log_dir keeps_log_super : keeps.
Lemma keeps_each_block {A} each size start (a : A) :
  (∀ l a, keeps on_low (each l a)) → keeps on_low (each_block each size start a).
Proof. intros He. unfold each_block. keep_tac. all: apply He. Qed.

Lemma keeps_fs_create name data size : keeps on_low (fs_create name data size).
Proof. unfold fs_create. keep_tac. Qed.
Lemma keeps_fs_delete name : keeps on_low (fs_delete name).
Proof. unfold fs_delete. keep_tac. Qed.
Lemma keeps_fs_stat name : keeps on_low (fs_stat name).
Proof. unfold fs_stat. keep_tac. Qed.
Lemma keeps_fs_read name buf max : keeps on_low (fs_read name buf max).
Proof. unfold fs_read. keep_tac. all: apply keeps_each_block; intros; keep_tac. Qed.
Lemma keeps_fs_read_page start size off buf : keeps on_low (fs_read_page start size off buf).
Proof. unfold fs_read_page. keep_tac. Qed.
Lemma keeps_fs_cat name : keeps on_low (fs_cat name).
Proof. unfold fs_cat. keep_tac. all: apply keeps_each_block; intros; keep_tac. Qed.
Lemma keeps_fs_ls : keeps on_low fs_ls.
Proof. unfold fs_ls. keep_tac. Qed.
Lemma keeps_recover : keeps on_low recover.
Proof. unfold recover. keep_tac. Qed.
Lemma keeps_build_bitmap : keeps on_low build_bitmap.
Proof. unfold build_bitmap. keep_tac. Qed.
Hint Resolve keeps_recover keeps_build_bitmap : keeps.
Lemma keeps_fs_init : keeps on_low fs_init.
Proof. unfold fs_init. keep_tac. Qed.
End fs.
