(* ===== verification/Driver.v ===== *)
(** * Memory shared with the block device

    [DriverMem] is what the kernel needs of the block device besides
    BlockDevLaws: which bytes of memory belong to the driver, and that it touches
    no others. The virtio driver provides it. *)
From S2P Require Import Prelude Spinlock Uart Mem Kalloc PageTable Disk Fs Proc Frame Virtio VirtioSpec.

(** ** Memory shared with the block device *)

Definition set_mem {D} `{HasMachine D} (m : gmap Z Z) (d : D) : D := set_mach (with_mem m (mach_of d)) d.

(** The allocator and the page table registers. *)
Definition same_alloc (k k' : machine) : Prop :=
  km k' = km k ∧ kernel_pagetable k' = kernel_pagetable k ∧ satp k' = satp k.

Class DriverMem (D : Type) `{HasDev D, !HasDevLaws D, !HasMachine D, !BlockDev D, !BlockDevLaws D} := {
  owned : D → Z → Prop;
  (** Other memory, and the rest of the machine, may change without the device noticing. *)
  driver_set_mach k d : (∀ x, owned d x → ld8 (mem k) x = ld8 (mem (mach_of d)) x) → disk_good d →
    disk_good (set_mach k d) ∧ capacity (set_mach k d) = capacity d ∧ origin (set_mach k d) = origin d ∧
    history (set_mach k d) = history d ∧ ∀ x, owned (set_mach k d) x ↔ owned d x;
  (** A request touches no other memory. *)
  driver_frame b buf w d r d' : disk_good d → Disk.virtio_disk_rw b buf w d = Done r d' →
    disk_good d' ∧ (∀ x, owned d' x ↔ owned d x) ∧
    (∀ x, ¬ owned d x → ld8 (mem (mach_of d')) x = ld8 (mem (mach_of d)) x) ∧ same_alloc (mach_of d) (mach_of d');
  driver_halt b buf w d d' : disk_good d → Disk.virtio_disk_rw b buf w d ≠ Halt d';
  driver_dev x d : mach_of (set_dev x d) = set_dev x (mach_of d) ∧ ∀ y, owned (set_dev x d) y ↔ owned d y;
}.

Section untouched.
Context {D : Type} `{HasDev D, !HasDevLaws D, !BlockDev D, !BlockDevLaws D, !HasMachine D, !DriverMem D}.

Lemma driver_set_mem m d : (∀ x, owned d x → ld8 m x = ld8 (mem (mach_of d)) x) → disk_good d →
  disk_good (set_mem m d) ∧ capacity (set_mem m d) = capacity d ∧ origin (set_mem m d) = origin d ∧
  history (set_mem m d) = history d ∧ ∀ x, owned (set_mem m d) x ↔ owned d x.
Proof. intros Hm Hg. unfold set_mem. by apply driver_set_mach. Qed.

(** The driver worked, and nothing else happened to memory. *)
Definition untouched (d d' : D) : Prop := disk_good d →
  disk_good d' ∧ (∀ x, owned d' x ↔ owned d x) ∧
  (∀ x, ¬ owned d x → ld8 (mem (mach_of d')) x = ld8 (mem (mach_of d)) x) ∧ same_alloc (mach_of d) (mach_of d').

#[export] Instance untouched_preorder : PreOrder untouched.
Proof.
  split; [by intros d|]. intros d1 d2 d3 H1 H2 Hg. destruct (H1 Hg) as (G2 & O2 & F2 & A2 & B2 & C2). destruct (H2 G2) as (G3 & O3 & F3 & A3 & B3 & C3).
  split_and!; [done|intros x; by rewrite O3, O2| |split_and!; congruence].
  intros x Hx. by rewrite F3, F2 by (rewrite ?O2; done).
Qed.

Lemma untouched_dev x d : untouched d (set_dev x d).
Proof.
  intros Hg. destruct (driver_dev x d) as [Em Ho]. split_and!; [by apply disk_set_dev|done| |].
  - intros y _. by rewrite Em.
  - by rewrite Em.
Qed.

Lemma untouched_rw b buf w : keeps untouched (Disk.virtio_disk_rw b buf w).
Proof.
  intros d. destruct (Disk.virtio_disk_rw b buf w d) as [r d'|d'|] eqn:E; [| |done]; intros Hg.
  - by apply (driver_frame b buf w d r d').
  - by destruct (driver_halt b buf w d d').
Qed.

End untouched.

(** ** The virtio driver, and the disk in memory *)

#[export] Instance virt_machine {V} : HasMachine (virt V) := {| mach_of := vmach; set_mach k s := Virt k (device s) (vst s) |}.
#[export] Instance virt_machine_laws {V} : HasMachineLaws (virt V).
Proof. by split; intros; try destruct d. Qed.

Section virt.
Context {V : Type} `{VirtioDev V, BlkContents V, !VirtioBlkLaws V, !Statics}.

(** The rings, the request header, the status byte and the sector buffer. *)
Definition virt_owned (s : virt V) (x : Z) : Prop :=
  in_page (desc (vst s)) x ∨ in_page (avail (vst s)) x ∨ in_page (used (vst s)) x ∨
  breq ≤ x < breq + 16 ∨ x = bstatus ∨ bufaddr ≤ x < bufaddr + BSIZE.

Lemma not_owned s x : ¬ virt_owned s x →
  outside_request (vst s) x ∧ (x < used (vst s) ∨ used (vst s) + PGSIZE ≤ x) ∧ (x < bufaddr ∨ bufaddr + BSIZE ≤ x).
Proof. unfold virt_owned, outside_request, in_page. lia. Qed.

(** Any request at all, on any sector number and any buffer. *)
Lemma virt_rw_any b buf w (s : virt V) :
  virt_good s → wp (Disk.virtio_disk_rw b buf w) (λ _ s', virt_good s' ∧ (∀ x, virt_owned s' x ↔ virt_owned s x) ∧
    (∀ x, ¬ virt_owned s x → ld8 (mem (vmach s')) x = ld8 (mem (vmach s)) x) ∧ same_alloc (vmach s) (vmach s')) s.
Proof.
  intros Hg. set (l := take (Z.to_nat BSIZE) buf).
  assert (length l ≤ Z.to_nat BSIZE)%nat as Hl by (unfold l; rewrite length_take; lia).
  pose proof (virt_good_write s l Hg Hl) as [Hd1 Hb1].
  cbn [Disk.virtio_disk_rw virt_block]. fold l. wp_steps. apply wp_vm. wp_steps.
  eapply wp_virtio_disk_rw; [exact Hd1|exact Hb1|apply Z.mod_pos_bound; done|lia|].
  intros r s' [T1 _ _ _ _ _ T7 T8 [k T9]]. cbn [vst vmach device with_mem mem] in *. wp_steps.
  split_and!.
  - split; [done|]. rewrite T9. destruct Hb1. by split.
  - intros x. unfold virt_owned. by rewrite T9.
  - intros x Hx. destruct (not_owned s x Hx) as (X1 & X2 & X3). rewrite T7 by auto. apply ld8_write_ne. unfold BSIZE in *. lia.
  - by rewrite T8.
Qed.

#[export] Instance virt_driver_mem : DriverMem (virt V).
Proof.
  refine {| owned := virt_owned |}.
  - intros k s Hm [[D1 D2 D3 D4 D5 D6] Hb]. split_and!; try done. split; [|done].
    split; cbn [set_mach virt_machine vst vmach device mach_of]; try done.
    + etrans; [|exact D4]. apply ldn_ext. intros x Hx. apply Hm. unfold virt_owned, in_page, PGSIZE. lia.
    + etrans; [|exact D5]. apply ldn_ext. intros x Hx. apply Hm. unfold virt_owned, in_page, PGSIZE. lia.
  - intros b buf w s r s' Hg Hrun. destruct (wp_run _ _ _ (virt_rw_any b buf w s Hg)) as (r' & s'' & E & H').
    rewrite Hrun in E. by injection E as <- <-.
  - intros b buf w s s' Hg Hrun. destruct (wp_run _ _ _ (virt_rw_any b buf w s Hg)) as (r' & s'' & E & _). congruence.
  - by intros x s.
Defined.
End virt.
