(* ===== verification/World.v ===== *)
(** * The machine with its devices

    Each driver was verified on a state of its own: memory, the device, the
    statics of the driver. Here they share one memory. What the file system and
    the network stack need of them carries over. *)
From S2P Require Import Prelude Spinlock Uart Mem Kalloc PageTable Disk Fs Packet Net Proc Virtio VirtioSpec NetDriver NetDriverSpec NetDriverOps Driver.

(** Memory and locks; the disk and the statics of virtio.c; the network card and
    the statics of net.c, with the frames sent and received so far. *)
Record world {V N : Type} := World {
  wmach : machine; wdisk : V; wvst : vstat; wcard : N; wnst : nstat; wtrace : list event
}.
Arguments world : clear implicits.

Section world.
Context {V N : Type}.
Implicit Types w : world V N.

Definition blk w : virt V := Virt (wmach w) (wdisk w) (wvst w).
Definition put_blk (s : virt V) w : world V N := World V N (vmach s) (device s) (vst s) (wcard w) (wnst w) (wtrace w).
Definition card w : nic N := OnNic (Vnet (wmach w) (wcard w) (wnst w)) (wtrace w).
Definition put_card (s : nic N) w : world V N :=
  World V N (nmach (nic_net s)) (wdisk w) (wvst w) (ndev (nic_net s)) (nst (nic_net s)) (nic_trace s).
Definition put_wmach (k : machine) w : world V N := World V N k (wdisk w) (wvst w) (wcard w) (wnst w) (wtrace w).

#[export] Instance world_has_dev : HasDev (world V N) := {|
  dev_of w := mdev (wmach w); set_dev d w := put_wmach (set_dev d (wmach w)) w
|}.
#[export] Instance world_has_dev_laws : HasDevLaws (world V N).
Proof. by split; intros; try destruct s as [[] ? ? ? ? ?]. Qed.

#[export] Instance world_machine : HasMachine (world V N) := {| mach_of := wmach; set_mach := put_wmach |}.
#[export] Instance world_machine_laws : HasMachineLaws (world V N).
Proof. by split; intros; try destruct d. Qed.
End world.

(** ** The disk *)

Section disk.
Context {V N : Type} `{VirtioDev V, BlkContents V, !VirtioBlkLaws V, !Statics}.
Implicit Types w : world V N.

#[export] Instance world_rw : BlockDev (world V N) := {|
  Disk.virtio_disk_rw b buf write := zoom blk put_blk (Disk.virtio_disk_rw b buf write)
|}.

#[export] Instance world_block_laws : BlockDevLaws (world V N).
Proof.
  refine {| disk_good w := disk_good (blk w); capacity w := capacity (blk w);
            origin w := origin (blk w); history w := history (blk w) |}.
  - intros x w. exact (disk_set_dev x (blk w)).
  - intros w b Hg. by apply disk_sector.
  - intros w b buf Q Hg Hb Hl HQ. apply wp_zoom, disk_read; [done..|]. intros s G1 G2 G3 G4 G5. apply HQ; by destruct s.
  - intros w b buf Q Hg Hb Hl HQ. apply wp_zoom, disk_write; [done..|]. intros s G1 G2 G3 G4 G5. apply HQ; by destruct s.
Defined.

#[export] Instance world_driver_mem : DriverMem (world V N).
Proof.
  refine {| owned w := owned (blk w) |}.
  - intros k w. exact (driver_set_mach k (blk w)).
  - intros b buf wr w r w' Hg Hrun. cbn [Disk.virtio_disk_rw world_rw] in Hrun. unfold zoom in Hrun.
    destruct (Disk.virtio_disk_rw b buf wr (blk w)) as [r' s| |] eqn:E; [|done..]. injection Hrun as <- <-.
    destruct (driver_frame b buf wr (blk w) r' s Hg E) as (G & O & F & A). destruct s. exact (conj G (conj O (conj F A))).
  - intros b buf wr w w' Hg Hrun. cbn [Disk.virtio_disk_rw world_rw] in Hrun. unfold zoom in Hrun.
    destruct (Disk.virtio_disk_rw b buf wr (blk w)) as [|s|] eqn:E; [done| |done].
    exact (driver_halt b buf wr (blk w) s Hg E).
  - intros x w. by split.
Defined.
End disk.

(** ** The network card *)

Section nic.
Context {V N : Type} `{!VirtioDev N}.
Implicit Types w : world V N.

#[export] Instance world_nic : Nic (world V N) := {|
  nic_ok w := nic_ok (card w); my_mac w := my_mac (card w);
  Net.eth_tx dst ty payload := zoom card put_card (Net.eth_tx dst ty payload);
  Net.eth_rx out max := zoom card put_card (Net.eth_rx out max)
|}.

#[export] Instance world_nic_laws `{!VirtioNetLaws N} : NicLaws (world V N).
Proof.
  refine {| trace w := trace (card w); nic_good w := nic_good (card w) |}.
  - intros w. exact (nic_mac (card w)).
  - intros w dst ty payload Q Hg Hd Hp HQ. apply wp_zoom, nic_tx; [done..|].
    intros r [[] ?] Hr G1 G2 G3 G4. by apply HQ.
  - intros w buf Q Hg Hb HQ0 HQ1. apply wp_zoom, nic_rx; [done..| |].
    + intros [[] ?] G1 G2 G3 G4. by apply HQ0.
    + intros f [[] ?] G1 G2 G3 G4 G5 G6. by apply HQ1.
Defined.
End nic.
