(* ===== verification/Syscall.v ===== *)
(** * System calls and exceptions (src/user.c, src/trap.c)

    The kernel runs on the page table of the calling process and reads user
    memory through it, taking (and resolving) page faults of its own on the way.
    A call that does not involve the scheduler is carried out here; for the
    others [syscall] says which one it is, and Sched.v has the rest. *)
From S2P Require Import Prelude Spinlock Uart Mem Kalloc Vm PageTable Disk Packet Net Fs Elf Console Sched Proc.

(** Offsets in [struct regframe] (trap.h). *)
Definition F_A1 : Z := 72.
Definition F_A7 : Z := 120.

(** [scause] of the exceptions handled. *)
Definition SCAUSE_U_ECALL : Z := 8.
Definition SCAUSE_LOAD_FAULT : Z := 13.
Definition SCAUSE_STORE_FAULT : Z := 15.

Definition SYS_putchar : Z := 1.
Definition SYS_print : Z := 2.
Definition SYS_tick : Z := 3.
Definition SYS_exit : Z := 4.
Definition SYS_fork : Z := 5.
Definition SYS_exec : Z := 6.
Definition SYS_read : Z := 7.
Definition SYS_wait : Z := 8.
Definition SYS_ls : Z := 9.
Definition SYS_cat : Z := 10.
Definition SYS_mem : Z := 11.
Definition SYS_sbrk : Z := 12.
Definition SYS_mmap : Z := 13.
Definition SYS_create : Z := 14.
Definition SYS_rm : Z := 15.
Definition SYS_tcp : Z := 16.

(** The calls that the scheduler carries out, with the arguments they get. *)
Inductive call := CTick | CExit | CFork (f : Z) | CRead (buf max : Z) | CWait.

(** How a system call ends: with its result in the frame, in a new program, or
    with a call of the scheduler. The buffer is the static [elfbuf]. *)
Inductive sysret :=
| Returned (i : image) (elfbuf : list Z)
| Entered (i : image) (entry : Z) (elfbuf : list Z)
| Blocked (c : call).

Section syscall.
Context {D : Type} `{HasDev D, !BlockDev D, !HasMachine D, !Nic D}.
(** Printed when an exception stops a hart: the address of the instruction. *)
Context (sepc : Z).

(** The exception that nobody handles: a report, then [for (;;)]. *)
Definition exception {A} (cause stval : Z) : M (fs D) A :=
  uart_str "[trap] EXCEPTION  scause=";; uart_hex cause;;
  uart_str "  sepc=";; uart_hex sepc;;
  uart_str "  stval=";; uart_hex stval;; uart_putc 10;;
  halt.

(** The entry that lets the kernel access [va], if there is one. *)
Definition allows (m : gmap Z Z) (pt va : Z) (store : bool) : option Z :=
  match sv39 m pt va with
  | Some e => if negb store || has e PTE_W then Some (PTE2PA e + va mod PGSIZE) else None
  | None => None
  end.

(** The physical address for an access of the kernel to user memory. A fault is
    handled like one of the process, and the access repeated: a page can fault
    for being absent and then for being read-only. *)
Fixpoint touch (faults : nat) (i : image) (va : Z) (store : bool) : M (fs D) Z :=
  pa ← gets (λ s, allows (mem (mach s)) (pagetable i) va store);
  match pa with
  | Some pa => mret pa
  | None =>
      match faults with
      | O => halt
      | S n =>
          r ← proc_pagefault (Some (true, i)) va store;
          if r =? 0 then exception (if store then SCAUSE_STORE_FAULT else SCAUSE_LOAD_FAULT) va
          else touch n i va store
      end
  end.

Definition user_load8 (i : image) (va : Z) : M (fs D) Z :=
  pa ← touch 3 i va false;
  on_mach (assertb (in_ram pa 1);; gets (λ k, ld8 (mem k) pa)).
Definition user_load64 (i : image) (va : Z) : M (fs D) Z := pa ← touch 3 i va false; on_mach (load64 pa).
Definition user_store64 (i : image) (va v : Z) : M (fs D) unit := pa ← touch 3 i va true; on_mach (store64 pa v).

(** [copy_path(uptr, dst, max)]: the characters copied; a NUL follows them in
    [dst]. [n] is [max - 1 - i]. *)
Fixpoint copy_path (i : image) (n : nat) (u : Z) : M (fs D) (list Z) :=
  match n with
  | O => mret []
  | S n =>
      c ← user_load8 i u;
      if c =? 0 then mret [] else cs ← copy_path i n (u64 (u + 1)); mret (c :: cs)
  end.

(** The C stack of [net_tcp_demo], and a bound on the segments it looks at. *)
Context (fuel : nat) (bufs : tcp_bufs).

Definition net (m : M D unit) : M (fs D) unit := zoom low (λ d s, FsOn (fm s) d) m.

Definition syscall (f : Z) (i : image) (elfbuf : list Z) : M (fs D) sysret :=
  let a0 := user_load64 i (f + F_A0) in
  let ret (i : image) (v : Z) := user_store64 i (f + F_A0) (u64 v);; mret (Returned i elfbuf) in
  a7 ← user_load64 i (f + F_A7);
  if a7 =? SYS_putchar then c ← a0; uart_putc (u8 c);; ret i 0
  else if a7 =? SYS_print then
    c ← a0;
    (if negb (c =? 0) then uart_line "  [parent] fork() returned a child; we are two now."
     else uart_line "  [child]  hello -- I was created by fork().");;
    ret i 0
  else if a7 =? SYS_tick then mret (Blocked CTick)
  else if a7 =? SYS_exit then mret (Blocked CExit)
  else if a7 =? SYS_fork then mret (Blocked (CFork f))
  else if a7 =? SYS_exec then
    u ← a0; path ← copy_path i 63 u;
    r ← proc_exec path elfbuf i;
    let '(entry, i', elfbuf') := r in
    match entry with
    | Some e => mret (Entered i' e elfbuf')
    | None => user_store64 i' (f + F_A0) (u64 (-1));; mret (Returned i' elfbuf')
    end
  else if a7 =? SYS_read then buf ← a0; max ← user_load64 i (f + F_A1); mret (Blocked (CRead buf (i32 max)))
  else if a7 =? SYS_wait then mret (Blocked CWait)
  else if a7 =? SYS_ls then fs_ls;; ret i 0
  else if a7 =? SYS_sbrk then n ← a0; let r := proc_sbrk (i32 n) i in ret r.2 r.1
  else if a7 =? SYS_mmap then u ← a0; path ← copy_path i 63 u; r ← proc_mmap path i; ret r.2 r.1
  else if a7 =? SYS_mem then
    uart_str "free pages: ";;
    n ← on_mach kfreecount; uart_dec n;;
    uart_str "  (~";;
    n ← on_mach kfreecount; uart_dec (u64 (n * 4096) / 1024 / 1024);;
    uart_line " MB)";;
    ret i 0
  else if a7 =? SYS_cat then u ← a0; path ← copy_path i 63 u; fs_cat path;; ret i 0
  else if a7 =? SYS_create then
    u ← a0; name ← copy_path i 63 u;
    u ← user_load64 i (f + F_A1); data ← copy_path i 255 u;
    r ← fs_create name data (Z.of_nat (length data)); ret i r
  else if a7 =? SYS_rm then u ← a0; name ← copy_path i 63 u; r ← fs_delete name; ret i r
  else if a7 =? SYS_tcp then net (net_tcp_demo fuel bufs);; ret i 0
  else uart_line "[syscall] unknown number";; ret i (-1).

(** Behind a system call: [f->sepc += 4]. *)
Definition skip_ecall (f : Z) (i : image) : M (fs D) unit :=
  pc ← user_load64 i (f + F_SEPC); user_store64 i (f + F_SEPC) (u64 (pc + 4)).

(** What the trap handler does for an exception from the process [i]. A call of
    the scheduler comes back through [resume], with its result; [CTick] has none. *)
Definition kerneltrap (cause stval f : Z) (i : image) (elfbuf : list Z) : M (fs D) sysret :=
  if cause =? SCAUSE_U_ECALL then
    r ← syscall f i elfbuf;
    match r with
    | Returned i' _ => skip_ecall f i';; mret r
    | _ => mret r
    end
  else
    r ← (if (cause =? SCAUSE_LOAD_FAULT) || (cause =? SCAUSE_STORE_FAULT)
         then proc_pagefault (Some (true, i)) stval (cause =? SCAUSE_STORE_FAULT) else mret 0);
    if negb (r =? 0) then mret (Returned i elfbuf) else exception cause stval.

Definition resume (f : Z) (v : option Z) (i : image) : M (fs D) unit :=
  (match v with Some v => user_store64 i (f + F_A0) (u64 v) | None => mret tt end);; skip_ecall f i.
End syscall.
