(* ===== verification/SyscallSpec.v ===== *)
(** * System calls on files, from the trap to the return

    The user asks for a file to be created or deleted with strings in its own
    memory; the kernel copies them through the user's page table, runs the file
    system and puts the result into the trap frame. *)
From S2P Require Import Prelude Spinlock Uart Mem Kalloc Vm PageTable AddrSpace Uvm Disk Packet Net Fs FsLayout FsOps FsSpec Elf Console Sched Proc ProcSpec Frame Driver Syscall.

Section spec.
Context {D : Type} `{HasDev D, !HasDevLaws D, !BlockDev D, !BlockDevLaws D, !HasMachine D, !HasMachineLaws D, !DriverMem D, !Nic D}.
Implicit Types s t : fs D.

Lemma perform_untouched q : keeps (on_low untouched) (perform q).
Proof.
  destruct q; [apply keeps_fs_create|apply keeps_fs_delete]; first [exact _|exact untouched_dev|exact untouched_rw].
Qed.

(** The files do not depend on the rest of memory. *)
Lemma holds_set_mem m s total files :
  (∀ x, owned (low s) x → ld8 m x = ld8 (mem (mach s)) x) → holds s total files →
  holds (put_mach (with_mem m (mach s)) s) total files.
Proof.
  intros Hm [es [[Hg Hr] Hcap Hst Hcl Hla Hrep]]. exists es.
  destruct (driver_set_mem m (low s) Hm Hg) as (Hg' & Hc' & Ho' & Hh' & _).
  change (low (put_mach (with_mem m (mach s)) s)) with (set_mem m (low s)) in *.
  assert (content (set_mem m (low s)) = content (low s)) as Hcon by (unfold content; by rewrite Ho', Hh').
  split; change (low (put_mach (with_mem m (mach s)) s)) with (set_mem m (low s)); rewrite ?Hcon, ?Hc'; try done.
  split; [done|]. unfold set_mem. rewrite mach_dev, mach_of_set. cbn. by rewrite <- mach_dev.
Qed.

(** ** Access to user memory *)

Lemma wp_user_load64 pc i va pa s (Q : Z → fs D → Prop) :
  allows (mem (mach s)) (pagetable i) va false = Some pa → in_ram pa 8 = true → Q (ld64 (mem (mach s)) pa) s →
  wp (user_load64 pc i va) Q s.
Proof.
  intros E Hr HQ. unfold user_load64. wp_steps. cbn [touch]. wp_steps. rewrite E. wp_steps.
  apply wp_on_mach, wp_load64; [done|]. by rewrite put_mach_same.
Qed.

Lemma wp_user_store64 pc i va pa v s (Q : unit → fs D → Prop) :
  allows (mem (mach s)) (pagetable i) va true = Some pa → in_ram pa 8 = true →
  Q tt (put_mach (with_mem (st64 (mem (mach s)) pa (u64 v)) (mach s)) s) → wp (user_store64 pc i va v) Q s.
Proof.
  intros E Hr HQ. unfold user_store64. wp_steps. cbn [touch]. wp_steps. rewrite E. wp_steps.
  by apply wp_on_mach, wp_store64.
Qed.

(** The C string [l] is at the user's address [u]. *)
Definition user_string (m : gmap Z Z) (pt u : Z) (l : list Z) : Prop :=
  ∀ k c, (l ++ [0]) !! k = Some c →
    ∃ pa, allows m pt (u64 (u + Z.of_nat k)) false = Some pa ∧ in_ram pa 1 = true ∧ ld8 m pa = c.

Lemma user_string_tail m pt u c l : user_string m pt u (c :: l) → user_string m pt (u64 (u + 1)) l.
Proof.
  intros Hu k x Hx. destruct (Hu (S k) x Hx) as (pa & E & H1 & H2). exists pa. split; [|done]. rewrite <- E. f_equal.
  unfold u64. rewrite Zplus_mod_idemp_l. f_equal. lia.
Qed.

Lemma wp_copy_path pc i n u l s (Q : list Z → fs D → Prop) :
  user_string (mem (mach s)) (pagetable i) u l → c_chars l → 0 ≤ u < 2 ^ 64 → Q (take n l) s →
  wp (copy_path pc i n u) Q s.
Proof.
  revert u l Q. induction n as [|n IH]; intros u l Q Hu Hl Hb HQ; cbn [copy_path]; [by wp_steps|].
  assert (∀ c pa, allows (mem (mach s)) (pagetable i) u false = Some pa → in_ram pa 1 = true → ld8 (mem (mach s)) pa = c →
    ∀ R : Z → fs D → Prop, R c s → wp (user_load8 pc i u) R s) as Hload.
  { intros c pa E Hr <- R HR. unfold user_load8. wp_steps. cbn [touch]. wp_steps. rewrite E. wp_steps.
    apply wp_on_mach. wp_steps. by rewrite put_mach_same. }
  assert (u64 (u + Z.of_nat 0) = u) as E0 by (unfold u64; rewrite Z.add_0_r; by apply Z.mod_small).
  wp_steps. destruct Hl as [|c l [Hc _] Hl].
  - destruct (Hu 0%nat 0 eq_refl) as (pa & E & Hr & Hv). rewrite E0 in E. eapply Hload; [done..|]. by wp_steps.
  - destruct (Hu 0%nat c eq_refl) as (pa & E & Hr & Hv). rewrite E0 in E. eapply Hload; [done..|].
    destruct (Z.eqb_spec c 0); [done|]. wp_steps. apply (IH (u64 (u + 1)) l); [by eapply user_string_tail|done| |].
    + unfold u64. by apply Z.mod_pos_bound.
    + wp_steps. exact HQ.
Qed.

(** ** The trap frame *)

(** The trap frame of a process on the page table of [T]: [f] for the user,
    [fpa] in physical memory, apart from the tables and from the driver. *)
Record frame_ok (s : fs D) (i : image) (T : gmap (list Z) Z) (f fpa : Z) : Prop := {
  fr_root : T !! [] = Some (pagetable i);
  fr_rep : pt_rep (mem (mach s)) T;
  fr_tables p x : node T p → in_page p x → ¬ owned (low s) x ∧ (x < fpa ∨ fpa + 256 ≤ x);
  fr_map o st : 0 ≤ o < 256 → allows (mem (mach s)) (pagetable i) (f + o) st = Some (fpa + o);
  fr_ram : in_ram fpa 256 = true;
  fr_owned o : 0 ≤ o < 256 → ¬ owned (low s) (fpa + o);
}.

Lemma allows_ext m m' T pt va st :
  T !! [] = Some pt → pt_rep m T → (∀ p x, node T p → in_page p x → ld8 m x = ld8 m' x) →
  allows m' pt va st = allows m pt va st.
Proof.
  intros Hroot Hrep Hm. pose proof (pt_rep_ext _ _ _ Hm Hrep) as Hrep'. unfold allows.
  by rewrite (sv39_leaf _ _ _ _ Hrep Hroot), (sv39_leaf _ _ _ _ Hrep' Hroot), (leaf_ext _ _ _ _ Hm).
Qed.

(** Memory changed in the driver's bytes and in the frame only: the frame is
    still where it was. *)
Lemma frame_ok_step s s' i T f fpa :
  frame_ok s i T f fpa → (∀ x, owned (low s') x ↔ owned (low s) x) →
  (∀ x, ¬ owned (low s) x → x < fpa ∨ fpa + 256 ≤ x → ld8 (mem (mach s')) x = ld8 (mem (mach s)) x) →
  frame_ok s' i T f fpa.
Proof.
  intros [F1 F2 F3 F4 F5 F6] Ho Hm.
  assert (∀ p x, node T p → in_page p x → ld8 (mem (mach s)) x = ld8 (mem (mach s')) x) as Hext.
  { intros p x Hp Hx. symmetry. by apply Hm; apply (F3 p). }
  split; try done.
  - by eapply pt_rep_ext.
  - intros p x Hp Hx. rewrite Ho. by apply (F3 p).
  - intros o st Hr. rewrite (allows_ext (mem (mach s)) (mem (mach s')) T) by done. by apply F4.
  - intros o Hr. rewrite Ho. by apply F6.
Qed.

(** A word of the frame is stored: the files and the frame stay. *)
Lemma wp_store_frame pc s i T f fpa o v total files (Q : unit → fs D → Prop) :
  frame_ok s i T f fpa → holds s total files → 0 ≤ o → o + 8 ≤ 256 →
  (∀ s', frame_ok s' i T f fpa → holds s' total files → (∀ x, owned (low s') x ↔ owned (low s) x) →
     mem (mach s') = st64 (mem (mach s)) (fpa + o) (u64 v) → Q tt s') →
  wp (user_store64 pc i (f + o) v) Q s.
Proof.
  intros Hf Hh Ho Ho8 HQ. pose proof Hf as [_ _ _ F4 F5 F6]. unfold in_ram in F5. bsimp.
  eapply wp_user_store64; [apply F4; lia|apply in_ram_iff; lia|]. set (m := st64 _ _ _).
  assert (∀ x, x < fpa + o ∨ fpa + o + 8 ≤ x → ld8 m x = ld8 (mem (mach s)) x) as Hm by (intros; by apply ld8_st64_ne).
  assert (∀ x, owned (low s) x → ld8 m x = ld8 (mem (mach s)) x) as Hown.
  { intros x Hx. apply Hm. destruct (decide (fpa + o ≤ x < fpa + o + 8)); [|lia].
    destruct (F6 (x - fpa)); [lia|]. by replace (fpa + (x - fpa)) with x by lia. }
  destruct Hh as [es Hrep]. pose proof Hrep as [[Hg _] _ _ _ _ _].
  destruct (driver_set_mem m (low s) Hown Hg) as (_ & _ & _ & _ & Hiff).
  assert (mem (mach (put_mach (with_mem m (mach s)) s)) = m) as Em by (by rewrite mach_put).
  apply HQ; [|apply holds_set_mem; [done|by exists es]|exact Hiff|exact Em].
  eapply frame_ok_step; [exact Hf|exact Hiff|]. intros x _ Hx. rewrite Em. apply Hm. lia.
Qed.

(** ** The calls *)

(** The registers in the frame ask for [q]; the kernel's buffers hold 63
    characters of a name and 255 of the data. *)
Inductive asks (m : gmap Z Z) (pt fpa : Z) : request → Prop :=
| asks_create name data :
    ld64 m (fpa + F_A7) = SYS_create → user_string m pt (ld64 m (fpa + F_A0)) name → c_chars name →
    user_string m pt (ld64 m (fpa + F_A1)) data → c_chars data →
    asks m pt fpa (Create (take 63 name) (take 255 data) (Z.of_nat (length (take 255 data))))
| asks_rm name :
    ld64 m (fpa + F_A7) = SYS_rm → user_string m pt (ld64 m (fpa + F_A0)) name → c_chars name →
    asks m pt fpa (Delete (take 63 name)).

Lemma asks_permitted m pt fpa q : asks m pt fpa q → permitted q.
Proof.
  intros [name data _ _ Hn _ Hd|name _ _ Hn]; cbn [permitted]; [|by apply Forall_take].
  split_and!; [by apply Forall_take| |lia|rewrite length_take; lia].
  apply Forall_take. eapply Forall_impl; [exact Hd|]. by intros c [].
Qed.

(** [syscall] performs the request and stores its result. *)
Lemma wp_syscall_asks pc fuel bufs f i buf s T fpa q (Q : sysret → fs D → Prop) :
  frame_ok s i T f fpa → asks (mem (mach s)) (pagetable i) fpa q →
  wp (perform q) (λ r s', wp (user_store64 pc i (f + F_A0) (u64 r)) (λ _, Q (Returned i buf)) s') s →
  wp (syscall pc fuel bufs f i buf) Q s.
Proof.
  intros Hf Hq HQ. pose proof Hf as [_ _ _ F4 F5 _]. unfold in_ram in F5. bsimp.
  assert (∀ o (R : Z → fs D → Prop), 0 ≤ o → o + 8 ≤ 256 → R (ld64 (mem (mach s)) (fpa + o)) s → wp (user_load64 pc i (f + o)) R s) as Hload.
  { intros o R H1' H2' HR. eapply wp_user_load64; [apply F4; lia|apply in_ram_iff; lia|done]. }
  unfold syscall. wp_steps. apply Hload; [done..|].
  destruct Hq as [name data -> Hn Hcn Hd Hcd|name -> Hn Hcn]; cbn [Z.eqb Pos.eqb SYS_create SYS_rm SYS_putchar SYS_print
    SYS_tick SYS_exit SYS_fork SYS_exec SYS_read SYS_wait SYS_ls SYS_sbrk SYS_mmap SYS_mem SYS_cat].
  - wp_steps. apply Hload; [done..|]. wp_steps. eapply wp_copy_path; [exact Hn|done|apply ld64_bound|].
    wp_steps. apply Hload; [done..|]. wp_steps. eapply wp_copy_path; [exact Hd|done|apply ld64_bound|].
    wp_steps. cbn [perform] in HQ. eapply wp_mono; [exact HQ|]. intros r s' Hr. wp_steps.
    eapply wp_mono; [exact Hr|]. intros [] s'' HQ'. by wp_steps.
  - wp_steps. apply Hload; [done..|]. wp_steps. eapply wp_copy_path; [exact Hn|done|apply ld64_bound|].
    wp_steps. cbn [perform] in HQ. eapply wp_mono; [exact HQ|]. intros r s' Hr. wp_steps.
    eapply wp_mono; [exact Hr|]. intros [] s'' HQ'. by wp_steps.
Qed.

(** C3: creating and deleting a file, as the user sees it. The trap of a create or
    delete call with strings in user memory returns to the user behind the
    [ecall]; the files afterwards are those the file system's specification
    gives for the first 63 characters of the name and the first 255 of the data,
    and the result of that is in [a0] of the frame. No other byte changed, but
    for the disk driver's own. *)
Theorem file_syscall pc fuel bufs f i buf s T fpa q total files stval :
  frame_ok s i T f fpa → asks (mem (mach s)) (pagetable i) fpa q → holds s total files →
  ∃ r s' files', kerneltrap pc fuel bufs SCAUSE_U_ECALL stval f i buf s = Done (Returned i buf) s' ∧
    spec (has_place s total) q files r files' ∧ holds s' total files' ∧ frame_ok s' i T f fpa ∧
    ld64 (mem (mach s')) (fpa + F_A0) = u64 r ∧
    ld64 (mem (mach s')) (fpa + F_SEPC) = u64 (ld64 (mem (mach s)) (fpa + F_SEPC) + 4) ∧
    ∀ x, ¬ owned (low s) x → (x < fpa + F_A0 ∨ fpa + F_A0 + 8 ≤ x) → (x < fpa + F_SEPC ∨ fpa + F_SEPC + 8 ≤ x) →
      ld8 (mem (mach s')) x = ld8 (mem (mach s)) x.
Proof.
  intros Hf Hq [es Hrep]. pose proof Hf as [_ _ _ _ F5 F6].
  destruct (perform_spec q total es files s Hrep (asks_permitted _ _ _ _ Hq)) as (r & s1 & files' & ws & Hrun & Hspec & Hh1 & _).
  destruct (keeps_done _ _ _ _ _ (perform_untouched q) Hrun (proj1 (rep_ready _ _ _ _ Hrep))) as (_ & O1 & M1 & _).
  assert (frame_ok s1 i T f fpa) as Hf1 by (eapply frame_ok_step; [exact Hf|exact O1|intros; by apply M1]).
  cut (wp (kerneltrap pc fuel bufs SCAUSE_U_ECALL stval f i buf) (λ v s', v = Returned i buf ∧ holds s' total files' ∧ frame_ok s' i T f fpa ∧
    mem (mach s') = st64 (st64 (mem (mach s1)) (fpa + F_A0) (u64 r)) (fpa + F_SEPC) (u64 (ld64 (mem (mach s)) (fpa + F_SEPC) + 4))) s).
  { intros (v & s' & Hk & -> & Hh & Hf' & Em)%wp_run. exists r, s', files'. rewrite Em. unfold F_A0, F_SEPC.
    split_and!; [done..| | |].
    - rewrite ld64_st64_ne by lia. apply ld64_st64_eq. apply Z.mod_pos_bound. done.
    - apply ld64_st64_eq. apply Z.mod_pos_bound. done.
    - intros x Hx X1 X2. rewrite !ld8_st64_ne by lia. by apply M1. }
  unfold kerneltrap. change (SCAUSE_U_ECALL =? SCAUSE_U_ECALL) with true. cbv iota. wp_steps.
  eapply wp_syscall_asks; [exact Hf|exact Hq|]. apply wp_eq in Hrun. eapply wp_mono; [exact Hrun|]. intros ? ? [-> ->].
  eapply wp_store_frame; [exact Hf1|exact Hh1|done|done|]. intros s2 Hf2 Hh2 O2 E2. wp_steps.
  unfold skip_ecall. wp_steps. pose proof Hf2 as [_ _ _ F4 _ _]. unfold in_ram in F5. bsimp.
  eapply wp_user_load64; [apply F4; done|apply in_ram_iff; unfold F_SEPC; lia|].
  assert (ld64 (mem (mach s2)) (fpa + F_SEPC) = ld64 (mem (mach s)) (fpa + F_SEPC)) as ->.
  { rewrite E2, ld64_st64_ne by (unfold F_A0, F_SEPC; lia). apply ld64_ext. intros x Hx. apply M1.
    replace x with (fpa + (x - fpa)) by lia. apply F6. unfold F_SEPC in *. lia. }
  eapply wp_store_frame; [exact Hf2|exact Hh2|done|done|]. intros s3 Hf3 Hh3 O3 E3. wp_steps.
  split_and!; [done..|]. rewrite E3, E2. unfold u64. by rewrite !Zmod_mod.
Qed.
End spec.

(** ** The disk in memory *)

#[export] Instance hw_dev_laws : HasDevLaws hw.
Proof. by split; intros; try destruct s as [[] ?]. Qed.

#[export] Instance hw_block_laws : BlockDevLaws hw.
Proof.
  refine {| disk_good d := disk_good (hw_disk d); capacity d := capacity (hw_disk d);
            origin d := origin (hw_disk d); history d := history (hw_disk d) |}.
  - by intros x d.
  - intros d b Hg. by apply disk_sector.
  - intros d b buf Q Hg Hb Hl HQ. apply (wp_zoom hw_disk (λ k d, Hw (hw_mach d) k)).
    apply disk_read; [done..|apply as_sector_ok|]. intros k G1 G2 G3 G4 _. by apply HQ.
  - intros d b buf Q Hg Hb Hl HQ. apply (wp_zoom hw_disk (λ k d, Hw (hw_mach d) k)). rewrite as_sector_id by done.
    apply disk_write; [done..|]. intros k G1 G2 G3 G4 _. by apply HQ.
Defined.

Lemma hw_rw_any b buf w (d : hw) : disk_good d →
  wp (Disk.virtio_disk_rw b buf w) (λ _ d', disk_good d' ∧ hw_mach d' = hw_mach d) d.
Proof.
  intros Hg. apply (wp_zoom hw_disk (λ k d, Hw (hw_mach d) k)).
  destruct ((0 <=? b) && (b <? capacity (hw_disk d))) eqn:E.
  - bsimp. destruct w; [apply disk_write|apply disk_read]; try done; try apply as_sector_ok; auto.
  - unfold wp. cbn [Disk.virtio_disk_rw ramdisk_rw]. cbn [capacity ramdisk_laws] in E. rewrite E. done.
Qed.

#[export] Instance hw_driver_mem : DriverMem hw.
Proof.
  refine {| owned _ _ := False |}.
  - intros m d _ Hg. by split_and!.
  - intros b buf w d r d' Hg Hrun. destruct (wp_run _ _ _ (hw_rw_any b buf w d Hg)) as (r' & d'' & E & G & M).
    rewrite Hrun in E. injection E as <- <-. split_and!; [done|done| |].
    + intros x _. cbn [mach_of hw_machine]. by rewrite M.
    + cbn [mach_of hw_machine]. by rewrite M.
  - intros b buf w d d' Hg Hrun. destruct (wp_run _ _ _ (hw_rw_any b buf w d Hg)) as (r' & d'' & E & _). congruence.
  - by intros x d.
Defined.

(** ** A process that creates a file *)

Lemma read_write_in n k m a l : Forall is_byte l → (k + n ≤ length l)%nat →
  read_bytes n (write_bytes m a l) (a + Z.of_nat k) = take n (drop k l).
Proof.
  intros Hl Hk. apply list_eq. intros i. destruct (decide (i < n)%nat) as [Hi|Hi].
  - rewrite lookup_read_bytes by done. rewrite lookup_take, decide_True, lookup_drop by done.
    destruct (lookup_lt_is_Some_2 l (k + i)) as [b Hb]; [lia|]. rewrite Hb. f_equal.
    rewrite <- Z.add_assoc, <- Nat2Z.inj_add. by eapply ld8_write_in.
  - rewrite !lookup_ge_None_2; [done| |]; rewrite ?length_read_bytes, ?length_take; lia.
Qed.

Lemma prefix_at (l s : list Z) j : take (length s) (drop j l) = s → ∀ i c, s !! i = Some c → l !! (j + i)%nat = Some c.
Proof. intros <- i c. rewrite lookup_take_Some, lookup_drop. by intros []. Qed.

(** A page with the name "a.t", the data "hi" and, at 1024, a trap frame. *)
Definition demo_user_page : list Z :=
  [97; 46; 116] ++ replicate 13 0 ++ [104; 105] ++ replicate 1006 0 ++
  replicate 64 0 ++ le_bytes 8 HEAPBASE ++ le_bytes 8 (HEAPBASE + 16) ++ replicate 40 0 ++ le_bytes 8 SYS_create ++
  replicate 112 0 ++ le_bytes 8 USERVA ++ replicate 8 0.

Lemma demo_user_bytes : Forall is_byte demo_user_page.
Proof. apply (bool_decide_unpack _). vm_compute. exact I. Qed.

#[local] Instance no_nic : Nic hw := {|
  nic_ok _ := false; my_mac _ := []; eth_tx _ _ _ := mret (-1); eth_rx buf _ := mret (-1, buf)
|}.

Definition demo_user (k : machine) (q : Z) : fs hw :=
  FsOn (fm demo_fs) (Hw (with_mem (write_bytes (mem k) q demo_user_page) k) (low demo_fs)).

Lemma demo_user_holds k q : dev_ready (mdev k) → holds (demo_user k q) 64 [].
Proof. intros Hr. destruct demo_holds as [es [[Hg _] Hc Hs Hcl Hl Hm]]. exists es. by split. Qed.

Section demo.
Context (rg : Z * Z) (k : machine) (l : list Z) (root : Z) (T : gmap (list Z) Z) (q : Z).
Context (Hok : vok rg k l root T) (Hq : Kalloc.live rg k q) (Hn : ¬ node T q).
Context (Hleaf : ∀ va, 0 ≤ va → leaf (mem k) T va = upd HEAPBASE (mk_pte q URW) va 0).
Let m := write_bytes (mem k) q demo_user_page.

Lemma demo_tables p x : node T p → in_page p x → ld8 (mem k) x = ld8 m x.
Proof.
  intros Hp Hx. symmetry. apply ld8_write_ne. destruct Hok as [_ _ Has]. destruct (as_live _ _ _ _ Has p Hp) as [Hm _].
  assert (¬ in_page q x) as Hx'.
  { eapply (in_page_ne p q); [by eapply managed_aligned|eapply managed_aligned, Hq|by intros ->|done]. }
  change (length demo_user_page) with 1280%nat. unfold in_page, PGSIZE in Hx'. lia.
Qed.

Lemma demo_allows o st : 0 ≤ o < PGSIZE → allows m root (HEAPBASE + o) st = Some (q + o).
Proof.
  intros Ho. destruct Hok as [_ _ [R1 R2 _]]. unfold PGSIZE in Ho.
  rewrite (allows_ext (mem k) m T) by (done || apply demo_tables). unfold allows.
  rewrite (sv39_leaf _ _ _ _ R2 R1), Hleaf by (unfold HEAPBASE; lia). unfold upd, HEAPBASE, PGSIZE in *.
  rewrite decide_True by (rewrite !vpn_small by lia; unfold PGSIZE; Z.to_euclidean_division_equations; lia).
  pose proof (ram_pte_page _ (managed_ram _ _ (proj1 Hq))) as Hp. rewrite has_mk_pte by done.
  change (has URW PTE_V) with true. cbv iota. rewrite has_mk_pte by done.
  change (has URW PTE_W) with true. rewrite orb_true_r. cbv iota. f_equal.
  rewrite pte2pa by done. f_equal. Z.to_euclidean_division_equations. lia.
Qed.

Lemma demo_byte j c : demo_user_page !! j = Some c → in_ram (q + Z.of_nat j) 1 = true ∧ ld8 m (q + Z.of_nat j) = c.
Proof.
  intros Hj. pose proof (managed_ram _ _ (proj1 Hq)) as (_ & H1 & H2). pose proof (lookup_lt_Some _ _ _ Hj) as Hlt.
  change (length demo_user_page) with 1280%nat in Hlt. unfold PGSIZE in *.
  split; [apply in_ram_iff; lia|]. by apply ld8_write_in; [apply demo_user_bytes|].
Qed.

Lemma demo_reg j v : (1024 + j + 8 ≤ 1280)%nat → le_val (take 8 (drop (1024 + j) demo_user_page)) = v →
  ld64 (mem (mach (demo_user k q))) (q + 1024 + Z.of_nat j) = v.
Proof.
  intros Hj <-. change (mem (mach (demo_user k q))) with m. unfold ld64, m. f_equal.
  rewrite <- Z.add_assoc. change 1024 with (Z.of_nat 1024). rewrite <- Nat2Z.inj_add.
  by apply read_write_in; [apply demo_user_bytes|].
Qed.

Lemma demo_string j s : (∀ i c, (s ++ [0]) !! i = Some c → demo_user_page !! (j + i)%nat = Some c) →
  (j + length s < 1280)%nat → user_string m root (HEAPBASE + Z.of_nat j) s.
Proof.
  intros Hs Hj i c Hi. pose proof (lookup_lt_Some _ _ _ Hi) as Hlt. rewrite length_app in Hlt. simpl in Hlt.
  exists (q + Z.of_nat (j + i)). destruct (demo_byte (j + i) c) as [H1 H2]; [by apply Hs|]. split_and!; [|done|done].
  rewrite <- (demo_allows _ false) by (unfold PGSIZE; lia). f_equal. unfold u64, HEAPBASE. rewrite Z.mod_small; lia.
Qed.
End demo.

Lemma demo_frame (rg : Z * Z) (k : machine) (l : list Z) (root : Z) (T : gmap (list Z) Z) (q : Z) :
  vok rg k l root T → Kalloc.live rg k q → ¬ node T q →
  (∀ va, 0 ≤ va → leaf (mem k) T va = upd HEAPBASE (mk_pte q URW) va 0) →
  frame_ok (demo_user k q) (Image 0 root 0 0 (HEAPBASE + PGSIZE) 0 0 0) T (HEAPBASE + 1024) (q + 1024).
Proof.
  intros Hok Hq Hn Hleaf. pose proof (demo_tables rg k l root T q Hok Hq Hn) as Htab.
  pose proof (managed_ram _ _ (proj1 Hq)) as (_ & R1 & R2). unfold PGSIZE in R2.
  pose proof Hok as [_ _ [A1 A2 A3]]. split; try done.
  - by eapply pt_rep_ext.
  - intros p x Hp Hx. split; [by intros []|].
    assert (¬ in_page q x) as Hx'; [|unfold in_page, PGSIZE in Hx'; lia].
    eapply (in_page_ne p q); [eapply managed_aligned, A3, Hp|eapply managed_aligned, Hq|by intros ->|done].
  - intros o st Ho. rewrite <- !Z.add_assoc. by eapply demo_allows; [..|unfold PGSIZE; lia].
  - apply in_ram_iff. lia.
  - by intros o _ [].
Qed.

Lemma file_syscall_witness :
  ∃ (s : fs hw) i f s' r files', kerneltrap 0 100 (TcpBufs [] [] []) SCAUSE_U_ECALL 0 f i [] s = Done (Returned i []) s' ∧
    spec (has_place s 64) (Create [97; 46; 116] [104; 105] 2) [] r files' ∧ holds s' 64 files'.
Proof.
  destruct demo_space as (rg & k & l & root & T & q & Hok & Hlive & _ & Hn & Hleaf & _).
  assert (dev_ready (mdev k)) as Hr by (destruct Hok as [_ (R1 & _ & R2) _]; by split).
  destruct (file_syscall 0 100 (TcpBufs [] [] []) (HEAPBASE + 1024) (Image 0 root 0 0 (HEAPBASE + PGSIZE) 0 0 0) []
    (demo_user k q) T (q + 1024) (Create [97; 46; 116] [104; 105] 2) 64 [] 0) as (r & s' & files' & H1 & H2 & H3 & _).
  - by eapply demo_frame.
  - apply (asks_create _ _ _ [97; 46; 116] [104; 105]).
    + exact (demo_reg k q 120 SYS_create ltac:(lia) eq_refl).
    + replace (ld64 _ _) with (HEAPBASE + Z.of_nat 0) by (symmetry; exact (demo_reg k q 64 HEAPBASE ltac:(lia) eq_refl)).
      eapply demo_string; [exact Hok|exact Hlive|exact Hn|exact Hleaf|by apply prefix_at|simpl; lia].
    + apply demo_name.
    + replace (ld64 _ _) with (HEAPBASE + Z.of_nat 16) by (symmetry; exact (demo_reg k q 72 (HEAPBASE + 16) ltac:(lia) eq_refl)).
      eapply demo_string; [exact Hok|exact Hlive|exact Hn|exact Hleaf|by apply prefix_at|simpl; lia].
    + repeat constructor; unfold is_byte; lia.
  - by apply demo_user_holds.
  - by exists (demo_user k q), (Image 0 root 0 0 (HEAPBASE + PGSIZE) 0 0 0), (HEAPBASE + 1024), s', r, files'.
Defined.
