(* ===== verification/Trap.v ===== *)
(** * Interrupts (src/trap.c, src/plic.c, the receiving half of src/uart.c)

    The control registers of the harts, the interrupt controller and the
    receiving side of the serial port, and the part of the trap handler that
    serves interrupts. The controller is a device, [PlicDev]. The handler works
    on the state of the scheduler beside these; the theorems say that serving an
    interrupt is an event of Sched.v. Exceptions are in Syscall.v. *)
From stdpp Require Import functions.
From S2P Require Import Prelude Spinlock Uart Mem Vm Console Sched.

(** ** Constants (trap.c, csr.h, plic.c, uart.c) *)

Definition TIMER_INTERVAL : Z := 1000000.
Definition SCAUSE_INTERRUPT : Z := 2 ^ 63.
Definition SCAUSE_S_TIMER : Z := 5.
Definition SCAUSE_S_EXTERNAL : Z := 9.
Definition SSTATUS_SUM : Z := Z.shiftl 1 18.
Definition SIE_STIE : Z := Z.shiftl 1 5.
Definition SIE_SEIE : Z := Z.shiftl 1 9.

Definition UART0_IRQ : Z := 10.
Definition PLIC_PRIORITY : Z := PLIC + 0x0.
Definition PLIC_SENABLE (h : Z) : Z := PLIC + 0x2080 + h * 0x100.
Definition PLIC_STHRESHOLD (h : Z) : Z := PLIC + 0x201000 + h * 0x2000.
Definition PLIC_SCLAIM (h : Z) : Z := PLIC + 0x201004 + h * 0x2000.

Definition LSR_RX_READY : Z := Z.shiftl 1 0.
Definition LSR_TX_IDLE : Z := Z.shiftl 1 5.

(** ** State *)

(** The interrupt controller: 32-bit registers, loads may change its state. *)
Class PlicDev (P : Type) := {
  plic_load : Z → P → Z * P;
  plic_store : Z → Z → P → P;
}.

(** The control registers of a hart that the kernel writes, but for [satp] and
    the SIE bit of [sstatus], which is in the lock state. *)
Record csr := Csr { stvec : Z; sie_reg : Z; sstatus : Z; stimecmp : Z }.

(** [ticks] of trap.c; the clock; the registers of each hart; the controller;
    the interrupt enable register of the UART and the characters it received. *)
Record trapst {P : Type} := Trapst {
  ticks : Z; time : Z; csrs : nat → csr; plic : P; ier : Z; rx : list Z
}.
Arguments trapst : clear implicits.

Section registers.
Context {P : Type} `{!PlicDev P}.
Implicit Types t : trapst P.

Definition put_ticks x t := Trapst P x (time t) (csrs t) (plic t) (ier t) (rx t).
Definition put_csrs x t := Trapst P (ticks t) (time t) x (plic t) (ier t) (rx t).
Definition put_plic x t := Trapst P (ticks t) (time t) (csrs t) x (ier t) (rx t).
Definition put_ier x t := Trapst P (ticks t) (time t) (csrs t) (plic t) x (rx t).
Definition put_rx x t := Trapst P (ticks t) (time t) (csrs t) (plic t) (ier t) x.

Definition upd_csr (h : nat) (f : csr → csr) : M (trapst P) unit :=
  modify (λ t, put_csrs (<[h := f (csrs t h)]> (csrs t)) t).

(** [trap_init] of hart [h]; [kernelvec] is the symbol of kernelvec.S. *)
Definition trap_init (kernelvec : Z) (h : nat) : M (trapst P) unit :=
  upd_csr h (λ c, Csr kernelvec (sie_reg c) (sstatus c) (stimecmp c));;
  upd_csr h (λ c, Csr (stvec c) (Z.lor (sie_reg c) (Z.lor SIE_STIE SIE_SEIE)) (sstatus c) (stimecmp c));;
  upd_csr h (λ c, Csr (stvec c) (sie_reg c) (Z.lor (sstatus c) SSTATUS_SUM) (stimecmp c)).

(** [w_stimecmp(r_time() + TIMER_INTERVAL)] *)
Definition timer_init (h : nat) : M (trapst P) unit :=
  now ← gets time;
  upd_csr h (λ c, Csr (stvec c) (sie_reg c) (sstatus c) (u64 (now + TIMER_INTERVAL))).

Definition clock_ticks : M (trapst P) Z := gets ticks.

(** [REG(a)] as a value and as the target of an assignment. *)
Definition REG (a : Z) : M (trapst P) Z :=
  r ← gets (λ t, plic_load a (plic t));
  modify (put_plic r.2);; mret (u32 r.1).
Definition set_REG (a v : Z) : M (trapst P) unit := modify (λ t, put_plic (plic_store a (u32 v) (plic t)) t).

Definition plic_init : M (trapst P) unit := set_REG (PLIC_PRIORITY + UART0_IRQ * 4) 1.

Definition plic_init_hart : M (trapst P) unit :=
  let hart := 0 in
  set_REG (PLIC_SENABLE hart) (u32 (Z.shiftl 1 UART0_IRQ));;
  set_REG (PLIC_STHRESHOLD hart) 0.

Definition plic_claim : M (trapst P) Z := r ← REG (PLIC_SCLAIM 0); mret (i32 r).
Definition plic_complete (irq : Z) : M (trapst P) unit := set_REG (PLIC_SCLAIM 0) (u32 irq).

(** [uart[UART_IER] |= 0x01] *)
Definition uart_enable_rx : M (trapst P) unit := modify (λ t, put_ier (u8 (Z.lor (ier t) 0x01)) t).

(** The line status: a character is there, the transmitter is idle. *)
Definition uart_lsr t : Z := Z.lor LSR_TX_IDLE (match rx t with [] => 0 | _ => LSR_RX_READY end).
(** [uart[UART_RBR]] takes the character out. *)
Definition uart_rbr : M (trapst P) Z :=
  l ← gets rx;
  match l with [] => mret 0 | c :: l => modify (put_rx l);; mret (u8 c) end.

Definition uart_getc : M (trapst P) Z :=
  lsr ← gets uart_lsr;
  if negb (Z.land lsr LSR_RX_READY =? 0) then uart_rbr else mret (-1).
End registers.

(** The scheduler's state beside them. *)
Record tsys {W I P : Type} := TSys { ts_sys : sys W I; ts_trap : trapst P }.
Arguments tsys : clear implicits.

Section traps.
Context {W I P : Type} `{!PlicDev P, !HasDev W}.
Implicit Types t : tsys W I P.

Definition on_sys {A} (m : M (sys W I) A) : M (tsys W I P) A := zoom ts_sys (λ s t, TSys W I P s (ts_trap t)) m.
Definition on_trap {A} (m : M (trapst P) A) : M (tsys W I P) A := zoom ts_trap (λ x t, TSys W I P (ts_sys t) x) m.

Definition interrupts_on (h : nat) : M (tsys W I P) unit := on_sys (set_sie h true).

(** A round of [while ((c = uart_getc()) >= 0) console_intr((char)c)]. *)
Definition uart_intr_body (h : nat) (_ : unit) : M (tsys W I P) (unit + unit) :=
  c ← on_trap uart_getc;
  if 0 <=? c then on_sys (console_intr h (u8 c));; mret (inl tt) else mret (inr tt).

(** A round for each character received and one more is enough fuel. *)
Definition uart_intr (h : nat) : M (tsys W I P) unit :=
  n ← gets (λ t, length (rx (ts_trap t)));
  loop (S n) (uart_intr_body h) tt.

(** The first branch of [kerneltrap]; whether the hart comes back here, rather
    than going on with another context. *)
Definition kerneltrap_intr (h : nat) (cause : Z) : M (tsys W I P) bool :=
  let code := Z.land cause 0xff in
  if code =? SCAUSE_S_TIMER then
    on_trap (modify (λ x, put_ticks (u64 (ticks x + 1)) x));;
    on_trap (timer_init h);;
    cur ← on_sys (current_proc h);
    match cur with
    | Some _ => on_sys (yield h);; mret false
    | None => mret true
    end
  else if code =? SCAUSE_S_EXTERNAL then
    irq ← on_trap plic_claim;
    when (irq =? UART0_IRQ) (uart_intr h);;
    when (negb (irq =? 0)) (on_trap (plic_complete irq));;
    mret true
  else
    on_sys (on_world (uart_str "[trap] unknown interrupt, scause=";; uart_hex cause;; uart_putc 10));;
    mret true.

(** An interrupt taken by hart [h]: the hardware clears SIE, and [sret] puts it
    back when the handler returns. *)
Definition take_interrupt (h : nat) (cause : Z) : M (tsys W I P) unit :=
  b ← gets (λ t, sie (spins (ts_sys t)) !! h);
  b ← of_option b;
  on_sys (set_sie h false);;
  back ← kerneltrap_intr h cause;
  when back (on_sys (set_sie h b)).
End traps.
