(* ===== verification/TrapSpec.v ===== *)
(** * Interrupts and the scheduler

    The specification of the interrupt controller, what setting it up achieves,
    and that the handler of Trap.v implements the events [Timer] and [Received]
    of Sched.v. *)
From stdpp Require Import functions.
From S2P Require Import Prelude Spinlock Uart Mem Vm Console Sched SchedInv SchedStep SchedSpec Trap.

(** ** The interrupt controller, as its specification describes it *)

(** Priorities of the sources, enable words and thresholds of the harts'
    supervisor contexts, the sources that are pending and those in service. *)
Record plic_view := PlicView {
  v_prio : Z → Z; v_enable : Z → Z; v_thresh : Z → Z; v_pending : Z → bool; v_claimed : Z → bool
}.

(** A source that a claim by hart [h] may return. *)
Definition candidate (v : plic_view) (h irq : Z) : Prop :=
  1 ≤ irq < 32 ∧ v_pending v irq = true ∧ Z.testbit (v_enable v h) irq = true ∧ v_thresh v h < v_prio v irq.
#[export] Instance candidate_dec v h irq : Decision (candidate v h irq).
Proof. unfold candidate. solve_decision. Defined.

Definition claimed (irq : Z) (v : plic_view) : plic_view :=
  PlicView (v_prio v) (v_enable v) (v_thresh v) (<[irq := false]> (v_pending v)) (<[irq := true]> (v_claimed v)).
Definition completed (irq : Z) (v : plic_view) : plic_view :=
  PlicView (v_prio v) (v_enable v) (v_thresh v) (v_pending v) (<[irq := false]> (v_claimed v)).

Class PlicLaws (P : Type) `{!PlicDev P} := {
  view : P → plic_view;
  plic_set_prio irq x p : 1 ≤ irq < 32 → 0 ≤ x < 8 →
    view (plic_store (PLIC_PRIORITY + irq * 4) x p) =
      PlicView (<[irq := x]> (v_prio (view p))) (v_enable (view p)) (v_thresh (view p)) (v_pending (view p)) (v_claimed (view p));
  plic_set_enable h x p : 0 ≤ h < 4 → 0 ≤ x < 2 ^ 32 →
    view (plic_store (PLIC_SENABLE h) x p) =
      PlicView (v_prio (view p)) (<[h := x]> (v_enable (view p))) (v_thresh (view p)) (v_pending (view p)) (v_claimed (view p));
  plic_set_threshold h x p : 0 ≤ h < 4 → 0 ≤ x < 8 →
    view (plic_store (PLIC_STHRESHOLD h) x p) =
      PlicView (v_prio (view p)) (v_enable (view p)) (<[h := x]> (v_thresh (view p))) (v_pending (view p)) (v_claimed (view p));
  plic_claims h p : 0 ≤ h < 4 →
    let r := plic_load (PLIC_SCLAIM h) p in
    (r.1 = 0 ∧ view r.2 = view p ∧ ∀ irq, ¬ candidate (view p) h irq) ∨
    (candidate (view p) h r.1 ∧ view r.2 = claimed r.1 (view p));
  plic_completes h irq p : 0 ≤ h < 4 → 1 ≤ irq < 32 →
    view (plic_store (PLIC_SCLAIM h) irq p) = completed irq (view p);
}.

(** Set up for the serial port, and for nothing else. *)
Definition configured (v : plic_view) : Prop :=
  v_prio v UART0_IRQ = 1 ∧ v_enable v 0 = 2 ^ UART0_IRQ ∧ v_thresh v 0 = 0.

Lemma configured_candidate v irq : configured v → candidate v 0 irq ↔ irq = UART0_IRQ ∧ v_pending v irq = true.
Proof.
  intros (Hp & He & Ht). unfold candidate. rewrite He, Ht. split.
  - intros (H1 & H2 & H3 & _). split; [|done]. rewrite Z.pow2_bits_eqb in H3 by (unfold UART0_IRQ; lia). bsimp. lia.
  - intros [-> H2]. rewrite Hp. split_and!; [unfold UART0_IRQ; lia..|done|by rewrite Z.pow2_bits_eqb by (unfold UART0_IRQ; lia)|lia].
Qed.

(** A controller that is its registers: the lowest candidate is claimed. *)
Definition hart_of (f : Z → Z) (a : Z) : option Z := list_find (λ h, a = f h) [0; 1; 2; 3] ≫= λ x, Some x.2.
Definition lowest (v : plic_view) (h : Z) : Z :=
  match list_find (candidate v h) (seqZ 1 31) with Some x => x.2 | None => 0 end.

#[export] Instance simplic : PlicDev plic_view := {|
  plic_load a v :=
    match hart_of PLIC_SCLAIM a with
    | Some h => let irq := lowest v h in (irq, if irq =? 0 then v else claimed irq v)
    | None => (0, v)
    end;
  plic_store a x v :=
    match hart_of PLIC_SCLAIM a, hart_of PLIC_SENABLE a, hart_of PLIC_STHRESHOLD a with
    | Some h, _, _ => completed x v
    | _, Some h, _ => PlicView (v_prio v) (<[h := x]> (v_enable v)) (v_thresh v) (v_pending v) (v_claimed v)
    | _, _, Some h => PlicView (v_prio v) (v_enable v) (<[h := x]> (v_thresh v)) (v_pending v) (v_claimed v)
    | _, _, _ => PlicView (<[(a - PLIC_PRIORITY) / 4 := x]> (v_prio v)) (v_enable v) (v_thresh v) (v_pending v) (v_claimed v)
    end;
|}.

Lemma hart_cases h : 0 ≤ h < 4 → h = 0 ∨ h = 1 ∨ h = 2 ∨ h = 3. Proof. lia. Qed.

Lemma hart_of_none f a : (∀ h, 0 ≤ h < 4 → a ≠ f h) → hart_of f a = None.
Proof.
  intros Ha. unfold hart_of. destruct (list_find _ _) as [[i h]|] eqn:E; [|done].
  apply list_find_Some in E as (Hi & -> & _). apply list_elem_of_lookup_2 in Hi. rewrite !elem_of_cons, elem_of_nil in Hi.
  destruct (Ha h); [lia|done].
Qed.

#[export] Instance simplic_laws : PlicLaws plic_view.
Proof.
  refine {| view := id |}.
  - intros irq x p Hi Hx. unfold plic_store, simplic.
    rewrite !hart_of_none by (intros; unfold PLIC_SCLAIM, PLIC_SENABLE, PLIC_STHRESHOLD, PLIC_PRIORITY; lia).
    unfold id. do 2 f_equal. unfold PLIC_PRIORITY. Z.to_euclidean_division_equations. lia.
  - intros h x p [-> | [-> | [-> | ->]]]%hart_cases _; reflexivity.
  - intros h x p [-> | [-> | [-> | ->]]]%hart_cases _; reflexivity.
  - intros h p Hh. assert (hart_of PLIC_SCLAIM (PLIC_SCLAIM h) = Some h) as E.
    { destruct (hart_cases h Hh) as [-> | [-> | [-> | ->]]]; reflexivity. }
    unfold plic_load, simplic. rewrite E. unfold id, lowest. cbn [fst snd].
    destruct (list_find _ _) as [[i irq]|] eqn:F; [|left]; cbn [snd].
    + apply list_find_Some in F as (Hi & Hc & _). right. split; [done|]. by rewrite (proj2 (Z.eqb_neq irq 0)) by (destruct Hc; lia).
    + split_and!; [done|done|]. intros irq Hc. apply list_find_None in F. rewrite Forall_forall in F.
      apply (F irq); [|done]. apply elem_of_seqZ. destruct Hc. lia.
  - intros h irq p [-> | [-> | [-> | ->]]]%hart_cases _; reflexivity.
Defined.

(** ** Setting up *)

(** Hart [h] takes traps at [kernelvec], for the timer and for devices, and may
    access user pages. *)
Record csr_ready (kernelvec : Z) (c : csr) : Prop := {
  cr_vec : stvec c = kernelvec;
  cr_timer : Z.testbit (sie_reg c) 5 = true;
  cr_ext : Z.testbit (sie_reg c) 9 = true;
  cr_sum : Z.testbit (sstatus c) 18 = true;
}.

Section setup.
Context {P : Type} `{!PlicDev P, !PlicLaws P}.

(** Only the registers of hart [h] changed. *)
Definition csr_step (h : nat) (t t' : trapst P) : Prop :=
  t' = put_csrs (csrs t') t ∧ ∀ g, g ≠ h → csrs t' g = csrs t g.

Lemma wp_trap_init kernelvec h (t : trapst P) :
  wp (trap_init kernelvec h) (λ _ t', csr_step h t t' ∧ csr_ready kernelvec (csrs t' h)) t.
Proof.
  unfold trap_init, upd_csr. wp_steps. unfold csr_step. split; [split|].
  - by destruct t.
  - intros g Hg. destruct t. cbn. by rewrite !fn_lookup_insert_ne by done.
  - destruct t. cbn. rewrite !fn_lookup_insert.
    split; cbn [stvec sie_reg sstatus]; [done|by rewrite Z.lor_spec, orb_true_r..].
Qed.

Lemma wp_timer_init h (t : trapst P) :
  wp (timer_init h) (λ _ t', csr_step h t t' ∧ stimecmp (csrs t' h) = u64 (time t + TIMER_INTERVAL) ∧
    ∀ kernelvec, csr_ready kernelvec (csrs t h) → csr_ready kernelvec (csrs t' h)) t.
Proof.
  unfold timer_init, upd_csr. wp_steps. split; [split|].
  - by destruct t.
  - intros g Hg. destruct t. cbn. by rewrite fn_lookup_insert_ne by done.
  - destruct t. cbn. rewrite !fn_lookup_insert. split; [done|]. by intros kv [].
Qed.

Lemma wp_plic_setup (t : trapst P) (Q : unit → trapst P → Prop) :
  (∀ p, configured (view p) → v_pending (view p) = v_pending (view (plic t)) → Q tt (put_plic p t)) →
  wp (plic_init;; plic_init_hart) Q t.
Proof.
  intros HQ. unfold plic_init, plic_init_hart, set_REG. wp_steps. destruct t as [tk tm c p e r]. cbn [put_plic ticks time csrs plic ier rx] in *.
  change (u32 (u32 (Z.shiftl 1 UART0_IRQ))) with (2 ^ UART0_IRQ). change (u32 1) with 1. change (u32 0) with 0.
  apply HQ; rewrite plic_set_threshold, plic_set_enable, plic_set_prio by (unfold UART0_IRQ; lia); [|done].
  split_and!; cbn; by rewrite fn_lookup_insert.
Qed.
End setup.

(** ** Interrupts are events of the scheduler *)

(** The handler did what the event does to the scheduler's state, and left the
    rest as [x]; it waits or fails where the event does. *)
Definition follows {W I P A B} (r : outcome (sys W I) A) (r' : outcome (tsys W I P) B) (x : trapst P) : Prop :=
  match r, r' with
  | Done _ s', Done _ t' => t' = TSys W I P s' x
  | Halt _, Halt _ => True
  | Undef, Undef => True
  | _, _ => False
  end.

Section events.
Context {W I P : Type} `{!PlicDev P, !PlicLaws P, !HasDev W, !Images W I}.
Implicit Types (s : sys W I) (x : trapst P).

Lemma uart_getc_lsr x : uart_getc x = match rx x with [] => Done (-1) x | c :: l => Done (u8 c) (put_rx l x) end.
Proof.
  unfold uart_getc, uart_lsr, uart_rbr, mbind, M_bind, gets. destruct x as [tk tm c p e [|b l]]; reflexivity.
Qed.

Lemma uart_intr_round h s x :
  uart_intr_body h tt (TSys W I P s x) =
    match rx x with
    | [] => Done (inr tt) (TSys W I P s x)
    | c :: l =>
        match console_intr h (u8 c) s with
        | Done _ s' => Done (inl tt) (TSys W I P s' (put_rx l x))
        | Halt s' => Halt (TSys W I P s' (put_rx l x))
        | Undef => Undef
        end
    end.
Proof.
  unfold uart_intr_body, mbind, M_bind, on_trap, on_sys, zoom. cbn [ts_trap ts_sys]. rewrite uart_getc_lsr.
  destruct (rx x) as [|c l]; [done|]. pose proof (u8_byte c) as Hb. unfold is_byte in Hb.
  rewrite (proj2 (Z.leb_le 0 (u8 c))), (u8_small (u8 c)) by (done || lia). cbn [ts_trap ts_sys].
  by destruct (console_intr h (u8 c) s).
Qed.

(** The characters received go through [console_intr], in order. *)
Lemma uart_intr_drains h s x :
  follows (Sched.uart_intr h (u8 <$> rx x) s) (uart_intr h (TSys W I P s x)) (put_rx [] x).
Proof.
  unfold uart_intr, mbind at 1, M_bind at 1, gets at 1. cbn [ts_trap].
  remember (rx x) as l eqn:E. revert s x E. induction l as [|c l IH]; intros s x E;
    cbn [length fmap list_fmap Sched.uart_intr]; rewrite loop_S;
    unfold mbind, M_bind; rewrite uart_intr_round, <- E.
  - destruct x. cbn in *. by subst.
  - destruct (console_intr h (u8 c) s) as [[] s'|s'|]; [|done|done].
    specialize (IH s' (put_rx l x)). destruct x. cbn in *. by apply IH.
Qed.

(** The state when the timer interrupt was taken: the next one is set. *)
Definition ticked (h : nat) x : trapst P :=
  put_csrs (<[h := Csr (stvec (csrs x h)) (sie_reg (csrs x h)) (sstatus (csrs x h)) (u64 (time x + TIMER_INTERVAL))]> (csrs x))
    (put_ticks (u64 (ticks x + 1)) x).

Lemma sie_off_on h b s : sie (spins s) !! h = Some b →
  put_spins (with_sie h b (spins (put_spins (with_sie h false (spins s)) s))) (put_spins (with_sie h false (spins s)) s) = s.
Proof.
  intros E. destruct s as [a1 a2 a3 a4 sp a6 a7 a8 a9 a10]. cbn in *. unfold put_spins, with_sie. cbn.
  destruct sp. cbn in *. by rewrite list_insert_insert_eq, list_insert_id.
Qed.

Lemma plic_claim_spec x : configured (view (plic x)) →
  ∃ p, if v_pending (view (plic x)) UART0_IRQ
    then plic_claim x = Done UART0_IRQ (put_plic p x) ∧ view p = claimed UART0_IRQ (view (plic x))
    else plic_claim x = Done 0 (put_plic p x) ∧ view p = view (plic x).
Proof.
  intros Hc. pose proof (plic_claims 0 (plic x) ltac:(lia)) as Hl. cbn zeta in Hl.
  assert (plic_claim x = Done (i32 (u32 (plic_load (PLIC_SCLAIM 0) (plic x)).1)) (put_plic (plic_load (PLIC_SCLAIM 0) (plic x)).2 x)) as -> by done.
  destruct (plic_load (PLIC_SCLAIM 0) (plic x)) as [v p]. cbn [fst snd] in *. exists p.
  destruct Hl as [(-> & Hv & Hn)|[Hcand Hv]].
  - destruct (v_pending _ _) eqn:E; [|done]. destruct (Hn UART0_IRQ). by apply configured_candidate.
  - apply configured_candidate in Hcand as [-> ->]; done.
Qed.

Lemma exec_received h l s : outside (code s h) →
  exec h (Received l) s = (interrupt h (Sched.uart_intr h l);; mret None) s.
Proof. unfold exec, mbind at 1, M_bind at 1, gets at 1. by intros [-> | [p ->]]. Qed.

(** C8: interrupts are events of the scheduler. Serving a timer interrupt counts a
    tick, sets the hart's next deadline and, with a process running, does exactly
    what the event [Timer] of the scheduler does, else nothing. With the
    interrupt controller set up for the serial port, serving an external
    interrupt does exactly what the event [Received] does with all the characters
    in the receiver, which is empty afterwards, and the interrupt is claimed and
    completed; if another hart was faster there is nothing to claim, and nothing
    happens. *)
Theorem interrupts_are_events h cause b s x :
  sie (spins s) !! h = Some b →
  (Z.land cause 0xff = SCAUSE_S_TIMER →
     (∀ p, code s h = Free p → cpu_proc s h = Some p →
        follows (exec h Timer s) (take_interrupt h cause (TSys W I P s x)) (ticked h x)) ∧
     (cpu_proc s h = None → take_interrupt h cause (TSys W I P s x) = Done tt (TSys W I P s (ticked h x)))) ∧
  (Z.land cause 0xff = SCAUSE_S_EXTERNAL → configured (view (plic x)) →
     (v_pending (view (plic x)) UART0_IRQ = true → outside (code s h) →
        ∃ p, view p = completed UART0_IRQ (claimed UART0_IRQ (view (plic x))) ∧
          follows (exec h (Received (u8 <$> rx x)) s) (take_interrupt h cause (TSys W I P s x)) (put_plic p (put_rx [] x))) ∧
     (v_pending (view (plic x)) UART0_IRQ = false →
        ∃ p, view p = view (plic x) ∧ take_interrupt h cause (TSys W I P s x) = Done tt (TSys W I P s (put_plic p x)))).
Proof.
  intros Hb. pose proof (sie_off_on h b s Hb) as Hback.
  set (s0 := put_spins (with_sie h false (spins s)) s) in *.
  assert (∀ t, t = TSys W I P s x → take_interrupt h cause t =
    match kerneltrap_intr h cause (TSys W I P s0 x) with
    | Done back t' => when back (on_sys (set_sie h b)) t' | Halt t' => Halt t' | Undef => Undef end) as E.
  { intros t ->. unfold take_interrupt, mbind, M_bind, gets. cbn [ts_sys]. rewrite Hb. done. }
  rewrite !E by done. clear E. unfold kerneltrap_intr. split.
  - intros ->. change (SCAUSE_S_TIMER =? SCAUSE_S_TIMER) with true. cbv iota.
    assert (∀ (k : M (tsys W I P) bool), (on_trap (modify (λ x, put_ticks (u64 (ticks x + 1)) x));; on_trap (timer_init h);; k)
      (TSys W I P s0 x) = k (TSys W I P s0 (ticked h x))) as -> by (intros; by destruct x).
    unfold current_proc, on_sys, mbind, M_bind, zoom, gets. cbn [ts_sys ts_trap]. change (cpu_proc s0 h) with (cpu_proc s h). split.
    + intros p Ec Ep. rewrite Ep. unfold exec, set_sie, mbind, M_bind, gets, modify. rewrite Ec. fold s0. cbn [ts_sys ts_trap].
      destruct (yield h s0) as [[] s'|s'|]; [|done|done]. done.
    + intros ->. unfold when, set_sie, modify, mret, M_ret. cbn [ts_sys ts_trap]. by rewrite Hback.
  - intros -> Hc. change (SCAUSE_S_EXTERNAL =? SCAUSE_S_TIMER) with false. change (SCAUSE_S_EXTERNAL =? SCAUSE_S_EXTERNAL) with true. cbv iota.
    destruct (plic_claim_spec x Hc) as [p Hp]. unfold mbind, M_bind, on_trap, zoom. cbn [ts_sys ts_trap].
    split; intros Hpend; rewrite Hpend in Hp; destruct Hp as [-> Hv].
    + intros Ho. exists (plic_store (PLIC_SCLAIM 0) (u32 (u32 UART0_IRQ)) p). split.
      { rewrite <- Hv. apply plic_completes; unfold UART0_IRQ; lia. }
      rewrite exec_received by done. unfold interrupt, mbind, M_bind, gets, of_option. rewrite Hb.
      unfold set_sie at 1, modify at 1. fold s0. unfold when. cbn [Z.eqb UART0_IRQ Pos.eqb negb].
      pose proof (uart_intr_drains h s0 (put_plic p x)) as Hf. change (rx (put_plic p x)) with (rx x) in Hf.
      destruct (Sched.uart_intr h (u8 <$> rx x) s0) as [[] s'|s'|], (uart_intr h (TSys W I P s0 (put_plic p x))) as [[] t'|t'|]; try done.
      cbn [follows] in Hf. subst t'. done.
    + exists p. split; [done|]. unfold when. cbn [Z.eqb UART0_IRQ Pos.eqb negb].
      unfold mret, M_ret, on_sys, zoom, set_sie, modify. cbn [ts_sys ts_trap]. by rewrite Hback.
Qed.
End events.

(** ** Two characters arrive while hart 0 is about to look for a process *)

#[local] Instance unit_dev : HasDev unit := {| dev_of _ := Dev (spins power_up) []; set_dev _ s := s |}.

Definition demo_trap : trapst plic_view :=
  Trapst plic_view 7 100 (λ _, Csr 0 0 0 0)
    (PlicView (λ _, 1) (λ _, 2 ^ UART0_IRQ) (λ _, 0) (λ irq, irq =? UART0_IRQ) (λ _, false)) 1 [108; 10].

Definition demo_interrupt : outcome (tsys unit unit plic_view) unit :=
  take_interrupt 0 (2 ^ 63 + 9) (TSys unit unit plic_view demo_boot demo_trap).

Lemma interrupts_are_events_witness :
  ∃ x', follows (exec 0 (Received [108; 10]) demo_boot) demo_interrupt x' ∧ rx x' = [] ∧
    v_claimed (view (plic x')) UART0_IRQ = false ∧
    match demo_interrupt with Done _ t => echoed (ts_sys t) = [108; 10] | _ => False end.
Proof.
  destruct (interrupts_are_events 0 (2 ^ 63 + 9) false demo_boot demo_trap eq_refl) as [_ H].
  destruct (proj1 (H eq_refl ltac:(split_and!; reflexivity)) eq_refl ltac:(by left)) as (p & Hv & Hf).
  exists (put_plic p (put_rx [] demo_trap)). split; [exact Hf|]. split; [reflexivity|]. split; [|vm_compute; reflexivity].
  cbn [plic put_plic put_rx]. rewrite Hv. reflexivity.
Defined.
