(* ===== verification/Boot.v ===== *)
(** * Booting (src/main.c)

    [kmain] in the order of the source, cut where it goes from one part of the
    kernel to the next. It runs on the whole state: the machine and its devices
    (World.v), the mounted file system, the processes (Sched.v), the control
    registers and the interrupt controller (Trap.v). A hart that calls
    [scheduler] joins; from then on it takes the steps of Sched.v.

    The linker symbols [etext], [end], [kernelvec] and [_entry] and the embedded
    program are arguments. *)
From stdpp Require Import functions.
From S2P Require Import Prelude Spinlock Uart Mem Kalloc Vm PageTable Disk Packet Net Fs Elf Console Sched Proc Virtio VirtioSpec NetDriver NetDriverSpec NetDriverOps Driver World Trap.

Definition NHART : nat := 3.

(** The memory of processes, as the scheduler sees it, on the mounted system. *)
Definition kernel_images {D} `{HasDev D, !BlockDev D, !HasMachine D} (etext : Z) (initcode : list Z) : Images (fs D) image := {|
  thread_image i := on_mach (make_thread_image i);
  new_image i := on_mach (make_user_image etext initcode i);
  fork_image i par f := on_mach (fork_user_image etext i par f);
  free_image i := on_mach (proc_freeimage i);
|}.

(** The whole state. [asked]: the harts the firmware was asked to start, and
    where; [joined]: those that have reached the scheduler. [hart_satp]: the
    register [satp] of the harts that are not running. *)
Record boot {V N P : Type} := Boot {
  b_t : tsys (fs (world V N)) image P;
  boot_taken : Z; asked : list (nat * Z); joined : list nat; hart_satp : nat → Z;
}.
Arguments boot : clear implicits.

(** The lock state with hart [h] running. *)
Definition at_hart (h : nat) (sp : spin) : spin := Spin h (cpus sp) (sie sp) (words sp).

Section kmain.
Context {V N P : Type} `{VirtioDev V, BlkContents V, !VirtioBlkLaws V, !Statics, !VirtioDev N, !PlicDev P}.
Context (etext kend kernelvec entry : Z) (initcode : list Z) (bufs : demo_bufs).
Implicit Types b : boot V N P.

#[local] Instance images : Images (fs (world V N)) image := kernel_images etext initcode.

(** ** The parts of the state *)

Definition b_sys b : sys (fs (world V N)) image := ts_sys (b_t b).
Definition put_b_sys s b : boot V N P := Boot V N P (TSys _ _ _ s (ts_trap (b_t b))) (boot_taken b) (asked b) (joined b) (hart_satp b).
Definition b_trap b : trapst P := ts_trap (b_t b).
Definition put_b_trap x b : boot V N P := Boot V N P (TSys _ _ _ (ts_sys (b_t b)) x) (boot_taken b) (asked b) (joined b) (hart_satp b).

Definition on_psys {A} (m : M (sys (fs (world V N)) image) A) : M (boot V N P) A := zoom b_sys put_b_sys m.
Definition on_fs {A} (m : M (fs (world V N)) A) : M (boot V N P) A := on_psys (zoom mem_world put_world m).
Definition on_k {A} (m : M machine A) : M (boot V N P) A := on_fs (on_mach m).
Definition on_trapst {A} (m : M (trapst P) A) : M (boot V N P) A := zoom b_trap put_b_trap m.

(** ** kmain, part by part *)

Definition greet : M machine unit :=
  uart_init;;
  uart_line "";;
  uart_line "========================================";;
  uart_line "  kernel-hobby v0.1  (C / RISC-V)";;
  uart_line "  booted in S-mode under OpenSBI";;
  uart_line "========================================".

Definition interrupts_up (h : nat) : M (trapst P) unit :=
  trap_init kernelvec h;; plic_init;; plic_init_hart;; uart_enable_rx;; timer_init h.

Definition memory_up : M machine unit :=
  kinit kend;;
  uart_str "[ok] page allocator: ";;
  n ← kfreecount; uart_dec n;;
  uart_line " free pages";;
  kvminit etext;;
  kvminithart;;
  uart_line "[ok] paging enabled (Sv39 kernel page table)".

(** On the world, beside the statics of the file system. *)
Definition on_low_state {A} (m : M (world V N) A) : M (fs (world V N)) A := zoom low (λ w s, FsOn (fm s) w) m.

Definition devices_up : M (fs (world V N)) unit :=
  on_low_state (zoom blk put_blk virtio_disk_init);;
  fs_init;;
  r ← on_low_state (zoom card put_card (on_net net_init));
  when (r =? 0) (on_low_state (net_demo bufs)).

Definition processes_up : M (sys (fs (world V N)) image) unit :=
  procinit;; make_user_proc (of_string "sh");; mret tt.

(** The firmware starts hart [h] at [addr]; its answer is not looked at. *)
Definition sbi_hart_start (h : nat) (addr : Z) : M (boot V N P) unit :=
  modify (λ b, Boot V N P (b_t b) (boot_taken b) (asked b ++ [(h, addr)]) (joined b) (hart_satp b)).

(** [scheduler()]: the hart takes the steps of Sched.v from here on. *)
Definition scheduler (h : nat) : M (boot V N P) unit :=
  on_psys (goto h Top);;
  modify (λ b, Boot V N P (b_t b) (boot_taken b) (asked b) (joined b ++ [h]) (hart_satp b)).

Definition initlock_pr : M machine unit := modify (λ s, set_spin (initlock pr_lock (spin_of s)) s).

(** [for (h = 0; h < NHART; h++) if (h != r_tp()) sbi_hart_start(h, _entry)] *)
Fixpoint wake_harts (n i h : nat) : M (boot V N P) unit :=
  match n with
  | O => mret tt
  | S n => when (negb (i =? h)%nat) (sbi_hart_start i entry);; wake_harts n (S i) h
  end.

Definition hart_main (h : nat) : M (boot V N P) unit :=
  on_k kvminithart;;
  on_trapst (trap_init kernelvec h);;
  on_trapst (timer_init h);;
  on_k (acquire pr_lock;;
    uart_str "[ok] hart ";; uart_dec (Z.of_nat h);; uart_line " online -> joining scheduler";;
    release pr_lock);;
  scheduler h.

(** [__sync_lock_test_and_set(&boot_taken, 1)] *)
Definition take_boot : M (boot V N P) Z :=
  old ← gets boot_taken;
  modify (λ b, Boot V N P (b_t b) 1 (asked b) (joined b) (hart_satp b));;
  mret old.

(** [kmain] on hart [h], the value of [tp]. *)
Definition kmain (h : nat) : M (boot V N P) unit :=
  old ← take_boot;
  if negb (old =? 0) then hart_main h
  else
    on_k greet;;
    on_trapst (interrupts_up h);;
    on_k (uart_line "[ok] interrupts + uart input ready");;
    on_k memory_up;;
    on_fs devices_up;;
    on_psys processes_up;;
    on_k initlock_pr;;
    on_k (uart_str "[ok] boot hart ";; uart_dec (Z.of_nat h);; uart_line " up; waking other cores + starting shell");;
    wake_harts NHART 0 h;;
    scheduler h.

(** Hart [h] enters at [_entry], with its number in [tp] and no paging. *)
Definition enter (h : nat) (k : machine) : machine := with_satp 0 (set_spin (at_hart h (spin_of k)) k).
Definition save_satp (h : nat) b : boot V N P :=
  Boot V N P (b_t b) (boot_taken b) (asked b) (joined b) (<[h := satp (mach (mem_world (b_sys b)))]> (hart_satp b)).

Definition start_hart (h : nat) : M (boot V N P) unit :=
  on_k (modify (enter h));; kmain h;; modify (save_satp h).

Fixpoint start_harts (l : list nat) : M (boot V N P) unit :=
  match l with [] => mret tt | h :: l => start_hart h;; start_harts l end.
End kmain.
