(* ===== verification/BootSpec.v ===== *)
(** * What booting achieves

    Each part of [kmain] ends in the invariants that the rest of the kernel
    needs; together they take a machine just switched on to a state in which the
    scheduler's theorems, the file system's and those on address spaces apply. *)
From stdpp Require Import functions.
From S2P Require Import Prelude Spinlock Uart Mem Kalloc Vm PageTable AddrSpace Took Disk Packet Net Fs FsLayout FsOps FsSpec Elf Console Sched Proc Image ProcSpec Virtio VirtioSpec VirtioInit NetDriver NetDriverSpec NetDriverOps NetDriverInit Frame Driver World Trap TrapSpec Boot.

(** ** The machine: memory and paging *)

(** Paging is on: [l] is free, the kernel's table is [T] and maps the kernel. *)
Record paged (rg : Z * Z) (etext : Z) (l : list Z) (T : gmap (list Z) Z) (k : machine) : Prop := {
  pg_inv : kinv rg k l;
  pg_ready : ready k;
  pg_table : aspace rg k (kernel_pagetable k) T;
  pg_map va : 0 ≤ va → sv39 (mem k) (kernel_pagetable k) va = kernel_entry etext va;
  pg_satp : satp k = MAKE_SATP (kernel_pagetable k);
}.

(** The kernel's table survives what changes neither its pages nor their counts. *)
Lemma paged_step rg etext l T k l' k' :
  paged rg etext l T k → kinv rg k' l' → ready k' → kernel_pagetable k' = kernel_pagetable k → satp k' = satp k →
  (∀ p x, node T p → in_page p x → ld8 (mem k') x = ld8 (mem k) x) → (∀ p, node T p → rc k' p = rc k p) →
  paged rg etext l' T k'.
Proof.
  intros [Hk Hr [A1 A2 A3] Hm Hs] Hk' Hr' Ep Es Hx Hc.
  assert (pt_rep (mem k') T) as A2' by (eapply pt_rep_ext; [|exact A2]; intros; symmetry; by eapply Hx).
  split; rewrite ?Ep; try done; [split; try done| |by rewrite Es].
  - intros p Hp. rewrite Hc by done. by apply A3.
  - intros va Hva. rewrite <- Hm by done. rewrite (sv39_leaf _ _ _ _ A2' A1), (sv39_leaf _ _ _ _ A2 A1).
    by rewrite (leaf_ext (mem k') (mem k)).
Qed.

Lemma paged_free rg etext l T k p : paged rg etext l T k → node T p → p ∉ l.
Proof. intros [Hk _ [_ _ A] _ _] Hp [_ Hz]%(kinv_free _ _ _ Hk). destruct (A p Hp). lia. Qed.

Lemma paged_heard rg etext l T k k' : paged rg etext l T k → heard k k' → paged rg etext l T k'.
Proof.
  intros Hp Hh. pose proof Hp as [Hk Hr _ _ _]. destruct (heard_mem _ _ Hh) as [Em Ek]. destruct (Hh) as [out E].
  eapply paged_step; [exact Hp| |by eapply heard_ready|by rewrite E|by rewrite E|by rewrite Em|].
  - apply (kinv_ext rg k); [done|by rewrite Em|done].
  - intros q _. unfold rc. by rewrite Ek.
Qed.

(** More pages taken from the free list. *)
Lemma paged_took rg etext l T k l' k' : paged rg etext l T k → took rg l l' k k' → paged rg etext l' T k'.
Proof.
  intros Hp [K R _ M C (_ & _ & E1 & E2)]. pose proof Hp as [Hk _ [_ _ A] _ _]. eapply paged_step; [exact Hp|done..| |].
  - intros p x Hn Hx. apply M. intros q Hq. eapply (in_page_ne p q); [by eapply managed_aligned, A|by eapply free_page| |done].
    intros ->. by eapply paged_free in Hn.
  - intros p Hn. apply C; [by eapply managed_aligned, A|by eapply paged_free].
Qed.

Lemma wp_greet k (Q : unit → machine → Prop) :
  spin_ok (spin_of k) → (∀ k', heard (set_spin (initlock uart_lock (spin_of k)) k) k' → Q tt k') → wp greet Q k.
Proof.
  intros Hok HQ. unfold greet, uart_line. wp_steps. unfold uart_init. wp_steps.
  match goal with |- wp _ _ ?k0 => assert (dev_ready (mdev k0)) as Hr by (by split) end.
  apply wp_first_puts; [exact Hr|]. intros k1 H1.
  do 4 (wp_steps; eapply wp_heard_puts; [exact Hr|exact H1|]; clear k1 H1; intros k1 H1).
  by apply HQ.
Qed.

Lemma wp_kvminithart k (Q : unit → machine → Prop) :
  (∀ k', mem k' = mem k → km k' = km k → mdev k' = mdev k → kernel_pagetable k' = kernel_pagetable k →
     satp k' = MAKE_SATP (kernel_pagetable k) → Q tt k') → wp kvminithart Q k.
Proof. intros HQ. unfold kvminithart. wp_steps. by apply HQ. Qed.

(** The allocator, then paging. *)
Lemma wp_memory_up kend etext k (Q : unit → machine → Prop) :
  etext_ok etext → RAMBASE ≤ kend → kend + 71 * PGSIZE ≤ PHYSTOP → Kalloc.booted k →
  (∀ k' l T, paged (PGROUNDUP kend, PHYSTOP) etext l T k' → spin_of k' ≡ initlock kmem_lock (spin_of k) →
     (PHYSTOP - PGROUNDUP kend) / PGSIZE - 70 ≤ Z.of_nat (length l) → Q tt k') →
  wp (memory_up etext kend) Q k.
Proof.
  intros Het Hlo Hhi Hb HQ. unfold memory_up, uart_line, uart_str. set (rg := (PGROUNDUP kend, PHYSTOP)).
  wp_steps. eapply wp_mono; [apply wp_kinit; [unfold PGSIZE in *; lia|done]|]. intros [] k1 (R1 & S1 & l & K1 & L1).
  assert (70 ≤ length l)%nat as H70.
  { rewrite PGROUNDUP_spec in L1 by (unfold RAMBASE, PHYSTOP, PGSIZE in *; lia).
    unfold PHYSTOP, PGSIZE in *. Z.to_euclidean_division_equations. lia. }
  wp_steps. pose proof (ready_dev _ R1) as D1.
  apply wp_first_puts; [exact D1|]. intros k2 H2. unfold kfreecount. wp_steps.
  eapply wp_heard_dec; [|exact D1|exact H2|].
  { rewrite (proj2 (heard_mem _ _ H2)), (kinv_cnt _ _ _ K1). pose proof (kinv_length_bound _ _ _ K1) as Hn. change NPAGES with 32768 in Hn. lia. }
  clear k2 H2. intros k2 H2. wp_steps. eapply wp_heard_puts; [exact D1|exact H2|]. clear k2 H2. intros k2 H2.
  pose proof (heard_ready _ _ R1 H2) as R2. destruct (heard_mem _ _ H2) as [M2 C2].
  assert (kinv rg k2 l) as K2 by (apply (kinv_ext rg k1); [done|by rewrite M2|done]).
  wp_steps. eapply wp_mono; [by apply (wp_kvminit rg)|]. intros [] k3 (l3 & T & Hv).
  pose proof Hv as [[K3 R3 A3] _ _ Hcnt _ _ _ _ (S3 & _)]. rewrite map_size_empty in Hcnt.
  pose proof (vstep_size _ _ _ _ _ _ _ _ Hv) as Hsz. wp_steps. apply wp_kvminithart. intros k4 M4 C4 D4 P4 Q4. wp_steps.
  assert (ready k4) as R4 by (unfold ready, spin_of in *; cbn in *; by rewrite D4).
  apply wp_first_puts; [by apply ready_dev|]. intros k5 H5. apply (HQ k5 l3 T).
  - eapply paged_heard; [|exact H5]. split; [|exact R4| | |by rewrite P4].
    + apply (kinv_ext rg k3); [done|by rewrite M4|done].
    + rewrite P4. destruct A3 as [A1 A2 A3]. split; [done|by rewrite M4|]. intros p Hp. unfold rc. rewrite C4. by apply A3.
    + intros va Hva. by rewrite M4, P4, (vstep_sv39 _ _ _ _ _ _ _ _ _ _ Hv), kernel_upd_entry.
  - rewrite (heard_spin _ _ (proj1 R4) H5). unfold spin_of at 1. cbn. rewrite D4. etrans; [exact S3|].
    etrans; [|exact S1]. exact (heard_spin _ _ (proj1 R1) H2).
  - lia.
Qed.

(** ** The devices: a mounted file system *)

#[local] Opaque memset_loop.

Section devices.
Context {V N : Type} `{VirtioDev V, BlkContents V, !VirtioBlkLaws V, !Statics, !VirtioDev N}.
Context (rg : Z * Z) (etext : Z) (total : Z) (files : list file).
Implicit Types (s : fs (world V N)) (w : world V N).

(** Paging is on, the file system holds [files], and the memory that the disk
    driver uses is apart from the free pages [l] and from the tables in [T]. *)
Record storage (l : list Z) (T : gmap (list Z) Z) s : Prop := {
  st_paged : paged rg etext l T (mach s);
  st_holds : holds s total files;
  st_apart p x : p ∈ l ∨ node T p → in_page p x → ¬ owned (low s) x;
}.

(** The disk before its driver runs. *)
Record disk_there w : Prop := {
  dt_present : present (wdisk w);
  dt_queue : NUM ≤ queue_max (wdisk w);
  dt_good : blk_good (wdisk w);
  dt_capacity : total ≤ blk_capacity (wdisk w);
  dt_content : recoverable (played (blk_origin (wdisk w)) (blk_history (wdisk w))) total files;
}.

Lemma disk_there_mach k w : disk_there w → disk_there (put_wmach k w).
Proof. by intros []. Qed.

(** No network card, and the driver as the loader leaves it. *)
Definition no_card w : Prop := first_slot (wcard w) = None ∧ net_base (wnst w) = 0.

Lemma driver_owned rg' l d a u k (w : world V N) x p :
  VirtioInit.statics_ok rg' → kinv rg' k (d :: a :: u :: l) → wvst w = VStat d a u 0 1 →
  managed rg' p → p ∉ [d; a; u] → in_page p x → ¬ owned w x.
Proof.
  intros (B1 & B2 & B3 & B4 & B5 & B6 & _) Hk Ev Hm Hp Hx Ho. pose proof Hm as [Hal Hlo].
  assert (∀ q, q ∈ [d; a; u] → ¬ in_page q x) as Hq.
  { intros q Hq. eapply (in_page_ne p q); [by eapply managed_aligned| |by intros ->|done].
    eapply (free_page rg' k); [exact Hk|]. rewrite !elem_of_cons, elem_of_nil in Hq. rewrite !elem_of_cons. tauto. }
  cbn in Ho. unfold virt_owned, blk in Ho. cbn [vst] in Ho. rewrite Ev in Ho. cbn [desc avail used] in Ho.
  destruct Ho as [?|[?|[?|Ho]]]; [by eapply (Hq d); [by left|]|by eapply (Hq a); [right; left|]|by eapply (Hq u); [do 2 right; left|]|].
  unfold in_page in Hx. lia.
Qed.

(** What output, or anything else that the driver does not notice, leaves. *)
Lemma holds_machine s k w :
  holds s total files → w = set_mach k (low s) → dev_ready (mdev k) →
  (∀ x, owned (low s) x → ld8 (mem k) x = ld8 (mem (mach s)) x) →
  holds (FsOn (fm s) w) total files ∧ ∀ x, owned w x ↔ owned (low s) x.
Proof.
  intros [es [[Hg _] Hc Hst Hcl Hl Hm]] -> Hr Hx. destruct (driver_set_mach k (low s) Hx Hg) as (G & C & O & Hh & Ho).
  split; [|done]. exists es. assert (content (set_mach k (low s)) = content (low s)) as Ec by (unfold content; by rewrite O, Hh).
  split; cbn [low fm]; rewrite ?Ec, ?C; done.
Qed.

(** After the disk driver, before the file system. *)
Record disk_up (l : list Z) (T : gmap (list Z) Z) s s' : Prop := {
  du_paged : paged rg etext l T (mach s');
  du_ready : disk_ready (low s');
  du_capacity : total ≤ capacity (low s');
  du_content : recoverable (content (low s')) total files;
  du_apart p x : p ∈ l ∨ node T p → in_page p x → ¬ owned (low s') x;
  du_spin : spin_of (mach s') ≡ spin_of (mach s);
  du_rest : fm s' = fm s ∧ wcard (low s') = wcard (low s) ∧ wnst (low s') = wnst (low s);
}.

Lemma wp_disk_up l T s d a u :
  paged rg etext (d :: a :: u :: l) T (mach s) → disk_there (low s) → VirtioInit.statics_ok rg →
  wp (on_low_state (zoom blk put_blk virtio_disk_init)) (λ _, disk_up l T s) s.
Proof.
  intros Hp [D1 D2 D3 D4 D5] Hst. destruct s as [m [k v vt nv nt tr]]. cbn [low wdisk] in *. unfold mach in *. cbn [low mach_of world_machine wmach] in *.
  pose proof Hp as [Hk Hr _ _ _]. apply wp_zoom, wp_zoom. cbn [low]. unfold blk. cbn [wmach wdisk wvst].
  eapply wp_mono; [by apply (wp_virtio_disk_init rg l)|]. intros [] [k' v' vt'] [(G1 & G2 & G3 & G4) Ho]. cbn [device vmach vst] in *.
  rewrite bool_decide_eq_true_2, (proj2 (Z.leb_le _ _)) in Ho by done. cbn [andb] in Ho.
  destruct Ho as (Hg & K & R & d' & a' & u' & [= <- <- <-] & -> & Hh).
  pose proof (three_pages_took rg _ k k d a u l (took_refl rg _ k Hk Hr)) as Ht. destruct (three_pages_kinv _ _ _ _ _ _ Hk Hr) as [_ R3].
  assert (paged rg etext l T k') as Hp' by (eapply paged_heard; [by eapply paged_took|exact Hh]).
  split; unfold put_blk, mach; cbn [low fm wcard wnst mach_of world_machine wmach]; try done.
  - split; [exact Hg|by apply ready_dev].
  - change (total ≤ blk_capacity v'). by rewrite G2.
  - change (recoverable (played (blk_origin v') (blk_history v')) total files). by rewrite G3, G4.
  - intros p x Hpx Hin. eapply (driver_owned rg l d a u k); [done|exact Hk|done| | |exact Hin].
    + destruct Hpx as [Hpx|Hpx]; [by apply (kinv_free _ _ _ K)|]. by apply (as_live _ _ _ _ (pg_table _ _ _ _ _ Hp)).
    + pose proof (kinv_nodup _ _ _ Hk) as Hnd. rewrite !NoDup_cons, !not_elem_of_cons in Hnd. destruct Hnd as ((_ & _ & ?) & (_ & ?) & ? & _).
      intros Hi. destruct Hpx as [Hpx|Hpx].
      * rewrite !elem_of_cons, elem_of_nil in Hi. naive_solver.
      * apply (paged_free _ _ _ _ _ _ Hp Hpx). rewrite !elem_of_cons, elem_of_nil in Hi. rewrite !elem_of_cons. tauto.
  - rewrite (heard_spin _ _ (proj1 R3) Hh). destruct Ht as [_ _ _ _ _ (? & _)]. done.
Qed.

Lemma paged_untouched l T k k' :
  paged rg etext l T k → (∀ p x, p ∈ l ∨ node T p → in_page p x → ld8 (mem k') x = ld8 (mem k) x) →
  same_alloc k k' → dev_ready (mdev k') → spin_of k' ≡ spin_of k → paged rg etext l T k'.
Proof.
  intros Hp Hx (E1 & E2 & E3) Hr Hs. pose proof Hp as [Hk (R1 & R2 & R3) _ _ _]. eapply paged_step; [exact Hp| | |done|done| |].
  - apply (kinv_ext rg k); [done| |done]. intros q Hq. apply ld64_ext. intros x ?. symmetry. apply (Hx q); [by left|unfold in_page, PGSIZE; lia].
  - unfold ready. by rewrite Hs.
  - intros p x Hp' Hin. apply (Hx p); [by right|done].
  - intros p _. unfold rc. by rewrite E1.
Qed.

(** Nothing of the card changes while the file system works. *)
Definition same_card w w' : Prop := wcard w' = wcard w ∧ wnst w' = wnst w.
#[local] Instance same_card_preorder : PreOrder same_card.
Proof. split; [by split|]. intros ? ? ? [] []. split; congruence. Qed.

Lemma same_card_rw b buf wr : keeps same_card (Disk.virtio_disk_rw b buf wr).
Proof. intros w. cbn [Disk.virtio_disk_rw world_rw]. unfold zoom. by destruct (Disk.virtio_disk_rw b buf wr (blk w)). Qed.

(** What follows the disk driver and keeps the card. *)
Definition stored (l : list Z) (T : gmap (list Z) Z) s s' : Prop :=
  storage l T s' ∧ spin_of (mach s') ≡ spin_of (mach s) ∧ same_card (low s) (low s').

Lemma wp_fs_up l T s s0 :
  disk_up l T s s0 → FsOps.statics_ok (fm s0) → wp fs_init (λ _, stored l T s) s0.
Proof.
  intros [Hp Hd Hc Hr Ha Hs (E1 & E2 & E3)] Hst.
  assert (wp fs_init (λ _ s', ∃ es out, dstep (recovery (content (low s0))) out (low s0) (low s') ∧ fs_rep s' total es files) s0) as Hwp.
  { apply (wp_fs_init total files); [done..|]. eauto. }
  apply (wp_keeps (on_low untouched)) in Hwp; [|apply keeps_fs_init; [apply _|apply untouched_dev|apply untouched_rw]].
  apply (wp_keeps (on_low same_card)) in Hwp; [|apply keeps_fs_init; [apply _|by intros|apply same_card_rw]].
  eapply wp_mono; [exact Hwp|]. intros [] s' [[(es & out & Hds & Hrep) Hu] [X1 X2]].
  destruct (Hu (proj1 Hd)) as (G & O & F & A). split; [split|split; [|split]].
  - eapply paged_untouched; [exact Hp| |exact A|apply Hds|exact (ds_spin _ _ _ _ Hds)]. intros p x Hpx Hx. apply F. by eapply Ha.
  - by exists es.
  - intros p x Hpx Hx. rewrite O. by eapply Ha.
  - etrans; [exact (ds_spin _ _ _ _ Hds)|exact Hs].
  - by rewrite <- E2.
  - by rewrite <- E3.
Qed.

(** The machine of a state with storage gets new pages, or says something. *)
Lemma storage_machine l T l' s s' k :
  storage l T s → (∀ p, p ∈ l' → p ∈ l) → low s' = set_mach k (low s) → fm s' = fm s → paged rg etext l' T k →
  (∀ x, owned (low s) x → ld8 (mem k) x = ld8 (mem (mach s)) x) → storage l' T s'.
Proof.
  intros [Hp Hh Ha] Hl E Ef Hp' Hx. destruct s' as [m w]. cbn [low fm] in *. subst m.
  assert (mach (FsOn (fm s) w) = k) as Em by (unfold mach; cbn [low]; by rewrite E).
  destruct (holds_machine s k w Hh E) as [Hh' Ho]; [by apply ready_dev, Hp'|done|].
  split; [by rewrite Em|done|]. intros p x Hpx Hin. cbn [low]. rewrite Ho. eapply Ha; [|done]. destruct Hpx; auto.
Qed.

Lemma wp_no_net l T s s0 (Q : Z → fs (world V N) → Prop) :
  stored l T s s0 → no_card (low s0) → (∀ s', stored l T s s' → Q (-1) s') →
  wp (on_low_state (zoom card put_card (on_net net_init))) Q s0.
Proof.
  intros (Hst & Hs & Hc) (N1 & N2) HQ. pose proof (st_paged _ _ _ Hst) as Hp. pose proof (pg_ready _ _ _ _ _ Hp) as Hr.
  apply wp_zoom, wp_zoom, wp_zoom. apply wp_net_absent; [done..|]. intros k Hh. apply HQ. split; [|split].
  - eapply (storage_machine l T l s0 _ k); [done..|by eapply paged_heard|]. intros x _. by destruct (heard_mem _ _ Hh) as [-> _].
  - etrans; [exact (heard_spin _ _ (proj1 Hr) Hh)|exact Hs].
  - exact Hc.
Qed.

(** The disk driver, the file system, and no network card. *)
Lemma wp_devices_up bufs l T s d a u :
  paged rg etext (d :: a :: u :: l) T (mach s) → disk_there (low s) → VirtioInit.statics_ok rg → FsOps.statics_ok (fm s) →
  no_card (low s) → wp (devices_up bufs) (λ _, stored l T s) s.
Proof.
  intros Hp Hd Hst Hfs Hno. unfold devices_up. apply wp_bind. eapply wp_mono; [by apply (wp_disk_up l T s d a u)|]. intros [] s1 U1.
  destruct (du_rest _ _ _ _ U1) as (E1 & _). apply wp_bind. eapply wp_mono; [apply (wp_fs_up l T s); [done|by rewrite E1]|].
  intros [] s2 U2. apply wp_bind. apply (wp_no_net l T s); [done| |].
  - destruct U2 as (_ & _ & C1 & C2). unfold no_card. by rewrite C1, C2.
  - by intros s3.
Qed.
End devices.

(** ** The first process *)

Section processes.
Context {V N : Type} `{VirtioDev V, BlkContents V, !VirtioBlkLaws V, !Statics, !VirtioDev N}.
Context (rg : Z * Z) (etext : Z) (initcode : list Z) (segs : list (nat * list Z)) (entry : Z).
Implicit Types s : sys (fs (world V N)) image.
#[local] Existing Instance images.

Lemma wp_procinit_loop n i s (Q : unit → sys (fs (world V N)) image → Prop) :
  (∀ f, (∀ p, f p = if decide (i ≤ p < i + n)%nat then with_state UNUSED (procs s p) else procs s p) → Q tt (put_procs f s)) →
  wp (procinit_loop n i) Q s.
Proof.
  revert i s. induction n as [|n IH]; intros i s HQ; cbn [procinit_loop].
  - wp_steps. replace s with (put_procs (procs s) s) by (by destruct s). apply HQ. intros p. by rewrite decide_False by lia.
  - unfold upd_proc, get_proc, set_proc. wp_steps. apply IH. intros f Hf. apply (HQ f). intros p. rewrite Hf. cbn [procs put_procs].
    destruct (decide (p = i)) as [->|Hne].
    + rewrite decide_False, decide_True by lia. apply fn_lookup_insert.
    + rewrite fn_lookup_insert_ne by done. by destruct (decide (S i ≤ p < S i + n)%nat), (decide (i ≤ p < i + S n)%nat); try lia.
Qed.

(** Slot 0 of the process table after [make_user_proc]. *)
Definition shell_proc s (img : image) : proc image :=
  let x := procs s 0 in
  Proc image RUNNABLE Enter_user 0 0 (put_name [115; 104; 0] (name x)) true (next_pid s) (chan x) (parent x) (tf_va x) img.

Lemma wp_processes_up l s (Q : unit → sys (fs (world V N)) image → Prop) :
  etext_ok etext → loadable initcode segs entry → kinv rg (mach (mem_world s)) l → ready (mach (mem_world s)) → (73 ≤ length l)%nat →
  next_pid s < 2 ^ 31 - 1 →
  (∀ f img k l', (length l ≤ length l' + 73)%nat → fresh_image rg etext segs l l' (mach (mem_world s)) k img →
     f 0%nat = shell_proc s img →
     (∀ p, (0 < p < NPROC)%nat → state (f p) = UNUSED ∧ parent (f p) = parent (procs s p)) →
     Q tt (Sys _ _ f (cpu_proc s) (cpu_sched s) (next_pid s + 1) (initlock pt_lock (spins s)) (con s) (echoed s) (satps s) (code s)
             (put_mach k (mem_world s)))) →
  wp (processes_up etext initcode) Q s.
Proof.
  intros Het Hld Hk Hr Hlen Hpid HQ. unfold processes_up, procinit, initlock_pt. wp_steps. apply wp_procinit_loop. intros f Hf.
  wp_steps. unfold make_user_proc. wp_steps. cbn [procs put_procs put_spins] in *.
  assert (find_unused f NPROC 0 = Some 0%nat) as E0.
  { cbn [find_unused NPROC]. rewrite decide_True; [done|]. rewrite Hf. by rewrite decide_True by (unfold NPROC; lia). }
  rewrite E0. unfold get_proc. wp_steps. cbn [procs put_procs put_spins].
  apply wp_zoom. cbn [new_image kernel_images mem_world put_procs put_spins images]. apply wp_on_mach.
  eapply wp_mono; [by eapply (wp_make_user_image rg etext initcode segs)|]. intros r k (img & l' & -> & Hl & Hi).
  unfold take_pid, set_proc. wp_steps. { bsimp. exact Hpid. }
  wp_steps. cbn [procs put_procs put_spins put_world next_pid put_next_pid]. eapply HQ; [exact Hl|exact Hi| |].
  - rewrite fn_lookup_insert. unfold shell_proc. rewrite Hf, decide_True by (unfold NPROC; lia). done.
  - intros p Hp. rewrite fn_lookup_insert_ne, Hf, decide_True by lia. done.
Qed.
End processes.

(** ** Interrupts *)

Section interrupts.
Context {P : Type} `{!PlicDev P, !PlicLaws P}.

(** The registers of hart [h] take timer and device interrupts, the first timer
    interrupt is set, and the interrupt controller serves the serial port, whose
    receiver reports characters. *)
Record interrupts_set (kernelvec : Z) (h : nat) (t t' : trapst P) : Prop := {
  is_csr : csr_ready kernelvec (csrs t' h);
  is_timer : stimecmp (csrs t' h) = u64 (time t + TIMER_INTERVAL);
  is_others g : g ≠ h → csrs t' g = csrs t g;
  is_plic : configured (view (plic t'));
  is_pending : v_pending (view (plic t')) = v_pending (view (plic t));
  is_uart : Z.testbit (ier t') 0 = true;
  is_rest : ticks t' = ticks t ∧ time t' = time t ∧ rx t' = rx t;
}.

Lemma wp_interrupts_up kernelvec h t : wp (interrupts_up kernelvec h) (λ _, interrupts_set kernelvec h t) t.
Proof.
  unfold interrupts_up. apply wp_bind. eapply wp_mono; [apply wp_trap_init|]. intros [] t1 [[E1 O1] R1].
  assert (wp (plic_init;; plic_init_hart)
    (λ _ t2, ∃ p, configured (view p) ∧ v_pending (view p) = v_pending (view (plic t1)) ∧ t2 = put_plic p t1) t1) as Hplic.
  { apply wp_plic_setup. eauto. }
  apply wp_bind. eapply wp_mono; [exact (wp_bind_inv _ _ _ _ Hplic)|]. intros [] t2 H2. apply wp_bind.
  eapply wp_mono; [exact H2|]. intros [] t3 (p & Hc & Hp & ->). unfold uart_enable_rx. wp_steps.
  eapply wp_mono; [apply wp_timer_init|]. intros [] t4 ([E4 O4] & T4 & R4). rewrite E1, E4 in *. destruct t as [tk tm c0 p0 e0 r0].
  cbn [put_csrs put_ier put_plic ticks time csrs plic ier rx] in *.
  split; cbn [put_csrs put_ier put_plic ticks time csrs plic ier rx]; try done.
  - by apply R4.
  - intros g Hg. by rewrite O4, O1.
  - unfold u8. rewrite Z.mod_pow2_bits_low, Z.lor_spec by lia. by rewrite orb_true_r.
Qed.
End interrupts.
