(* ===== verification/BootUp.v ===== *)
(** * The kernel is up

    [kmain] put together: the first hart takes a machine just switched on to a
    state in which the scheduler's theorems, the file system's and those on
    address spaces apply, and every hart it asked for joins. *)
From stdpp Require Import functions.
From S2P Require Import Prelude Spinlock Uart Mem Kalloc Vm PageTable AddrSpace Took Disk Packet Net Fs FsLayout FsOps FsSpec Elf Console Sched Proc Image ProcSpec Virtio VirtioSpec VirtioInit NetDriver NetDriverSpec NetDriverOps NetDriverInit Frame Driver World Trap TrapSpec Boot BootSpec.

(** ** Locks, seen from every hart *)

Definition harts_ok (sp : spin) : Prop := ∀ h, (h < NCPU)%nat → spin_ok (at_hart h sp).

Lemma harts_ok_tp h sp : harts_ok (at_hart h sp) ↔ harts_ok sp.
Proof. done. Qed.

Lemma passed_initlock lk sp : passed (initlock lk sp) = initlock lk (passed sp).
Proof. unfold passed. cbn. by destruct (cpus sp !! tp sp), (sie sp !! tp sp); [case_match|..]. Qed.

#[export] Instance initlock_proper lk : Proper ((≡) ==> (≡)) (initlock lk).
Proof. intros sp sp' E. unfold equiv, spin_equiv in *. by rewrite !passed_initlock, E. Qed.

Lemma passed_cpus h sp : h ≠ tp sp → cpus (passed sp) !! h = cpus sp !! h.
Proof. intros Hne. unfold passed. repeat case_match; cbn; try done. by rewrite list_lookup_insert_ne. Qed.

#[export] Instance harts_ok_proper : Proper ((≡) ==> iff) harts_ok.
Proof.
  assert (∀ sp sp', sp ≡ sp' → harts_ok sp → harts_ok sp') as Hp; [|by intros sp sp' E; split; apply Hp].
  intros sp sp' E Ho h Hh. pose proof E as E'. unfold equiv, spin_equiv in E'.
  assert (tp sp = tp sp') as Et by (by rewrite <- (tp_passed sp), E', tp_passed).
  destruct (decide (h = tp sp)) as [->|Hne].
  - assert (spin_ok sp) as Hok by (specialize (Ho _ Hh); by destruct sp). rewrite E in Hok. rewrite Et. by destruct sp'.
  - destruct (Ho h Hh) as (c & b & Hc & Hb & Hrest). exists c, b. cbn in *. split_and!; [|by rewrite <- (sie_passed sp'), <- E', sie_passed|apply Hrest..].
    by rewrite <- (passed_cpus h sp'), <- E', passed_cpus by congruence.
Qed.

(** ** kmain *)

Lemma paged_initlock rg etext l T k :
  paged rg etext l T k → paged rg etext l T (set_spin (initlock pr_lock (spin_of k)) k).
Proof.
  intros Hp. pose proof Hp as [Hk (R1 & R2 & R3) _ _ _]. eapply paged_step; [exact Hp| | |done..].
  - by apply (kinv_ext rg k).
  - by split_and!.
Qed.

(** The memory of a process that has not run: its pages, apart from the free
    pages [l] and the kernel's tables [T], and what the hardware sees. *)
Record first_space (rg : Z * Z) (etext : Z) (segs : list (nat * list Z)) (l : list Z) (T : gmap (list Z) Z) (k : machine) (i : image) : Prop := {
  fs_pages : NoDup [ucode i; ustack i; kstack i];
  fs_table : ∃ T', aspace rg k (pagetable i) T' ∧
    ∀ p, p ∈ [ucode i; ustack i; kstack i] ∨ node T' p → p ∉ l ∧ ¬ node T p ∧ (node T' p → p ∉ [ucode i; ustack i; kstack i]);
  fs_space va : 0 ≤ va → sv39 (mem k) (pagetable i) va = space_entry etext (ucode i) (ustack i) va;
  fs_code : read_bytes (Z.to_nat PGSIZE) (mem k) (ucode i) = placed segs (replicate (Z.to_nat PGSIZE) 0);
  fs_heap : heap_top i = HEAPBASE ∧ mmap_base i = 0;
}.

Lemma first_space_same rg etext segs l T k k' i :
  first_space rg etext segs l T k i → mem k' = mem k → km k' = km k → first_space rg etext segs l T k' i.
Proof.
  intros [F1 (T' & [A1 A2 A3] & F2) F3 F4 F5] Em Ek. split; rewrite ?Em; try done.
  exists T'. split; [|done]. split; [done|by rewrite Em|]. intros p Hp. unfold rc. rewrite Ek. by apply A3.
Qed.

Lemma fresh_first_space rg etext segs l T l' k k1 k2 i :
  paged rg etext l T k → fresh_image rg etext segs l l' k k1 i → mem k2 = mem k1 → km k2 = km k1 → first_space rg etext segs l' T k2 i.
Proof.
  intros Hp [F1 F2 F3 (T' & [A1 A2 A3] & F4) F5 F6 F7 F8] Em Ek.
  assert (∀ p, p ∈ l → ¬ node T p) as Hn by (intros p Hl Hn; by apply (paged_free _ _ _ _ _ _ Hp Hn)).
  split; rewrite ?Em; try done. exists T'. split; [split; [done|by rewrite Em|]|].
  - intros p Hp'. unfold rc. rewrite Ek. by apply A3.
  - intros p [Hi|Hi].
    + destruct (F3 p Hi). split_and!; [done|by apply Hn|]. by intros (_ & _ & ?)%F4.
    + destruct (F4 p Hi) as (? & ? & ?). split_and!; [done|by apply Hn|done].
Qed.

(** Another hart on the same machine, with paging on. *)
Lemma paged_entered rg etext l T k h k' :
  paged rg etext l T k → harts_ok (spin_of k) → (h < NCPU)%nat →
  mem k' = mem k → km k' = km k → mdev k' = mdev (enter h k) → kernel_pagetable k' = kernel_pagetable k →
  satp k' = MAKE_SATP (kernel_pagetable k) → paged rg etext l T k' ∧ spin_of k' = at_hart h (spin_of k).
Proof.
  intros Hp Ho Hh Em Ek Ed Ept Es. pose proof Hp as [Hk (_ & R2 & R3) _ _ Hs].
  assert (spin_of k' = at_hart h (spin_of k)) as Esp by (unfold spin_of; cbn; by rewrite Ed). split; [|done].
  eapply paged_step; [exact Hp| | |done|by rewrite Es|by rewrite Em|intros; unfold rc; by rewrite Ek].
  - apply (kinv_ext rg k); [done|by rewrite Em|done].
  - unfold ready. rewrite Esp. split; [by apply Ho|done].
Qed.

Section kmain.
Context {V N P : Type} `{VirtioDev V, BlkContents V, !VirtioBlkLaws V, !Statics, !VirtioDev N, !PlicDev P, !PlicLaws P}.
Context (etext kend kernelvec start : Z) (initcode : list Z) (segs : list (nat * list Z)) (entry : Z).
Context (bufs : demo_bufs) (total : Z) (files : list file).
Implicit Types (b : boot V N P) (h : nat).

Definition kernel_memory : Z * Z := (PGROUNDUP kend, PHYSTOP).

(** The build: the kernel leaves enough memory, the statics of virtio.c are
    below [end], and the embedded program loads. *)
Record build_ok : Prop := {
  bo_etext : etext_ok etext;
  bo_end : RAMBASE ≤ kend ∧ kend + 147 * PGSIZE ≤ PHYSTOP;
  bo_statics : VirtioInit.statics_ok kernel_memory;
  bo_init : loadable initcode segs entry;
}.

Definition b_world b : fs (world V N) := mem_world (b_sys b).

(** The machine switched on: memory as the loader leaves it, nothing mounted, a
    disk that holds the files [files], perhaps with a transaction to recover, no
    network card, and no hart in the kernel yet. *)
Record power_on b : Prop := {
  po_boot : boot_taken b = 0 ∧ asked b = [] ∧ joined b = [];
  po_locks : harts_ok (spin_of (mach (b_world b)));
  po_km : km (mach (b_world b)) = Kmem 0 0 ∅;
  po_disk : disk_there total files (low (b_world b));
  po_card : no_card (low (b_world b));
  po_statics : FsOps.statics_ok (fm (b_world b));
  po_harts g : (g < NCPU)%nat → code (b_sys b) g = Top ∧ cpu_proc (b_sys b) g = None ∧ satps (b_sys b) g = None;
  po_spin : length (sie (spins (b_sys b))) = NCPU ∧ length (cpus (spins (b_sys b))) = NCPU ∧
    ∀ g c, cpus (spins (b_sys b)) !! g = Some c → noff c = 0;
  po_procs p : (p < NPROC)%nat → parent (procs (b_sys b) p) = None;
  po_pid : next_pid (b_sys b) < 2 ^ 31 - 1;
}.

(** The kernel is up: what the first hart has made of [b0], switched on, and the
    harts that have joined since. [regs]: the registers of a hart. *)
Record up b0 (hs : list nat) (ask : list nat) b : Prop := {
  up_sched : Sched.booted (b_sys b);
  up_memory : ∃ l T img, storage kernel_memory etext total files l T (b_world b) ∧
    procs (b_sys b) 0%nat = shell_proc (b_sys b0) img ∧ first_space kernel_memory etext segs l T (mach (b_world b)) img;
  up_others p : (0 < p < NPROC)%nat → state (procs (b_sys b) p) = UNUSED;
  up_locks : harts_ok (spin_of (mach (b_world b))) ∧ lock_free pr_lock (spin_of (mach (b_world b)));
  up_harts g : g ∈ hs → csr_ready kernelvec (csrs (b_trap b) g) ∧
    hart_satp b g = MAKE_SATP (kernel_pagetable (mach (b_world b)));
  up_devices : configured (view (plic (b_trap b))) ∧ Z.testbit (ier (b_trap b)) 0 = true;
  up_taken : boot_taken b = 1;
  up_asked : asked b = (λ g, (g, start)) <$> ask;
  up_joined : joined b = hs;
}.

Lemma wp_wake_harts n i h ts t a j hs (Q : unit → boot V N P → Prop) :
  Q tt (Boot V N P ts t (a ++ ((λ g, (g, start)) <$> filter (.≠ h) (seq i n))) j hs) →
  wp (wake_harts start n i h) Q (Boot V N P ts t a j hs).
Proof.
  revert i a. induction n as [|n IH]; intros i a HQ; cbn [wake_harts seq].
  - wp_steps. by rewrite app_nil_r in HQ.
  - wp_steps. cbn [seq] in HQ. destruct (Nat.eqb_spec i h) as [->|Hne]; cbn [negb when].
    + wp_steps. apply IH. by rewrite filter_cons_False in HQ by (intros ?; done).
    + unfold sbi_hart_start. wp_steps. apply IH. rewrite filter_cons_True in HQ by done.
      cbn [fmap list_fmap] in HQ. by rewrite <- app_assoc.
Qed.

(** Steps on a part of the state. *)
Section parts.
Context (s : sys (fs (world V N)) image) (W : fs (world V N)) (t : trapst P) (tk : Z) (a : list (nat * Z)) (j : list nat) (hs : nat → Z).

Definition at_world (W : fs (world V N)) (t : trapst P) : boot V N P := Boot V N P (TSys _ _ _ (put_world W s) t) tk a j hs.

Lemma wp_on_k {A} (m : M machine A) (Q : A → boot V N P → Prop) :
  wp m (λ x k, Q x (at_world (put_mach k W) t)) (mach W) → wp (on_k m) Q (at_world W t).
Proof. intros Hm. by apply wp_zoom, wp_zoom, wp_zoom. Qed.

Lemma wp_on_fs {A} (m : M (fs (world V N)) A) (Q : A → boot V N P → Prop) :
  wp m (λ x W', Q x (at_world W' t)) W → wp (on_fs m) Q (at_world W t).
Proof. intros Hm. by apply wp_zoom, wp_zoom. Qed.

Lemma wp_on_trapst {A} (m : M (trapst P) A) (Q : A → boot V N P → Prop) :
  wp m (λ x t', Q x (at_world W t')) t → wp (on_trapst m) Q (at_world W t).
Proof. intros Hm. by apply wp_zoom. Qed.

Lemma wp_b_line k k' m (Q : unit → boot V N P → Prop) :
  mach W = k' → dev_ready (mdev k) → heard k k' → (∀ k'', heard k k'' → Q tt (at_world (put_mach k'' W) t)) → wp (on_k (uart_line m)) Q (at_world W t).
Proof. intros E Hr Hh HQ. apply wp_on_k. rewrite E. eapply wp_heard_puts; [exact Hr|exact Hh|exact HQ]. Qed.
End parts.

Lemma booted_heard k k' : spin_ok (spin_of k) → km k = Kmem 0 0 ∅ → heard (set_spin (initlock uart_lock (spin_of k)) k) k' →
  Kalloc.booted k' ∧ dev_ready (mdev (set_spin (initlock uart_lock (spin_of k)) k)) ∧ spin_of k' ≡ initlock uart_lock (spin_of k).
Proof.
  intros B1 B3 Hh. assert (dev_ready (mdev (set_spin (initlock uart_lock (spin_of k)) k))) as Hr by (by split).
  split; [|split; [done|exact (heard_spin _ _ (proj1 Hr) Hh)]]. destruct (heard_dev _ _ Hr Hh) as [R1 R2]. split_and!; [done..|]. by destruct (heard_mem _ _ Hh) as [_ ->].
Qed.

Lemma power_on_enter h b : power_on b → power_on (put_b_sys (put_world (put_mach (enter h (mach (b_world b))) (b_world b)) (b_sys b)) b).
Proof. intros []. split; try done. by apply disk_there_mach. Qed.

(** The storage survives the output of the second half. *)
Lemma storage_up l T l' (W s' : fs (world V N)) k k' :
  storage kernel_memory etext total files l T W → took kernel_memory l l' (mach W) k →
  heard (set_spin (initlock pr_lock (spin_of k)) k) k' → s' = put_mach k' W → storage kernel_memory etext total files l' T s'.
Proof.
  intros Hst Ht Hh ->. pose proof (paged_took _ _ _ _ _ _ _ (st_paged _ _ _ _ _ _ _ Hst) Ht) as Hp.
  eapply storage_machine; [exact Hst|apply Ht|done|done| |].
  - eapply paged_heard; [by apply paged_initlock|exact Hh].
  - intros x Hx. destruct (heard_mem _ _ Hh) as [-> _]. apply (tk_mem _ _ _ _ _ Ht). intros p Hin Hpx.
    eapply (st_apart _ _ _ _ _ _ _ Hst p x); [by left|done|done].
Qed.

(** The scheduler's state once the first process is in slot 0. *)
Lemma sched_up h b f img (W : fs (world V N)) :
  power_on b → f 0%nat = shell_proc (b_sys b) img →
  (∀ p, (0 < p < NPROC)%nat → state (f p) = UNUSED ∧ parent (f p) = parent (procs (b_sys b) p)) →
  let s := b_sys b in
  Sched.booted (Sys _ _ f (cpu_proc s) (cpu_sched s) (next_pid s + 1) (initlock pt_lock (spins s)) (con s) (echoed s) (satps s)
    (<[h := Top]> (code s)) W).
Proof.
  intros [_ _ _ _ _ _ Hh (S1 & S2 & S3) Hp _] F0 Fp s.
  assert (∀ p, (p < NPROC)%nat → p = 0%nat ∨ (0 < p < NPROC)%nat) as Hcase by lia.
  split; cbn [code cpu_proc satps spins procs next_pid].
  - intros g Hg. destruct (Hh g Hg) as (E1 & E2 & E3). split; [|done]. destruct (decide (g = h)) as [->|]; [apply fn_lookup_insert|by rewrite fn_lookup_insert_ne].
  - done.
  - done.
  - intros p Hp'. destruct (Hcase p Hp') as [->|Hpos].
    + rewrite F0. cbn. split; [by apply Hp|]. right. split; [done|]. by right; left.
    + destruct (Fp p Hpos) as [E1 E2]. split; [rewrite E2; by apply Hp|by left].
  - intros p q Hp' Hq Np Nq _ _. assert (p = 0%nat) as -> by (destruct (Hcase p Hp') as [|X]; [done|by destruct (Fp p X)]).
    assert (q = 0%nat) as -> by (destruct (Hcase q Hq) as [|X]; [done|by destruct (Fp q X)]). rewrite F0. cbn. split; [unfold s; lia|done].
Qed.

Lemma initlock_pr_dev k : ready k → dev_ready (mdev (set_spin (initlock pr_lock (spin_of k)) k)).
Proof. intros (R1 & _ & R2). by split. Qed.

(** From the first process to the scheduler. *)
Lemma wp_second_half h s W t hs (Q : unit → boot V N P → Prop) :
  ready (mach W) → 0 ≤ Z.of_nat h < 2 ^ 64 →
  (∀ k, heard (set_spin (initlock pr_lock (spin_of (mach W))) (mach W)) k →
     Q tt (at_world (put_code (<[h := Top]> (code s)) s) 1 ((λ g, (g, start)) <$> filter (.≠ h) (seq 0 NHART)) [h] hs (put_mach k W) t)) →
  wp (on_k initlock_pr;;
      on_k (uart_str "[ok] boot hart ";; uart_dec (Z.of_nat h);; uart_line " up; waking other cores + starting shell");;
      wake_harts start NHART 0 h;; scheduler h) Q (at_world s 1 [] [] hs W t).
Proof.
  intros Hr Hh HQ. apply wp_bind, wp_on_k. unfold initlock_pr. wp_steps. apply wp_on_k. wp_steps.
  set (k0 := set_spin (initlock pr_lock (spin_of (mach W))) (mach W)) in *.
  assert (dev_ready (mdev k0)) as Hd by (by apply initlock_pr_dev).
  change (mach (put_mach k0 W)) with k0. apply wp_first_puts; [done|]. intros k1 U1.
  wp_steps. eapply wp_heard_dec; [done|exact Hd|exact U1|]. clear k1 U1. intros k1 U1.
  wp_steps. eapply wp_heard_puts; [exact Hd|exact U1|]. clear k1 U1. intros k1 U1.
  apply wp_bind, wp_wake_harts. cbn [app]. unfold scheduler, on_psys, goto. wp_steps. by apply HQ.
Qed.

(** The first hart. *)
Lemma wp_kmain h b :
  build_ok → power_on b → (h < NCPU)%nat → tp (spin_of (mach (b_world b))) = h →
  wp (kmain etext kend kernelvec start initcode bufs h) (λ _ b', up b [h] (filter (.≠ h) (seq 0 NHART)) (save_satp h b')) b.
Proof.
  intros [Het [Hlo Hhi] Hstat Hld] Hon Hh Htp. assert (0 ≤ Z.of_nat h < 2 ^ 64) as Hz by (unfold NCPU in Hh; lia).
  destruct b as [[s t] tk a j hs]. pose proof Hon as [(B1 & B2 & B3) Hlk Hkm Hd Hc Hfs _ _ _ Hpid].
  cbn [boot_taken asked joined] in *. subst tk a j. unfold b_world in *. cbn [b_sys b_t ts_sys] in *.
  unfold kmain, take_boot. wp_steps. cbn [negb Z.eqb boot_taken asked joined b_t hart_satp].
  assert (s = put_world (mem_world s) s) as Es by (by destruct s).
  match goal with |- wp _ ?Q _ => assert (∀ m, wp m Q (at_world s 1 [] [] hs (mem_world s) t) → wp m Q (Boot V N P (TSys _ _ _ s t) 1 [] [] hs)) as Hfold end.
  { intros m. unfold at_world. by rewrite <- Es. }
  apply Hfold. clear Hfold Es. set (W := mem_world s) in *.
  assert (spin_ok (spin_of (mach W))) as Hok by (specialize (Hlk h Hh); rewrite <- Htp in Hlk; by destruct (spin_of (mach W))).
  apply wp_bind, wp_on_k, wp_greet; [exact Hok|]. intros k1 U1. destruct (booted_heard _ _ Hok Hkm U1) as (_ & Hr0 & _).
  apply wp_bind, wp_on_trapst. eapply wp_mono; [apply wp_interrupts_up|]. intros [] t1 T1.
  apply wp_bind. eapply wp_b_line; [done|exact Hr0|exact U1|]. intros k2 U2. destruct (booted_heard _ _ Hok Hkm U2) as (Hk1 & _ & S1).
  apply wp_bind, wp_on_k. apply wp_memory_up; [done|done|unfold PGSIZE in *; lia|done|]. intros k3 l0 T Hp S2 Hl.
  assert (76 ≤ length l0)%nat as Hl0.
  { revert Hl. rewrite PGROUNDUP_spec by (unfold RAMBASE, PHYSTOP, PGSIZE in *; lia).
    unfold PHYSTOP, PGSIZE in *. Z.to_euclidean_division_equations. lia. }
  clear Hl. destruct l0 as [|d [|a [|u l]]]; [simpl in Hl0; lia..|].
  apply wp_bind, wp_on_fs. eapply wp_mono; [apply (wp_devices_up kernel_memory etext total files bufs l T _ d a u); [exact Hp|by do 3 apply disk_there_mach|done..]|].
  intros [] W1 (St & S3 & _). pose proof (st_paged _ _ _ _ _ _ _ St) as [K1 R1 _ _ _].
  apply wp_bind, wp_zoom. eapply (wp_processes_up kernel_memory etext initcode segs entry l); [done|done|done|done|simpl in Hl0; lia|done|].
  intros f img k4 l' Hl' Hi F0 Fp.
  match goal with |- wp _ _ (put_b_sys ?s' _) => change (put_b_sys s' _) with (at_world s' 1 [] [] hs (put_mach k4 W1) t1) end.
  apply wp_second_half; [apply Hi|done|]. intros k5 U5.
  assert (storage kernel_memory etext total files l' T (put_mach k5 W1)) as Hst5.
  { eapply storage_up; [exact St|apply Hi|exact U5|done]. }
  assert (spin_of k5 ≡ initlock pr_lock (spin_of k4)) as S5 by (refine (heard_spin _ _ _ U5); apply Hi).
  split.
  - by apply (sched_up h _ f img _ Hon).
  - exists l', T, img. split; [done|]. split; [exact F0|]. destruct (heard_mem _ _ U5) as [Em Ek].
    eapply fresh_first_space; [exact (st_paged _ _ _ _ _ _ _ St)|exact Hi|exact Em|exact Ek].
  - intros p Hp'. by apply Fp.
  - change (spin_of (mach _)) with (spin_of k5). rewrite S5. split; [|done]. destruct (tk_hw _ _ _ _ _ (fi_took _ _ _ _ _ _ _ _ Hi)) as [S4 _].
    change (harts_ok (spin_of k4)). rewrite S4, S3. change (mach _) with k3. rewrite S2. change (harts_ok (spin_of k2)). by rewrite S1.
  - intros g ->%list_elem_of_singleton. split; [exact (is_csr _ _ _ _ T1)|]. cbn [hart_satp save_satp at_world].
    rewrite fn_lookup_insert. exact (pg_satp _ _ _ _ _ (st_paged _ _ _ _ _ _ _ Hst5)).
  - split; [exact (is_plic _ _ _ _ T1)|exact (is_uart _ _ _ _ T1)].
  - done.
  - done.
  - done.
Qed.

(** Output under [pr_lock]. *)
Lemma wp_online h k (Q : unit → machine → Prop) :
  ready k → lock_free pr_lock (spin_of k) → 0 ≤ Z.of_nat h < 2 ^ 64 → (∀ k', heard k k' → Q tt k') →
  wp (acquire pr_lock;; uart_str "[ok] hart ";; uart_dec (Z.of_nat h);; uart_line " online -> joining scheduler";; release pr_lock) Q k.
Proof.
  intros (R1 & _ & R3) Hf Hh HQ. wp_steps. apply wp_acquire; [done|done|]. wp_steps.
  set (k0 := set_spin (entered pr_lock (spin_of k)) k).
  assert (dev_ready (mdev k0)) as Hd by (split; [by apply entered_ok|by apply entered_free]).
  apply wp_first_puts; [done|]. intros k1 U1. wp_steps. eapply wp_heard_dec; [done|exact Hd|exact U1|]. clear k1 U1. intros k1 U1.
  wp_steps. eapply wp_heard_puts; [exact Hd|exact U1|]. clear k1 U1. intros k1 [out ->].
  wp_steps. apply (wp_release pr_lock (spin_of k)); [done|done|cbn; by rewrite passed_entered|]. apply HQ. by exists out.
Qed.

Lemma wp_hart_main h b0 hs ask b :
  up b0 hs ask b → (h < NCPU)%nat → h ∉ hs →
  wp (start_hart etext kend kernelvec start initcode bufs h) (λ _, up b0 (hs ++ [h]) ask) b.
Proof.
  intros [Hs (l & T & img & Hst & H0' & Hsp) Hother [Hlk Hpr] Hregs [Hplic Huart] Htk Hask Hj] Hh Hnew.
  destruct b as [[s t] tk a j hs']. cbn [boot_taken asked joined b_sys b_t ts_sys b_trap ts_trap hart_satp] in *. subst tk j.
  unfold b_world in *. cbn [b_sys b_t ts_sys b_trap ts_trap] in *.
  assert (s = put_world (mem_world s) s) as Es by (by destruct s).
  match goal with |- wp ?m ?Q _ => assert (wp m Q (at_world s 1 a hs hs' (mem_world s) t) → wp m Q (Boot V N P (TSys _ _ _ s t) 1 a hs hs')) as Hfold end.
  { unfold at_world. by rewrite <- Es. }
  apply Hfold. clear Hfold Es. set (W := mem_world s) in *.
  unfold start_hart. apply wp_bind, wp_on_k. wp_steps. unfold kmain, take_boot. wp_steps. cbn [negb Z.eqb boot_taken at_world].
  change (wp (hart_main kernelvec h) (λ _, wp (modify (save_satp h)) (λ _, up b0 (hs ++ [h]) ask)) (at_world s 1 a hs hs' (put_mach (enter h (mach W)) W) t)).
  unfold hart_main. apply wp_bind, wp_on_k, wp_kvminithart. intros k2 M2 K2 D2 P2 Q2.
  apply wp_bind, wp_on_trapst. eapply wp_mono; [apply wp_trap_init|]. intros [] t1 [[E1 O1] C1].
  apply wp_bind, wp_on_trapst. eapply wp_mono; [apply wp_timer_init|]. intros [] t2 ([E2 O2] & _ & C2). specialize (C2 _ C1).
  destruct (paged_entered _ _ _ _ _ h k2 (st_paged _ _ _ _ _ _ _ Hst) Hlk Hh M2 K2 D2 P2 Q2) as [Hp2 Hsp2].
  apply wp_bind, wp_on_k. change (mach (put_mach _ _)) with k2. apply wp_online; [apply Hp2|by rewrite Hsp2|unfold NCPU in Hh; lia|].
  intros k3 U3. unfold scheduler, on_psys, goto. wp_steps. destruct (heard_mem _ _ U3) as [M3 K3].
  assert (spin_of k3 ≡ at_hart h (spin_of (mach W))) as S3.
  { rewrite <- Hsp2. refine (heard_spin _ _ _ U3). apply Hp2. }
  assert (storage kernel_memory etext total files l T (put_mach k3 W)) as Hst3.
  { eapply (storage_machine _ _ _ _ l T l W _ k3); [done..|by eapply paged_heard|]. intros x _. by rewrite M3, M2. }
  assert (kernel_pagetable k3 = kernel_pagetable (mach W)) as P3 by (destruct U3 as [out ->]; exact P2).
  assert (∀ g, g ≠ h → csrs t2 g = csrs t g) as Hcs by (intros g Hg; by rewrite O2, O1).
  change (up b0 (hs ++ [h]) ask (save_satp h (at_world (put_code (<[h := Top]> (code s)) s) 1 a (hs ++ [h]) hs' (put_mach k3 W) t2))).
  split; cbn [boot_taken asked joined hart_satp save_satp at_world]; try done.
  - destruct Hs as [X1 X2 X3 X4 X5]. split; try done. intros g Hg. destruct (X1 g Hg) as [Y1 Y2]. split; [|done]. cbn.
    destruct (decide (g = h)) as [->|]; [apply fn_lookup_insert|by rewrite fn_lookup_insert_ne].
  - exists l, T, img. split; [done|]. split; [done|]. eapply first_space_same; [exact Hsp|by etrans; [exact M3|exact M2]|by etrans; [exact K3|exact K2]].
  - change (spin_of (mach _)) with (spin_of k3). by rewrite S3.
  - intros g [Hg| ->%list_elem_of_singleton]%elem_of_app.
    + assert (g ≠ h) as Hne by (by intros ->). destruct (Hregs g Hg) as [G1 G2]. split; [cbn; by rewrite Hcs|].
      rewrite fn_lookup_insert_ne by done. rewrite G2. f_equal. by symmetry.
    + split; [done|]. rewrite fn_lookup_insert. apply (pg_satp _ _ _ _ _ (st_paged _ _ _ _ _ _ _ Hst3)).
  - split; cbn; rewrite E2, E1; done.
Qed.

Lemma wp_start_first h b :
  build_ok → power_on b → (h < NCPU)%nat →
  wp (start_hart etext kend kernelvec start initcode bufs h) (λ _, up b [h] (filter (.≠ h) (seq 0 NHART))) b.
Proof.
  intros Hb Hon Hh. unfold start_hart. apply wp_bind, wp_zoom, wp_zoom, wp_zoom. apply wp_bind.
  set (b1 := put_b_sys _ b). pose proof (power_on_enter h b Hon) as Hon1. change (power_on b1) in Hon1.
  eapply wp_mono; [by apply (wp_kmain h b1)|]. intros [] b' Hu. wp_steps. destruct Hu. by split.
Qed.

Lemma wp_join b0 hs ask b gs :
  up b0 hs ask b → Forall (λ g, g < NCPU)%nat gs → NoDup (hs ++ gs) →
  wp (start_harts etext kend kernelvec start initcode bufs gs) (λ _, up b0 (hs ++ gs) ask) b.
Proof.
  revert hs b. induction gs as [|g gs IH]; intros hs b Hu Hg Hnd; cbn [start_harts].
  - wp_steps. by rewrite app_nil_r.
  - apply Forall_cons in Hg as [Hg Hgs]. apply wp_bind. eapply wp_mono; [apply (wp_hart_main g b0 hs ask b); [done|done|]|].
    + apply NoDup_app in Hnd as (_ & Hnd & _). intros Hi. apply (Hnd g Hi). by left.
    + intros [] b1 Hu1. replace (hs ++ g :: gs) with ((hs ++ [g]) ++ gs) by (by rewrite <- app_assoc). apply IH; [done..|].
      by rewrite <- app_assoc.
Qed.

End kmain.

(** ** Three harts, a formatted disk, and an embedded program of two bytes *)

#[local] Existing Instance demo_statics.

(** A bus where every slot is empty. *)
#[local] Instance empty_bus : VirtioDev unit := {| reg_read _ _ := 0; reg_write _ _ v := v; dma v m := (v, m) |}.

Definition demo_image : image := Image 0 0 0 0 0 0 0 0.
Definition demo_boot : boot simblk unit plic_view :=
  let k := Machine (Dev (Spin 2 (replicate NCPU (Cpu 0 false)) (replicate NCPU false) (LockWords 0 0 0 0)) []) ∅ (Kmem 0 0 ∅) 0 0 0 in
  let W := World simblk unit k (SimBlk ∅ false 0 64 demo_sectors []) (VStat 0 0 0 0 0) tt (NStat 0 0 (Vq 0 0 0 0) (Vq 0 0 0 0) (replicate 8 0) 0 []) [] in
  let x := Proc image UNUSED Zeroed 0 0 (replicate 8 0) false 0 None None 0 demo_image in
  let s := Sys _ _ (λ _, x) (λ _, None) (λ _, Zeroed) 1 (Spin 0 (replicate NCPU (Cpu 0 false)) (replicate NCPU false) (LockWords 0 0 0 0))
    (Console (replicate (Z.to_nat INBUF) 0) 0 0) [] (λ _, None) (λ _, Top) (FsOn (FsMem (replicate 8 no_entry) 0 false 0 0 (replicate (Z.to_nat BSIZE) 0) ∅ (replicate 16 0) 0 false) W) in
  Boot _ _ _ (TSys _ _ _ s (Trapst _ 0 0 (λ _, Csr 0 0 0 0) (PlicView (λ _, 0) (λ _, 0) (λ _, 0) (λ _, false) (λ _, false)) 0 [])) 0 [] [] (λ _, 0).

Lemma demo_power_on : power_on 64 [] demo_boot.
Proof.
  assert (∀ g c, replicate NCPU (Cpu 0 false) !! g = Some c → c = Cpu 0 false) as Hcpu by (by intros g c [-> _]%lookup_replicate).
  split; try done.
  - intros h Hh. unfold NCPU in Hh. exists (Cpu 0 false), false.
    do 4 (destruct h as [|h]; [done|]). lia.
  - split; try done.
    + split; [exact demo_good|]. cbn. lia.
    + destruct demo_holds as [es [_ _ _ Hc Hl _]]. change (recoverable demo_sectors 64 []). unfold recoverable.
      change (lh_committed (demo_sectors LOGHDR) =? 0) with true. by exists es.
  - split; [apply demo_zeros|done].
  - split_and!; try done. by intros g c ->%Hcpu.
Qed.

Lemma demo_build : build_ok 0x80210000 0x80300000 (demo_elf 2 16 [1; 2]) [(0%nat, [1; 2])] USERVA.
Proof.
  split.
  - split; [reflexivity|unfold KERNBASE, PHYSTOP; lia].
  - unfold RAMBASE, PGSIZE, PHYSTOP. lia.
  - unfold VirtioInit.statics_ok, kernel_memory, sep, BSIZE. cbn [fst].
    change (PGROUNDUP 0x80300000) with 0x80300000. split_and!; try reflexivity; cbn; lia.
  - exact demo_loadable.
Qed.

