(* ===== verification/Shell.v ===== *)
(** * The kernel shell (src/shell.c)

    A line editor and the commands it runs, with [line] and [len] beside the
    state of the kernel. The theorem states it against a reference: a line is a
    list of characters, and a command is what a grammar says it is. *)
From S2P Require Import Prelude Spinlock Uart Mem Kalloc Disk Fs Console Sched Proc Trap.

(** ** Strings *)

(** A string literal as the array it is. *)
Definition lit (s : string) : list Z := of_string s ++ [0].

(** Running off an array is undefined. *)
Fixpoint str_eq (a b : list Z) : option bool :=
  match a, b with
  | x :: a, y :: b =>
      if negb (x =? 0) && negb (y =? 0) then if negb (x =? y) then Some false else str_eq a b
      else Some (x =? y)
  | _, _ => None
  end.

Fixpoint starts_with (s p : list Z) {struct p} : option bool :=
  match p with
  | [] => None
  | y :: p =>
      if y =? 0 then Some true
      else match s with
           | [] => None
           | x :: s => if negb (x =? y) then Some false else starts_with s p
           end
  end.

(** ** State *)

(** [line], [len] and the rest of the kernel. *)
Record shell {D P : Type} := ShellSt { line : list Z; len : Z; sh_sys : tsys (fs D) image P }.
Arguments shell : clear implicits.

Section shell.
Context {D P : Type} `{HasDev D, !BlockDev D, !HasMachine D, !PlicDev P}.
Implicit Types s : shell D P.

Definition put_line l s : shell D P := ShellSt _ _ l (len s) (sh_sys s).
Definition put_len n s : shell D P := ShellSt _ _ (line s) n (sh_sys s).
Definition put_sh_sys t s : shell D P := ShellSt _ _ (line s) (len s) t.

Definition on_kernel {A} (m : M (tsys (fs D) image P) A) : M (shell D P) A := zoom sh_sys put_sh_sys m.
Definition on_low_fs {A} (m : M (fs D) A) : M (tsys (fs D) image P) A := on_sys (zoom mem_world put_world m).
Definition on_machine {A} (m : M machine A) : M (tsys (fs D) image P) A := on_low_fs (on_mach m).

(** ** Commands *)

Definition prompt : M (tsys (fs D) image P) unit := on_machine (uart_str "hobby> ").

(** [uart_puts] on a pointer into [line]. *)
Definition puts_at (cmd : list Z) : M (tsys (fs D) image P) unit :=
  l ← of_option (c_string cmd); on_machine (uart_puts l).

Definition uptime_cmd : M (tsys (fs D) image P) unit :=
  on_machine (uart_str "uptime: ");;
  n ← on_trap clock_ticks; on_machine (uart_dec (n / 10));;
  on_machine (uart_line " sec").
Definition clear_cmd : M (tsys (fs D) image P) unit := on_machine (uart_puts [27; 91; 50; 74; 27; 91; 72]).
Definition mem_cmd : M (tsys (fs D) image P) unit :=
  pages ← on_machine kfreecount;
  on_machine (uart_str "free pages: ");;
  on_machine (uart_dec pages);;
  on_machine (uart_str "  (~");;
  on_machine (uart_dec (u64 (pages * 4096) / 1024 / 1024));;
  on_machine (uart_line " MB free)").
Definition ps_cmd : M (tsys (fs D) image P) unit :=
  on_machine (uart_line "threads (preemptively scheduled):");;
  f ← gets (λ t, procs (ts_sys t)); on_machine (proc_dump f).

Definition help_text : string := "commands: help, about, uptime, mem, ps, ls, cat <file>, clear, whoami, echo <text>".
Definition about_text : string := "kernel-hobby (C / RISC-V) -- a from-scratch learning kernel".
Definition whoami_text : string := "a kernel hacker building their own OS".

Definition execute (cmd : list Z) : M (tsys (fs D) image P) unit :=
  c ← of_option (head cmd);
  if c =? 0 then mret tt else
  b ← of_option (str_eq cmd (lit "help")); if b : bool then on_machine (uart_line help_text) else
  b ← of_option (str_eq cmd (lit "about")); if b : bool then on_machine (uart_line about_text) else
  b ← of_option (str_eq cmd (lit "uptime")); if b : bool then uptime_cmd else
  b ← of_option (str_eq cmd (lit "clear")); if b : bool then clear_cmd else
  b ← of_option (str_eq cmd (lit "whoami")); if b : bool then on_machine (uart_line whoami_text) else
  b ← of_option (str_eq cmd (lit "mem")); if b : bool then mem_cmd else
  b ← of_option (str_eq cmd (lit "ps")); if b : bool then ps_cmd else
  b ← of_option (str_eq cmd (lit "ls")); if b : bool then on_low_fs fs_ls else
  b ← of_option (starts_with cmd (lit "cat ")); if b : bool then
    name ← of_option (c_string (drop 4 cmd)); on_low_fs (fs_cat name) else
  b ← of_option (starts_with cmd (lit "echo ")); if b : bool then
    puts_at (drop 5 cmd);; on_machine (uart_putc 10) else
  on_machine (uart_str "unknown command: ");; puts_at cmd;; on_machine (uart_line "  (try 'help')").

Definition shell_init : M (tsys (fs D) image P) unit :=
  on_machine (uart_puts (10 :: of_string "type 'help' for commands." ++ [10]));; prompt.

(** ** A character typed *)

(** [line[i] = c] *)
Definition set_line (i c : Z) : M (shell D P) unit :=
  l ← gets line;
  assertb ((0 <=? i) && (i <? Z.of_nat (length l)));;
  modify (put_line (<[Z.to_nat i := c]> l)).

Definition shell_input (c : Z) : M (shell D P) unit :=
  if (c =? 13) || (c =? 10) then
    on_kernel (on_machine (uart_putc 10));;
    n ← gets len; set_line n 0;;
    cmd ← gets line; on_kernel (execute cmd);;
    modify (put_len 0);;
    on_kernel prompt
  else if (c =? 0x7f) || (c =? 0x08) then
    n ← gets len;
    when (0 <? n) (modify (put_len (n - 1));; on_kernel (on_machine (uart_puts [8; 32; 8])))
  else
    n ← gets len;
    when (n <? 128 - 1) (set_line n c;; modify (put_len (n + 1));; on_kernel (on_machine (uart_putc c))).
End shell.
