(* ===== verification/ShellSpec.v ===== *)
(** * What the kernel shell does

    The commands as a grammar, the editor as operations on a list of characters,
    and that [shell_input], character by character, is these two. *)
From S2P Require Import Prelude Spinlock Uart Mem Kalloc Disk Fs FsOps Console Sched Proc ProcSpec Trap Shell.

(** ** Strings *)

Notation nonzero := (Forall (λ c : Z, c ≠ 0)).

Lemma str_eq_lit w pad p : nonzero w → nonzero p → str_eq (w ++ 0 :: pad) (p ++ [0]) = Some (bool_decide (w = p)).
Proof.
  intros Hw. revert p. induction Hw as [|x w Hx _ IH]; intros p Hp.
  - destruct Hp as [|y p Hy _]; [done|]. rewrite bool_decide_eq_false_2 by done. by destruct y.
  - cbn. rewrite (proj2 (Z.eqb_neq x 0)) by done. destruct Hp as [|y p Hy Hp]; cbn.
    + rewrite bool_decide_eq_false_2 by done. by rewrite (proj2 (Z.eqb_neq x 0)).
    + rewrite (proj2 (Z.eqb_neq y 0)) by done. cbn. destruct (Z.eqb_spec x y) as [->|Hne]; cbn.
      * rewrite IH by done. f_equal. apply bool_decide_ext. naive_solver.
      * rewrite bool_decide_eq_false_2; [done|]. naive_solver.
Qed.

(** What follows the prefix [p]. *)
Definition after (p w : list Z) : option (list Z) := if decide (take (length p) w = p) then Some (drop (length p) w) else None.

Lemma starts_with_lit w pad p : nonzero w → nonzero p → starts_with (w ++ 0 :: pad) (p ++ [0]) = Some (bool_decide (is_Some (after p w))).
Proof.
  intros Hw Hp. revert w Hw. induction Hp as [|y p Hy Hp IH]; intros w Hw.
  { unfold after. rewrite decide_True by done. rewrite bool_decide_eq_true_2 by (by eexists). done. }
  cbn. rewrite (proj2 (Z.eqb_neq y 0)) by done.
  destruct Hw as [|x w Hx Hw]; cbn.
  - by destruct y.
  - destruct (Z.eqb_spec x y) as [->|Hne]; cbn.
    + rewrite IH by done. f_equal. apply bool_decide_ext. unfold after. cbn.
      destruct (decide (take (length p) w = p)) as [E|E]; destruct (decide (y :: _ = y :: p)) as [E'|E']; try done; [by rewrite E in E'|by injection E'].
    + unfold after. cbn. rewrite decide_False by congruence. done.
Qed.

(** The characters up to the first NUL. *)
Definition cut (w : list Z) : list Z := default w (c_string w).

Lemma cut_spec w pad : ∃ pad', w ++ 0 :: pad = cut w ++ 0 :: pad' ∧ nonzero (cut w).
Proof.
  induction w as [|c w (pad' & E & Hn)]; [by exists pad|]. unfold cut in *. cbn. destruct (Z.eqb_spec c 0) as [->|Hc]; cbn; [by exists (w ++ 0 :: pad)|].
  exists pad'. destruct (c_string w); cbn in *; (split; [by rewrite E|by constructor]).
Qed.

(** ** Commands *)

Inductive command :=
| Nothing | Help | About | Uptime | Clear | Whoami | Mem | Ps | Ls
| Cat (name : list Z) | Echo (text : list Z) | Unknown (text : list Z).

Definition words : list (list Z * command) :=
  [([], Nothing); (of_string "help", Help); (of_string "about", About); (of_string "uptime", Uptime); (of_string "clear", Clear);
   (of_string "whoami", Whoami); (of_string "mem", Mem); (of_string "ps", Ps); (of_string "ls", Ls)].

Definition parse (w : list Z) : command :=
  match list_find (λ e, w = e.1) words with
  | Some (_, e) => e.2
  | None =>
      match after (of_string "cat ") w, after (of_string "echo ") w with
      | Some name, _ => Cat name
      | _, Some text => Echo text
      | _, _ => Unknown w
      end
  end.

Section shell.
Context {D P : Type} `{HasDev D, !BlockDev D, !HasMachine D, !PlicDev P}.
Implicit Types s : shell D P.
Notation kernel := (tsys (fs D) image P).

Definition run_command (c : command) : M kernel unit :=
  match c with
  | Nothing => mret tt
  | Help => on_machine (uart_line help_text)
  | About => on_machine (uart_line about_text)
  | Uptime => uptime_cmd
  | Clear => clear_cmd
  | Whoami => on_machine (uart_line whoami_text)
  | Mem => mem_cmd
  | Ps => ps_cmd
  | Ls => on_low_fs fs_ls
  | Cat name => on_low_fs (fs_cat name)
  | Echo text => on_machine (uart_puts text);; on_machine (uart_putc 10)
  | Unknown text => on_machine (uart_str "unknown command: ");; on_machine (uart_puts text);; on_machine (uart_line "  (try 'help')")
  end.

Lemma of_option_bind {S A B} (a : A) (f : A → M S B) : of_option (Some a) ≫= f = f a.
Proof. reflexivity. Qed.

Lemma drop_after p w k : after p w = Some k → ∀ l, drop (length p) (w ++ l) = k ++ l.
Proof.
  unfold after. destruct (decide _) as [E|]; [|done]. intros [= <-] l. rewrite skipn_app.
  assert (length p ≤ length w)%nat as Hl by (apply (f_equal length) in E; rewrite length_take in E; lia).
  by replace (length p - length w)%nat with 0%nat by lia.
Qed.

Lemma find_word {A} (w x : list Z) (c : A) l : list_find (λ e, w = e.1) ((x, c) :: l) =
  if bool_decide (w = x) then Some (0%nat, (x, c)) else prod_map S id <$> list_find (λ e, w = e.1) l.
Proof. cbn [list_find fst]. case_bool_decide; [by rewrite decide_True|by rewrite decide_False]. Qed.

(** The C code and the grammar agree. *)
Lemma execute_parse w pad : nonzero w → execute (w ++ 0 :: pad) = run_command (parse w).
Proof.
  intros Hw. destruct Hw as [|x w' Hx Hw']; [reflexivity|]. set (w := x :: w') in *.
  assert (nonzero w) as Hw by (by constructor).
  assert (∀ m, nonzero (of_string m) → str_eq (w ++ 0 :: pad) (lit m) = Some (bool_decide (w = of_string m))) as Heq
    by (intros; by apply str_eq_lit).
  assert (∀ m, nonzero (of_string m) → starts_with (w ++ 0 :: pad) (lit m) = Some (bool_decide (is_Some (after (of_string m) w)))) as Hst
    by (intros; by apply starts_with_lit).
  assert (c_string (w ++ 0 :: pad) = Some w) as Hc by (by apply c_string_app).
  unfold execute, parse, words. rewrite !Heq, !Hst by (cbn; repeat constructor; lia).
  change (head (w ++ 0 :: pad)) with (Some x). rewrite of_option_bind, (proj2 (Z.eqb_neq _ _)) by done.
  rewrite find_word, (bool_decide_eq_false_2 (w = [])) by (by unfold w).
  do 8 (rewrite find_word, of_option_bind; case_bool_decide as E; [clear; by repeat case_bool_decide|clear E]).
  assert (∀ p k, after p w = Some k → c_string (drop (length p) (w ++ 0 :: pad)) = Some k) as Hdrop.
  { intros p k E. rewrite (drop_after _ _ _ E). apply c_string_app. unfold after in E.
    destruct (decide _); [injection E as <-; by apply Forall_drop|done]. }
  cbn [list_find fmap option_fmap option_map]. rewrite of_option_bind. destruct (after (of_string "cat ") w) as [name|] eqn:E.
  { rewrite bool_decide_eq_true_2 by done. by rewrite (Hdrop _ _ E : c_string (drop 4 (w ++ 0 :: pad)) = Some name). }
  rewrite bool_decide_eq_false_2 by (by intros []). rewrite of_option_bind. destruct (after (of_string "echo ") w) as [text|] eqn:E'.
  { rewrite bool_decide_eq_true_2 by done. unfold puts_at. by rewrite (Hdrop _ _ E' : c_string (drop 5 (w ++ 0 :: pad)) = Some text). }
  rewrite bool_decide_eq_false_2 by (by intros []). unfold puts_at. by rewrite Hc.
Qed.

(** ** The editor *)

Definition is_enter (c : Z) : bool := (c =? 13) || (c =? 10).
Definition is_erase (c : Z) : bool := (c =? 0x7f) || (c =? 0x08).

(** What a character does to the line typed so far. *)
Definition edit (c : Z) (w : list Z) : list Z :=
  if is_enter c then [] else if is_erase c then take (length w - 1) w
  else if decide (length w < 127)%nat then w ++ [c] else w.

(** And to the rest of the kernel. *)
Definition effect (c : Z) (w : list Z) : M kernel unit :=
  if is_enter c then on_machine (uart_putc 10);; run_command (parse (cut w));; prompt
  else if is_erase c then if decide (w = []) then mret tt else on_machine (uart_puts [8; 32; 8])
  else if decide (length w < 127)%nat then on_machine (uart_putc c) else mret tt.

Fixpoint session (keys w : list Z) : M kernel (list Z) :=
  match keys with [] => mret w | c :: keys => effect c w;; session keys (edit c w) end.

Fixpoint shell_inputs (keys : list Z) : M (shell D P) unit :=
  match keys with [] => mret tt | c :: keys => shell_input c;; shell_inputs keys end.

Definition shell_ok s : Prop := length (line s) = 128%nat ∧ 0 ≤ len s ≤ 127.
Definition typed s : list Z := take (Z.to_nat (len s)) (line s).

(** The shell's run [r'] goes like the reference's [r]. *)
Definition as_session (r : outcome kernel (list Z)) (r' : outcome (shell D P) unit) : Prop :=
  match r, r' with
  | Done w t, Done _ s => shell_ok s ∧ typed s = w ∧ sh_sys s = t
  | Halt t, Halt s => sh_sys s = t
  | Undef, Undef => True
  | _, _ => False
  end.

Lemma set_line_at i c l n t : 0 ≤ i < Z.of_nat (length l) →
  set_line i c (ShellSt D P l n t) = Done tt (ShellSt D P (<[Z.to_nat i := c]> l) n t).
Proof.
  intros Hi. unfold set_line, mbind, M_bind, gets, assertb. cbn [line].
  by rewrite (proj2 (andb_true_iff _ _)) by (split; bsimp; lia).
Qed.

Lemma insert_typed n (c : Z) l : (n < length l)%nat → <[n := c]> l = take n l ++ c :: drop (S n) l.
Proof. apply insert_take_drop. Qed.

Lemma shell_input_effect c s : shell_ok s →
  as_session (match effect c (typed s) (sh_sys s) with Done _ t => Done (edit c (typed s)) t | Halt t => Halt t | Undef => Undef end) (shell_input c s).
Proof.
  destruct s as [l n t]. intros [Hl Hn]. cbn [line len] in *. unfold typed. cbn [line len sh_sys].
  assert (length (take (Z.to_nat n) l) = Z.to_nat n) as Hw by (rewrite length_take; lia). set (w := take (Z.to_nat n) l) in *.
  unfold shell_input, effect, edit, is_enter, is_erase. destruct ((c =? 13) || (c =? 10)).
  { unfold mbind, M_bind, on_kernel, zoom, gets. cbn [sh_sys put_sh_sys line len].
    destruct (on_machine (uart_putc 10) t) as [[] t1|t1|]; [|done|done].
    change (put_sh_sys t1 (ShellSt _ _ l n t)) with (ShellSt D P l n t1). cbn [len].
    rewrite set_line_at by lia. cbn [line sh_sys].
    rewrite insert_typed by lia. fold w. destruct (cut_spec w (drop (S (Z.to_nat n)) l)) as (pad & E & Hnz).
    assert (length (w ++ 0 :: drop (S (Z.to_nat n)) l) = 128%nat) as Hl' by (rewrite length_app, length_cons, length_drop, Hw; lia).
    rewrite E in *. rewrite execute_parse by done. set (l' := cut w ++ 0 :: pad) in *.
    destruct (run_command (parse (cut w)) t1) as [[] t2|t2|]; [|done|done].
    change (modify (put_len 0) (put_sh_sys t2 (ShellSt _ _ l' n t1))) with (Done tt (ShellSt D P l' 0 t2)). cbn [sh_sys].
    destruct (prompt t2) as [[] t3|t3|]; [|done|done]. split; [|done]. split; [exact Hl'|cbn; lia]. }
  destruct ((c =? 127) || (c =? 8)).
  - unfold mbind, M_bind, gets, when. cbn [len]. destruct (Z.ltb_spec 0 n) as [Hp|Hp]; case_decide as Ew.
    + apply (f_equal length) in Ew. cbn in Ew. lia.
    + unfold modify, on_kernel, zoom. cbn [sh_sys put_len put_sh_sys line len]. destruct (on_machine (uart_puts _) t) as [[] t1|t1|]; [|done|done].
      split; [split; [done|cbn; lia]|]. split; [|done]. unfold typed. cbn [line len put_sh_sys put_len put_line]. rewrite Hw. unfold w. rewrite take_take. f_equal. lia.
    + split; [split; [done|cbn; lia]|]. split; [|done]. change (w = take (length w - 1) w). by rewrite Ew.
    + destruct Ew. apply nil_length_inv. lia.
  - unfold mbind, M_bind, gets, when. cbn [len]. destruct (Z.ltb_spec n (128 - 1)) as [Hp|Hp]; case_decide as Ew; try lia.
    + rewrite set_line_at by (cbn; lia). unfold modify, on_kernel, zoom. cbn [sh_sys put_len put_sh_sys line len].
      destruct (on_machine (uart_putc c) t) as [[] t1|t1|]; [|done|done].
      split; [split; [cbn; by rewrite length_insert|cbn; lia]|]. split; [|done]. unfold typed. cbn [line len put_sh_sys put_len put_line].
      rewrite insert_typed by lia. fold w. replace (Z.to_nat (n + 1)) with (length w + 1)%nat by lia. by rewrite take_app_add.
    + split; [split; [done|cbn; lia]|]. by split.
Qed.

Lemma shell_inputs_session keys s : shell_ok s → as_session (session keys (typed s) (sh_sys s)) (shell_inputs keys s).
Proof.
  revert s. induction keys as [|c keys IH]; intros s Hs; cbn [session shell_inputs]; [by split|].
  unfold mbind, M_bind. pose proof (shell_input_effect c s Hs) as Hc.
  destruct (effect c (typed s) (sh_sys s)) as [[] t|t|], (shell_input c s) as [[] s'|s'|]; try done.
  cbn in Hc. destruct Hc as (Hs' & <- & <-). by apply IH.
Qed.

(** C25: the kernel shell. Whatever characters arrive, and whatever they mean, the
    shell is a line editor on a list of at most 127 characters in front of a
    command interpreter: each character is echoed and added, erases the last one,
    or is dropped when the line is full; a line is cut at its first NUL, read
    as a command of the grammar [parse], and carried out. The buffer is never
    overrun, and its terminator never missed. *)
Theorem shell_edits_and_runs keys s :
  shell_ok s → as_session (session keys (typed s) (sh_sys s)) (shell_inputs keys s).
Proof. apply shell_inputs_session. Qed.
End shell.

(** ** A session: a typing error corrected, and a command *)

Definition demo_shell : shell hw unit :=
  let k := Machine demo_dev ∅ (Kmem 0 0 ∅) 0 0 0 in
  let x := Proc image UNUSED Zeroed 0 0 (replicate 8 0) false 0 None None 0 (Image 0 0 0 0 0 0 0 0) in
  let s := Sys _ _ (λ _, x) (λ _, None) (λ _, Zeroed) 1 (dspin demo_dev) (Console (replicate (Z.to_nat INBUF) 0) 0 0) [] (λ _, None) (λ _, Top)
    (FsOn unmounted (Hw k (RamDisk demo_dev 0 (λ _, []) []))) in
  ShellSt _ _ (replicate 128 0) 0 (TSys _ _ _ s (Trapst _ 0 0 (λ _, Csr 0 0 0 0) tt 0 [])).
#[local] Instance no_plic : PlicDev unit := {| plic_load _ p := (0, p); plic_store _ _ p := p |}.

(** What the shell transmitted. *)
Definition said_by (o : outcome (shell hw unit) unit) : list Z :=
  match o with Done _ s => tx (mdev (hw_mach (low (mem_world (ts_sys (sh_sys s)))))) | _ => [] end.

Definition demo_keys : list Z := of_string "echp" ++ [0x7f] ++ of_string "o hi" ++ [13].

Lemma shell_edits_and_runs_witness :
  as_session (session demo_keys [] (sh_sys demo_shell)) (shell_inputs demo_keys demo_shell) ∧
  said_by (shell_inputs demo_keys demo_shell) = of_string "echp" ++ [8; 32; 8] ++ of_string "o hi" ++ [10] ++ of_string "hi" ++ [10] ++ of_string "hobby> ".
Proof. split; [apply (shell_edits_and_runs demo_keys demo_shell); split; [reflexivity|cbn; lia]|vm_compute; reflexivity]. Defined.
