(* ===== verification/User.v ===== *)
(** * The user programs (src/user)

    A program is an interaction tree over its system calls and its accesses to
    memory it got from the kernel. A string argument is what the kernel reads
    through the pointer: the bytes up to the NUL. Locals and string literals are
    lists; running off one is the event [Wild]. *)
From S2P Require Import Prelude.
From ITree Require Import ITree.

(** ** The interface to the kernel (src/user/usys.h) *)

Module Usys.
Definition SYS_putchar : Z := 1.
Definition SYS_print : Z := 2.
Definition SYS_tick : Z := 3.
Definition SYS_exit : Z := 4.
Definition SYS_fork : Z := 5.
Definition SYS_exec : Z := 6.
Definition SYS_read : Z := 7.
Definition SYS_wait : Z := 8.
Definition SYS_ls : Z := 9.
Definition SYS_cat : Z := 10.
Definition SYS_mem : Z := 11.
Definition SYS_sbrk : Z := 12.
Definition SYS_mmap : Z := 13.
Definition SYS_create : Z := 14.
Definition SYS_rm : Z := 15.
Definition SYS_tcp : Z := 16.
End Usys.
Import Usys.

(** The registers a0 and a1 of a call. *)
Inductive arg := Int (n : Z) | Str (l : list Z).

(** [Ecall num args]: the result in a0. [Eread n]: the call [SYS_read] with a
    buffer of [n] bytes; the answer is what the kernel stored, never more than
    [n] bytes. *)
Inductive sysE : Type → Type :=
| Ecall (num : Z) (args : list arg) : sysE Z
| Eread (n : Z) : sysE {l : list Z | Z.of_nat (length l) ≤ Z.max 0 n}
| Ld (a : Z) : sysE Z
| St (a v : Z) : sysE unit
| Wild : sysE Empty_set.

#[export] Instance itree_ret {E} : MRet (itree E) := λ A a, Ret a.
#[export] Instance itree_bind {E} : MBind (itree E) := λ A B f m, ITree.bind m f.

Definition prog : Type → Type := itree sysE.

Definition wild {A} : prog A := ITree.bind (ITree.trigger Wild) (λ e : Empty_set, match e with end).
Definition from_array {A} (o : option A) : prog A := match o with Some a => mret a | None => wild end.

Definition __syscall (num : Z) (arg0 : arg) : prog Z := ITree.trigger (Ecall num [arg0]).
Definition __syscall2 (num : Z) (arg0 arg1 : arg) : prog Z := ITree.trigger (Ecall num [arg0; arg1]).

(** The string behind a pointer. *)
Definition c_arg (p : list Z) : prog arg := s ← from_array (c_string p); mret (Str s).

Definition sys_fork : prog Z := __syscall SYS_fork (Int 0).
Definition sys_exec (p : list Z) : prog Z := a ← c_arg p; __syscall SYS_exec a.
(** The result, and the buffer afterwards. *)
Definition sys_read (buf : list Z) (n : Z) : prog (Z * list Z) :=
  l ← ITree.trigger (Eread n);
  if decide (length (proj1_sig l) ≤ length buf)%nat
  then mret (Z.of_nat (length (proj1_sig l)), proj1_sig l ++ drop (length (proj1_sig l)) buf) else wild.
Definition sys_wait : prog Z := __syscall SYS_wait (Int 0).
Definition sys_ls : prog unit := __syscall SYS_ls (Int 0);; mret tt.
Definition sys_cat (p : list Z) : prog unit := a ← c_arg p; __syscall SYS_cat a;; mret tt.
Definition sys_mem : prog unit := __syscall SYS_mem (Int 0);; mret tt.
Definition sys_sbrk (n : Z) : prog Z := __syscall SYS_sbrk (Int n).
Definition sys_mmap (p : list Z) : prog Z := a ← c_arg p; __syscall SYS_mmap a.
Definition sys_create (name data : list Z) : prog Z := a ← c_arg name; b ← c_arg data; __syscall2 SYS_create a b.
Definition sys_rm (name : list Z) : prog Z := a ← c_arg name; __syscall SYS_rm a.
Definition sys_tcp : prog unit := __syscall SYS_tcp (Int 0);; mret tt.
Definition sys_print (who : Z) : prog unit := __syscall SYS_print (Int who);; mret tt.
Definition sys_tick : prog unit := __syscall SYS_tick (Int 0);; mret tt.
Definition sys_exit : prog unit := __syscall SYS_exit (Int 0);; mret tt.
Definition sys_putchar (c : Z) : prog unit := __syscall SYS_putchar (Int c);; mret tt.

(** Each character up to the NUL is written. *)
Fixpoint puts (s : list Z) : prog unit :=
  match s with
  | [] => wild
  | c :: s => if c =? 0 then mret tt else sys_putchar c;; puts s
  end.

(** A string literal, and one that ends in a newline, as the arrays they are. *)
Definition str (m : string) : list Z := of_string m ++ [0].
Definition line_of (m : string) : list Z := of_string m ++ [10; 0].

(** ** hello.c *)

Module hello.
Definition msg : list Z := line_of "  [hello] I am a separate program, exec'd from disk!".
Definition _start : prog unit := puts msg;; sys_exit.
End hello.

(** ** cowtest.c *)

Module cowtest.
(** Two digits; [/] and [%] truncate. *)
Definition put2 (v : Z) : prog unit :=
  sys_putchar (48 + Z.rem (Z.quot v 10) 10);; sys_putchar (48 + Z.rem v 10).

Definition load (a : Z) : prog Z := ITree.trigger (Ld a).
Definition store (a v : Z) : prog unit := ITree.trigger (St a v).

Definition _start : prog unit :=
  puts (line_of "cowtest: heap에 42를 쓰고 fork");;
  p ← sys_sbrk 4096;
  store p 42;;
  pid ← sys_fork;
  if pid =? 0 then
    puts (str "  child: 공유된 p[0]=");; v ← load p; put2 v;;
    store p 99;;
    puts (str " -> 99 기록 후 p[0]=");; v ← load p; put2 v;;
    sys_putchar 10;;
    sys_exit
  else
    sys_wait;;
    puts (str "  parent: p[0]=");; v ← load p; put2 v;;
    puts (line_of " (42여야 격리 성공)");;
    sys_exit.
End cowtest.

(** ** lazytest.c *)

Module lazytest.
Import cowtest.
Definition _start : prog unit :=
  puts (line_of "lazytest: sbrk(8192) -- grow heap by 2 pages");;
  p ← sys_sbrk 8192;
  puts (line_of "touching page 0 and page 1 (each triggers a page fault)...");;
  store p 42;;
  store (p + 4096) 99;;
  puts (str "read back: ");;
  a ← load p;
  b ← (if a =? 42 then b ← load (p + 4096); mret (b =? 99) else mret false);
  sys_putchar (if b : bool then 79 else 88);;
  sys_putchar 75;;
  sys_putchar 10;;
  sys_exit.
End lazytest.

(** ** mmaptest.c *)

Module mmaptest.
Import cowtest.
(** [for (i = 0; i < 4096 && p[i]; i++) sys_putchar(p[i])]; [n] is [4096 - i]. The
    byte is read once for the test and once for the call. *)
Fixpoint print_file (n : nat) (p : Z) : prog unit :=
  match n with
  | O => mret tt
  | S n => c ← load p; if c =? 0 then mret tt else c ← load p; sys_putchar c;; print_file n (p + 1)
  end.

Definition _start : prog unit :=
  puts (of_string "mmaptest: mmap(" ++ [34] ++ of_string "motd.txt" ++ [34] ++ line_of ")");;
  p ← sys_mmap (str "motd.txt");
  (if p <? 0 then puts (line_of "mmap failed");; sys_exit else mret tt);;
  puts (line_of "reading the file as memory (no read() -- page faults load it):");;
  print_file 4096 p;;
  sys_exit.
End mmaptest.

(** ** init.c: the user-space shell *)

Module init.
Fixpoint streq (a b : list Z) : option bool :=
  match a, b with
  | x :: a, y :: b =>
      if negb (x =? 0) && negb (y =? 0) then if negb (x =? y) then Some false else streq a b
      else Some (x =? y)
  | _, _ => None
  end.

Fixpoint startswith (s p : list Z) {struct p} : option bool :=
  match p with
  | [] => None
  | y :: p =>
      if y =? 0 then Some true
      else match s with
           | [] => None
           | x :: s => if negb (x =? y) then Some false else startswith s p
           end
  end.

(** [buf[i]] as a value and as the target of an assignment. *)
Definition get (buf : list Z) (i : Z) : prog Z := from_array (if 0 <=? i then buf !! Z.to_nat i else None).
Definition set (buf : list Z) (i c : Z) : prog (list Z) :=
  if (0 <=? i) && (i <? Z.of_nat (length buf)) then mret (<[Z.to_nat i := c]> buf) else wild.

(** The position of the first character from [i] on that satisfies [stop]. *)
Fixpoint skip (stop : Z → bool) (l : list Z) (i : Z) : option Z :=
  match l with [] => None | c :: l => if stop c then Some i else skip stop l (i + 1) end.

(** The branch for [write]: what is behind the name and what is behind the first
    space are the arguments; the space becomes the end of the name. *)
Definition write_cmd (line : list Z) : prog (list Z) :=
  let arg := 6 in
  sp ← from_array (skip (λ c, (c =? 0) || (c =? 32)) (drop 6 line) arg);
  c ← get line sp;
  r ← (if c =? 32 then line ← set line sp 0; mret (line, sp + 1)
       else sp ← from_array (skip (λ c, c =? 0) (drop 6 line) arg); mret (line, sp));
  x ← sys_create (drop (Z.to_nat arg) r.1) (drop (Z.to_nat r.2) r.1);
  (if negb (x =? 0) then puts (line_of "write: failed (exists? full?)") else mret tt);;
  mret r.1.

(** From the first built-in command to the end of the round; [line] afterwards. *)
Definition command (line : list Z) : prog (list Z) :=
  b ← from_array (streq line (str "help")); if b : bool then
    puts (line_of "builtins: ls, cat <file>, write <file> <text>, rm <file>, mem, help.  others = disk programs.");; mret line else
  b ← from_array (startswith line (str "rm ")); if b : bool then
    r ← sys_rm (drop 3 line);
    (if negb (r =? 0) then puts (line_of "rm: no such file") else mret tt);; mret line else
  b ← from_array (streq line (str "ls")); if b : bool then sys_ls;; mret line else
  b ← from_array (streq line (str "mem")); if b : bool then sys_mem;; mret line else
  b ← from_array (streq line (str "tcp")); if b : bool then sys_tcp;; mret line else
  b ← from_array (startswith line (str "cat ")); if b : bool then sys_cat (drop 4 line);; mret line else
  b ← from_array (startswith line (str "write ")); if b : bool then write_cmd line else
  pid ← sys_fork;
  (if pid =? 0 then
     sys_exec line;;
     puts line;;
     puts (line_of ": command not found");;
     sys_exit
   else mret tt);;
  sys_wait;; mret line.

(** A round of [for (;;)]. The local [line] keeps its content. *)
Definition round (line : list Z) : prog (list Z) :=
  puts (str "$ ");;
  r ← sys_read line 127;
  let '(n, line) := r in
  if n <=? 0 then mret line
  else
    c ← get line (n - 1);
    line ← (if c =? 10 then set line (n - 1) 0 else set line n 0);
    c ← get line 0;
    if c =? 0 then mret line else command line.

(** [line]: what is on the stack before the first round. *)
Definition _start (line : list Z) : prog unit :=
  puts (10 :: line_of "kernel-hobby userspace shell. try: ls, cat motd.txt, hello");;
  ITree.iter (λ line, line ← round line; mret (inl line)) line.
End init.

(** ** uthread.c: cooperative threads *)

Module uthread.
Definition HEAPBASE : Z := 0x10000.
Definition NTHREAD : nat := 3.
Definition STACKSZ : Z := 2048.

(** The layout of [struct sys]: a context is ra, sp and twelve registers; a
    thread is a context and an int, padded to eight bytes. *)
Definition sizeof_ctx : Z := 14 * 8.
Definition sizeof_thread : Z := sizeof_ctx + 8.
Definition off_t : Z := sizeof_ctx.
Definition off_current : Z := off_t + Z.of_nat NTHREAD * sizeof_thread.
Definition off_stacks : Z := off_current + 4.
Definition sizeof_sys : Z := (off_stacks + Z.of_nat NTHREAD * STACKSZ + 7) / 8 * 8.

(** What a context resumes: [worker] from its start on the stack [sp], its loop
    behind [uyield] in round [i], or nothing, behind [texit]. *)
Inductive ctx := Entry (sp : Z) | InYield (id i : Z) | InExit.
Record thread := Thread { t_ctx : ctx; t_state : Z }.
(** The context of the scheduler is the code behind its [uswitch]. *)
Record sys := Sys { t : list thread; current : Z }.

(** [S->t[i]] as a value and as the target of an assignment. *)
Definition thread_at (i : Z) (s : sys) : prog thread := from_array (if 0 <=? i then t s !! Z.to_nat i else None).
Definition put_thread (i : Z) (x : thread) (s : sys) : prog sys :=
  thread_at i s;; mret (Sys (<[Z.to_nat i := x]> (t s)) (current s)).

(** [uswitch(&S->t[c].ctx, &S->sched)], to be resumed at [k]. *)
Definition uyield (k : ctx) (s : sys) : prog sys :=
  let c := current s in x ← thread_at c s; put_thread c (Thread k (t_state x)) s.

Definition texit (s : sys) : prog sys :=
  let c := current s in
  x ← thread_at c s;
  s ← put_thread c (Thread (t_ctx x) 0) s;
  put_thread c (Thread InExit 0) s.

Definition worker_round (id i : Z) (s : sys) : prog sys :=
  puts (str "  [thread ");; sys_putchar (u8 (65 + id));; puts (str "] step ");;
  sys_putchar (u8 (49 + i));; sys_putchar 10;;
  uyield (InYield id i) s.

(** [worker] from the test of its loop on, until it switches. *)
Definition worker_from (id i : Z) (s : sys) : prog sys :=
  if i <? 3 then worker_round id i s
  else
    puts (str "  [thread ");; sys_putchar (u8 (65 + id));; puts (line_of "] done");;
    texit s.

(** [uswitch(&S->sched, &S->t[i].ctx)]: the thread runs until it switches back. *)
Definition uswitch (i : Z) (s : sys) : prog sys :=
  x ← thread_at i s;
  match t_ctx x with
  | Entry _ => worker_from (current s) 0 s
  | InYield id i => worker_from id (i + 1) s
  | InExit => wild
  end.

Definition stack_top (i : Z) : Z := Z.land (HEAPBASE + off_stacks + (i + 1) * STACKSZ) (Z.lnot 15).
Definition tcreate (i : Z) (s : sys) : prog sys := put_thread i (Thread (Entry (stack_top i)) 1) s.

Fixpoint tcreate_all (n : nat) (i : Z) (s : sys) : prog sys :=
  match n with O => mret s | S n => s ← tcreate i s; tcreate_all n (i + 1) s end.

(** The inner loop of the scheduler, from thread [i] on. *)
Fixpoint sweep (n : nat) (i : Z) (ran : bool) (s : sys) : prog (bool * sys) :=
  match n with
  | O => mret (ran, s)
  | S n =>
      x ← thread_at i s;
      if t_state x =? 1 then s ← uswitch i (Sys (t s) i); sweep n (i + 1) true s
      else sweep n (i + 1) ran s
  end.

Definition schedule (s : sys) : prog sys :=
  ITree.iter (λ s, r ← sweep NTHREAD 0 false s; mret (if r.1 : bool then inl r.2 else inr r.2)) s.

(** [for (a = 0; a < 16384; a += 4096) *(HEAPBASE + a) = 0] *)
Definition touch_pages : prog unit :=
  foldr (λ a k, ITree.trigger (St (HEAPBASE + a) 0);; k) (mret tt) [0; 4096; 8192; 12288].

(** [junk]: what the heap holds for the contexts before they are set. *)
Definition _start (junk : list ctx) : prog unit :=
  sys_sbrk 16384;;
  touch_pages;;
  let s := Sys ((λ c, Thread c 0) <$> junk) (-1) in
  puts (line_of "uthread: cooperative user threads (state on heap, no kernel changes)");;
  s ← tcreate_all NTHREAD 0 s;
  schedule s;;
  puts (line_of "uthread: all threads finished");;
  sys_exit.
End uthread.
