(* ===== verification/UserSpec.v ===== *)
(** * The user-space shell

    init.c against a reference: a loop that reads a line, parses it and acts on
    it. The equivalence [≈] of interaction trees holds for every answer of the
    kernel, for ever. *)
From S2P Require Import Prelude Shell ShellSpec User.
From ITree Require Import ITree ITreeFacts.
Import Usys.

(** ** The reference *)

Inductive ucommand :=
| UNothing | UHelp | URm (name : list Z) | ULs | UMem | UTcp
| UCat (name : list Z) | UWrite (name text : list Z) | URun (program : list Z).

Definition uwords : list (list Z * ucommand) :=
  [([], UNothing); (of_string "help", UHelp); (of_string "ls", ULs); (of_string "mem", UMem); (of_string "tcp", UTcp)].

(** What is before the first space, and what is behind it. *)
Fixpoint at_space (l : list Z) : list Z * list Z :=
  match l with
  | [] => ([], [])
  | c :: l => if c =? 32 then ([], l) else let r := at_space l in (c :: r.1, r.2)
  end.

Definition uparse (w : list Z) : ucommand :=
  match list_find (λ e, w = e.1) uwords with
  | Some (_, e) => e.2
  | None =>
      match after (of_string "rm ") w, after (of_string "cat ") w, after (of_string "write ") w with
      | Some name, _, _ => URm name
      | _, Some name, _ => UCat name
      | _, _, Some r => let p := at_space r in UWrite p.1 p.2
      | _, _, _ => URun w
      end
  end.

Fixpoint say (l : list Z) : prog unit :=
  match l with [] => mret tt | c :: l => sys_putchar c;; say l end.
Definition say_line (m : string) : prog unit := say (of_string m ++ [10]).

Definition act (c : ucommand) : prog unit :=
  match c with
  | UNothing => mret tt
  | UHelp => say_line "builtins: ls, cat <file>, write <file> <text>, rm <file>, mem, help.  others = disk programs."
  | URm name => r ← __syscall SYS_rm (Str name); if r =? 0 then mret tt else say_line "rm: no such file"
  | ULs => sys_ls
  | UMem => sys_mem
  | UTcp => sys_tcp
  | UCat name => __syscall SYS_cat (Str name);; mret tt
  | UWrite name text =>
      r ← __syscall2 SYS_create (Str name) (Str text);
      if r =? 0 then mret tt else say_line "write: failed (exists? full?)"
  | URun program =>
      pid ← sys_fork;
      (if pid =? 0 then
         __syscall SYS_exec (Str program);;
         say program;; say_line ": command not found";; sys_exit
       else mret tt);;
      sys_wait;; mret tt
  end.

(** The line without its newline. *)
Definition trim (l : list Z) : list Z := if decide (last l = Some 10) then removelast l else l.

Definition read_and_act : prog unit :=
  say (of_string "$ ");;
  l ← ITree.trigger (Eread 127);
  act (uparse (cut (trim (proj1_sig l)))).

Definition user_shell : prog unit :=
  say (10 :: of_string "kernel-hobby userspace shell. try: ls, cat motd.txt, hello" ++ [10]);;
  ITree.iter (λ _ : unit, read_and_act;; mret (inl tt)) tt.

(** ** Lemmas *)

Lemma bind_ret {A B} (a : A) (k : A → prog B) : (mret a ≫= k) ≈ k a.
Proof. unfold mbind, itree_bind, mret, itree_ret. by rewrite bind_ret_l. Qed.
Lemma bind_assoc {A B C} (m : prog A) (k : A → prog B) (h : B → prog C) : ((m ≫= k) ≫= h) ≈ (m ≫= λ a, k a ≫= h).
Proof. unfold mbind, itree_bind. by rewrite bind_bind. Qed.
Lemma bind_congr {A B1 B2} (R : B1 → B2 → Prop) (m : prog A) (k1 : A → prog B1) (k2 : A → prog B2) :
  (∀ a, eutt R (k1 a) (k2 a)) → eutt R (m ≫= k1) (m ≫= k2).
Proof. intros Hk. eapply eutt_clo_bind; [reflexivity|]. intros a ? <-. apply Hk. Qed.
Lemma bind_head {A B} (m m' : prog A) (k : A → prog B) : m ≈ m' → (m ≫= k) ≈ (m' ≫= k).
Proof. intros E. unfold mbind, itree_bind. by rewrite E. Qed.
Lemma from_some {A B} (a : A) (k : A → prog B) : (from_array (Some a) ≫= k) ≈ k a.
Proof. apply bind_ret. Qed.

Lemma puts_say w pad : nonzero w → puts (w ++ 0 :: pad) = say w.
Proof. induction 1 as [|c w Hc _ IH]; [done|]. cbn. rewrite (proj2 (Z.eqb_neq _ _)) by done. by rewrite IH. Qed.
Lemma puts_line m : nonzero (of_string m) → puts (line_of m) = say_line m.
Proof. intros Hm. unfold line_of, say_line. change [10; 0] with ([10] ++ [0]). rewrite app_assoc. apply puts_say, Forall_app. split; [done|]. by constructor. Qed.

Lemma streq_shell a b : init.streq a b = str_eq a b.
Proof. reflexivity. Qed.
Lemma startswith_shell s p : init.startswith s p = starts_with s p.
Proof. reflexivity. Qed.

(** A string argument in the middle of an array. *)
Lemma c_arg_at w pad : nonzero w → c_arg (w ++ 0 :: pad) ≈ mret (Str w).
Proof. intros Hw. unfold c_arg. rewrite c_string_app by done. apply (from_some w (λ s, mret (Str s))). Qed.

Definition keeps_size (line : list Z) (_ : unit) : Prop := length line = 128%nat.

Lemma then_line (m : prog unit) line : length line = 128%nat → eutt keeps_size (m;; mret line) m.
Proof.
  intros Hl. rewrite <- (bind_ret_r m) at 2. apply bind_congr. intros []. by apply eqit_Ret.
Qed.

(** [write]: the two arguments. *)
Lemma skip_space k q i :
  nonzero k → let r := at_space k in
  init.skip (λ c, (c =? 0) || (c =? 32)) (k ++ 0 :: q) i = Some (i + Z.of_nat (length r.1)) ∧ nonzero r.1 ∧ nonzero r.2 ∧
  (k = r.1 ∧ r.2 = [] ∨ k = r.1 ++ 32 :: r.2).
Proof.
  intros Hk. revert i. induction Hk as [|c k Hc Hk IH]; intros i; cbn.
  - split_and!; [f_equal; lia|constructor..|by left].
  - rewrite (proj2 (Z.eqb_neq c 0)) by done. cbn. destruct (Z.eqb_spec c 32) as [->|Hs]; cbn.
    + split_and!; [f_equal; lia|constructor|done|by right].
    + destruct (IH (i + 1)) as (-> & H1 & H2 & H3). split_and!; [f_equal; lia|by constructor|done|].
      destruct H3 as [[E1 E2]|E]; [left; split; [by f_equal|done]|right; by f_equal].
Qed.

Lemma skip_end k q i : nonzero k → init.skip (λ c, c =? 0) (k ++ 0 :: q) i = Some (i + Z.of_nat (length k)).
Proof.
  intros Hk. revert i. induction Hk as [|c k Hc Hk IH]; intros i; cbn; [f_equal; lia|].
  rewrite (proj2 (Z.eqb_neq c 0)) by done. rewrite IH. f_equal. lia.
Qed.

Lemma create_at n t x y : nonzero n → nonzero t →
  sys_create (n ++ 0 :: x) (t ++ 0 :: y) ≈ __syscall2 SYS_create (Str n) (Str t).
Proof.
  intros Hn Ht. unfold sys_create. rewrite (bind_head _ _ _ (c_arg_at _ _ Hn)), bind_ret, (bind_head _ _ _ (c_arg_at _ _ Ht)). apply bind_ret.
Qed.

Lemma get_at buf i c : buf !! i = Some c → init.get buf (Z.of_nat i) = from_array (Some c).
Proof. intros E. unfold init.get. by rewrite (proj2 (Z.leb_le _ _)), Nat2Z.id, E by lia. Qed.
Lemma set_at buf i c : (i < length buf)%nat → init.set buf (Z.of_nat i) c = mret (<[i := c]> buf).
Proof. intros Hi. unfold init.set. by rewrite (proj2 (andb_true_iff _ _)), Nat2Z.id by (split; bsimp; lia). Qed.

(** The tail of the branch: the call, and the report. *)
Definition create_report (n t : list Z) : prog unit :=
  r ← __syscall2 SYS_create (Str n) (Str t);
  if r =? 0 then mret tt else say_line "write: failed (exists? full?)".

Lemma create_tail n t x y l : nonzero n → nonzero t → length l = 128%nat →
  eutt keeps_size (c ← sys_create (n ++ 0 :: x) (t ++ 0 :: y);
    (if negb (c =? 0) then puts (line_of "write: failed (exists? full?)") else mret tt);; mret l) (create_report n t).
Proof.
  intros Hn Ht Hlen. rewrite (bind_head _ _ _ (create_at _ _ _ _ Hn Ht)). apply bind_congr. intros r.
  destruct (r =? 0); cbn [negb]; [by apply then_line|]. rewrite puts_line by (cbn; repeat constructor; lia). by apply then_line.
Qed.

Section command.
Context (w pad : list Z) (Hw : nonzero w) (Hl : length (w ++ 0 :: pad) = 128%nat).
Notation line := (w ++ 0 :: pad).

(** The rest of the line behind a prefix. *)
Lemma drop_line p k : after p w = Some k → drop (length p) line = k ++ 0 :: pad ∧ nonzero k.
Proof.
  intros E. split; [by apply drop_after|]. unfold after in E. destruct (decide _); [|done]. injection E as <-. by apply Forall_drop.
Qed.

Lemma call_str p k (f : list Z → prog Z) num :
  after p w = Some k → (∀ q, f q = (a ← c_arg q; __syscall num a)) → f (drop (length p) line) ≈ __syscall num (Str k).
Proof.
  intros E Hf. destruct (drop_line _ _ E) as [-> Hk]. rewrite Hf. unfold mbind, itree_bind. rewrite c_arg_at by done.
  apply bind_ret.
Qed.

Lemma write_act rest : after (of_string "write ") w = Some rest →
  eutt keeps_size (init.write_cmd line) (create_report (at_space rest).1 (at_space rest).2).
Proof.
  intros E. destruct (drop_line _ _ E) as [Hd Hk]. change (length (of_string "write ")) with 6%nat in Hd.
  destruct (skip_space rest pad 6 Hk) as (Hs & Hn & Ht & Hcase). set (n := (at_space rest).1) in *. set (t := (at_space rest).2) in *.
  assert (∀ i, line !! (6 + i)%nat = (rest ++ 0 :: pad) !! i) as Hlook by (intros i; by rewrite <- lookup_drop, Hd).
  assert (length line = 6 + length (rest ++ 0%Z :: pad))%nat as Hsize by (rewrite <- Hd, length_drop; lia).
  unfold init.write_cmd. rewrite Hd, Hs, from_some. replace (6 + Z.of_nat (length n)) with (Z.of_nat (6 + length n)) by lia.
  clearbody n t. destruct Hcase as [[-> ->]|Er].
  - rewrite (get_at _ _ 0) by (rewrite Hlook, lookup_app_r, Nat.sub_diag; done). rewrite from_some. cbn [Z.eqb].
    rewrite bind_assoc, skip_end, from_some, bind_ret by done. cbn [fst snd].
    replace (Z.to_nat (6 + Z.of_nat (length n))) with (6 + length n)%nat by lia.
    rewrite <- drop_drop, Hd, drop_app_length. change (Z.to_nat 6) with 6%nat. rewrite Hd. by apply (create_tail n [] pad pad).
  - rewrite (get_at _ _ 32) by (rewrite Hlook, Er, <- app_assoc, lookup_app_r, Nat.sub_diag; done). rewrite from_some. cbn [Z.eqb Pos.eqb].
    assert (length n < length (rest ++ 0%Z :: pad))%nat as Hlt by (rewrite Er, !length_app; cbn; lia).
    rewrite bind_assoc, set_at, bind_ret, bind_ret by lia. cbn [fst snd].
    replace (Z.to_nat (Z.of_nat (6 + length n) + 1)) with (6 + S (length n))%nat by lia. change (Z.to_nat 6) with 6%nat.
    assert (drop 6 (<[(6 + length n)%nat := 0]> line) = n ++ 0 :: t ++ 0 :: pad) as Ed.
    { rewrite drop_insert_ge by lia. replace (6 + length n - 6)%nat with (length n) by lia. rewrite Hd, Er, <- app_assoc. cbn.
      by rewrite insert_app_r_alt, Nat.sub_diag by lia. }
    rewrite <- drop_drop, Ed. replace (drop (S (length n)) (n ++ 0 :: t ++ 0 :: pad)) with (t ++ 0 :: pad).
    + apply create_tail; [done..|by rewrite length_insert].
    + change (0 :: t ++ 0 :: pad) with ([0] ++ t ++ 0 :: pad). rewrite app_assoc. symmetry. apply drop_app_length'. rewrite length_app. cbn. lia.
Qed.

Lemma command_act : w ≠ [] → eutt keeps_size (init.command line) (act (uparse w)).
Proof.
  intros Hne.
  assert (∀ m, nonzero (of_string m) → str_eq line (str m) = Some (bool_decide (w = of_string m))) as Heq by (intros; by apply str_eq_lit).
  assert (∀ m, nonzero (of_string m) → starts_with line (str m) = Some (bool_decide (is_Some (after (of_string m) w)))) as Hst
    by (intros; by apply starts_with_lit).
  unfold init.command. change init.streq with str_eq. change init.startswith with starts_with.
  rewrite !Heq, !Hst by (cbn; repeat constructor; lia). unfold uparse, uwords.
  rewrite find_word, (bool_decide_eq_false_2 (w = [])) by done.
  rewrite from_some, find_word. case_bool_decide as E1.
  { cbn [fmap option_fmap option_map prod_map fst snd act]. rewrite puts_line by (cbn; repeat constructor; lia). by apply then_line. }
  rewrite from_some. destruct (after (of_string "rm ") w) as [name|] eqn:Erm.
  { rewrite bool_decide_eq_true_2 by done. do 3 (rewrite find_word; case_bool_decide as E; [by rewrite E in Erm|clear E]). cbn [list_find fmap option_fmap option_map act].
    rewrite (bind_head _ _ _ (call_str (of_string "rm ") name sys_rm SYS_rm Erm (λ q, eq_refl))). apply bind_congr. intros r.
    destruct (r =? 0); cbn [negb]; [by apply then_line|]. rewrite puts_line by (cbn; repeat constructor; lia). by apply then_line. }
  rewrite bool_decide_eq_false_2 by (by intros []).
  do 3 (rewrite from_some, find_word; case_bool_decide as E; [by apply then_line|clear E]). cbn [list_find fmap option_fmap option_map].
  rewrite from_some. destruct (after (of_string "cat ") w) as [name|] eqn:Ecat.
  { rewrite bool_decide_eq_true_2 by done. cbn [act]. destruct (drop_line _ _ Ecat) as [Ed Hk].
    rewrite (bind_head (sys_cat (drop 4 line)) (__syscall SYS_cat (Str name);; mret tt)); [by apply then_line|].
    unfold sys_cat. change 4%nat with (length (of_string "cat ")). rewrite Ed, (bind_head _ _ _ (c_arg_at _ _ Hk)).
    apply (bind_ret (Str name) (λ a, __syscall SYS_cat a;; mret tt)). }
  rewrite bool_decide_eq_false_2 by (by intros []). rewrite from_some.
  destruct (after (of_string "write ") w) as [rest|] eqn:Ewr.
  { rewrite bool_decide_eq_true_2 by done. by apply write_act. }
  rewrite bool_decide_eq_false_2 by (by intros []). cbn [act]. apply bind_congr. intros pid.
  eapply eutt_clo_bind with (UU := eq); [|intros _ _ _; apply bind_congr; intros _; by apply eqit_Ret].
  destruct (pid =? 0); [|reflexivity]. rewrite (bind_head (sys_exec line) (__syscall SYS_exec (Str w))).
  - rewrite puts_say, puts_line by (done || (cbn; repeat constructor; lia)). reflexivity.
  - unfold sys_exec. rewrite (bind_head _ _ _ (c_arg_at _ _ Hw)). apply (bind_ret (Str w) (λ a, __syscall SYS_exec a)).
Qed.
End command.

(** ** A round *)

Lemma cut_first w0 pad0 : length (w0 ++ 0 :: pad0) = 128%nat →
  eutt keeps_size (c ← init.get (w0 ++ 0 :: pad0) 0; if c =? 0 then mret (w0 ++ 0 :: pad0) else init.command (w0 ++ 0 :: pad0)) (act (uparse (cut w0))).
Proof.
  intros Hl. destruct (cut_spec w0 pad0) as (pad & E & Hn). rewrite E in *. set (w := cut w0) in *. clearbody w. clear E.
  destruct Hn as [|c w Hc Hw].
  - rewrite (get_at _ 0 0) by done. rewrite from_some. cbn [Z.eqb]. by apply eqit_Ret.
  - rewrite (get_at _ 0 c) by done. rewrite from_some, (proj2 (Z.eqb_neq c 0)) by done.
    apply (command_act (c :: w) pad); [by constructor|done|done].
Qed.

Lemma round_act line0 : length line0 = 128%nat → eutt keeps_size (init.round line0) read_and_act.
Proof.
  intros Hl0. unfold init.round, read_and_act. unfold str. rewrite (puts_say (of_string "$ ") []) by (cbn; repeat constructor; lia).
  apply bind_congr. intros _. unfold sys_read. rewrite bind_assoc. apply bind_congr. intros [l Hl]. cbn [proj1_sig].
  rewrite decide_True by lia. rewrite bind_ret.
  assert (length (l ++ drop (length l) line0) = 128%nat) as Hsize by (rewrite length_app, length_drop; lia).
  destruct l as [|c l _] using rev_ind.
  { cbn [length Z.of_nat Z.leb Z.compare]. by apply eqit_Ret. }
  rewrite length_app in *. cbn [length] in *. rewrite (proj2 (Z.leb_gt _ _)) by lia.
  replace (Z.of_nat (length l + 1) - 1) with (Z.of_nat (length l)) by lia.
  assert (length (drop (length l + 1) line0) = 127 - length l)%nat as Hrest by (rewrite length_drop; lia).
  clear Hsize. set (rest := drop (length l + 1) line0) in *. clearbody rest.
  rewrite (get_at _ _ c) by (rewrite <- app_assoc, lookup_app_r, Nat.sub_diag; done). rewrite from_some.
  unfold trim. rewrite last_snoc. destruct (Z.eqb_spec c 10) as [->|Hc].
  - rewrite decide_True, removelast_last by done. rewrite set_at, bind_ret by (rewrite !length_app; cbn; lia).
    assert (<[length l := 0]> ((l ++ [10]) ++ rest) = l ++ 0 :: rest) as E by (by rewrite <- app_assoc, insert_app_r_alt, Nat.sub_diag by lia).
    assert (length (l ++ 0 :: rest) = 128%nat) as Hl2 by (rewrite <- E, length_insert, !length_app; cbn in *; lia). rewrite E. by apply cut_first.
  - rewrite decide_False by congruence. destruct rest as [|x rest']; [cbn in Hrest; lia|].
    replace (Z.of_nat (length l + 1)) with (Z.of_nat (length (l ++ [c]))) by (rewrite length_app; cbn; lia).
    rewrite set_at, bind_ret by (rewrite (length_app (l ++ [c])); cbn; lia).
    assert (<[length (l ++ [c]) := 0]> ((l ++ [c]) ++ x :: rest') = (l ++ [c]) ++ 0 :: rest') as E by (by rewrite insert_app_r_alt, Nat.sub_diag by lia).
    assert (length ((l ++ [c]) ++ 0 :: rest') = 128%nat) as Hl2 by (rewrite <- E, length_insert, !length_app; cbn in *; lia). rewrite E. by apply cut_first.
Qed.

(** C6: the user-space shell. Whatever the kernel answers, the program of init.c
    behaves for ever like a loop that prompts, reads a line of at most 127
    characters, drops its newline, cuts it at the first NUL, parses it by the
    grammar [uparse] and acts on it: built-in commands become their system
    calls with exactly the words of the line, [write] splits name and text at
    the first space, and any other line is forked, executed and waited for. It
    never leaves the line buffer. *)
Theorem user_shell_refines line :
  length line = 128%nat → eutt eq (init._start line) user_shell.
Proof.
  intros Hl. unfold init._start, user_shell.
  change (10 :: line_of "kernel-hobby userspace shell. try: ls, cat motd.txt, hello")
    with ((10 :: of_string "kernel-hobby userspace shell. try: ls, cat motd.txt, hello" ++ [10]) ++ 0 :: []).
  rewrite puts_say by (cbn; repeat constructor; lia). apply bind_congr. intros _.
  apply (eutt_iter' (λ l _, length l = 128%nat)); [|done]. intros l [] Hlen.
  eapply eutt_clo_bind; [by apply round_act|]. intros l' [] Hl'. apply eqit_Ret. by constructor.
Qed.
Lemma user_shell_refines_witness :
  length (replicate 128 7) = 128%nat ∧ eutt eq (init._start (replicate 128 7)) user_shell.
Proof. split; [reflexivity|]. apply user_shell_refines. reflexivity. Defined.
