(* ===== verification/UserTests.v ===== *)
(** * The cooperative user threads (src/user/uthread.c)

    The threads take turns, whatever the kernel answers. *)
From S2P Require Import Prelude Shell ShellSpec User UserSpec.
From ITree Require Import ITree ITreeFacts.

Module turns.
Import uthread.

Definition step_line (id i : Z) : list Z := of_string "  [thread " ++ [65 + id] ++ of_string "] step " ++ [49 + i; 10].
Definition done_line (id : Z) : list Z := of_string "  [thread " ++ [65 + id] ++ of_string "] done" ++ [10].
Definition all_threads (f : Z → list Z) : list Z := f 0 ++ f 1 ++ f 2.

(** What the program prints: three rounds of all threads, then the farewells. *)
Definition greeting : list Z := of_string "uthread: cooperative user threads (state on heap, no kernel changes)" ++ [10].
Definition farewell : list Z := of_string "uthread: all threads finished" ++ [10].
Definition text : list Z :=
  greeting ++ all_threads (λ id, step_line id 0) ++ all_threads (λ id, step_line id 1) ++
  all_threads (λ id, step_line id 2) ++ all_threads done_line ++ farewell.

Lemma say_app a b : say (a ++ b) ≈ (say a;; say b).
Proof.
  induction a as [|c a IH]; [symmetry; apply (bind_ret tt (λ _, say b))|].
  change (say ((c :: a) ++ b)) with (sys_putchar c;; say (a ++ b)). change (say (c :: a)) with (sys_putchar c;; say a).
  rewrite bind_assoc. apply bind_congr. intros []. exact IH.
Qed.
Lemma say_then {B} a b (k : prog B) : (say (a ++ b);; k) ≈ (say a;; say b;; k).
Proof. rewrite (bind_head _ _ _ (say_app a b)). apply bind_assoc. Qed.
Lemma say_one {B} c (k : prog B) : (say [c];; k) ≈ (sys_putchar c;; k).
Proof.
  change (say [c]) with (sys_putchar c;; mret tt). rewrite bind_assoc. apply bind_congr. intros [].
  apply (bind_ret tt (λ _, k)).
Qed.

Lemma thread_at_some i s x : t s !! i = Some x → thread_at (Z.of_nat i) s = from_array (Some x).
Proof. intros E. unfold thread_at. by rewrite (proj2 (Z.leb_le _ _)), Nat2Z.id, E by lia. Qed.

Lemma put_thread_some i y s x : t s !! i = Some x → put_thread (Z.of_nat i) y s ≈ mret (Sys (<[i := y]> (t s)) (current s)).
Proof.
  intros E. unfold put_thread. rewrite (thread_at_some i s x), from_some, Nat2Z.id by done. reflexivity.
Qed.

(** A thread that goes round once more. *)
Lemma worker_yields i (k : Z) l x : l !! i = Some x → (i < 3)%nat → 0 ≤ k < 3 →
  worker_from (Z.of_nat i) k (Sys l (Z.of_nat i)) ≈
  (say (step_line (Z.of_nat i) k);; mret (Sys (<[i := Thread (InYield (Z.of_nat i) k) (t_state x)]> l) (Z.of_nat i))).
Proof.
  intros E Hi Hk. unfold worker_from. rewrite (proj2 (Z.ltb_lt k 3)) by lia. unfold worker_round, step_line, str.
  rewrite !puts_say by (cbn; repeat constructor; lia). rewrite !u8_small by lia.
  change (?a ++ [?b] ++ ?c ++ [?d; ?e]) with (a ++ [b] ++ c ++ [d] ++ [e]).
  rewrite say_then. apply bind_congr. intros []. rewrite say_then, say_one. apply bind_congr. intros [].
  rewrite say_then. apply bind_congr. intros []. rewrite say_then, say_one. apply bind_congr. intros [].
  rewrite say_one. apply bind_congr. intros []. unfold uyield. cbn [current].
  rewrite (thread_at_some i _ x), from_some by done.
  exact (put_thread_some i (Thread (InYield (Z.of_nat i) k) (t_state x)) (Sys l (Z.of_nat i)) x E).
Qed.

(** A thread that is through. *)
Lemma worker_exits i (k : Z) l x : l !! i = Some x → (i < 3)%nat → 3 ≤ k →
  worker_from (Z.of_nat i) k (Sys l (Z.of_nat i)) ≈
  (say (done_line (Z.of_nat i));; mret (Sys (<[i := Thread InExit 0]> l) (Z.of_nat i))).
Proof.
  intros E Hi Hk. unfold worker_from. rewrite (proj2 (Z.ltb_ge k 3)) by lia. unfold done_line, str, line_of.
  change (of_string "] done" ++ [10; 0]) with ((of_string "] done" ++ [10]) ++ [0]).
  rewrite !puts_say by (cbn; repeat constructor; lia). rewrite !u8_small by lia.
  rewrite (say_then (of_string "  [thread ") ([65 + Z.of_nat i] ++ of_string "] done" ++ [10])). apply bind_congr. intros [].
  rewrite (say_then [65 + Z.of_nat i] (of_string "] done" ++ [10])), say_one. apply bind_congr. intros [].
  apply bind_congr. intros []. unfold texit. cbn [current].
  rewrite (thread_at_some i _ x), from_some by done.
  rewrite (bind_head _ _ _ (put_thread_some i (Thread (t_ctx x) 0) (Sys l (Z.of_nat i)) x E)), bind_ret. cbn [t current].
  assert (<[i := Thread (t_ctx x) 0]> l !! i = Some (Thread (t_ctx x) 0)) as E'.
  { apply list_lookup_insert_eq. by apply lookup_lt_is_Some_1. }
  rewrite (put_thread_some i (Thread InExit 0) (Sys (<[i := Thread (t_ctx x) 0]> l) (Z.of_nat i)) _ E'). cbn [t current].
  by rewrite list_insert_insert_eq.
Qed.

(** A runnable thread that resumes in its round [k] leaves itself like this. *)
Definition resumes (c : ctx) (i k : Z) : Prop := (∃ sp, c = Entry sp ∧ k = 0) ∨ (c = InYield i (k - 1) ∧ 0 < k).
Definition after_turn (i k : Z) (x : thread) : thread := if k <? 3 then Thread (InYield i k) (t_state x) else Thread InExit 0.
Definition turn_text (i k : Z) : list Z := if k <? 3 then step_line i k else done_line i.

Lemma uswitch_turn i k l x : l !! i = Some x → (i < 3)%nat → 0 ≤ k → resumes (t_ctx x) (Z.of_nat i) k →
  uswitch (Z.of_nat i) (Sys l (Z.of_nat i)) ≈
  (say (turn_text (Z.of_nat i) k);; mret (Sys (<[i := after_turn (Z.of_nat i) k x]> l) (Z.of_nat i))).
Proof.
  intros E Hi Hk Hc. unfold uswitch, turn_text, after_turn. rewrite (thread_at_some i _ x), from_some by done.
  assert (worker_from (Z.of_nat i) k (Sys l (Z.of_nat i)) ≈
          (match t_ctx x with Entry _ => worker_from (current (Sys l (Z.of_nat i))) 0 (Sys l (Z.of_nat i))
           | InYield id i0 => worker_from id (i0 + 1) (Sys l (Z.of_nat i)) | InExit => wild end)) as <-.
  { destruct Hc as [(sp & -> & ->)|[-> _]]; [reflexivity|]. by replace (k - 1 + 1) with k by lia. }
  destruct (Z.ltb_spec k 3); [by apply worker_yields|by apply (worker_exits i k l x)].
Qed.

(** The scheduler at a runnable thread, and at one that is not. *)
Lemma sweep_turn n i k ran l c x :
  l !! i = Some x → (i < 3)%nat → 0 ≤ k → t_state x = 1 → resumes (t_ctx x) (Z.of_nat i) k →
  sweep (S n) (Z.of_nat i) ran (Sys l c) ≈
  (say (turn_text (Z.of_nat i) k);; sweep n (Z.of_nat i + 1) true (Sys (<[i := after_turn (Z.of_nat i) k x]> l) (Z.of_nat i))).
Proof.
  intros E Hi Hk H1 Hc. cbn [sweep]. rewrite (thread_at_some i _ x), from_some, H1 by done. cbn [t].
  change (1 =? 1) with true. cbv iota. rewrite (bind_head _ _ _ (uswitch_turn i k l x E Hi Hk Hc)), bind_assoc.
  apply bind_congr. intros []. apply bind_ret.
Qed.
Lemma sweep_skip n i ran l c x :
  l !! i = Some x → t_state x = 0 → sweep (S n) (Z.of_nat i) ran (Sys l c) ≈ sweep n (Z.of_nat i + 1) ran (Sys l c).
Proof. intros E H0. cbn [sweep]. by rewrite (thread_at_some i _ x), from_some, H0. Qed.

Lemma say_text {B} a b c (k : prog B) : (say (a ++ b ++ c);; k) ≈ (say a;; say b;; say c;; k).
Proof. rewrite say_then. apply bind_congr. intros []. apply say_then. Qed.

(** All threads are runnable and resume in round [k]. *)
Definition all_resume (k : Z) (l : list thread) : Prop :=
  ∃ x0 x1 x2, l = [x0; x1; x2] ∧ (t_state x0 = 1 ∧ t_state x1 = 1 ∧ t_state x2 = 1) ∧
    resumes (t_ctx x0) 0 k ∧ resumes (t_ctx x1) 1 k ∧ resumes (t_ctx x2) 2 k.
Definition all_idle (l : list thread) : Prop := length l = 3%nat ∧ Forall (λ x, t_state x = 0) l.

Lemma sweep_round k l c : 0 ≤ k → all_resume k l →
  ∃ l', sweep NTHREAD 0 false (Sys l c) ≈ (say (all_threads (λ i, turn_text i k));; mret (true, Sys l' 2)) ∧
        if k <? 3 then all_resume (k + 1) l' else all_idle l'.
Proof.
  intros Hk (x0 & x1 & x2 & -> & (H0 & H1 & H2) & R0 & R1 & R2).
  exists [after_turn 0 k x0; after_turn 1 k x1; after_turn 2 k x2]. split.
  - unfold all_threads, NTHREAD. rewrite say_text, (sweep_turn 2 0 k _ _ _ x0) by (done || lia). apply bind_congr. intros [].
    change (Z.of_nat 0 + 1) with (Z.of_nat 1). rewrite (sweep_turn 1 1 k _ _ _ x1) by (done || lia). apply bind_congr. intros [].
    change (Z.of_nat 1 + 1) with (Z.of_nat 2). rewrite (sweep_turn 0 2 k _ _ _ x2) by (done || lia). reflexivity.
  - unfold after_turn. destruct (Z.ltb_spec k 3).
    + eexists _, _, _. split; [reflexivity|]. split; [done|]. unfold resumes. split_and!; right; cbn; (split; [f_equal; lia|lia]).
    + split; [done|]. by repeat constructor.
Qed.

Lemma sweep_idle l c : all_idle l → sweep NTHREAD 0 false (Sys l c) ≈ mret (false, Sys l c).
Proof.
  intros [Hl Hf]. destruct l as [|x0 [|x1 [|x2 [|]]]]; try done. decompose_Forall. unfold NTHREAD.
  rewrite (sweep_skip 2 0 false [x0; x1; x2] c x0 eq_refl) by done.
  rewrite (sweep_skip 1 1 false [x0; x1; x2] c x1 eq_refl) by done.
  by rewrite (sweep_skip 0 2 false [x0; x1; x2] c x2 eq_refl) by done.
Qed.

Lemma schedule_turn (m : prog unit) s s' : sweep NTHREAD 0 false s ≈ (m;; mret (true, s')) → schedule s ≈ (m;; schedule s').
Proof.
  intros E. unfold schedule at 1. rewrite unfold_iter. change (ITree.bind ?a ?f) with (a ≫= f).
  rewrite bind_assoc, (bind_head _ _ _ E), bind_assoc. apply bind_congr. intros []. rewrite !bind_ret. cbn. rewrite tau_eutt. reflexivity.
Qed.
Lemma schedule_stop s s' : sweep NTHREAD 0 false s ≈ mret (false, s') → schedule s ≈ mret s'.
Proof.
  intros E. unfold schedule at 1. rewrite unfold_iter. change (ITree.bind ?a ?f) with (a ≫= f).
  by rewrite bind_assoc, (bind_head _ _ _ E), !bind_ret.
Qed.

Lemma say_text6 {B} (k : prog B) :
  (say text;; k) ≈ (say greeting;; say (all_threads (λ id, step_line id 0));; say (all_threads (λ id, step_line id 1));;
    say (all_threads (λ id, step_line id 2));; say (all_threads done_line);; say farewell;; k).
Proof.
  unfold text. generalize greeting, farewell, (all_threads (λ id, step_line id 0)), (all_threads (λ id, step_line id 1)),
    (all_threads (λ id, step_line id 2)), (all_threads done_line). intros.
  do 5 (rewrite say_then; apply bind_congr; intros []). reflexivity.
Qed.

Lemma created junk : length junk = 3%nat →
  ∃ l, tcreate_all NTHREAD 0 (Sys ((λ c, Thread c 0) <$> junk) (-1)) ≈ mret (Sys l (-1)) ∧ all_resume 0 l.
Proof.
  intros Hl. destruct junk as [|c0 [|c1 [|c2 [|]]]]; try done.
  exists [Thread (Entry (stack_top 0)) 1; Thread (Entry (stack_top 1)) 1; Thread (Entry (stack_top 2)) 1]. split.
  - unfold NTHREAD. cbn [tcreate_all fmap list_fmap]. unfold tcreate, put_thread.
    change (0 + 1 + 1) with (Z.of_nat 2). change (0 + 1) with (Z.of_nat 1). change (thread_at 0) with (thread_at (Z.of_nat 0)).
    do 3 (erewrite thread_at_some by reflexivity; rewrite from_some, bind_ret). reflexivity.
  - eexists _, _, _. split; [reflexivity|]. split; [done|]. unfold resumes. split_and!; left; eauto.
Qed.

Lemma schedule_prints l c : all_resume 0 l →
  ∃ s', schedule (Sys l c) ≈
    (say (all_threads (λ id, step_line id 0));; say (all_threads (λ id, step_line id 1));;
     say (all_threads (λ id, step_line id 2));; say (all_threads done_line);; mret s').
Proof.
  intros H0. destruct (sweep_round 0 l c) as (l1 & E0 & H1); [lia|done|]. cbn in H1.
  destruct (sweep_round 1 l1 2) as (l2 & E1 & H2); [lia|done|]. cbn in H2.
  destruct (sweep_round 2 l2 2) as (l3 & E2 & H3); [lia|done|]. cbn in H3.
  destruct (sweep_round 3 l3 2) as (l4 & E3 & H4); [lia|done|]. cbn in H4.
  exists (Sys l4 2). rewrite (schedule_turn _ _ _ E0). apply bind_congr. intros [].
  rewrite (schedule_turn _ _ _ E1). apply bind_congr. intros []. rewrite (schedule_turn _ _ _ E2). apply bind_congr. intros [].
  rewrite (schedule_turn _ _ _ E3). apply bind_congr. intros []. apply (schedule_stop _ (Sys l4 2)). by apply sweep_idle.
Qed.

(** The stack of a thread: aligned, inside [struct sys] and behind that of the
    thread before. *)
Definition stack_fits (i : Z) : Prop :=
  stack_top i mod 16 = 0 ∧ HEAPBASE + off_stacks + i * STACKSZ + 1024 ≤ stack_top i ≤ HEAPBASE + off_stacks + (i + 1) * STACKSZ ∧
  HEAPBASE + off_stacks + (i + 1) * STACKSZ ≤ HEAPBASE + sizeof_sys.

Lemma stacks_fit i : 0 ≤ i < 3 → stack_fits i.
Proof.
  intros Hi. assert (i = 0 ∨ i = 1 ∨ i = 2) as [->| [->| ->]] by lia; unfold stack_fits; (split; [reflexivity|]); vm_compute; split_and!; discriminate.
Qed.

(** C27: the threads of uthread.c take turns. Whatever the kernel answers, and
    whatever the heap held before, the program asks for its heap, touches the
    four pages, and writes: the first steps of the threads A, B and C in this
    order, then their second steps, then their third, then that each is done;
    then it ends by [sys_exit], with no access outside its thread table. Its
    data and the three stacks fit the heap it asked for, and the stacks are
    aligned and disjoint. *)
Theorem uthread_takes_turns junk :
  length junk = NTHREAD →
  _start junk ≈ (sys_sbrk 16384;; touch_pages;; say text;; sys_exit) ∧
  (∀ i, 0 ≤ i < Z.of_nat NTHREAD → stack_fits i) ∧ HEAPBASE + sizeof_sys ≤ HEAPBASE + 4 * 4096.
Proof.
  intros Hl. split; [|split; [exact stacks_fit|vm_compute; discriminate]].
  unfold _start. apply bind_congr. intros _. apply bind_congr. intros [].
  destruct (created junk Hl) as (l & E & H0). destruct (schedule_prints l (-1) H0) as (s' & Es).
  rewrite !puts_line by (cbn; repeat constructor; lia).
  change (say_line "uthread: cooperative user threads (state on heap, no kernel changes)") with (say greeting).
  change (say_line "uthread: all threads finished") with (say farewell).
  rewrite say_text6. apply bind_congr. intros []. rewrite (bind_head _ _ _ E), bind_ret, (bind_head _ _ _ Es).
  do 4 (rewrite bind_assoc; apply bind_congr; intros []). apply (bind_ret s' (λ _, say farewell;; sys_exit)).
Qed.
Lemma uthread_takes_turns_witness :
  let junk := [InExit; Entry 7; InYield 9 9] in
  length junk = NTHREAD ∧ _start junk ≈ (sys_sbrk 16384;; touch_pages;; say text;; sys_exit).
Proof. split; [reflexivity|]. apply (uthread_takes_turns [InExit; Entry 7; InYield 9 9]). reflexivity. Defined.
End turns.
